(* ===== verification/_CoqProject ===== *)
-Q . S2P
Prelude.v
Base64.v
Md5.v
Sha256.v
Des.v
AesTables.v
Aes.v
AesFips.v
AesBuffers.v
Sqlite.v
MemDb.v
Records.v
RecordsProofs.v
RecordsLife.v
Ctos.v
CtosProofs.v
CtosThreads.v
Escape.v
NodeServer.v
Rent.v
Ping.v
Sha204.v
CStr.v
CFloat.v
Gps.v
Serial.v
Modem.v
ModemSession.v
ModemGps.v
Wifi.v
Board.v
Sim900.v
YctCard.v
FnHash.v
Blacklist.v
CtosLink.v
Ftp.v
FtpServer.v
FtpClient.v
FtpTransfer.v
FtpUpload.v
Memleak.v
MemleakProofs.v
Talk.v
