(* ===== verification/Prelude.v ===== *)
(** * Verification of the station software

    The repository is the software of a bicycle-rental station: a node
    controller that talks to its stakes over CAN, to a server over TCP/UDP,
    keeps its records in SQLite and protects its data with the ciphers of its
    own library.  It checks its network link and an authentication chip, shows
    the rental history the centre sends, reads a GPS receiver, sets up a WiFi
    module and dials with a 4G modem; a board test tries the devices one by one
    for a test bench.  Around that code the repository holds small programs, of
    which a file server, an FTP upload, a talk server and a memory debugger are
    modelled, and several vendored projects (pppd, memcached, mini_httpd,
    i2c-tools and others), which are not.

    ** Parts and files

    - [Prelude]: C integers at their width ([u8], [u32], [ul] for
      [unsigned long] under the class [Arch] of the two targets), arrays with
      and without bounds checks, byte order macros, bit-level lemmas and
      tactics, shared list lemmas.
    - [Base64] (src/encryption/lib_base64.c): [lib_base64_encode],
      [lib_base64_decode].
    - [Md5] (src/encryption/md5.c): [md5_starts], [md5_process], [md5_update],
      [md5_finish], [lib_md5_checksum], and RFC 1321 as specification.
    - [Sha256] (src/sha204_test/sha256/newsha256.c): [SHA256Init],
      [SHA256Update], [SHA256Final], and FIPS 180-4 as specification.
    - [Des] (src/encryption/des.c): key schedules, [des_crypt], [des3_crypt]
      and the buffer routines [lib_des_encrypt], [lib_des3_encrypt], ...
    - [AesTables], [Aes], [AesFips], [AesBuffers] (src/encryption/aes.c): the
      generated and the fixed tables; the key schedule and the block functions
      with the file's globals as state; FIPS-197 byte by byte and the
      equivalence with it; the buffer routines in a flat memory.
    - [Sqlite], [MemDb], [Records], [RecordsProofs], [RecordsLife]
      (src/records/records.c): the SQLite interface as a class with laws, a
      small database that satisfies them, the records operations in a state
      monad (the caller's handle, the kernel's semaphores, open statements and
      connections), the theorems on the queues and on creation and destruction.
    - [Ctos], [CtosProofs] (src/cantoserial/ctos.c): the CAN frame layout, the
      sender [lib_ctos_put_priority] and [lib_ctos_put], the receiver
      [stake_cmd_buf_put] and its loop, baud rates, [lib_ctos_get].
    - [CtosThreads] (the same file): the receiving and the explaining thread and
      a reader as small steps around the mutex, with any schedule; creation and
      destruction of an adapter as resources held and released.
    - [Escape] (src/node_server/escape.c, common.c): [__uplink_escape],
      [__downlink_escape], [package_make].
    - [NodeServer] (src/node_server/main.c, common.c): [main] with the sockets'
      answers as an argument, [make_package], [data_frame_init].
    - [Rent] (src/rent_record/rent_record.c, main.c): [str_to_hex],
      [ParseRentBikeRecord], and [main], which chains them with [Base64].
    - [Ping] (src/ping/ping.c): packets and checksum, the statistics in single
      precision, [sendIcmp] and [recvIcmp], [lib_get_network_status].
    - [Sha204] (src/sha204_test/sha204_command.c, i2c_common.c): the packet CRC,
      the commands over a device file, [LIB_Encry_Verify], [read_device_info].
    - [CStr], [CFloat]: what the programs use of the C library: strings,
      [strtok], [atoi], [sprintf] of a number; [strtod], [atof] and division on
      IEEE doubles, with the error of a rounded quotient.
    - [Gps] (src/board_test/gps.c): UBX messages, the NMEA check,
      [gps_split_info], [gps_get_zda], [gps_get_tm], [gps_get_gga], the calendar.
    - [Serial]: serial ports, shell and device libraries as class [Serial], a
      monad that keeps the events in order, and two logics: [emits] relates the
      result of a program to its events, [follows] runs them through an
      automaton.
    - [Modem], [ModemSession], [ModemGps] (src/4G/4g.c, main.c): the AT
      commands and [main]; the protocol of the session as an automaton; the
      position report [lib_4g_analytic_zgpsr].
    - [Wifi] (src/board_test/wifi.c): command mode, queries and settings.
    - [Board] (src/board_test/bicycle.c, bicycle_test.c): frames, the test of
      every device, with [Gps] and [Wifi], and the main loop; its protocol as
      inductive relations [tried], [session] and [crash].
    - [Sim900] (src/sim900_test/test.c): the dialogue with a GPRS modem.
    - [YctCard] (src/yct_card/yct_test.c): the commands of a card reader.
    - [FnHash] (src/others/test/hash_list/fn_hash.c): the table of command
      handlers, its nodes on a heap.
    - [Blacklist] (src/blacklist_test/main.c): the import of the black list, with
      the line buffer shared by all lines.
    - [CtosLink] (src/cantoserial/main.c, src/can_test/can_test.c): the programs
      that send and read packages over the adapter of [Ctos].
    - [Ftp], [FtpServer], [FtpClient], [FtpTransfer] (src/others/ftp/server.c,
      client.c): files and connections that deliver in pieces, with a state
      monad; the commands of both programs; the composition of the two.
    - [FtpUpload] (src/others/ftp/ftp_client): an upload to an FTP server, with
      its control and its data connection.
    - [Memleak], [MemleakProofs] (src/others/memleak/memleak.c): the allocation
      functions that keep a doubly linked list of headers on a heap and a
      circular history; the ledger they refine.
    - [Talk] (src/others/network/udp/homework): the two threads of a talk server
      around their mutex, with any schedule, and its client.

    Definitions carry the names of the C functions.  A function that can read
    or write outside an object returns an option, [None] being that access; a
    records operation returns, blocks on the semaphore or faults.

    ** What the theorems show

    - Ciphers and digests do what their standards say: AES is FIPS-197, MD5 is
      RFC 1321 and SHA-256 is FIPS 180-4 for messages given in any pieces,
      triple DES is encrypt-decrypt-encrypt, base64 is RFC 4648, the generated
      AES tables are the fixed ones, and the width of [unsigned long] makes no
      difference, except for the length field of SHA-256 from 512 MB on.
    - Checksums: the CRC of the chip packets is a polynomial remainder, the UBX
      messages carry their Fletcher checksum, and an echo request has a valid
      internet checksum exactly when the 16-bit sum does not overflow.
    - Round trips: AES and DES blocks, AES and triple DES buffers, base64, CAN
      messages of 9 to 248 bytes over any earlier state of the receiver, escaped
      frames and packed requests, time and position sentences, and the records
      of a rental message through hexadecimal text, base64 and the parser, which
      keeps their tabs.
    - Answers of devices: the members that the position report of the modem and
      the queries of the WiFi module set, and that a query without an answer
      leaves the structure alone.
    - Threads and protocols: every schedule of the adapter's threads has the
      effect of some order of whole calls; the chip verification accepts exactly
      the expected answer; the node client makes exactly the calls of its session
      whatever the network does; the network check returns if every request is
      accepted in the end; the dialling program sends the PIN only when asked,
      and once, and requests an address exactly when its call was not answered
      with one certain error report; every turn of the board test is a session of
      its protocol or one of the ways the program stops, and its check catches
      every single wrong byte; the card commands are frames.
    - The handler table gives a value to exactly the handlers of its key, and
      the import inserts exactly the cards of a regular file and ends on any.
    - Links: the reader on the CAN bus shows the stream of the packages sent; a
      file put by one client and got by another arrives if the first pieces hold
      the requests, behind the zeros of what the first pieces are short of; the
      upload sends its commands and data completely; every client of the talk
      server is sent what was said while it was there, under every schedule.
    - The memory debugger refines a ledger of live and freed blocks, whatever
      the program frees and whenever the system is out of memory.
    - The records store refines a set of packet queues under the SQLite laws,
      and whatever SQLite answers its writes and counts give back the lock and
      their statements; every outcome of creation and destruction is given.
    - Bounds: the DES buffer routines and the SQL texts stay in their arrays,
      escaped frames hold their delimiters only at the ends, and the line splitter
      ends on every text and stores its lines in order.
    - Where the code departs from what it means to do, that is a theorem too:
      the lock kept after an oversize packet, rows with negative numbers, the
      handle used and the semaphore removed after a failed open, the packets whose
      length exceeds their data, CAN messages of 8, 32 and fewer
      than 8 bytes, frames of different messages joined, the first AES block
      encrypted twice in place, the partial DES block that is lost, the stale
      byte after an unknown escape, the network check that never returns while
      sending fails, the threads that outlive their adapter, the weekday in
      January and February, the GSA message that switches off, the modem's
      answers that make the program dereference NULL, its weekday from a year
      without century, the positions that are not in the form their header
      promises, the descriptor of the chip that is never closed, the NULL of
      [calloc], [popen] and [lib_ctos_create] that is used, the WiFi settings that cannot be written without leaving
      their array and the client sockets that are refused, the answer of the
      CAN test that never passes the check, the ports that are never closed, the
      card commands that leave their arrays, the handler table that reads freed
      nodes, the rows of the black list that mix two cards, the zeros between
      packages for a reader that is late, the beginning of a file that is lost
      to a short piece, the port with a high byte of two digits, the size of
      [calloc] that wraps, the double [free] that is blamed on the wrong call,
      the client of the talk server that is listed twice.

    ** Parameters and their laws

    SQLite is class [Sqlite] with the laws [SqliteLaws], met by [MemDb].  The
    functions of lib_general, of which the sources have only the header, are
    class [LibGeneral] in [Ctos] and arguments of [package_make] in [Escape] and
    of [NodeServer]; no law is assumed of them but, in [NodeServer], that what
    is decoded fits the buffer.  The frame queue is class [RegularRb] in
    [CtosThreads], a first-in first-out queue by [RegularRbLaws], met by
    [ListRb], and the list insertion of lib_list is class [HList] in [FnHash],
    with [HListLaws], met by [StdHList]; the byte ring of the link is class
    [ByteRing] in [CtosLink], with [ByteRingLaws], met by [WireRing].  How a
    connection cuts what it delivers is an argument of the streams of [Ftp], the
    text of an address an argument of [Talk], and what [malloc] and [realloc] of the system return
    arguments of [Memleak], where they are new blocks.  Sockets, clock and device files are
    classes without laws ([Net] in [Ping], [I2c] in [Sha204], [Serial] for the
    programs that use serial ports).  Values that C leaves open are arguments:
    what a function without [return] gives, what lies behind an array, what the
    stack holds.  Results of [malloc], [semget] and of the set-up calls are
    arguments.

    ** Loops and fuel

    Loops that count are structural or folds.  The others take fuel that the
    callers fix from the data: the input length for base64, escapes and the
    DES buffers, SHA-256 and the line splitter, [ilen / 64] for MD5, the number
    itself for its decimal digits, the nodes of the heap for a list, the file
    for the import, what is left of a stream for the file server.  The endless loop of the board test runs for any number of
    turns.  The theorems are about the fixed callers, so running out of fuel is
    excluded and not assumed away.  Only [sendIcmp] need not end; its fuel is an argument,
    one theorem gives a bound that is enough and another shows that none is.

    ** Not modelled

    Code under [#if 0] (CBC modes, HMAC, self tests), printing and sleeping, the
    SQLite busy handler, the clearing of dead stack, the signal set-up of
    bicycle.c, which is not called, and the programs named at the top: the
    device tests of src/uart_test, src/stm32_test, src/wifi_test, src/i2c_test and
    others, the examples under src/others and the drivers are system calls around
    prebuilt libraries. *)

From stdpp Require Export base numbers list list_numbers option strings.
From Stdlib Require Export ZArith Lia Btauto.

#[export] Set Default Proof Using "Type".
Open Scope Z_scope.

(** ** Notation: C operators on integers *)

Declare Scope c_scope.
Delimit Scope c_scope with c.

Notation "x .& y" := (Z.land x y) (at level 51, left associativity) : c_scope.
Notation "x .^ y" := (Z.lxor x y) (at level 52, left associativity) : c_scope.
Notation "x .| y" := (Z.lor x y) (at level 53, left associativity) : c_scope.
Open Scope c_scope.

(** ** Fixed-width unsigned integers

    A [w]-bit unsigned value is a [Z] in [0 .. 2^w - 1]; [uwrap w] is the
    conversion C performs when a wider value is stored into it. *)

Definition uwrap (w x : Z) : Z := x mod 2 ^ w.
Definition u8 (x : Z) : Z := uwrap 8 x.
Definition u16 (x : Z) : Z := uwrap 16 x.
Definition u32 (x : Z) : Z := uwrap 32 x.

Definition is_u (w x : Z) : Prop := 0 <= x < 2 ^ w.
Abbreviation is_byte := (is_u 8).
Abbreviation is_u32 := (is_u 32).
Abbreviation bytes := (Forall (is_u 8)).

#[export] Instance is_u_dec w x : Decision (is_u w x).
Proof. unfold is_u. apply _. Defined.

(** [int] is 32 bits and two's complement on every target of the code. *)
Definition int_min : Z := - 2 ^ 31.
Definition int_max : Z := 2 ^ 31 - 1.
Definition is_int (x : Z) : Prop := int_min <= x <= int_max.

#[export] Instance is_int_dec x : Decision (is_int x).
Proof. unfold is_int. apply _. Defined.

(** ** Arrays

    [aget t i] and [aset t i v] read and write a C array whose index is known
    to be in range; [bget] and [bput] are the partial versions, [None] being an access outside the
    object. *)

Definition aget (t : list Z) (i : Z) : Z := t !!! Z.to_nat i.

Definition aset (t : list Z) (i v : Z) : list Z := <[Z.to_nat i := v]> t.

Definition bget (t : list Z) (i : Z) : option Z :=
  if bool_decide (0 <= i) then t !! Z.to_nat i else None.

Definition bput (t : list Z) (i v : Z) : option (list Z) :=
  if bool_decide (0 <= i < Z.of_nat (length t)) then Some (<[Z.to_nat i := v]> t) else None.

(** [memcpy (dst + off, src, length src)] *)
Definition bcopy (t : list Z) (off : Z) (src : list Z) : option (list Z) :=
  if bool_decide (0 <= off /\ off + Z.of_nat (length src) <= Z.of_nat (length t))
  then Some (take (Z.to_nat off) t ++ src ++ drop (Z.to_nat off + length src) t)
  else None.

(** ** Byte order: the GET_UINT32_xx and PUT_UINT32_xx macros *)

Definition GET_UINT32_BE (b : list Z) (i : Z) : Z :=
  (aget b i ≪ 24) .| (aget b (i + 1) ≪ 16) .| (aget b (i + 2) ≪ 8) .| aget b (i + 3).

Definition PUT_UINT32_BE (n : Z) : list Z :=
  [u8 (n ≫ 24); u8 (n ≫ 16); u8 (n ≫ 8); u8 n].

Definition GET_UINT32_LE (b : list Z) (i : Z) : Z :=
  aget b i .| (aget b (i + 1) ≪ 8) .| (aget b (i + 2) ≪ 16) .| (aget b (i + 3) ≪ 24).

Definition PUT_UINT32_LE (n : Z) : list Z :=
  [u8 n; u8 (n ≫ 8); u8 (n ≫ 16); u8 (n ≫ 24)].

#[global] Arguments aget : simpl never.
#[global] Arguments aset : simpl never.
#[global] Arguments bget : simpl never.
#[global] Arguments bput : simpl never.
#[global] Arguments bcopy : simpl never.
#[global] Arguments uwrap : simpl never.
#[global] Arguments u8 : simpl never.
#[global] Arguments u16 : simpl never.
#[global] Arguments u32 : simpl never.
#[global] Arguments Z.div : simpl never.
#[global] Arguments Z.modulo : simpl never.
#[global] Arguments Z.land : simpl never.
#[global] Arguments Z.lor : simpl never.
#[global] Arguments Z.lxor : simpl never.
#[global] Arguments Z.shiftl : simpl never.
#[global] Arguments Z.shiftr : simpl never.
#[global] Arguments Z.mul : simpl never.

(** ** Bit-level reasoning *)

Create HintDb zbits.

Lemma testbit_uwrap w x i : 0 <= w -> 0 <= i ->
  Z.testbit (uwrap w x) i = (i <? w) && Z.testbit x i.
Proof.
  intros Hw Hi. unfold uwrap. destruct (Z.ltb_spec i w).
  - rewrite Z.mod_pow2_bits_low by lia. done.
  - rewrite Z.mod_pow2_bits_high by lia. done.
Qed.

Lemma testbit_is_u w x i : is_u w x -> w <= i -> Z.testbit x i = false.
Proof.
  intros [H0 H1] Hi. destruct (Z.ltb_spec w 0).
  { rewrite Z.pow_neg_r in H1 by lia. lia. }
  rewrite <- (Z.mod_small x (2 ^ w)) by lia. apply Z.mod_pow2_bits_high. lia.
Qed.

Lemma is_u_testbit w x : 0 <= w -> 0 <= x ->
  (forall i, w <= i -> Z.testbit x i = false) -> is_u w x.
Proof.
  intros Hw Hx Hb. split; [done|].
  replace x with (x mod 2 ^ w); [apply Z.mod_pos_bound, Z.pow_pos_nonneg; lia|].
  apply Z.bits_inj'; intros i Hi. destruct (Z.ltb_spec i w).
  - apply Z.mod_pow2_bits_low. lia.
  - rewrite Z.mod_pow2_bits_high, Hb by lia. done.
Qed.

(** Two [w]-bit values with the same [w] low bits are equal. *)
Lemma is_u_inj w x y : 0 <= w -> is_u w x -> is_u w y ->
  (forall i, 0 <= i < w -> Z.testbit x i = Z.testbit y i) -> x = y.
Proof.
  intros Hw Hx Hy H. apply Z.bits_inj'; intros i Hi.
  destruct (Z.ltb_spec i w); [apply H; lia|].
  by rewrite (testbit_is_u w x), (testbit_is_u w y).
Qed.

Lemma is_u_uwrap w x : 0 <= w -> is_u w (uwrap w x).
Proof. intros. apply Z.mod_pos_bound, Z.pow_pos_nonneg; lia. Qed.

Lemma is_u_u8 x : is_byte (u8 x).
Proof. by apply is_u_uwrap. Qed.

Lemma is_u_u32 x : is_u32 (u32 x).
Proof. by apply is_u_uwrap. Qed.

Lemma uwrap_small w x : is_u w x -> uwrap w x = x.
Proof. intros. by apply Z.mod_small. Qed.

Lemma u8_small x : is_byte x -> u8 x = x.
Proof. apply uwrap_small. Qed.

Lemma is_u_lxor w x y : 0 <= w -> is_u w x -> is_u w y -> is_u w (x .^ y).
Proof.
  intros Hw Hx Hy. apply is_u_testbit; [done| |].
  - apply Z.lxor_nonneg. unfold is_u in *. lia.
  - intros i Hi. by rewrite Z.lxor_spec, (testbit_is_u w x), (testbit_is_u w y).
Qed.

Lemma is_u_lor w x y : 0 <= w -> is_u w x -> is_u w y -> is_u w (x .| y).
Proof.
  intros Hw Hx Hy. apply is_u_testbit; [done| |].
  - apply Z.lor_nonneg. unfold is_u in *. lia.
  - intros i Hi. by rewrite Z.lor_spec, (testbit_is_u w x), (testbit_is_u w y).
Qed.

Lemma is_u_land_r w x y : 0 <= w -> is_u w y -> is_u w (x .& y).
Proof.
  intros Hw Hy. apply is_u_testbit; [done| |].
  - apply Z.land_nonneg. unfold is_u in *. lia.
  - intros i Hi. by rewrite Z.land_spec, (testbit_is_u w y), andb_false_r.
Qed.

Lemma is_u_land_l w x y : 0 <= w -> is_u w x -> is_u w (x .& y).
Proof. intros. rewrite Z.land_comm. by apply is_u_land_r. Qed.

Lemma is_u_shiftr w x n : 0 <= n -> is_u w x -> is_u w (x ≫ n).
Proof.
  intros Hn [H0 H1]. split; [by apply Z.shiftr_nonneg|].
  rewrite Z.shiftr_div_pow2 by done. apply Z.le_lt_trans with x; [|done].
  apply Z.div_le_upper_bound; [apply Z.pow_pos_nonneg; lia|].
  assert (1 <= 2 ^ n) by (pose proof (Z.pow_pos_nonneg 2 n); lia). nia.
Qed.

Lemma is_u_shiftl w v x n : 0 <= n -> 0 <= w -> v = w + n -> is_u w x -> is_u v (x ≪ n).
Proof.
  intros Hn Hw -> [H0 H1]. unfold is_u. rewrite Z.shiftl_mul_pow2, Z.pow_add_r by done.
  pose proof (Z.pow_pos_nonneg 2 n). nia.
Qed.

Lemma is_u_weaken w v x : w <= v -> is_u w x -> is_u v x.
Proof.
  intros Hv [H0 H1]. split; [done|]. apply Z.lt_le_trans with (2 ^ w); [done|].
  by apply Z.pow_le_mono_r.
Qed.

Lemma is_u_nonneg w x : is_u w x -> 0 <= x.
Proof. by intros []. Qed.

#[export] Hint Resolve is_u_uwrap is_u_u8 is_u_u32 is_u_lxor is_u_lor is_u_land_r
  is_u_nonneg : zbits.

(** Bytes are few: a property of one or two bytes is checked by evaluation. *)
Definition all_bytes : list Z := seqZ 0 256.

Lemma elem_all_bytes a : is_byte a -> a ∈ all_bytes.
Proof. intros [H0 H1]. change (2 ^ 8) with 256 in H1. apply elem_of_seqZ. lia. Qed.

Lemma forall_byte (P : Z -> bool) :
  forallb P all_bytes = true -> forall a, is_byte a -> P a = true.
Proof.
  intros H a Ha. rewrite forallb_forall in H. apply H, list_elem_of_In, elem_all_bytes, Ha.
Qed.

Lemma forall_byte2 (P : Z -> Z -> bool) :
  forallb (fun a => forallb (P a) all_bytes) all_bytes = true ->
  forall a b, is_byte a -> is_byte b -> P a b = true.
Proof.
  intros H a b Ha Hb. apply (forall_byte (P a)); [|done].
  by apply (forall_byte (fun a => forallb (P a) all_bytes)).
Qed.

Lemma byte_eq (f g : Z -> Z) :
  forallb (fun a => f a =? g a) all_bytes = true -> forall a, is_byte a -> f a = g a.
Proof. intros H a Ha. apply Z.eqb_eq. by apply (forall_byte (fun a => f a =? g a)). Qed.

Lemma byte2_eq (f g : Z -> Z -> Z) :
  forallb (fun a => forallb (fun b => f a b =? g a b) all_bytes) all_bytes = true ->
  forall a b, is_byte a -> is_byte b -> f a b = g a b.
Proof.
  intros H a b Ha Hb. apply Z.eqb_eq. by apply (forall_byte2 (fun a b => f a b =? g a b)).
Qed.

Ltac eval_true := vm_compute; reflexivity.

(** Evaluate [Z.to_nat] on literals. *)
Ltac nat_lits :=
  repeat match goal with
  | |- context [Z.to_nat ?c] =>
      lazymatch c with Z0 => idtac | Zpos _ => idtac end;
      let n := eval vm_compute in (Z.to_nat c) in change (Z.to_nat c) with n
  end.

(** Linear arithmetic with division and remainder. *)
Ltac zdm := Z.div_mod_to_equations; lia.

(** Bit-index normalisation: [zbit_norm] pushes [Z.testbit] through the C
    operators; [zbit_out] discharges the bits that lie below bit 0 or above a
    known width. *)
Ltac zbit_norm :=
  unfold u8, u16, u32;
  repeat first
    [ rewrite Z.lxor_spec | rewrite Z.lor_spec | rewrite Z.land_spec
    | rewrite Z.shiftr_spec by lia | rewrite Z.shiftl_spec by lia
    | rewrite testbit_uwrap by lia ].

Ltac zbit_out :=
  repeat match goal with
  | |- context [Z.testbit ?x ?j] => rewrite (Z.testbit_neg_r x j) by lia
  | H : is_u ?w ?x |- context [Z.testbit ?x ?j] => rewrite (testbit_is_u w x j H) by lia
  | |- context [?a <? ?b] =>
      first [ rewrite (proj2 (Z.ltb_lt a b)) by lia | rewrite (proj2 (Z.ltb_ge a b)) by lia ]
  end.

Ltac zbit_simpl :=
  rewrite ?orb_false_r, ?andb_true_r, ?andb_false_r, ?xorb_false_r, ?orb_true_r;
  cbn [andb orb].

(** [zbit_same]: both sides test the same bit, up to index arithmetic. *)
Ltac zbit_same := zbit_norm; zbit_out; zbit_simpl; try reflexivity; f_equal; lia.

(** ** Words built from bytes *)

Lemma pack_bytes_inj a b c d : is_byte a -> is_byte b -> is_byte c -> is_byte d ->
  let n := (a ≪ 24) .| (b ≪ 16) .| (c ≪ 8) .| d in
  u8 (n ≫ 24) = a /\ u8 (n ≫ 16) = b /\ u8 (n ≫ 8) = c /\ u8 n = d.
Proof.
  intros Ha Hb Hc Hd n. unfold n.
  repeat split; (eapply (is_u_inj 8); [done|auto with zbits|done|]);
    intros i Hi; zbit_same.
Qed.

(** ** List lemmas shared by the components *)

Lemma aget_drop (l : list Z) (i k : Z) : 0 <= i -> 0 <= k ->
  aget l (i + k) = drop (Z.to_nat i) l !!! Z.to_nat k.
Proof. intros. unfold aget. rewrite lookup_total_drop. f_equal. lia. Qed.

Lemma drop_cons_length {A} (l r : list A) x n : drop n l = x :: r -> (n < length l)%nat.
Proof. intros H. apply (f_equal length) in H. rewrite length_drop in H. simpl in H. lia. Qed.

Lemma drop_add {A} (l r : list A) n m : drop n l = r -> drop (n + m) l = drop m r.
Proof. intros <-. by rewrite drop_drop. Qed.

Lemma bget_app_r (l r : list Z) (i k : Z) : i = Z.of_nat (length l) -> 0 <= k ->
  bget (l ++ r) (i + k) = r !! Z.to_nat k.
Proof.
  intros -> Hk. unfold bget. rewrite bool_decide_eq_true_2 by lia.
  rewrite lookup_app_r by lia. f_equal. lia.
Qed.

Lemma bget_at (pre : list Z) x rest j : j = Z.of_nat (length pre) -> bget (pre ++ x :: rest) j = Some x.
Proof.
  intros ->. unfold bget. rewrite bool_decide_eq_true_2 by lia.
  by rewrite Nat2Z.id, lookup_app_r, Nat.sub_diag by lia.
Qed.

Lemma is_u_aget w t i : 0 < w -> Forall (is_u w) t -> is_u w (aget t i).
Proof.
  intros Hw Ht. unfold aget. rewrite list_lookup_total_alt.
  destruct (t !! Z.to_nat i) eqn:E; cbn; [by eapply Forall_lookup_1|].
  split; [by apply Z.lt_le_incl|]. by apply Z.pow_gt_1.
Qed.

Lemma aget_aset t i v j : 0 <= i < Z.of_nat (length t) -> 0 <= j ->
  aget (aset t i v) j = if i =? j then v else aget t j.
Proof.
  intros Hi Hj. unfold aget, aset. destruct (Z.eqb_spec i j) as [->|Hne].
  - apply list_lookup_total_insert_eq. lia.
  - apply list_lookup_total_insert_ne. lia.
Qed.

Lemma length_aset t i v : length (aset t i v) = length t.
Proof. apply length_insert. Qed.

(** Strong induction on the length of a list. *)
Lemma list_len_ind {A} (P : list A -> Prop) :
  (forall l, (forall r, (length r < length l)%nat -> P r) -> P l) -> forall l, P l.
Proof. intros H l. apply (well_founded_ind (well_founded_ltof _ length)). exact H. Qed.

Lemma cons_middle3 {A} (l r : list A) a b c :
  l ++ a :: b :: c :: r = (l ++ [a; b; c]) ++ r.
Proof. by rewrite <- app_assoc. Qed.

Lemma cons_middle4 {A} (l r : list A) a b c d :
  l ++ a :: b :: c :: d :: r = (l ++ [a; b; c; d]) ++ r.
Proof. by rewrite <- app_assoc. Qed.

Lemma take4_drop (l : list Z) n : (n + 4 <= length l)%nat ->
  take 4 (drop n l) = [l !!! n; l !!! (n + 1)%nat; l !!! (n + 2)%nat; l !!! (n + 3)%nat].
Proof.
  intros Hl. rewrite <- (Nat.add_0_r n) at 2. rewrite <- !lookup_total_drop.
  assert (length (drop n l) = (length l - n)%nat) as E by apply length_drop.
  destruct (drop n l) as [|a [|b [|c [|d r]]]]; cbn in E; [lia..|]. done.
Qed.

Lemma lor_shift_add k a b : 0 <= k -> is_u k a -> a .| (b ≪ k) = a + 2 ^ k * b.
Proof.
  intros Hk Ha. assert (a .& (b ≪ k) = 0) as E.
  { apply Z.bits_inj'; intros i Hi. zbit_norm. rewrite Z.bits_0.
    destruct (Z.ltb_spec i k); zbit_out; [apply andb_false_r|done]. }
  rewrite <- Z.lxor_lor, <- Z.add_nocarry_lxor, Z.shiftl_mul_pow2 by done. lia.
Qed.

Lemma u8_cons x y l k : (forall i, 0 <= i < 8 -> Z.testbit x i = Z.testbit y i) -> l = k ->
  u8 x :: l = u8 y :: k.
Proof.
  intros Hxy ->. f_equal. apply (is_u_inj 8); [lia|apply is_u_u8|apply is_u_u8|].
  intros i Hi. zbit_norm. by rewrite Hxy.
Qed.

(** ** Iterated block functions

    The chaining value of a hash after the first [n] blocks of 64 bytes of [m]. *)

Section Blocks.
Context {D : Type} (block : D -> list Z -> D).

Fixpoint absorb (n : nat) (m : list Z) (h : D) : D :=
  match n with
  | O => h
  | S n => absorb n (drop 64 m) (block h (take 64 m))
  end.

Lemma absorb_S n m h : absorb (S n) m h = absorb n (drop 64 m) (block h (take 64 m)).
Proof. reflexivity. Qed.

Lemma absorb_app n : forall m r h, (64 * n <= length m)%nat -> absorb n (m ++ r) h = absorb n m h.
Proof.
  induction n as [|n IH]; intros m r h Hn; [done|]. cbn [absorb].
  rewrite take_app_le, drop_app_le by lia. apply IH. rewrite length_drop. lia.
Qed.

Lemma absorb_add n k : forall m h,
  absorb (n + k) m h = absorb k (drop (64 * n) m) (absorb n m h).
Proof.
  induction n as [|n IH]; intros m h; [done|].
  cbn [absorb Nat.add]. rewrite IH, drop_drop. repeat f_equal; lia.
Qed.
End Blocks.

(** ** The two targets

    [unsigned long] is 32 bits on the ARM boards and 64 bits on the
    development hosts; the ciphers and MD5 use it for 32-bit words. *)

Class Arch := { long_bits : Z; long_bits_cases : long_bits = 32 \/ long_bits = 64 }.

Definition arm32 : Arch := {| long_bits := 32; long_bits_cases := or_introl eq_refl |}.
Definition lp64 : Arch := {| long_bits := 64; long_bits_cases := or_intror eq_refl |}.

(** Conversion to [unsigned long], and the left shift that needs it. *)
Definition ul `{Arch} (x : Z) : Z := uwrap long_bits x.
Definition shl `{Arch} (x n : Z) : Z := ul (x ≪ n).

Section LongWords.
Context `{Arch}.

Lemma long_bits_32 : 32 <= long_bits.
Proof. destruct long_bits_cases; lia. Qed.

Lemma shl_fits x n : 0 <= n -> is_u (32 - n) x -> shl x n = x ≪ n.
Proof.
  intros Hn Hx. apply uwrap_small, (is_u_weaken 32); [apply long_bits_32|].
  destruct (Z.ltb_spec (32 - n) 0).
  { destruct Hx as [? Hx]. rewrite Z.pow_neg_r in Hx by lia. lia. }
  apply (is_u_shiftl (32 - n)); lia || done.
Qed.

Lemma shl_land x n m : 0 <= n -> is_u32 m -> shl x n .& m = (x ≪ n) .& m.
Proof.
  intros Hn Hm. apply Z.bits_inj'; intros i Hi. unfold shl, ul.
  pose proof long_bits_32. zbit_norm. destruct (Z.ltb_spec i 32); zbit_out; [done|].
  by rewrite !andb_false_r.
Qed.

End LongWords.

#[global] Arguments ul : simpl never.
#[global] Arguments shl : simpl never.

(** ** Reading and writing big-endian words *)

Lemma GET_UINT32_BE_app (a b c d : Z) (l : list Z) :
  GET_UINT32_BE (a :: b :: c :: d :: l) 0 = (a ≪ 24) .| (b ≪ 16) .| (c ≪ 8) .| d.
Proof. done. Qed.

Lemma is_u32_pack a b c d : is_byte a -> is_byte b -> is_byte c -> is_byte d ->
  is_u32 ((a ≪ 24) .| (b ≪ 16) .| (c ≪ 8) .| d).
Proof.
  intros. repeat apply is_u_lor; try lia;
    [apply (is_u_shiftl 8)|apply (is_u_weaken 24), (is_u_shiftl 8)
    |apply (is_u_weaken 16), (is_u_shiftl 8)|apply (is_u_weaken 8)]; done || lia.
Qed.

Lemma pack_unpack n : is_u32 n ->
  (u8 (n ≫ 24) ≪ 24) .| (u8 (n ≫ 16) ≪ 16) .| (u8 (n ≫ 8) ≪ 8) .| u8 n = n.
Proof.
  intros Hn. apply (is_u_inj 32); [done|apply is_u32_pack; auto with zbits|done|].
  intros i Hi. zbit_norm.
  assert (0 <= i < 8 \/ 8 <= i < 16 \/ 16 <= i < 24 \/ 24 <= i < 32) as [|[|[|]]] by lia;
    zbit_out; zbit_same.
Qed.

Lemma GET_PUT_LE w (l : list Z) : is_u32 w -> GET_UINT32_LE (PUT_UINT32_LE w ++ l) 0 = w.
Proof.
  intros Hw. transitivity (u8 w .| (u8 (w ≫ 8) ≪ 8) .| (u8 (w ≫ 16) ≪ 16) .| (u8 (w ≫ 24) ≪ 24));
    [reflexivity|].
  etransitivity; [|apply (pack_unpack w Hw)]. apply Z.bits_inj'; intros i Hi.
  rewrite !Z.lor_spec. btauto.
Qed.

Lemma bytes_PUT_UINT32_BE n : bytes (PUT_UINT32_BE n).
Proof. unfold PUT_UINT32_BE. repeat constructor; try apply is_u_u8; done. Qed.

Lemma bytes_PUT_UINT32_LE n : bytes (PUT_UINT32_LE n).
Proof. unfold PUT_UINT32_LE. repeat constructor; try apply is_u_u8; done. Qed.
