(* ===== verification/Base64.v ===== *)
(** * base64 (src/encryption/lib_base64.c)

    [lib_base64_encode] and [lib_base64_decode] as index loops over C buffers.
    A string is a list of character codes; reads outside a buffer give [None].
    The theorems: the encoder writes the RFC 4648 digits, its output has the
    expected length and alphabet, and the decoder inverts it. *)

From S2P Require Import Prelude.

(** ** The alphabet *)

Definition base64char : list Z :=
  (Z.of_N ∘ Ascii.N_of_ascii) <$>
  String.list_ascii_of_string
    "ABCDEFGHIJKLMNOPQRSTUVWXYZabcdefghijklmnopqrstuvwxyz0123456789+/".

#[global] Arguments base64char : simpl never.

Definition EQ : Z := 61.   (* '=' *)
Definition NUL : Z := 0.

(** ** Encoder

    One iteration of the [for] loop: the digits it appends and whether it
    [break]s. *)
Definition encode_step (bindata : list Z) (binlength i : Z) : list Z * bool :=
  let b0 := aget bindata i in
  let current := u8 (b0 ≫ 2) .& 0x3F in
  let o1 := [aget base64char current] in
  let current := u8 (b0 ≪ 4) .& 0x30 in
  if i + 1 >=? binlength then (o1 ++ [aget base64char current; EQ; EQ], true)
  else
    let b1 := aget bindata (i + 1) in
    let current := current .| (u8 (b1 ≫ 4) .& 0x0F) in
    let o2 := o1 ++ [aget base64char current] in
    let current := u8 (b1 ≪ 2) .& 0x3C in
    if i + 2 >=? binlength then (o2 ++ [aget base64char current; EQ], true)
    else
      let b2 := aget bindata (i + 2) in
      let current := current .| (u8 (b2 ≫ 6) .& 0x03) in
      let o3 := o2 ++ [aget base64char current] in
      (o3 ++ [aget base64char (b2 .& 0x3F)], false).

Fixpoint encode_loop (fuel : nat) (bindata : list Z) (binlength i : Z) (base64 : list Z)
  : list Z :=
  match fuel with
  | O => base64
  | S fuel =>
      if i <? binlength then
        let '(o, brk) := encode_step bindata binlength i in
        if brk then base64 ++ o
        else encode_loop fuel bindata binlength (i + 3) (base64 ++ o)
      else base64
  end.

(** The output string, terminator included.  [binlength] iterations are more
    than the loop can make, since [i] grows by 3.  Both indices are [int]: the
    model is the code's for texts below 2^31 characters. *)
Definition lib_base64_encode (bindata : list Z) (binlength : Z) : list Z :=
  encode_loop (Z.to_nat binlength) bindata binlength 0 [] ++ [NUL].

(** ** Decoder *)

(** [for (k = 0; k < 64; k++) if (base64char[k] == c) t = k;] with [t = 0xFF]
    before the loop: the last match wins. *)
Definition find_digit (c : Z) : Z :=
  fold_left (fun t k => if aget base64char k =? c then k else t) (seqZ 0 64) 0xFF.

(** One iteration: the bytes it appends and whether it [break]s. *)
Definition decode_step (base64 : list Z) (i : Z) : option (list Z * bool) :=
  c0 ← bget base64 i;
  c1 ← bget base64 (i + 1);
  c2 ← bget base64 (i + 2);
  c3 ← bget base64 (i + 3);
  let t0 := find_digit c0 in
  let t1 := find_digit c1 in
  let t2 := find_digit c2 in
  let t3 := find_digit c3 in
  let o1 := [(u8 (t0 ≪ 2) .& 0xFC) .| (u8 (t1 ≫ 4) .& 0x03)] in
  if c2 =? EQ then Some (o1, true)
  else
    let o2 := o1 ++ [(u8 (t1 ≪ 4) .& 0xF0) .| (u8 (t2 ≫ 2) .& 0x0F)] in
    if c3 =? EQ then Some (o2, true)
    else Some (o2 ++ [(u8 (t2 ≪ 6) .& 0xF0) .| (t3 .& 0x3F)], false).

Fixpoint decode_loop (fuel : nat) (base64 : list Z) (i : Z) (bindata : list Z)
  : option (list Z) :=
  match fuel with
  | O => None
  | S fuel =>
      c ← bget base64 i;
      if c =? NUL then Some bindata
      else
        '(o, brk) ← decode_step base64 i;
        if brk : bool then Some (bindata ++ o)
        else decode_loop fuel base64 (i + 4) (bindata ++ o)
  end.

#[global] Arguments find_digit : simpl never.

(** The bytes written; their number is the value returned ([j]).  The loop
    stops before it leaves the buffer, so [length base64 + 1] iterations are
    enough; [None] is a read past the end of the string object. *)
Definition lib_base64_decode (base64 : list Z) : option (list Z) :=
  decode_loop (S (length base64)) base64 0 [].

Example encode_Man : lib_base64_encode [77; 97; 110] 3 = [84; 87; 70; 117; 0].
Proof. vm_compute. reflexivity. Qed.
Example decode_Ma : lib_base64_decode [84; 87; 69; 61; 0] = Some [77; 97].
Proof. vm_compute. reflexivity. Qed.

(** ** The reference encoding: RFC 4648 section 4

    Three octets are one 24-bit number, most significant octet first, written
    as four base-64 digits; a final group of one or two octets is completed
    with zero bits and the unused digits are ['=']. *)

Definition digit (n k : Z) : Z := aget base64char ((n / 64 ^ k) mod 64).

Fixpoint rfc4648 (l : list Z) : list Z :=
  match l with
  | [] => []
  | [a] => let n := a * 2 ^ 16 in [digit n 3; digit n 2; EQ; EQ]
  | [a; b] => let n := a * 2 ^ 16 + b * 2 ^ 8 in [digit n 3; digit n 2; digit n 1; EQ]
  | a :: b :: c :: r =>
      let n := a * 2 ^ 16 + b * 2 ^ 8 + c in
      [digit n 3; digit n 2; digit n 1; digit n 0] ++ rfc4648 r
  end.

(** ** The digits the two routines compute *)

Section Digits.

Lemma enc_digit1 : forall a, is_byte a -> u8 (a ≫ 2) .& 0x3F = a / 4.
Proof. apply byte_eq. eval_true. Qed.

Lemma enc_digit2 : forall a b, is_byte a -> is_byte b ->
  (u8 (a ≪ 4) .& 0x30) .| (u8 (b ≫ 4) .& 0x0F) = (a mod 4) * 16 + b / 16.
Proof. apply byte2_eq. eval_true. Qed.

Lemma enc_digit2_last : forall a, is_byte a -> u8 (a ≪ 4) .& 0x30 = (a mod 4) * 16.
Proof. apply byte_eq. eval_true. Qed.

Lemma enc_digit3_last : forall a, is_byte a -> u8 (a ≪ 2) .& 0x3C = (a mod 16) * 4.
Proof. apply byte_eq. eval_true. Qed.

Lemma enc_digit3 : forall a b, is_byte a -> is_byte b ->
  (u8 (a ≪ 2) .& 0x3C) .| (u8 (b ≫ 6) .& 0x03) = (a mod 16) * 4 + b / 64.
Proof. apply byte2_eq. eval_true. Qed.

Lemma enc_digit4 a : is_byte a -> a .& 0x3F = a mod 64.
Proof. intros. apply (Z.land_ones a 6). lia. Qed.

Definition is_digit (v : Z) : Prop := 0 <= v < 64.

Lemma forall_digit (P : Z -> bool) :
  forallb P (seqZ 0 64) = true -> forall v, is_digit v -> P v = true.
Proof.
  intros H v Hv. rewrite forallb_forall in H. apply H, list_elem_of_In, elem_of_seqZ.
  unfold is_digit in Hv. lia.
Qed.

(** The alphabet: digits are found again, and none is ['='] or the terminator. *)
Lemma find_digit_char v : is_digit v -> find_digit (aget base64char v) = v.
Proof.
  intros. apply Z.eqb_eq.
  apply (forall_digit (fun v => find_digit (aget base64char v) =? v)); [eval_true|done].
Qed.

Lemma char_neq c v : (c = EQ \/ c = NUL) -> is_digit v -> (aget base64char v =? c) = false.
Proof.
  intros Hc Hv. apply negb_true_iff.
  apply (forall_digit (fun v => negb (aget base64char v =? c))); [|done].
  destruct Hc as [-> | ->]; eval_true.
Qed.

(** Decoding a byte from the digits that carry its bits; the digits' other bits
    ([v], [w]) do not matter. *)
Lemma dec_byte1 a v : is_byte a -> 0 <= v < 16 ->
  (u8 ((a / 4) ≪ 2) .& 0xFC) .| (u8 ((a mod 4 * 16 + v) ≫ 4) .& 0x03) = a.
Proof.
  intros Ha Hv. assert (Hb : is_byte (v * 16)) by (unfold is_u; lia).
  replace v with (v * 16 / 16) by zdm. revert Ha Hb. generalize (v * 16). revert a.
  apply (byte2_eq (fun a b => _) (fun a _ => a)). eval_true.
Qed.

Lemma dec_byte2 b w v : is_byte b -> 0 <= w < 4 -> 0 <= v < 4 ->
  (u8 ((w * 16 + b / 16) ≪ 4) .& 0xF0) .| (u8 ((b mod 16 * 4 + v) ≫ 2) .& 0x0F) = b.
Proof.
  intros Hb Hw Hv. assert (Hc : is_byte (w * 4 + v)) by (unfold is_u; lia).
  rewrite <- (Z.mod_small v 4), <- (Z.mod_small w 4) by lia.
  replace (w mod 4) with ((w * 4 + v) / 4 mod 4) by zdm.
  replace (v mod 4) with ((w * 4 + v) mod 4) by zdm.
  revert Hb Hc. generalize (w * 4 + v). revert b.
  apply (byte2_eq (fun b c => _) (fun b _ => b)). eval_true.
Qed.

Lemma dec_byte3 c w : is_byte c -> 0 <= w < 16 ->
  (u8 ((w * 4 + c / 64) ≪ 6) .& 0xF0) .| ((c mod 64) .& 0x3F) = c.
Proof.
  intros Hc Hw. assert (Hd : is_byte w) by (unfold is_u; lia).
  rewrite <- (Z.mod_small w 16) by lia. revert Hc Hd. revert c w Hw.
  intros c w _. revert c w. apply (byte2_eq (fun c w => _) (fun c _ => c)). eval_true.
Qed.

(** The digits of the RFC number, as functions of the octets. *)
Lemma rfc_digit3 a n : is_byte a -> 0 <= n < 2 ^ 16 ->
  digit (a * 2 ^ 16 + n) 3 = aget base64char (a / 4).
Proof. intros [] ?. unfold digit. f_equal. zdm. Qed.

Lemma rfc_digit2 a b n : is_byte a -> is_byte b -> 0 <= n < 2 ^ 8 ->
  digit (a * 2 ^ 16 + b * 2 ^ 8 + n) 2 = aget base64char (a mod 4 * 16 + b / 16).
Proof. intros [] [] ?. unfold digit. f_equal. zdm. Qed.

Lemma rfc_digit1 a b c : is_byte a -> is_byte b -> is_byte c ->
  digit (a * 2 ^ 16 + b * 2 ^ 8 + c) 1 = aget base64char (b mod 16 * 4 + c / 64).
Proof. intros [] [] []. unfold digit. f_equal. zdm. Qed.

Lemma rfc_digit0 a b c : is_byte a -> is_byte b -> is_byte c ->
  digit (a * 2 ^ 16 + b * 2 ^ 8 + c) 0 = aget base64char (c mod 64).
Proof. intros [] [] []. unfold digit. f_equal. zdm. Qed.

End Digits.

(** Range side conditions of the digit lemmas. *)
Ltac digits := unfold is_digit, is_u in *; zdm.

(** ** Correctness of the encoder *)

Lemma is_byte_0 : is_byte 0.
Proof. unfold is_u. lia. Qed.

(** The group forms of the reference encoding, with the digits computed. *)
Lemma rfc_group1 a : is_byte a ->
  rfc4648 [a] = [aget base64char (a / 4); aget base64char (a mod 4 * 16); EQ; EQ].
Proof.
  intros Ha. cbn [rfc4648]. rewrite <- (Z.add_0_r (a * 2 ^ 16)).
  rewrite rfc_digit3 by (done || lia). do 2 f_equal.
  replace (a * 2 ^ 16 + 0) with (a * 2 ^ 16 + 0 * 2 ^ 8 + 0) by lia.
  rewrite rfc_digit2 by (done || lia || apply is_byte_0). do 2 f_equal. zdm.
Qed.

Lemma rfc_group2 a b : is_byte a -> is_byte b ->
  rfc4648 [a; b] = [aget base64char (a / 4); aget base64char (a mod 4 * 16 + b / 16);
                    aget base64char (b mod 16 * 4); EQ].
Proof.
  intros Ha Hb. cbn [rfc4648]. assert (b * 2 ^ 8 < 2 ^ 16) by (unfold is_u in *; lia).
  rewrite rfc_digit3 by (done || unfold is_u in *; lia).
  rewrite <- (Z.add_0_r (_ + b * 2 ^ 8)).
  rewrite rfc_digit2, rfc_digit1 by (done || lia || apply is_byte_0).
  do 4 f_equal. zdm.
Qed.

Lemma rfc_group3 a b c r : is_byte a -> is_byte b -> is_byte c ->
  rfc4648 (a :: b :: c :: r) =
    [aget base64char (a / 4); aget base64char (a mod 4 * 16 + b / 16);
     aget base64char (b mod 16 * 4 + c / 64); aget base64char (c mod 64)] ++ rfc4648 r.
Proof.
  intros Ha Hb Hc. cbn [rfc4648].
  rewrite rfc_digit2, rfc_digit1, rfc_digit0 by (done || unfold is_u in *; lia).
  rewrite <- Z.add_assoc, rfc_digit3 by (done || unfold is_u in *; lia). done.
Qed.

Lemma encode_loop_rfc (l : list Z) : bytes l -> forall fuel i acc,
  0 <= i -> (Z.of_nat (length l) - i <= Z.of_nat fuel) ->
  encode_loop fuel l (Z.of_nat (length l)) i acc = acc ++ rfc4648 (drop (Z.to_nat i) l).
Proof.
  intros Hl fuel. induction fuel as [|fuel IH]; intros i acc Hi Hf; cbn [encode_loop].
  { rewrite drop_ge by lia. by rewrite app_nil_r. }
  assert (Hd := Forall_drop _ (Z.to_nat i) _ Hl).
  assert (Hlen := length_drop l (Z.to_nat i)).
  destruct (Z.ltb_spec i (Z.of_nat (length l))) as [Hlt|Hge]; cycle 1.
  { rewrite drop_ge by lia. by rewrite app_nil_r. }
  unfold encode_step. cbv zeta.
  replace (aget l i) with (aget l (i + 0)) by (f_equal; lia). rewrite !aget_drop by lia.
  destruct (drop (Z.to_nat i) l) as [|a [|b [|c r]]] eqn:Ed; cbn [length] in Hlen; try lia;
    rewrite !Forall_cons in Hd; destruct_and!; cbn [Z.to_nat lookup_total list_lookup_total].
  - destruct (Z.geb_spec (i + 1) (Z.of_nat (length l))); [|lia].
    by rewrite enc_digit1, enc_digit2_last, rfc_group1 by done.
  - destruct (Z.geb_spec (i + 1) (Z.of_nat (length l))); [lia|].
    destruct (Z.geb_spec (i + 2) (Z.of_nat (length l))); [|lia].
    by rewrite enc_digit1, enc_digit2, enc_digit3_last, rfc_group2 by done.
  - destruct (Z.geb_spec (i + 1) (Z.of_nat (length l))); [lia|].
    destruct (Z.geb_spec (i + 2) (Z.of_nat (length l))); [lia|].
    rewrite IH by lia. rewrite enc_digit1, enc_digit2, enc_digit3, enc_digit4, rfc_group3 by done.
    replace (Z.to_nat (i + 3)) with (Z.to_nat i + 3)%nat by lia.
    rewrite (drop_add _ _ _ 3 Ed). by rewrite <- app_assoc.
Qed.

Lemma lib_base64_encode_rfc4648_text (l : list Z) : bytes l ->
  lib_base64_encode l (Z.of_nat (length l)) = rfc4648 l ++ [NUL].
Proof.
  intros Hl. unfold lib_base64_encode. by rewrite encode_loop_rfc by (done || lia).
Qed.

(** C37: the encoder writes exactly the RFC 4648 text. *)
Theorem lib_base64_encode_rfc4648 (l : list Z) : bytes l ->
  lib_base64_encode l (Z.of_nat (length l)) = rfc4648 l ++ [NUL].
Proof. apply lib_base64_encode_rfc4648_text. Qed.

(** The text consists of characters. *)
Lemma bytes_rfc4648 l : bytes (rfc4648 l).
Proof.
  assert (forall n k, is_byte (digit n k)) as Hd.
  { intros n k. apply is_u_aget; [done|]. apply (bool_decide_unpack _). vm_compute. exact I. }
  induction l as [l IH] using list_len_ind. destruct l as [|a [|b [|c r]]]; cbn [rfc4648].
  - apply Forall_nil; done.
  - repeat apply Forall_cons_2; first [apply Hd|apply Forall_nil; done|done].
  - repeat apply Forall_cons_2; first [apply Hd|apply Forall_nil; done|done].
  - cbn [app]. repeat (apply Forall_cons_2; [apply Hd|]). apply IH. cbn. lia.
Qed.

(** ** Correctness of the decoder *)

Lemma decode_loop_rfc suf (l : list Z) : forall pre fuel acc, bytes l ->
  (length (rfc4648 l) < fuel)%nat ->
  decode_loop fuel (pre ++ rfc4648 l ++ NUL :: suf) (Z.of_nat (length pre)) acc = Some (acc ++ l).
Proof.
  induction l as [l IH] using list_len_ind. intros pre fuel acc Hl Hf.
  destruct fuel as [|fuel]; [lia|].
  assert (Hget : forall k, 0 <= k ->
    bget (pre ++ rfc4648 l ++ NUL :: suf) (Z.of_nat (length pre) + k) =
    (rfc4648 l ++ NUL :: suf) !! Z.to_nat k) by (intros; by apply bget_app_r).
  cbn [decode_loop]. unfold decode_step.
  replace (bget _ (Z.of_nat (length pre))) with (bget (pre ++ rfc4648 l ++ NUL :: suf)
    (Z.of_nat (length pre) + 0)) by (f_equal; lia).
  rewrite !Hget by lia. clear Hget. nat_lits.
  destruct l as [|a [|b [|c r]]]; [by rewrite app_nil_r| | |];
    rewrite !Forall_cons in Hl; destruct_and!.
  - rewrite rfc_group1 by done. cbn -[EQ NUL].
    rewrite !(char_neq NUL) by (auto || digits). cbn -[EQ NUL].
    rewrite !find_digit_char by digits. do 2 f_equal.
    rewrite <- (Z.add_0_r (a mod 4 * 16)), dec_byte1 by (done || lia). done.
  - rewrite rfc_group2 by done. cbn -[EQ NUL].
    rewrite !char_neq by (auto || digits). cbn -[EQ NUL].
    rewrite !find_digit_char by digits. do 2 f_equal.
    rewrite dec_byte1 by (done || digits). f_equal.
    rewrite <- (Z.add_0_r (b mod 16 * 4)), dec_byte2 by (done || digits). done.
  - rewrite rfc_group3 in * by done. cbn -[EQ NUL].
    rewrite !char_neq by (auto || digits).
    rewrite !find_digit_char by digits.
    rewrite dec_byte1, dec_byte2, dec_byte3 by (done || digits).
    cbn in Hf. rewrite (cons_middle4 pre), (cons_middle3 acc).
    cbn [mbind option_bind]. match goal with |- decode_loop _ (?p ++ _) _ _ = _ =>
      replace (Z.of_nat (length pre) + 4) with (Z.of_nat (length p))
        by (rewrite length_app; cbn; lia) end.
    apply IH; [cbn; lia|done|lia].
Qed.

(** The decoder on a longer buffer: what follows the terminator does not matter. *)
Lemma lib_base64_decode_text (l suf : list Z) : bytes l ->
  lib_base64_decode (rfc4648 l ++ NUL :: suf) = Some l.
Proof.
  intros Hl. unfold lib_base64_decode. rewrite <- (app_nil_l (rfc4648 l ++ NUL :: suf)) at 2.
  rewrite (decode_loop_rfc suf l []); [done|done|rewrite length_app; cbn; lia].
Qed.

(** C6: decoding the encoder's text gives the input back, byte for byte (the
    value returned by the C function is the length of that list). *)
Theorem base64_roundtrip (l : list Z) : bytes l ->
  lib_base64_decode (lib_base64_encode l (Z.of_nat (length l))) = Some l.
Proof.
  intros Hl. rewrite lib_base64_encode_rfc4648_text by done. by apply lib_base64_decode_text.
Qed.

(** Applied to the 256 byte values: every hypothesis holds there. *)
Lemma base64_roundtrip_witness :
  bytes all_bytes /\
  lib_base64_decode (lib_base64_encode all_bytes (Z.of_nat (length all_bytes))) = Some all_bytes.
Proof.
  assert (H : bytes all_bytes) by (apply (bool_decide_unpack _); vm_compute; exact I).
  split; [exact H|]. exact (base64_roundtrip all_bytes H).
Defined.

(** Applied to the word "Man". *)
Lemma lib_base64_encode_rfc4648_witness :
  bytes [77; 97; 110] /\
  lib_base64_encode [77; 97; 110] 3 = rfc4648 [77; 97; 110] ++ [NUL].
Proof.
  assert (H : bytes [77; 97; 110]) by (apply (bool_decide_unpack _); vm_compute; exact I).
  split; [exact H|]. exact (lib_base64_encode_rfc4648 [77; 97; 110] H).
Defined.
