(* ===== verification/Md5.v ===== *)
(** * MD5 (src/encryption/md5.c)

    The digest as it is written: the context with its byte counters and block
    buffer, the 64 macro calls of [md5_process], the buffering of
    [md5_update], the padding of [md5_finish] and [lib_md5_checksum].  The
    specification is RFC 1321, with the sine table computed from the series.
    The theorems: any sequence of updates followed by the final step gives the
    RFC digest of all the bytes, on both word widths and for messages of any
    length, and so does [lib_md5_checksum] on its input. *)

From S2P Require Import Prelude.

(** ** Context *)

Record md5_context := mk_md5 {
  total0 : Z; total1 : Z;        (* unsigned long total[2] *)
  state : list Z;                (* unsigned long state[4] *)
  buffer : list Z                (* unsigned char buffer[64] *) }.

(** ** The 64 macro calls

    [P(a,b,c,d,k,s,t)] names the variables it works on; a call is its
    argument list. *)

Inductive reg := rA | rB | rC | rD.
#[export] Instance reg_eq_dec : EqDecision reg.
Proof. solve_decision. Defined.

Record regs := mk_regs { vA : Z; vB : Z; vC : Z; vD : Z }.

Definition rget (r : regs) (x : reg) : Z :=
  match x with rA => vA r | rB => vB r | rC => vC r | rD => vD r end.

Definition rset (r : regs) (x : reg) (v : Z) : regs :=
  match x with
  | rA => mk_regs v (vB r) (vC r) (vD r)
  | rB => mk_regs (vA r) v (vC r) (vD r)
  | rC => mk_regs (vA r) (vB r) v (vD r)
  | rD => mk_regs (vA r) (vB r) (vC r) v
  end.

Abbreviation call := (reg * reg * reg * reg * Z * Z * Z)%type.

Definition round1 : list call :=
  [(rA,rB,rC,rD,0,7,0xD76AA478); (rD,rA,rB,rC,1,12,0xE8C7B756);
   (rC,rD,rA,rB,2,17,0x242070DB); (rB,rC,rD,rA,3,22,0xC1BDCEEE);
   (rA,rB,rC,rD,4,7,0xF57C0FAF); (rD,rA,rB,rC,5,12,0x4787C62A);
   (rC,rD,rA,rB,6,17,0xA8304613); (rB,rC,rD,rA,7,22,0xFD469501);
   (rA,rB,rC,rD,8,7,0x698098D8); (rD,rA,rB,rC,9,12,0x8B44F7AF);
   (rC,rD,rA,rB,10,17,0xFFFF5BB1); (rB,rC,rD,rA,11,22,0x895CD7BE);
   (rA,rB,rC,rD,12,7,0x6B901122); (rD,rA,rB,rC,13,12,0xFD987193);
   (rC,rD,rA,rB,14,17,0xA679438E); (rB,rC,rD,rA,15,22,0x49B40821)].

Definition round2 : list call :=
  [(rA,rB,rC,rD,1,5,0xF61E2562); (rD,rA,rB,rC,6,9,0xC040B340);
   (rC,rD,rA,rB,11,14,0x265E5A51); (rB,rC,rD,rA,0,20,0xE9B6C7AA);
   (rA,rB,rC,rD,5,5,0xD62F105D); (rD,rA,rB,rC,10,9,0x02441453);
   (rC,rD,rA,rB,15,14,0xD8A1E681); (rB,rC,rD,rA,4,20,0xE7D3FBC8);
   (rA,rB,rC,rD,9,5,0x21E1CDE6); (rD,rA,rB,rC,14,9,0xC33707D6);
   (rC,rD,rA,rB,3,14,0xF4D50D87); (rB,rC,rD,rA,8,20,0x455A14ED);
   (rA,rB,rC,rD,13,5,0xA9E3E905); (rD,rA,rB,rC,2,9,0xFCEFA3F8);
   (rC,rD,rA,rB,7,14,0x676F02D9); (rB,rC,rD,rA,12,20,0x8D2A4C8A)].

Definition round3 : list call :=
  [(rA,rB,rC,rD,5,4,0xFFFA3942); (rD,rA,rB,rC,8,11,0x8771F681);
   (rC,rD,rA,rB,11,16,0x6D9D6122); (rB,rC,rD,rA,14,23,0xFDE5380C);
   (rA,rB,rC,rD,1,4,0xA4BEEA44); (rD,rA,rB,rC,4,11,0x4BDECFA9);
   (rC,rD,rA,rB,7,16,0xF6BB4B60); (rB,rC,rD,rA,10,23,0xBEBFBC70);
   (rA,rB,rC,rD,13,4,0x289B7EC6); (rD,rA,rB,rC,0,11,0xEAA127FA);
   (rC,rD,rA,rB,3,16,0xD4EF3085); (rB,rC,rD,rA,6,23,0x04881D05);
   (rA,rB,rC,rD,9,4,0xD9D4D039); (rD,rA,rB,rC,12,11,0xE6DB99E5);
   (rC,rD,rA,rB,15,16,0x1FA27CF8); (rB,rC,rD,rA,2,23,0xC4AC5665)].

Definition round4 : list call :=
  [(rA,rB,rC,rD,0,6,0xF4292244); (rD,rA,rB,rC,7,10,0x432AFF97);
   (rC,rD,rA,rB,14,15,0xAB9423A7); (rB,rC,rD,rA,5,21,0xFC93A039);
   (rA,rB,rC,rD,12,6,0x655B59C3); (rD,rA,rB,rC,3,10,0x8F0CCC92);
   (rC,rD,rA,rB,10,15,0xFFEFF47D); (rB,rC,rD,rA,1,21,0x85845DD1);
   (rA,rB,rC,rD,8,6,0x6FA87E4F); (rD,rA,rB,rC,15,10,0xFE2CE6E0);
   (rC,rD,rA,rB,6,15,0xA3014314); (rB,rC,rD,rA,13,21,0x4E0811A1);
   (rA,rB,rC,rD,4,6,0xF7537E82); (rD,rA,rB,rC,11,10,0xBD3AF235);
   (rC,rD,rA,rB,2,15,0x2AD7D2BB); (rB,rC,rD,rA,9,21,0xEB86D391)].

Definition md5_padding : list Z := 0x80 :: replicate 63 0.

Section Code.
Context `{Arch}.

(** The four definitions of the macro [F]. *)
Definition F1 (x y z : Z) : Z := z .^ (x .& (y .^ z)).
Definition F2 (x y z : Z) : Z := y .^ (z .& (x .^ y)).
Definition F3 (x y z : Z) : Z := x .^ y .^ z.
Definition F4 (x y z : Z) : Z := y .^ (x .| ul (Z.lnot z)).

Definition MD5_S (x n : Z) : Z := shl x n .| ((x .& 0xFFFFFFFF) ≫ (32 - n)).

Definition P (F : Z -> Z -> Z -> Z) (X : list Z) (r : regs) (c : call) : regs :=
  let '(a, b, c, d, k, s, t) := c in
  let r := rset r a (ul (rget r a + (F (rget r b) (rget r c) (rget r d) + aget X k + t))) in
  rset r a (ul (MD5_S (rget r a) s + rget r b)).

Definition md5_starts (ctx : md5_context) : md5_context :=
  mk_md5 0 0 [0x67452301; 0xEFCDAB89; 0x98BADCFE; 0x10325476] (buffer ctx).

Definition md5_process (ctx : md5_context) (data : list Z) : md5_context :=
  let X := map (fun i => GET_UINT32_LE data (4 * i)) (seqZ 0 16) in
  let st := state ctx in
  let r := mk_regs (aget st 0) (aget st 1) (aget st 2) (aget st 3) in
  let r := fold_left (P F1 X) round1 r in
  let r := fold_left (P F2 X) round2 r in
  let r := fold_left (P F3 X) round3 r in
  let r := fold_left (P F4 X) round4 r in
  mk_md5 (total0 ctx) (total1 ctx)
    [ul (aget st 0 + vA r); ul (aget st 1 + vB r); ul (aget st 2 + vC r); ul (aget st 3 + vD r)]
    (buffer ctx).

(** The first [n] bytes at [input]; [None] is a read past the object. *)
Definition read (input : list Z) (n : Z) : option (list Z) :=
  if bool_decide (0 <= n <= Z.of_nat (length input)) then Some (take (Z.to_nat n) input) else None.

(** [memcpy(ctx->buffer + left, input, n)] *)
Definition buffer_put (ctx : md5_context) (left : Z) (input : list Z) (n : Z)
  : option md5_context :=
  src ← read input n;
  buf ← bcopy (buffer ctx) left src;
  Some (mk_md5 (total0 ctx) (total1 ctx) (state ctx) buf).

(** [while( ilen >= 64 )]; the fuel is [ilen / 64], the number of blocks. *)
Fixpoint md5_blocks (fuel : nat) (ctx : md5_context) (input : list Z) (ilen : Z)
  : option (md5_context * list Z * Z) :=
  if 64 <=? ilen then
    match fuel with
    | O => None
    | S fuel =>
        data ← read input 64;
        md5_blocks fuel (md5_process ctx data) (drop 64 input) (ilen - 64)
    end
  else Some (ctx, input, ilen).

(** The part of [md5_update] after the counters: complete the buffered block,
    process whole blocks from the input, keep the rest. *)
Definition md5_absorb (ctx : md5_context) (left : Z) (input : list Z) (ilen : Z)
  : option md5_context :=
  let fill := 64 - left in
  '(ctx, input, ilen, left) ←
    (if negb (left =? 0) && (fill <=? ilen) then
       ctx ← buffer_put ctx left input fill;
       Some (md5_process ctx (buffer ctx), drop (Z.to_nat fill) input, ilen - fill, 0)
     else Some (ctx, input, ilen, left));
  '(ctx, input, ilen) ← md5_blocks (Z.to_nat (ilen / 64)) ctx input ilen;
  if 0 <? ilen then buffer_put ctx left input ilen else Some ctx.

Definition md5_update (ctx : md5_context) (input : list Z) (ilen : Z) : option md5_context :=
  if ilen <=? 0 then Some ctx
  else
    let left := total0 ctx .& 0x3F in
    let t0 := ul (total0 ctx + ilen) .& 0xFFFFFFFF in
    let t1 := if t0 <? ilen then ul (total1 ctx + 1) else total1 ctx in
    md5_absorb (mk_md5 t0 t1 (state ctx) (buffer ctx)) left input ilen.

Definition md5_finish (ctx : md5_context) : option (list Z) :=
  let high := (total0 ctx ≫ 29) .| shl (total1 ctx) 3 in
  let low := shl (total0 ctx) 3 in
  let msglen := PUT_UINT32_LE low ++ PUT_UINT32_LE high in
  let last := total0 ctx .& 0x3F in
  let padn := if last <? 56 then 56 - last else 120 - last in
  ctx ← md5_update ctx md5_padding padn;
  ctx ← md5_update ctx msglen 8;
  Some (PUT_UINT32_LE (aget (state ctx) 0) ++ PUT_UINT32_LE (aget (state ctx) 1) ++
        PUT_UINT32_LE (aget (state ctx) 2) ++ PUT_UINT32_LE (aget (state ctx) 3)).

(** [ctx] is the uninitialised local variable. *)
Definition md5_csum (ctx : md5_context) (input : list Z) (ilen : Z) : option (list Z) :=
  ctx ← md5_update (md5_starts ctx) input ilen;
  md5_finish ctx.

Definition lib_md5_checksum (ctx : md5_context) (inp : list Z) (inlen : Z) : option (list Z) :=
  md5_csum ctx inp inlen.

End Code.

(** ** RFC 1321 *)

(** The sine of [x] radians in units of 2^-256: 200 terms of the series, enough
    for [x <= 64]. *)
Fixpoint sin_series (n : nat) (k x term acc : Z) : Z :=
  match n with
  | O => acc
  | S n => sin_series n (k + 2) x (- (term * x * x / ((k + 1) * (k + 2)))) (acc + term)
  end.

Definition rfc_T (i : Z) : Z := Z.abs (sin_series 200 1 (i + 1) ((i + 1) * 2 ^ 256) 0) / 2 ^ 224.

Definition rfc_k (i : Z) : Z :=
  if i <? 16 then i else if i <? 32 then (1 + 5 * i) mod 16
  else if i <? 48 then (5 + 3 * i) mod 16 else (7 * i) mod 16.

Definition rfc_s (i : Z) : Z :=
  aget (if i <? 16 then [7; 12; 17; 22] else if i <? 32 then [5; 9; 14; 20]
        else if i <? 48 then [4; 11; 16; 23] else [6; 10; 15; 21]) (i mod 4).

Definition not32 (x : Z) : Z := x .^ 0xFFFFFFFF.
Definition rotl32 (x n : Z) : Z := u32 (x ≪ n) .| (x ≫ (32 - n)).

Definition rfc_f (i x y z : Z) : Z :=
  if i <? 16 then (x .& y) .| (not32 x .& z)
  else if i <? 32 then (x .& z) .| (y .& not32 z)
  else if i <? 48 then x .^ y .^ z
  else y .^ (x .| not32 z).

Abbreviation digest := (Z * Z * Z * Z)%type.

Definition rfc_step (X : list Z) (h : digest) (i : Z) : digest :=
  let '(a, b, c, d) := h in
  (d, u32 (b + rotl32 (u32 (a + rfc_f i b c d + aget X (rfc_k i) + rfc_T i)) (rfc_s i)), b, c).

Definition le_word (l : list Z) : Z := foldr (fun b n => b + 256 * n) 0 l.

Definition rfc_block (h : digest) (data : list Z) : digest :=
  let X := map (fun i => le_word (take 4 (drop (Z.to_nat (4 * i)) data))) (seqZ 0 16) in
  let '(h0, h1, h2, h3) := h in
  let '(a, b, c, d) := fold_left (rfc_step X) (seqZ 0 64) h in
  (u32 (h0 + a), u32 (h1 + b), u32 (h2 + c), u32 (h3 + d)).

(** The first [n] blocks of [m], from the chaining value [h]. *)
Abbreviation absorb := (Prelude.absorb rfc_block).

Definition le_bytes (k : nat) (n : Z) : list Z :=
  map (fun i => n / 256 ^ Z.of_nat i mod 256) (seq 0 k).

Definition rfc_init : digest := (0x67452301, 0xEFCDAB89, 0x98BADCFE, 0x10325476).

(** One bit 1, zero bits up to 64 bits before a block boundary, the length of
    the message in bits modulo 2^64. *)
Definition rfc_pad (m : list Z) : list Z :=
  let len := Z.of_nat (length m) in
  m ++ [0x80] ++ replicate (Z.to_nat ((55 - len) mod 64)) 0 ++ le_bytes 8 (8 * len).

Definition md5_rfc1321 (m : list Z) : list Z :=
  let p := rfc_pad m in
  let '(a, b, c, d) := absorb (length p / 64) p rfc_init in
  le_bytes 4 a ++ le_bytes 4 b ++ le_bytes 4 c ++ le_bytes 4 d.

Definition junk : md5_context := mk_md5 1 2 [3; 4; 5; 6] (replicate 64 7).

Example md5_abc : @lib_md5_checksum lp64 junk [97; 98; 99] 3 = Some (md5_rfc1321 [97; 98; 99]).
Proof. vm_compute. reflexivity. Qed.
Example rfc_abc : md5_rfc1321 [97; 98; 99] =
  [0x90; 0x01; 0x50; 0x98; 0x3c; 0xd2; 0x4f; 0xb0; 0xd6; 0x96; 0x3f; 0x7d; 0x28; 0xe1; 0x7f; 0x72].
Proof. vm_compute. reflexivity. Qed.

(** ** Arithmetic modulo 2^32 *)

Ltac u32_sides :=
  match goal with
  | |- _ <= _ => lia
  | |- is_u _ (_ .| _) => apply is_u_lor; u32_sides
  | |- is_u _ (_ .^ _) => apply is_u_lxor; u32_sides
  | |- is_u _ (_ .& _) => apply is_u_land_r; u32_sides
  | |- is_u _ (_ ≫ _) => apply is_u_shiftr; u32_sides
  | |- is_u _ (u32 _) => apply is_u_u32
  | |- is_u _ _ => done
  end.

(** Equality of 32-bit values, bit by bit. *)
Ltac u32_ext i Hi := apply (is_u_inj 32); [lia|u32_sides|u32_sides|]; intros i Hi.

Section Low32.
Context `{Arch}.

Lemma u32_bits x y : (forall i, 0 <= i < 32 -> Z.testbit x i = Z.testbit y i) -> u32 x = u32 y.
Proof.
  intros Hxy. u32_ext i Hi. zbit_norm. rewrite Hxy by lia. done.
Qed.

Lemma u32_ul x : u32 (ul x) = u32 x.
Proof. apply u32_bits; intros i Hi. unfold ul. pose proof long_bits_32. zbit_same. Qed.

Lemma u32_idem x : u32 (u32 x) = u32 x.
Proof. apply uwrap_small. auto with zbits. Qed.

Lemma u32_add x y : u32 (x + y) = u32 (u32 x + u32 y).
Proof. apply Zplus_mod. Qed.

Lemma u32_lxor x y : u32 (x .^ y) = u32 x .^ u32 y.
Proof. u32_ext i Hi. zbit_same. Qed.

Lemma u32_lor x y : u32 (x .| y) = u32 x .| u32 y.
Proof. u32_ext i Hi. zbit_same. Qed.

Lemma u32_land x y : u32 (x .& y) = u32 x .& u32 y.
Proof. u32_ext i Hi. zbit_same. Qed.

Lemma testbit_mask32 i : 0 <= i -> Z.testbit 0xFFFFFFFF i = (i <? 32).
Proof. intros Hi. change 0xFFFFFFFF with (Z.ones 32). by rewrite Z.testbit_ones_nonneg by lia. Qed.

Lemma land_mask32 x : x .& 0xFFFFFFFF = u32 x.
Proof. change 0xFFFFFFFF with (Z.ones 32). by rewrite Z.land_ones by lia. Qed.

Lemma u32_not x : u32 (Z.lnot x) = not32 (u32 x).
Proof.
  unfold not32. u32_ext i Hi. zbit_norm. rewrite testbit_mask32, Z.lnot_spec by lia.
  rewrite !(proj2 (Z.ltb_lt i 32)) by lia. by destruct (Z.testbit x i).
Qed.

Lemma u32_S x s : 0 < s < 32 -> u32 (MD5_S x s) = rotl32 (u32 x) s.
Proof.
  intros Hs. unfold MD5_S, rotl32. rewrite land_mask32.
  u32_ext i Hi. unfold shl, ul. pose proof long_bits_32. zbit_norm.
  destruct (Z.ltb_spec i s); [|rewrite testbit_uwrap by lia]; zbit_out; zbit_simpl; done.
Qed.
End Low32.

(** ** The block function *)

(** The low halves of the variables, in the order of a call's arguments. *)
Definition view (o : reg * reg * reg * reg) (r : regs) : digest :=
  let '(a, b, c, d) := o in (u32 (rget r a), u32 (rget r b), u32 (rget r c), u32 (rget r d)).

Definition turn (o : reg * reg * reg * reg) : reg * reg * reg * reg :=
  let '(a, b, c, d) := o in (d, a, b, c).

(** The calls follow the RFC: variables in turn, index, shift and constant of
    each step. *)
Fixpoint calls_ok (o : reg * reg * reg * reg) (i : Z) (cs : list call) : bool :=
  match cs with
  | [] => true
  | (a, b, c, d, k, s, t) :: cs =>
      bool_decide ((a, b, c, d) = o) && bool_decide (a <> b /\ a <> c /\ a <> d)
      && (k =? rfc_k i) && (s =? rfc_s i) && (0 <? s) && (s <? 32) && (t =? rfc_T i)
      && calls_ok (turn o) (i + 1) cs
  end.

Section Block.
Context `{Arch}.

Lemma rget_rset_eq r a v : rget (rset r a v) a = v.
Proof. by destruct a. Qed.

Lemma rget_rset_ne r a b v : a <> b -> rget (rset r a v) b = rget r b.
Proof. by destruct a, b. Qed.

Lemma P_step F X r a b c d k s t i : a <> b -> a <> c -> a <> d -> 0 < s < 32 ->
  k = rfc_k i -> s = rfc_s i -> t = rfc_T i ->
  (forall x y z, u32 (F x y z) = rfc_f i (u32 x) (u32 y) (u32 z)) ->
  view (d, a, b, c) (P F X r (a, b, c, d, k, s, t)) = rfc_step X (view (a, b, c, d) r) i.
Proof.
  intros Hb Hc Hd Hs Hk Hsi Ht HF. unfold view, P, rfc_step.
  rewrite !rget_rset_eq, !(rget_rset_ne _ a) by done. do 3 f_equal.
  rewrite u32_ul, (u32_add (MD5_S _ _)), u32_S, u32_ul, <- Hsi by done.
  rewrite Z.add_comm. do 2 f_equal. f_equal.
  rewrite <- HF, <- Hk, <- Ht.
  rewrite <- !Z.add_assoc, Z.add_assoc, (Z.add_assoc (u32 _)).
  by rewrite u32_add, (u32_add (rget r a)), <- u32_add.
Qed.

(** A run of calls from step [i] on, with one [F]. *)
Lemma calls_run F X cs : forall o i r, calls_ok o i cs = true ->
  (forall j, i <= j < i + Z.of_nat (length cs) ->
   forall x y z, u32 (F x y z) = rfc_f j (u32 x) (u32 y) (u32 z)) ->
  view (Nat.iter (length cs) turn o) (fold_left (P F X) cs r) =
  fold_left (rfc_step X) (seqZ i (Z.of_nat (length cs))) (view o r).
Proof.
  induction cs as [|[[[[[[a b] c] d] k] s] t] cs IH]; intros o i r Hcs HF; [done|].
  cbn [calls_ok] in Hcs. rewrite !andb_true_iff, !bool_decide_eq_true in Hcs.
  destruct Hcs as [[[[[[[<- (Hb & Hc & Hd)] Hk] Hs] Hs1] Hs2] Ht] Hcs].
  apply Z.eqb_eq in Hk, Hs, Ht. apply Z.ltb_lt in Hs1, Hs2.
  cbn [length] in *. rewrite Nat.iter_succ_r, seqZ_cons by lia. cbn [fold_left].
  rewrite <- (P_step F X r a b c d k s t i Hb Hc Hd (conj Hs1 Hs2) Hk Hs Ht)
    by (intros; apply HF; lia).
  rewrite (IH _ _ _ Hcs) by (intros; apply HF; lia). do 2 f_equal. lia.
Qed.

(** A round: sixteen calls, after which the variables are in order again. *)
Lemma round_run F X cs i r : length cs = 16%nat -> calls_ok (rA, rB, rC, rD) i cs = true ->
  (forall j, i <= j < i + 16 ->
   forall x y z, u32 (F x y z) = rfc_f j (u32 x) (u32 y) (u32 z)) ->
  view (rA, rB, rC, rD) (fold_left (P F X) cs r) =
  fold_left (rfc_step X) (seqZ i 16) (view (rA, rB, rC, rD) r).
Proof.
  intros Hl Hcs HF. pose proof (calls_run F X cs (rA, rB, rC, rD) i r Hcs) as E.
  rewrite Hl in E. by apply E.
Qed.

Lemma F1_ok j x y z : 0 <= j < 16 -> u32 (F1 x y z) = rfc_f j (u32 x) (u32 y) (u32 z).
Proof.
  intros Hj. unfold F1, rfc_f. rewrite (proj2 (Z.ltb_lt j 16)) by lia.
  unfold not32. u32_ext i Hi. zbit_norm. rewrite testbit_mask32 by lia. zbit_out. btauto.
Qed.

Lemma F2_ok j x y z : 16 <= j < 32 -> u32 (F2 x y z) = rfc_f j (u32 x) (u32 y) (u32 z).
Proof.
  intros Hj. unfold F2, rfc_f.
  rewrite (proj2 (Z.ltb_ge j 16)), (proj2 (Z.ltb_lt j 32)) by lia.
  unfold not32. u32_ext i Hi. zbit_norm. rewrite testbit_mask32 by lia. zbit_out. btauto.
Qed.

Lemma F3_ok j x y z : 32 <= j < 48 -> u32 (F3 x y z) = rfc_f j (u32 x) (u32 y) (u32 z).
Proof.
  intros Hj. unfold F3, rfc_f.
  rewrite (proj2 (Z.ltb_ge j 16)), (proj2 (Z.ltb_ge j 32)), (proj2 (Z.ltb_lt j 48)) by lia.
  by rewrite !u32_lxor.
Qed.

Lemma F4_ok j x y z : 48 <= j < 64 -> u32 (F4 x y z) = rfc_f j (u32 x) (u32 y) (u32 z).
Proof.
  intros Hj. unfold F4, rfc_f.
  rewrite (proj2 (Z.ltb_ge j 16)), (proj2 (Z.ltb_ge j 32)), (proj2 (Z.ltb_ge j 48)) by lia.
  by rewrite u32_lxor, u32_lor, u32_ul, u32_not.
Qed.

Lemma calls_ok_rounds :
  calls_ok (rA, rB, rC, rD) 0 round1 = true /\ calls_ok (rA, rB, rC, rD) 16 round2 = true /\
  calls_ok (rA, rB, rC, rD) 32 round3 = true /\ calls_ok (rA, rB, rC, rD) 48 round4 = true.
Proof. refine (conj _ (conj _ (conj _ _))); eval_true. Qed.

Lemma seqZ_64 : seqZ 0 64 = seqZ 0 16 ++ seqZ 16 16 ++ seqZ 32 16 ++ seqZ 48 16.
Proof. reflexivity. Qed.

(** The 64 calls are the 64 steps. *)
Lemma calls_rfc X r :
  view (rA, rB, rC, rD)
    (fold_left (P F4 X) round4 (fold_left (P F3 X) round3
      (fold_left (P F2 X) round2 (fold_left (P F1 X) round1 r)))) =
  fold_left (rfc_step X) (seqZ 0 64) (view (rA, rB, rC, rD) r).
Proof.
  destruct calls_ok_rounds as (H1 & H2 & H3 & H4).
  rewrite (round_run F4 X round4 48 _ eq_refl H4) by (intros; apply F4_ok; lia).
  rewrite (round_run F3 X round3 32 _ eq_refl H3) by (intros; apply F3_ok; lia).
  rewrite (round_run F2 X round2 16 _ eq_refl H2) by (intros; apply F2_ok; lia).
  rewrite (round_run F1 X round1 0 _ eq_refl H1) by (intros; apply F1_ok; lia).
  rewrite seqZ_64, (fold_left_app (rfc_step X) (seqZ 0 16)),
    (fold_left_app (rfc_step X) (seqZ 16 16)), (fold_left_app (rfc_step X) (seqZ 32 16)).
  reflexivity.
Qed.
End Block.

(** ** Blocks read as little-endian words *)

Definition low32 (st : list Z) : digest :=
  (u32 (aget st 0), u32 (aget st 1), u32 (aget st 2), u32 (aget st 3)).

Lemma low32_4 a b c d : low32 [a; b; c; d] = (u32 a, u32 b, u32 c, u32 d).
Proof. done. Qed.

Lemma le_pack a b c d : is_byte a -> is_byte b -> is_byte c -> is_byte d ->
  a .| (b ≪ 8) .| (c ≪ 16) .| (d ≪ 24) = le_word [a; b; c; d].
Proof.
  intros Ha Hb Hc Hd.
  rewrite (lor_shift_add 8) by done.
  rewrite (lor_shift_add 16) by (unfold is_u in *; lia).
  rewrite (lor_shift_add 24) by (unfold is_u in *; lia).
  unfold le_word. cbn [foldr]. lia.
Qed.

Lemma GET_LE_word (data : list Z) i : bytes data -> 0 <= i -> (i + 4 <= Z.of_nat (length data)) ->
  GET_UINT32_LE data i = le_word (take 4 (drop (Z.to_nat i) data)).
Proof.
  intros Hb Hi Hl. unfold GET_UINT32_LE.
  rewrite le_pack by (apply is_u_aget; done || lia). rewrite take4_drop by lia. unfold aget.
  repeat f_equal; lia.
Qed.

Section Process.
Context `{Arch}.

Lemma md5_process_rfc ctx data : length data = 64%nat -> bytes data ->
  low32 (state (md5_process ctx data)) = rfc_block (low32 (state ctx)) data.
Proof.
  intros Hl Hb. unfold md5_process, rfc_block. cbn [state].
  rewrite (map_ext_in (fun i => GET_UINT32_LE data (4 * i))
    (fun i => le_word (take 4 (drop (Z.to_nat (4 * i)) data))) (seqZ 0 16)); cycle 1.
  { intros i Hi. apply list_elem_of_In, elem_of_seqZ in Hi. apply GET_LE_word; [done|lia..]. }
  set (X := map _ _). generalize X; clear X Hl Hb; intros X.
  set (r := mk_regs _ _ _ _). pose proof (calls_rfc X r) as E.
  change (view (rA, rB, rC, rD) r) with (low32 (state ctx)) in E. rewrite <- E.
  unfold low32 at 2. cbn [view rget]. rewrite low32_4, !u32_ul.
  by rewrite (u32_add _ (vA _)), (u32_add _ (vB _)), (u32_add _ (vC _)), (u32_add _ (vD _)).
Qed.
End Process.

(** ** Buffering *)

(** The chaining value covers [q] blocks of [m] and the buffer holds the [r]
    bytes after them. *)
Record blocks_of (q r : nat) (m : list Z) (ctx : md5_context) : Prop := {
  bo_length : length m = (64 * q + r)%nat;
  bo_state : low32 (state ctx) = absorb q m rfc_init;
  bo_size : length (buffer ctx) = 64%nat;
  bo_buffer : take r (buffer ctx) = drop (64 * q) m }.

(** The context after the bytes [m]. *)
Record rep (m : list Z) (ctx : md5_context) : Prop := {
  rep_bytes : bytes m;
  rep_total0 : total0 ctx = u32 (Z.of_nat (length m));
  rep_total1 : u32 (total1 ctx) = u32 (Z.of_nat (length m) / 2 ^ 32);
  rep_blocks : blocks_of (length m / 64) (length m mod 64) m ctx }.

Section Update.
Context `{Arch}.

Lemma read_take input n : 0 <= n <= Z.of_nat (length input) ->
  read input n = Some (take (Z.to_nat n) input).
Proof. intros Hn. unfold read. by rewrite bool_decide_eq_true_2 by lia. Qed.

Lemma buffer_put_ok ctx left input n : length (buffer ctx) = 64%nat ->
  0 <= left -> 0 <= n <= Z.of_nat (length input) -> left + n <= 64 ->
  buffer_put ctx left input n = Some (mk_md5 (total0 ctx) (total1 ctx) (state ctx)
    (take (Z.to_nat left) (buffer ctx) ++ take (Z.to_nat n) input ++
     drop (Z.to_nat (left + n)) (buffer ctx))).
Proof.
  intros Hb Hl Hn Hs. unfold buffer_put. rewrite read_take by done. cbn.
  unfold bcopy. rewrite length_take, Nat.min_l, bool_decide_eq_true_2 by lia. cbn.
  do 5 f_equal. lia.
Qed.

Lemma md5_blocks_end fuel ctx input ilen : ilen < 64 ->
  md5_blocks fuel ctx input ilen = Some (ctx, input, ilen).
Proof. intros Hi. destruct fuel; cbn [md5_blocks]; by destruct (Z.leb_spec 64 ilen); [lia|]. Qed.

Lemma md5_blocks_step fuel ctx input ilen : 64 <= ilen <= Z.of_nat (length input) ->
  md5_blocks (S fuel) ctx input ilen =
  md5_blocks fuel (md5_process ctx (take 64 input)) (drop 64 input) (ilen - 64).
Proof.
  intros Hi. cbn [md5_blocks]. rewrite (proj2 (Z.leb_le _ _)), read_take by lia. reflexivity.
Qed.

Lemma md5_blocks_ok fuel : forall ctx input ilen,
  0 <= ilen <= Z.of_nat (length input) -> ilen / 64 <= Z.of_nat fuel -> bytes input ->
  exists ctx', md5_blocks fuel ctx input ilen =
      Some (ctx', drop (Z.to_nat (64 * (ilen / 64))) input, ilen mod 64) /\
    total0 ctx' = total0 ctx /\ total1 ctx' = total1 ctx /\ buffer ctx' = buffer ctx /\
    low32 (state ctx') = absorb (Z.to_nat (ilen / 64)) input (low32 (state ctx)).
Proof.
  induction fuel as [|fuel IH]; intros ctx input ilen Hi Hf Hb;
    destruct (Z.ltb_spec ilen 64) as [Hs|Hs].
  1,3: exists ctx; by rewrite md5_blocks_end, Z.div_small, Z.mod_small by lia.
  { zdm. }
  rewrite md5_blocks_step by lia.
  destruct (IH (md5_process ctx (take 64 input)) (drop 64 input) (ilen - 64))
    as (ctx' & E & E0 & E1 & E2 & E3); [rewrite length_drop; lia|zdm|by apply Forall_drop|].
  exists ctx'. rewrite E, E0, E1, E2, E3.
  rewrite drop_drop, md5_process_rfc by first [by apply Forall_take | rewrite length_take; lia].
  replace (Z.to_nat (ilen / 64)) with (S (Z.to_nat ((ilen - 64) / 64))) by zdm.
  replace (ilen mod 64) with ((ilen - 64) mod 64) by zdm. rewrite absorb_S.
  replace (Z.to_nat (64 * (ilen / 64))) with (64 + Z.to_nat (64 * ((ilen - 64) / 64)))%nat by zdm.
  split_and!; reflexivity.
Qed.

Lemma buffer_put_blocks q r m ctx input n : blocks_of q r m ctx ->
  0 <= n <= Z.of_nat (length input) -> Z.of_nat r + n <= 64 ->
  exists ctx', buffer_put ctx (Z.of_nat r) input n = Some ctx' /\
    total0 ctx' = total0 ctx /\ total1 ctx' = total1 ctx /\
    blocks_of q (r + Z.to_nat n) (m ++ take (Z.to_nat n) input) ctx'.
Proof.
  intros [Hl Hs Hb Hr] Hn Hf. rewrite buffer_put_ok by lia. eexists. split; [reflexivity|].
  split_and!; [reflexivity..|]. rewrite Nat2Z.id. split; cbn [state buffer].
  - rewrite length_app, length_take. lia.
  - by rewrite absorb_app by lia.
  - rewrite !length_app, !length_take, length_drop. lia.
  - rewrite drop_app_le, <- Hr, app_assoc, take_app_length' by
      (rewrite ?length_app, ?length_take; lia). done.
Qed.

Lemma process_blocks q m ctx : blocks_of q 64 m ctx -> bytes m ->
  blocks_of (q + 1) 0 m (md5_process ctx (buffer ctx)).
Proof.
  intros [Hl Hs Hb Hr] Hm. rewrite take_ge in Hr by lia. split; [lia| |exact Hb|].
  - rewrite md5_process_rfc, Hs by (done || rewrite Hr; by apply Forall_drop).
    rewrite absorb_add, absorb_S, Hr, take_ge by (rewrite length_drop; lia). reflexivity.
  - rewrite drop_ge by lia. reflexivity.
Qed.

(** The loop and the last copy, from a block boundary. *)
Lemma rest_blocks q m ctx input ilen : blocks_of q 0 m ctx -> bytes input ->
  0 <= ilen <= Z.of_nat (length input) ->
  exists ctx',
    ('(ctx, input, ilen) ← md5_blocks (Z.to_nat (ilen / 64)) ctx input ilen;
     if 0 <? ilen then buffer_put ctx 0 input ilen else Some ctx) = Some ctx' /\
    total0 ctx' = total0 ctx /\ total1 ctx' = total1 ctx /\
    blocks_of (q + Z.to_nat (ilen / 64)) (Z.to_nat (ilen mod 64))
      (m ++ take (Z.to_nat ilen) input) ctx'.
Proof.
  intros Hq Hin Hi.
  destruct (md5_blocks_ok (Z.to_nat (ilen / 64)) ctx input ilen)
    as (c1 & -> & E0 & E1 & E2 & E3); [done|zdm|done|]. cbn [mbind option_bind].
  assert (exists k, k = Z.to_nat (ilen / 64)) as [k Ek] by eauto. rewrite <- Ek in *.
  assert (Z.of_nat k = ilen / 64) by zdm. clear Ek.
  replace (Z.to_nat (64 * (ilen / 64))) with (64 * k)%nat by zdm.
  assert (blocks_of (q + k) 0 (m ++ take (64 * k) input) c1) as Hk.
  { destruct Hq as [Hl Hs Hb _]. split; rewrite ?E2.
    - rewrite length_app, length_take. zdm.
    - rewrite E3, Hs, absorb_add, absorb_app, drop_app_length' by lia.
      rewrite <- (take_drop (64 * k) input) at 1. apply absorb_app.
      rewrite length_take. zdm.
    - done.
    - rewrite drop_ge by (rewrite length_app, length_take; zdm). reflexivity. }
  assert (take (Z.to_nat ilen) input =
    take (64 * k) input ++ take (Z.to_nat (ilen mod 64)) (drop (64 * k) input)) as ->.
  { rewrite take_take_drop. f_equal. zdm. }
  destruct (Z.ltb_spec 0 (ilen mod 64)) as [Hpos|Hz].
  - destruct (buffer_put_blocks _ _ _ _ (drop (64 * k) input) (ilen mod 64) Hk)
      as (c2 & F & F0 & F1 & F2); [rewrite length_drop; zdm|zdm|].
    change (Z.of_nat 0) with 0 in F. exists c2. rewrite app_assoc, F0, F1, F. split_and!; (reflexivity || assumption).
  - exists c1. replace (Z.to_nat (ilen mod 64)) with 0%nat by zdm.
    rewrite take_0, app_nil_r. split_and!; (reflexivity || assumption).
Qed.

Lemma left_mod m ctx : rep m ctx -> total0 ctx .& 0x3F = Z.of_nat (length m mod 64).
Proof.
  intros [_ H0 _ _]. rewrite H0. change 0x3F with (Z.ones 6). rewrite Z.land_ones by lia.
  unfold u32, uwrap. rewrite Nat2Z.inj_mod. change (2 ^ 6) with 64. change (2 ^ 32) with 4294967296.
  change (Z.of_nat 64) with 64. zdm.
Qed.

(** The byte counters count. *)
Lemma totals_add (n ilen t1 : Z) : 0 <= n -> 0 < ilen < 2 ^ 32 -> u32 t1 = u32 (n / 2 ^ 32) ->
  let t0 := ul (u32 n + ilen) .& 0xFFFFFFFF in
  t0 = u32 (n + ilen) /\
  u32 (if t0 <? ilen then ul (t1 + 1) else t1) = u32 ((n + ilen) / 2 ^ 32).
Proof.
  intros Hn Hi Ht t0. unfold t0. rewrite land_mask32, u32_ul.
  assert (u32 (u32 n + ilen) = u32 (n + ilen)) as -> by (apply Zplus_mod_idemp_l).
  split; [reflexivity|]. change (2 ^ 32) with 4294967296 in *.
  assert ((n + ilen) / 4294967296 =
    n / 4294967296 + (if u32 (n + ilen) <? ilen then 1 else 0)) as ->.
  { unfold u32, uwrap. change (2 ^ 32) with 4294967296.
    destruct (Z.ltb_spec ((n + ilen) mod 4294967296) ilen); zdm. }
  destruct (_ <? _); [|by rewrite Z.add_0_r]. by rewrite u32_ul, u32_add, Ht, <- u32_add.
Qed.

Lemma blocks_rep q r m ctx t0 t1 : blocks_of q r m ctx -> (r < 64)%nat -> bytes m ->
  total0 ctx = t0 -> total1 ctx = t1 ->
  t0 = u32 (Z.of_nat (length m)) -> u32 t1 = u32 (Z.of_nat (length m) / 2 ^ 32) -> rep m ctx.
Proof.
  intros Hb Hr Hm <- <- H0 H1. split; [done..|]. pose proof (bo_length _ _ _ _ Hb) as Hl.
  replace (length m / 64)%nat with q by (apply (Nat.div_unique _ _ _ r); lia).
  replace (length m mod 64)%nat with r by (apply (Nat.mod_unique _ _ q); lia). done.
Qed.

Lemma md5_absorb_blocks q r m ctx input ilen : blocks_of q r m ctx -> (r < 64)%nat ->
  bytes m -> bytes input -> 0 < ilen <= Z.of_nat (length input) ->
  exists ctx' q' r', md5_absorb ctx (Z.of_nat r) input ilen = Some ctx' /\
    total0 ctx' = total0 ctx /\ total1 ctx' = total1 ctx /\ (r' < 64)%nat /\
    blocks_of q' r' (m ++ take (Z.to_nat ilen) input) ctx'.
Proof.
  intros Hq Hr Hm Hin Hi. unfold md5_absorb. cbv zeta.
  destruct (Z.eqb_spec (Z.of_nat r) 0) as [Hr0|Hr0]; [|destruct (Z.leb_spec (64 - Z.of_nat r) ilen)];
    cbn [negb andb mbind option_bind].
  - assert (r = 0%nat) as -> by lia. change (Z.of_nat 0) with 0.
    destruct (rest_blocks q m ctx input ilen) as (c & -> & R0 & R1 & R2); [done..|lia|].
    eexists _, _, _. split_and!; [reflexivity|done|done| |exact R2]. zdm.
  - destruct (buffer_put_blocks _ _ _ _ input (64 - Z.of_nat r) Hq) as (c & -> & C0 & C1 & C2);
      [lia..|]. cbn [mbind option_bind]. set (n := Z.to_nat (64 - Z.of_nat r)) in *.
    replace (r + n)%nat with 64%nat in C2 by lia.
    apply process_blocks in C2; [|by apply Forall_app, conj, Forall_take].
    destruct (rest_blocks _ _ _ (drop n input) (ilen - (64 - Z.of_nat r)) C2)
      as (c2 & -> & R0 & R1 & R2); [by apply Forall_drop|rewrite length_drop; lia|].
    eexists _, _, _. split_and!; [reflexivity|by rewrite <- C0|by rewrite <- C1|  |].
    2: { rewrite <- app_assoc, take_take_drop in R2.
         replace (n + _)%nat with (Z.to_nat ilen) in R2 by lia. exact R2. }
    zdm.
  - rewrite md5_blocks_end by lia. cbn [mbind option_bind].
    rewrite (proj2 (Z.ltb_lt 0 ilen)) by lia.
    destruct (buffer_put_blocks _ _ _ _ input ilen Hq) as (c & -> & C0 & C1 & C2); [lia..|].
    eexists _, _, _. split_and!; [reflexivity|done|done| |exact C2]. lia.
Qed.

(** An update appends its input to what the context stands for. *)
Lemma md5_update_rep m ctx input ilen : rep m ctx -> bytes input ->
  ilen <= Z.of_nat (length input) -> ilen < 2 ^ 32 ->
  exists ctx', md5_update ctx input ilen = Some ctx' /\
    rep (m ++ take (Z.to_nat ilen) input) ctx'.
Proof.
  intros Hm Hin Hi Hmax. unfold md5_update. destruct (Z.leb_spec ilen 0) as [Hneg|Hpos].
  { exists ctx. replace (Z.to_nat ilen) with 0%nat by lia. by rewrite take_0, app_nil_r. }
  rewrite (left_mod m) by done. destruct Hm as [Hb H0 H1 Hblk]. rewrite H0.
  destruct (totals_add (Z.of_nat (length m)) ilen (total1 ctx)) as [T0 T1]; [lia..|done|].
  cbv zeta in *. set (t0 := ul _ .& _) in *. set (t1 := if t0 <? ilen then _ else _) in *.
  destruct (md5_absorb_blocks (length m / 64) (length m mod 64) m
    (mk_md5 t0 t1 (state ctx) (buffer ctx)) input ilen) as (c & q & r & -> & C0 & C1 & Hr & Hc);
    [by destruct Hblk|apply Nat.mod_upper_bound; lia|done..|].
  assert (Z.of_nat (length (m ++ take (Z.to_nat ilen) input)) = Z.of_nat (length m) + ilen) as Hl
    by (rewrite length_app, length_take; lia).
  exists c. split; [done|]. apply (blocks_rep _ _ _ _ t0 t1 Hc Hr); [|done|done|..].
  - by apply Forall_app, conj, Forall_take.
  - by rewrite Hl.
  - by rewrite Hl.
Qed.

Lemma md5_starts_rep ctx : length (buffer ctx) = 64%nat -> rep [] (md5_starts ctx).
Proof. intros Hb. split; [constructor|done|done|]. by split. Qed.

(** ** Padding and output *)

Lemma le_byte x i : x / 256 ^ Z.of_nat i mod 256 = u8 (x ≫ (8 * Z.of_nat i)).
Proof.
  unfold u8, uwrap. rewrite Z.shiftr_div_pow2, Z.pow_mul_r by lia. reflexivity.
Qed.

Lemma le_bytes_bytes k x : bytes (le_bytes k x).
Proof. apply Forall_map, Forall_true. intros i. rewrite le_byte. apply is_u_u8. Qed.

Lemma PUT_LE_bytes x : PUT_UINT32_LE x = le_bytes 4 (u32 x).
Proof.
  unfold le_bytes. cbn [map seq]. rewrite !le_byte. unfold PUT_UINT32_LE.
  repeat apply u8_cons; [..|reflexivity]; intros i Hi; zbit_same.
Qed.

Lemma u32_eq_bit x y k : u32 x = u32 y -> 0 <= k < 32 -> Z.testbit x k = Z.testbit y k.
Proof.
  intros E Hk. apply (f_equal (fun n => Z.testbit n k)) in E. revert E. zbit_norm. zbit_out. done.
Qed.

(** The two counters hold the length in bits. *)
Lemma msglen_bytes n t1 : 0 <= n -> u32 t1 = u32 (n / 2 ^ 32) ->
  PUT_UINT32_LE (shl (u32 n) 3) ++ PUT_UINT32_LE ((u32 n ≫ 29) .| shl t1 3) = le_bytes 8 (8 * n).
Proof.
  intros Hn Ht. rewrite <- (Z.shiftr_div_pow2 n 32) in Ht by lia.
  replace (8 * n) with (n ≪ 3) by (rewrite Z.shiftl_mul_pow2 by lia; change (2 ^ 3) with 8; lia).
  unfold le_bytes. cbn [map seq]. rewrite !le_byte. unfold PUT_UINT32_LE, shl, ul. cbn [app].
  pose proof long_bits_32.
  assert (forall k, 0 <= k < 32 -> Z.testbit t1 k = Z.testbit n (k + 32)) as Hbit.
  { intros k Hk. rewrite (u32_eq_bit _ _ k Ht Hk). zbit_norm. done. }
  repeat apply u8_cons; [..|reflexivity]; intros i Hi; zbit_norm.
  all: destruct (Z.ltb_spec i 3); rewrite ?Hbit, ?testbit_uwrap by lia;
    zbit_out; zbit_simpl; try reflexivity; f_equal; lia.
Qed.

Lemma take_padding p : 1 <= p <= 64 ->
  take (Z.to_nat p) md5_padding = 0x80 :: replicate (Z.to_nat (p - 1)) 0.
Proof.
  intros Hp. replace (Z.to_nat p) with (S (Z.to_nat (p - 1))) by lia.
  unfold md5_padding. rewrite firstn_cons, take_replicate. do 2 f_equal. lia.
Qed.

Lemma length_rfc_pad m : exists q, length (rfc_pad m) = (64 * q)%nat.
Proof.
  exists (Z.to_nat ((Z.of_nat (length m) + 72) / 64)). unfold rfc_pad, le_bytes.
  rewrite !length_app, length_replicate, length_map, length_seq. cbn [length]. zdm.
Qed.

Lemma md5_finish_rep m ctx : rep m ctx -> md5_finish ctx = Some (md5_rfc1321 m).
Proof.
  intros Hm. unfold md5_finish. cbv zeta. rewrite (left_mod m) by done.
  destruct (Hm) as [Hb H0 H1 _]. rewrite H0, msglen_bytes by (done || lia).
  set (n := Z.of_nat (length m)) in *. set (l := Z.of_nat (length m mod 64)).
  assert (l = n mod 64) as Hl by (unfold l, n; by rewrite Nat2Z.inj_mod).
  set (p := if l <? 56 then 56 - l else 120 - l).
  assert (1 <= p <= 64 /\ p - 1 = (55 - n) mod 64) as [Hp Hp1].
  { unfold p. destruct (Z.ltb_spec l 56); zdm. }
  destruct (md5_update_rep m ctx md5_padding p) as (c1 & -> & R1);
    [done|by repeat constructor|cbn; lia|lia|]. cbn [mbind option_bind].
  rewrite take_padding, Hp1 in R1 by done.
  destruct (md5_update_rep _ c1 (le_bytes 8 (8 * n)) 8 R1) as (c2 & -> & R2);
    [apply le_bytes_bytes|reflexivity..|]. cbn [mbind option_bind].
  rewrite take_ge in R2 by reflexivity. rewrite <- app_assoc in R2.
  change (rep (rfc_pad m) c2) in R2. f_equal. rewrite !PUT_LE_bytes. unfold md5_rfc1321.
  rewrite <- (bo_state _ _ _ _ (rep_blocks _ _ R2)). reflexivity.
Qed.

(** Updates in sequence, each with the whole of its buffer. *)
Definition md5_updates (ctx : md5_context) (chunks : list (list Z)) : option md5_context :=
  fold_left (fun c ch => ctx ← c; md5_update ctx ch (Z.of_nat (length ch))) chunks (Some ctx).

Lemma md5_updates_rep chunks : forall m ctx, rep m ctx -> Forall bytes chunks ->
  Forall (fun ch => Z.of_nat (length ch) <= int_max) chunks ->
  exists ctx', md5_updates ctx chunks = Some ctx' /\ rep (m ++ concat chunks) ctx'.
Proof.
  induction chunks as [|ch chunks IH]; intros m ctx Hm Hb Hl.
  { exists ctx. by rewrite app_nil_r. }
  apply Forall_cons in Hb as [Hb Hbs]. apply Forall_cons in Hl as [Hl Hls].
  destruct (md5_update_rep m ctx ch (Z.of_nat (length ch))) as (c & E & Hc);
    [done|done|lia|unfold int_max in Hl; lia|].
  unfold md5_updates. cbn [fold_left mbind option_bind concat]. rewrite E.
  rewrite Nat2Z.id, take_ge in Hc by lia. rewrite app_assoc. by apply IH.
Qed.
End Update.

(** ** Theorems *)

(** C8: Hashing a message in pieces gives the digest of the whole message: on
    both word widths, for any sequence of buffers an [int] length can describe,
    of any total length, [md5_starts], one [md5_update] per buffer and
    [md5_finish] read only their buffers and return the RFC 1321 digest of the
    concatenation, whatever the uninitialised context held. *)
Theorem md5_stream_rfc1321 `{Arch} (ctx : md5_context) (chunks : list (list Z)) :
  length (buffer ctx) = 64%nat -> Forall bytes chunks ->
  Forall (fun ch => Z.of_nat (length ch) <= int_max) chunks ->
  (ctx ← md5_updates (md5_starts ctx) chunks; md5_finish ctx) =
  Some (md5_rfc1321 (concat chunks)).
Proof.
  intros Hb Hch Hl.
  destruct (md5_updates_rep chunks [] _ (md5_starts_rep ctx Hb) Hch Hl) as (c & -> & Hc).
  by apply md5_finish_rep.
Qed.

(** [lib_md5_checksum] writes the RFC 1321 digest of the first [inlen] bytes
    of its input, on both word widths and for every [int] length; a negative
    length counts as zero. *)
Theorem lib_md5_checksum_rfc1321 `{Arch} (ctx : md5_context) (inp : list Z) (inlen : Z) :
  length (buffer ctx) = 64%nat -> bytes inp -> is_int inlen ->
  inlen <= Z.of_nat (length inp) ->
  lib_md5_checksum ctx inp inlen = Some (md5_rfc1321 (take (Z.to_nat inlen) inp)).
Proof.
  intros Hb Hin [_ Hi] Hl. unfold lib_md5_checksum, md5_csum.
  destruct (md5_update_rep [] _ inp inlen (md5_starts_rep ctx Hb) Hin Hl) as (c & -> & Hc);
    [unfold int_max in Hi; lia|]. by apply md5_finish_rep.
Qed.

Lemma md5_stream_rfc1321_witness :
  (ctx ← @md5_updates arm32 (md5_starts junk) [replicate 60 1; [2; 3]; replicate 70 4];
   @md5_finish arm32 ctx) = Some (md5_rfc1321 (replicate 60 1 ++ [2; 3] ++ replicate 70 4)).
Proof.
  apply (@md5_stream_rfc1321 arm32 junk [replicate 60 1; [2; 3]; replicate 70 4]);
    [reflexivity|eapply bool_decide_eq_true_1; vm_compute; reflexivity..].
Defined.

Lemma lib_md5_checksum_rfc1321_witness :
  @lib_md5_checksum lp64 junk [97; 98; 99] 3 = Some (md5_rfc1321 [97; 98; 99]).
Proof.
  apply (@lib_md5_checksum_rfc1321 lp64 junk [97; 98; 99] 3);
    [reflexivity|eapply bool_decide_eq_true_1; vm_compute; reflexivity..].
Defined.
