(* ===== verification/Sha256.v ===== *)
(** * SHA-256 (src/sha204_test/sha256/newsha256.c, newsha256.h)

    The hash that checks the answers of the SHA204 chip, in the configuration
    that is compiled: little-endian words, byte-wise copies, one round per turn
    of the loop.  The context keeps the length of the message in bits as an
    [unsigned long], 32 bits wide on the ARM boards.  The specification is
    FIPS 180-4, with its constants computed from the roots of the primes.  The
    theorem: hashing in any pieces gives the FIPS digest as long as the length
    in bits fits [unsigned long], and otherwise the digest of a padding with
    the wrapped length.  [burnStack], which only clears dead stack, is left
    out. *)

From S2P Require Import Prelude.

(** ** Context *)

Record SHA256Context := mk_sha {
  totalLength : Z;      (* unsigned long *)
  hash : list Z;        (* uint32_t hash[8] *)
  bufferLength : Z;     (* uint32_t *)
  buffer : list Z       (* the union, as its 64 bytes *) }.

(** ** Macros on [uint32_t] *)

Definition ROTL (x n : Z) : Z := u32 (x ≪ n) .| (x ≫ (32 - n)).
Definition ROTR (x n : Z) : Z := (x ≫ n) .| u32 (x ≪ (32 - n)).

Definition Ch (x y z : Z) : Z := z .^ (x .& (y .^ z)).
Definition Maj (x y z : Z) : Z := (x .& (y .| z)) .| (y .& z).
Definition SIGMA0 (x : Z) : Z := ROTR x 2 .^ ROTR x 13 .^ ROTR x 22.
Definition SIGMA1 (x : Z) : Z := ROTR x 6 .^ ROTR x 11 .^ ROTR x 25.
Definition sigma0 (x : Z) : Z := ROTR x 7 .^ ROTR x 18 .^ (x ≫ 3).
Definition sigma1 (x : Z) : Z := ROTR x 17 .^ ROTR x 19 .^ (x ≫ 10).

Definition BYTESWAP (x : Z) : Z := (ROTR x 8 .& 0xff00ff00) .| (ROTL x 8 .& 0x00ff00ff).

Definition _byteswap64 (x : Z) : Z :=
  let a := u32 (x ≫ 32) in
  let b := u32 x in
  (BYTESWAP b ≪ 32) .| BYTESWAP a.

Record vars := mk_vars { va : Z; vb : Z; vc : Z; vd : Z; ve : Z; vf : Z; vg : Z; vh : Z }.

(** One round, with the values that [Kp] and [W] point to. *)
Definition DO_ROUND (v : vars) (kw : Z * Z) : vars :=
  let t1 := u32 (vh v + SIGMA1 (ve v) + Ch (ve v) (vf v) (vg v) + fst kw + snd kw) in
  let t2 := u32 (SIGMA0 (va v) + Maj (va v) (vb v) (vc v)) in
  mk_vars (u32 (t1 + t2)) (va v) (vb v) (vc v) (u32 (vd v + t1)) (ve v) (vf v) (vg v).

(** The rows of the source. *)
Definition K : list Z := concat
  [[0x428A2F98; 0x71374491; 0xB5C0FBCF; 0xE9B5DBA5]; [0x3956C25B; 0x59F111F1; 0x923F82A4; 0xAB1C5ED5];
   [0xD807AA98; 0x12835B01; 0x243185BE; 0x550C7DC3]; [0x72BE5D74; 0x80DEB1FE; 0x9BDC06A7; 0xC19BF174];
   [0xE49B69C1; 0xEFBE4786; 0x0FC19DC6; 0x240CA1CC]; [0x2DE92C6F; 0x4A7484AA; 0x5CB0A9DC; 0x76F988DA];
   [0x983E5152; 0xA831C66D; 0xB00327C8; 0xBF597FC7]; [0xC6E00BF3; 0xD5A79147; 0x06CA6351; 0x14292967];
   [0x27B70A85; 0x2E1B2138; 0x4D2C6DFC; 0x53380D13]; [0x650A7354; 0x766A0ABB; 0x81C2C92E; 0x92722C85];
   [0xA2BFE8A1; 0xA81A664B; 0xC24B8B70; 0xC76C51A3]; [0xD192E819; 0xD6990624; 0xF40E3585; 0x106AA070];
   [0x19A4C116; 0x1E376C08; 0x2748774C; 0x34B0BCB5]; [0x391C0CB3; 0x4ED8AA4A; 0x5B9CCA4F; 0x682E6FF3];
   [0x748F82EE; 0x78A5636F; 0x84C87814; 0x8CC70208]; [0x90BEFFFA; 0xA4506CEB; 0xBEF9A3F7; 0xC67178F2]].

Definition padding : list Z := 0x80 :: replicate 63 0.

(** ** The block function *)

(** One turn of the second loop; [buf] holds the words written so far and [W]
    is its end, so that [W2], [W7], [W15] and [W16] are 2, 7, 15 and 16 words
    before it. *)
Definition expand_step (buf : list Z) (W : Z) : list Z :=
  buf ++ [u32 (sigma1 (aget buf (W - 2)) + aget buf (W - 7) +
               sigma0 (aget buf (W - 15)) + aget buf (W - 16))].

(** [sc->hash[0] += a;] and so on. *)
Definition add_vars (h : list Z) (v : vars) : list Z :=
  [u32 (aget h 0 + va v); u32 (aget h 1 + vb v); u32 (aget h 2 + vc v); u32 (aget h 3 + vd v);
   u32 (aget h 4 + ve v); u32 (aget h 5 + vf v); u32 (aget h 6 + vg v); u32 (aget h 7 + vh v)].

(** [cbuf] is given by its bytes: [*cbuf] is a load of four of them. *)
Definition SHA256Guts (h : list Z) (cbuf : list Z) : list Z :=
  let buf := map (fun i => BYTESWAP (GET_UINT32_LE cbuf (4 * i))) (seqZ 0 16) in
  let buf := fold_left expand_step (seqZ 16 48) buf in
  let v := mk_vars (aget h 0) (aget h 1) (aget h 2) (aget h 3)
                   (aget h 4) (aget h 5) (aget h 6) (aget h 7) in
  add_vars h (fold_left DO_ROUND (zip K buf) v).

Definition SHA256Init (sc : SHA256Context) : SHA256Context :=
  mk_sha 0 [0x6a09e667; 0xbb67ae85; 0x3c6ef372; 0xa54ff53a; 0x510e527f; 0x9b05688c; 0x1f83d9ab; 0x5be0cd19]
    0 (buffer sc).

Section Code.
Context `{Arch}.

(** One turn of [while (len)]: the context, the data left and its length. *)
Definition update_step (sc : SHA256Context) (data : list Z) (len : Z)
  : option (SHA256Context * list Z * Z) :=
  let bufferBytesLeft := u32 (64 - bufferLength sc) in
  let bytesToCopy := if len <? bufferBytesLeft then len else bufferBytesLeft in
  if Z.of_nat (length data) <? bytesToCopy then None
  else
    buf ← bcopy (buffer sc) (bufferLength sc) (take (Z.to_nat bytesToCopy) data);
    let total := ul (totalLength sc + ul (bytesToCopy * 8)) in
    let n := u32 (bufferLength sc + bytesToCopy) in
    let sc := if n =? 64 then mk_sha total (SHA256Guts (hash sc) buf) 0 buf
              else mk_sha total (hash sc) n buf in
    Some (sc, drop (Z.to_nat bytesToCopy) data, u32 (len - bytesToCopy)).

Fixpoint update_loop (fuel : nat) (sc : SHA256Context) (data : list Z) (len : Z)
  : option SHA256Context :=
  if len =? 0 then Some sc
  else match fuel with
       | O => None
       | S fuel => '(sc, data, len) ← update_step sc data len; update_loop fuel sc data len
       end.

(** Every turn copies a byte at least, so [len] turns are enough. *)
Definition SHA256Update (sc : SHA256Context) (data : list Z) (len : Z) : option SHA256Context :=
  update_loop (Z.to_nat len) sc data len.

(** The context left behind and the bytes stored at [hash], which is not NULL. *)
Definition SHA256Final (sc : SHA256Context) : option (SHA256Context * list Z) :=
  let bytesToPad := u32 (120 - bufferLength sc) in
  let bytesToPad := if 64 <? bytesToPad then u32 (bytesToPad - 64) else bytesToPad in
  let lengthPad := _byteswap64 (totalLength sc) in
  sc ← SHA256Update sc padding bytesToPad;
  sc ← SHA256Update sc (PUT_UINT32_LE lengthPad ++ PUT_UINT32_LE (lengthPad ≫ 32)) 8;
  Some (sc, concat (map (fun i => PUT_UINT32_BE (aget (hash sc) i)) (seqZ 0 8))).
End Code.

(** ** FIPS 180-4 *)

Definition is_prime (n : Z) : bool := forallb (fun d => negb (n mod d =? 0)) (seqZ 2 (Z.sqrt n - 1)).
Definition primes64 : list Z := filter (fun n => is_prime n = true) (seqZ 2 310).

(** The integer cube root, below 2^36, bit by bit. *)
Definition icbrt (n : Z) : Z :=
  fold_left (fun r i => let r' := r + 2 ^ (35 - i) in if r' ^ 3 <=? n then r' else r) (seqZ 0 36) 0.

(** The first 32 bits of the fractional parts. *)
Definition fips_K : list Z := map (fun p => icbrt (p * 2 ^ 96) mod 2 ^ 32) primes64.
Definition fips_H0 : list Z := map (fun p => Z.sqrt (p * 2 ^ 64) mod 2 ^ 32) (take 8 primes64).

Definition fips_rotr (n x : Z) : Z := (x ≫ n) .| u32 (x ≪ (32 - n)).
Definition fips_Ch (x y z : Z) : Z := (x .& y) .^ Z.ldiff z x.
Definition fips_Maj (x y z : Z) : Z := (x .& y) .^ (x .& z) .^ (y .& z).
Definition fips_S0 (x : Z) : Z := fips_rotr 2 x .^ fips_rotr 13 x .^ fips_rotr 22 x.
Definition fips_S1 (x : Z) : Z := fips_rotr 6 x .^ fips_rotr 11 x .^ fips_rotr 25 x.
Definition fips_s0 (x : Z) : Z := fips_rotr 7 x .^ fips_rotr 18 x .^ (x ≫ 3).
Definition fips_s1 (x : Z) : Z := fips_rotr 17 x .^ fips_rotr 19 x .^ (x ≫ 10).

Definition be_word (l : list Z) : Z := fold_left (fun n b => 256 * n + b) l 0.

(** The message schedule: [fips_W M t] lists the words 0 to [16 + t - 1]. *)
Fixpoint fips_W (M : list Z) (t : nat) : list Z :=
  match t with
  | O => M
  | S t =>
      let W := fips_W M t in
      let w k := aget W (16 + Z.of_nat t - k) in
      W ++ [(fips_s1 (w 2) + w 7 + fips_s0 (w 15) + w 16) mod 2 ^ 32]
  end.

Definition fips_round (v : list Z) (kw : Z * Z) : list Z :=
  match v with
  | [a; b; c; d; e; f; g; h] =>
      let T1 := h + fips_S1 e + fips_Ch e f g + fst kw + snd kw in
      let T2 := fips_S0 a + fips_Maj a b c in
      [(T1 + T2) mod 2 ^ 32; a; b; c; (d + T1) mod 2 ^ 32; e; f; g]
  | _ => []
  end.

Definition fips_block (H : list Z) (data : list Z) : list Z :=
  let M := map (fun t => be_word (take 4 (drop (Z.to_nat (4 * t)) data))) (seqZ 0 16) in
  zip_with (fun x y => (x + y) mod 2 ^ 32) H (fold_left fips_round (zip fips_K (fips_W M 48)) H).

Definition be_bytes (k : nat) (n : Z) : list Z :=
  map (fun i => n / 256 ^ Z.of_nat (k - 1 - i) mod 256) (seq 0 k).

(** The padded message with the number [bits] in its length field. *)
Definition fips_pad (bits : Z) (m : list Z) : list Z :=
  m ++ [0x80] ++ replicate (Z.to_nat ((55 - Z.of_nat (length m)) mod 64)) 0 ++ be_bytes 8 bits.

Definition fips_digest (bits : Z) (m : list Z) : list Z :=
  let p := fips_pad bits m in
  concat (map (be_bytes 4) (absorb fips_block (length p / 64) p fips_H0)).

Definition sha256_fips (m : list Z) : list Z := fips_digest (8 * Z.of_nat (length m)) m.

Lemma K_fips : K = fips_K.
Proof. vm_compute. reflexivity. Qed.

Lemma H0_fips sc : hash (SHA256Init sc) = fips_H0.
Proof. vm_compute. reflexivity. Qed.

Definition junk : SHA256Context := mk_sha 1 [2; 3] 4 (replicate 64 5).

(** The second sample of NIST, as [main] prints it. *)
Definition nist_sample : list Z :=
  [97; 98; 99; 100; 98; 99; 100; 101; 99; 100; 101; 102; 100; 101; 102; 103; 101; 102; 103; 104;
   102; 103; 104; 105; 103; 104; 105; 106; 104; 105; 106; 107; 105; 106; 107; 108; 106; 107; 108; 109;
   107; 108; 109; 110; 108; 109; 110; 111; 109; 110; 111; 112; 110; 111; 112; 113].

Example nist_digest : sha256_fips nist_sample =
  concat (map PUT_UINT32_BE
   [0x248d6a61; 0xd20638b8; 0xe5c02693; 0x0c3e6039; 0xa33ce459; 0x64ff2167; 0xf6ecedd4; 0x19db06c1]).
Proof. vm_compute. reflexivity. Qed.

Example sha256_nist :
  (sc ← @SHA256Update arm32 (SHA256Init junk) nist_sample 56; snd <$> @SHA256Final arm32 sc) =
  Some (sha256_fips nist_sample).
Proof. vm_compute. reflexivity. Qed.

(** ** The block function is that of the standard *)

Lemma Ch_fips x y z : Ch x y z = fips_Ch x y z.
Proof.
  unfold Ch, fips_Ch. apply Z.bits_inj'; intros i Hi. rewrite !Z.lxor_spec, !Z.land_spec, Z.ldiff_spec, Z.lxor_spec.
  btauto.
Qed.

Lemma Maj_fips x y z : Maj x y z = fips_Maj x y z.
Proof. unfold Maj, fips_Maj. apply Z.bits_inj'; intros i Hi. zbit_norm. btauto. Qed.

Definition view (v : vars) : list Z := [va v; vb v; vc v; vd v; ve v; vf v; vg v; vh v].

Lemma mod_add_r x y : (x + u32 y) mod 2 ^ 32 = (x + y) mod 2 ^ 32.
Proof. apply Zplus_mod_idemp_r. Qed.

Lemma DO_ROUND_fips v kw : view (DO_ROUND v kw) = fips_round (view v) kw.
Proof.
  unfold DO_ROUND, view, fips_round. cbn [va vb vc vd ve vf vg vh]. rewrite Ch_fips, Maj_fips.
  repeat f_equal; unfold u32 at 1, uwrap at 1.
  - by rewrite mod_add_r, Z.add_comm, mod_add_r, Z.add_comm.
  - by rewrite mod_add_r.
Qed.

Lemma sha_rounds_fips l : forall v, view (fold_left DO_ROUND l v) = fold_left fips_round l (view v).
Proof. induction l as [|kw l IH]; intros v; [done|]. cbn [fold_left]. by rewrite IH, DO_ROUND_fips. Qed.

Lemma expand_fips M t : length M = 16%nat ->
  fold_left expand_step (seqZ 16 (Z.of_nat t)) M = fips_W M t.
Proof.
  intros HM. induction t as [|t IH]; [done|].
  rewrite seqZ_S, fold_left_app, IH by lia. reflexivity.
Qed.

(** The two masks of [BYTESWAP]: the odd and the even bytes. *)
Lemma swap_masks i : 0 <= i < 32 ->
  Z.testbit 0xff00ff00 i = ((i / 8) mod 2 =? 1) /\ Z.testbit 0x00ff00ff i = ((i / 8) mod 2 =? 0).
Proof.
  intros Hi. assert (forallb (fun i => eqb (Z.testbit 0xff00ff00 i) ((i / 8) mod 2 =? 1) &&
    eqb (Z.testbit 0x00ff00ff i) ((i / 8) mod 2 =? 0)) (seqZ 0 32) = true) as H by eval_true.
  rewrite forallb_forall in H. specialize (H i).
  rewrite andb_true_iff, !eqb_true_iff in H. apply H, list_elem_of_In, elem_of_seqZ. lia.
Qed.

Lemma swap_pack a b c d : is_byte a -> is_byte b -> is_byte c -> is_byte d ->
  BYTESWAP (a .| (b ≪ 8) .| (c ≪ 16) .| (d ≪ 24)) = (a ≪ 24) .| (b ≪ 16) .| (c ≪ 8) .| d.
Proof.
  intros Ha Hb Hc Hd. unfold BYTESWAP, ROTR, ROTL.
  apply (is_u_inj 32); [lia| |by apply is_u32_pack|].
  { apply is_u_lor; [lia|by apply is_u_land_r..]. }
  intros i Hi. zbit_norm. destruct (swap_masks i Hi) as [-> ->].
  assert (0 <= i < 8 \/ 8 <= i < 16 \/ 16 <= i < 24 \/ 24 <= i < 32) as Hcase by lia.
  destruct Hcase as [?|[?|[?|?]]];
    [replace (i / 8) with 0 by zdm|replace (i / 8) with 1 by zdm
    |replace (i / 8) with 2 by zdm|replace (i / 8) with 3 by zdm].
  all: do 2 (zbit_norm; zbit_out); cbn; rewrite ?andb_false_r, ?orb_false_r, ?andb_true_r; cbn; f_equal; lia.
Qed.

Lemma be_pack a b c d : is_byte a -> is_byte b -> is_byte c -> is_byte d ->
  (a ≪ 24) .| (b ≪ 16) .| (c ≪ 8) .| d = be_word [a; b; c; d].
Proof.
  intros Ha Hb Hc Hd.
  rewrite <- !Z.lor_assoc.
  rewrite (Z.lor_comm (c ≪ 8)), (lor_shift_add 8), (Z.lor_comm (b ≪ 16)), (lor_shift_add 16),
    (Z.lor_comm (a ≪ 24)), (lor_shift_add 24) by (unfold is_u in *; lia).
  unfold be_word. cbn [fold_left]. lia.
Qed.

Lemma word_fips (data : list Z) i : bytes data -> 0 <= i -> i + 4 <= Z.of_nat (length data) ->
  BYTESWAP (GET_UINT32_LE data i) = be_word (take 4 (drop (Z.to_nat i) data)).
Proof.
  intros Hb Hi Hl. unfold GET_UINT32_LE. rewrite swap_pack, be_pack by (apply is_u_aget; done || lia).
  rewrite take4_drop by lia. unfold aget. repeat f_equal; lia.
Qed.

Lemma Guts_fips h data : length h = 8%nat -> length data = 64%nat -> bytes data ->
  SHA256Guts h data = fips_block h data.
Proof.
  intros Hh Hl Hb. unfold SHA256Guts, add_vars, fips_block.
  rewrite (map_ext_in _ (fun t => be_word (take 4 (drop (Z.to_nat (4 * t)) data))) (seqZ 0 16)); cycle 1.
  { intros i Hi. apply list_elem_of_In, elem_of_seqZ in Hi. apply word_fips; [done|lia..]. }
  change 48 with (Z.of_nat 48). rewrite expand_fips by done. rewrite K_fips.
  set (l := zip _ _). clearbody l.
  destruct h as [|h0 [|h1 [|h2 [|h3 [|h4 [|h5 [|h6 [|h7 [|]]]]]]]]]; try discriminate Hh.
  change (aget _ 0) with h0. change (aget _ 1) with h1. change (aget _ 2) with h2.
  change (aget _ 3) with h3. change (aget _ 4) with h4. change (aget _ 5) with h5.
  change (aget _ 6) with h6. change (aget _ 7) with h7.
  set (v := mk_vars _ _ _ _ _ _ _ _). change [h0; h1; h2; h3; h4; h5; h6; h7] with (view v) at 2.
  rewrite <- sha_rounds_fips. reflexivity.
Qed.

(** ** Buffering *)

(** The context after the bytes [m]: [q] whole blocks are hashed, the rest is in
    the buffer. *)
Record rep `{Arch} (m : list Z) (sc : SHA256Context) : Prop := {
  rep_bytes : bytes m;
  rep_total : totalLength sc = ul (8 * Z.of_nat (length m));
  rep_length : bufferLength sc = Z.of_nat (length m) mod 64;
  rep_size : length (buffer sc) = 64%nat /\ bytes (buffer sc);
  rep_words : length (hash sc) = 8%nat;
  rep_hash : hash sc = absorb fips_block (length m / 64) m fips_H0;
  rep_buffer : take (length m mod 64) (buffer sc) = drop (64 * (length m / 64)) m }.

Section Update.
Context `{Arch}.

Lemma ul_add_mul x y : ul (ul (8 * x) + ul (y * 8)) = ul (8 * (x + y)).
Proof.
  unfold ul, uwrap. rewrite <- Zplus_mod. f_equal. lia.
Qed.

Lemma length_fips_block h data : length h = 8%nat -> length data = 64%nat -> bytes data ->
  length (fips_block h data) = 8%nat.
Proof. intros. rewrite <- Guts_fips by done. reflexivity. Qed.

(** The representation from the numbers of blocks and of buffered bytes. *)
Lemma rep_intro q r m sc : length m = (64 * q + r)%nat -> (r < 64)%nat -> bytes m ->
  totalLength sc = ul (8 * Z.of_nat (length m)) -> bufferLength sc = Z.of_nat r ->
  length (buffer sc) = 64%nat -> bytes (buffer sc) -> length (hash sc) = 8%nat ->
  hash sc = absorb fips_block q m fips_H0 -> take r (buffer sc) = drop (64 * q) m -> rep m sc.
Proof.
  intros Hm Hr. intros.
  assert (length m / 64 = q)%nat as Eq by (symmetry; apply (Nat.div_unique _ _ _ r); lia).
  assert (length m mod 64 = r)%nat as Er by (symmetry; apply (Nat.mod_unique _ _ q); lia).
  split; rewrite ?Eq, ?Er; try done. rewrite Hm. zdm.
Qed.

Lemma rep_elim m sc : rep m sc -> exists q r, length m = (64 * q + r)%nat /\ (r < 64)%nat /\
  bufferLength sc = Z.of_nat r /\ hash sc = absorb fips_block q m fips_H0 /\
  take r (buffer sc) = drop (64 * q) m.
Proof.
  intros [_ _ Hl _ _ Hh Hb]. exists (length m / 64)%nat, (length m mod 64)%nat.
  split_and!; [apply Nat.div_mod_eq|apply Nat.mod_upper_bound; lia| |done|done].
  rewrite Hl, Nat2Z.inj_mod. done.
Qed.

(** [memcpy] of [n] bytes behind the [r] that are there. *)
Lemma copy_buffer (buf data : list Z) r n : length buf = 64%nat -> (r + n <= 64)%nat ->
  (n <= length data)%nat ->
  exists B, bcopy buf (Z.of_nat r) (take n data) = Some B /\ length B = 64%nat /\
    take (r + n) B = take r buf ++ take n data /\ (bytes buf -> bytes data -> bytes B).
Proof.
  intros Hl Hn Hd. unfold bcopy. rewrite length_take, Nat.min_l, bool_decide_eq_true_2 by lia.
  eexists. split; [done|]. rewrite Nat2Z.id. split_and!.
  - rewrite !length_app, !length_take, length_drop. lia.
  - rewrite app_assoc. apply take_app_length'. rewrite length_app, !length_take. lia.
  - intros Hb Hdb. repeat (apply Forall_app; split); [by apply Forall_take..|by apply Forall_drop].
Qed.

(** One turn of the loop appends the bytes it copies. *)
Lemma update_step_rep m sc data len : rep m sc -> bytes data -> 0 < len <= Z.of_nat (length data) ->
  len < 2 ^ 32 ->
  exists sc' n, (0 < n <= Z.to_nat len)%nat /\
    update_step sc data len = Some (sc', drop n data, len - Z.of_nat n) /\ rep (m ++ take n data) sc'.
Proof.
  intros Hrep Hd Hlen Hmax. destruct (rep_elim _ _ Hrep) as (q & r & Hm & Hr & Hl & Hh & Hbuf).
  destruct Hrep as [Hb Ht _ [Hs Hsb] Hw _ _].
  unfold update_step. rewrite Hl. rewrite (uwrap_small 32 (64 - _)) by (unfold is_u; lia).
  set (c := if len <? 64 - Z.of_nat r then len else 64 - Z.of_nat r).
  assert (0 < c <= len /\ c <= 64 - Z.of_nat r) as (Hc & Hc1).
  { unfold c. destruct (Z.ltb_spec len (64 - Z.of_nat r)); lia. }
  assert (exists n, c = Z.of_nat n) as [n Hn] by (exists (Z.to_nat c); lia). clearbody c. subst c.
  rewrite (proj2 (Z.ltb_ge _ _)), Nat2Z.id by lia.
  destruct (copy_buffer (buffer sc) data r n) as (B & -> & HB & HBt & HBb); [done|lia..|].
  specialize (HBb Hsb Hd). cbn [mbind option_bind]. rewrite Hbuf in HBt.
  rewrite Ht, ul_add_mul, (uwrap_small 32 (Z.of_nat r + _)), (uwrap_small 32 (len - _))
    by (unfold is_u; lia).
  assert (length (m ++ take n data) = 64 * q + (r + n))%nat as Hmn
    by (rewrite length_app, length_take; lia).
  assert (Z.of_nat (length m) + Z.of_nat n = Z.of_nat (length (m ++ take n data))) as -> by lia.
  assert (bytes (m ++ take n data)) as Hmb by (by apply Forall_app, conj, Forall_take).
  assert (absorb fips_block q (m ++ take n data) fips_H0 = hash sc) as Hh'
    by (rewrite absorb_app by lia; done).
  assert (drop (64 * q) (m ++ take n data) = take (r + n) B) as Hdrop
    by (rewrite drop_app_le by lia; done).
  eexists _, n. split; [lia|]. split; [reflexivity|].
  destruct (Z.eqb_spec (Z.of_nat r + Z.of_nat n) 64) as [E|E].
  - assert (r + n = 64)%nat as E' by lia. rewrite E', (take_ge B) in Hdrop by lia.
    rewrite Guts_fips by done.
    apply (rep_intro (q + 1) 0); cbn [totalLength bufferLength buffer hash]; try done; [lia|lia| | |].
    + by apply length_fips_block.
    + rewrite absorb_add, Hh', absorb_S, Hdrop, take_ge by lia. done.
    + rewrite drop_ge by lia. done.
  - apply (rep_intro q (r + n)); cbn [totalLength bufferLength buffer hash]; try done; lia.
Qed.

Lemma update_rep fuel : forall m sc data len, rep m sc -> bytes data ->
  0 <= len <= Z.of_nat (length data) -> len < 2 ^ 32 -> len <= Z.of_nat fuel ->
  exists sc', update_loop fuel sc data len = Some sc' /\ rep (m ++ take (Z.to_nat len) data) sc'.
Proof.
  induction fuel as [|fuel IH]; intros m sc data len Hm Hd Hl Hmax Hf; cbn [update_loop];
    destruct (Z.eqb_spec len 0) as [->|Hne]; try lia.
  1,2: exists sc; by rewrite take_0, app_nil_r.
  destruct (update_step_rep m sc data len) as (sc1 & n & Hn & -> & H1); [done..|lia|done|].
  cbn [mbind option_bind].
  destruct (IH _ _ (drop n data) (len - Z.of_nat n) H1) as (sc2 & -> & H2);
    [by apply Forall_drop|rewrite length_drop; lia|lia|lia|].
  exists sc2. split; [done|]. rewrite <- app_assoc, take_take_drop in H2.
  by replace (n + Z.to_nat (len - Z.of_nat n))%nat with (Z.to_nat len) in H2 by lia.
Qed.

Lemma SHA256Update_rep m sc data : rep m sc -> bytes data -> Z.of_nat (length data) < 2 ^ 32 ->
  exists sc', SHA256Update sc data (Z.of_nat (length data)) = Some sc' /\ rep (m ++ data) sc'.
Proof.
  intros Hm Hd Hl. destruct (update_rep (length data) m sc data (Z.of_nat (length data)))
    as (sc' & E & R); [done|done|lia|done|lia|].
  rewrite Nat2Z.id, take_ge in R by lia. exists sc'. unfold SHA256Update. by rewrite Nat2Z.id.
Qed.

Lemma SHA256Init_rep sc : length (buffer sc) = 64%nat -> bytes (buffer sc) -> rep [] (SHA256Init sc).
Proof.
  intros Hs Hb. apply (rep_intro 0 0); try done; lia.
Qed.

(** ** Padding and output *)

Lemma PUT_BE_bytes x : PUT_UINT32_BE x = be_bytes 4 x.
Proof.
  unfold PUT_UINT32_BE, be_bytes. cbn [map seq Nat.sub]. unfold u8, uwrap.
  rewrite !Z.shiftr_div_pow2 by lia. change (256 ^ Z.of_nat 0) with 1. rewrite Z.div_1_r. done.
Qed.

Lemma is_u32_BYTESWAP x : is_u32 (BYTESWAP x).
Proof. unfold BYTESWAP. apply is_u_lor; [lia|by apply is_u_land_r..]. Qed.

(** A swapped word lies in memory from its highest byte on. *)
Lemma PUT_LE_BYTESWAP x : is_u32 x -> PUT_UINT32_LE (BYTESWAP x) = PUT_UINT32_BE x.
Proof.
  intros Hx. rewrite <- (pack_unpack x Hx) at 1.
  rewrite (Z.lor_comm _ (u8 x)), (Z.lor_comm (_ .| _) (u8 (x ≫ 8) ≪ 8)),
    (Z.lor_comm (u8 (x ≫ 24) ≪ 24)), !Z.lor_assoc, swap_pack by apply is_u_u8.
  unfold PUT_UINT32_LE, PUT_UINT32_BE.
  edestruct (pack_bytes_inj (u8 x) (u8 (x ≫ 8)) (u8 (x ≫ 16)) (u8 (x ≫ 24))) as (-> & -> & -> & ->);
    [apply is_u_u8..|done].
Qed.

(** The bytes of the swapped length in memory are its bytes from the highest on. *)
Lemma lengthPad_bytes x : is_u 64 x ->
  PUT_UINT32_LE (_byteswap64 x) ++ PUT_UINT32_LE (_byteswap64 x ≫ 32) = be_bytes 8 x.
Proof.
  intros Hx. unfold _byteswap64.
  set (hi := BYTESWAP (u32 x)). set (lo := BYTESWAP (u32 (x ≫ 32))).
  pose proof (is_u32_BYTESWAP (u32 x) : is_u32 hi) as Hhi.
  pose proof (is_u32_BYTESWAP (u32 (x ≫ 32)) : is_u32 lo) as Hlo.
  assert (PUT_UINT32_LE ((hi ≪ 32) .| lo) = PUT_UINT32_LE lo) as ->.
  { repeat apply u8_cons; [..|reflexivity]; intros i Hi; zbit_norm; zbit_out; done. }
  assert (((hi ≪ 32) .| lo) ≫ 32 = hi) as ->.
  { apply Z.bits_inj'; intros i Hi. zbit_norm. zbit_out. rewrite orb_false_r. f_equal. lia. }
  unfold hi, lo. rewrite !PUT_LE_BYTESWAP by apply is_u_u32. clear.
  assert (forall i, x / 256 ^ Z.of_nat i mod 256 = u8 (x ≫ (8 * Z.of_nat i))) as Hbyte.
  { intros i. unfold u8, uwrap. rewrite Z.shiftr_div_pow2, Z.pow_mul_r by lia. reflexivity. }
  unfold be_bytes, PUT_UINT32_BE. cbn [map seq Nat.sub app]. rewrite !Hbyte.
  repeat apply u8_cons; [..|reflexivity]; intros i Hi; zbit_same.
Qed.

Lemma take_sha_padding p : (1 <= p <= 64)%nat -> take p padding = 0x80 :: replicate (p - 1) 0.
Proof.
  intros Hp. destruct p as [|p]; [lia|]. unfold padding. rewrite firstn_cons, take_replicate.
  do 2 f_equal. lia.
Qed.

Lemma bytes_be k n : bytes (be_bytes k n).
Proof. apply Forall_map, Forall_true. intros i. apply Z.mod_pos_bound. lia. Qed.

Lemma is_u64_ul x : is_u 64 (ul x).
Proof.
  apply (is_u_weaken long_bits); [destruct long_bits_cases; lia|].
  apply is_u_uwrap. pose proof long_bits_32. lia.
Qed.

Lemma SHA256Final_rep m sc : rep m sc -> exists sc',
  SHA256Final sc = Some (sc', fips_digest (ul (8 * Z.of_nat (length m))) m).
Proof.
  intros Hm. destruct Hm as [Hb Ht Hl Hsz Hw Hh Hbuf] eqn:E. clear E. unfold SHA256Final. cbv zeta.
  rewrite Hl, (uwrap_small 32 (120 - _)) by (unfold is_u; zdm).
  set (n := Z.of_nat (length m)) in *.
  set (pad := if 64 <? 120 - n mod 64 then _ else _).
  assert (1 <= pad <= 64 /\ pad - 1 = (55 - n) mod 64) as [Hp Hp1].
  { unfold pad. destruct (Z.ltb_spec 64 (120 - n mod 64)); [|zdm].
    rewrite (uwrap_small 32) by (unfold is_u; zdm). zdm. }
  destruct (update_rep (Z.to_nat pad) m sc padding pad) as (c1 & E1 & R1);
    [done|by repeat constructor|cbn; lia|lia|lia|].
  change (SHA256Update sc padding pad = Some c1) in E1. rewrite E1. cbn [mbind option_bind].
  rewrite take_sha_padding in R1 by lia.
  rewrite Ht, lengthPad_bytes by apply is_u64_ul. set (bits := ul _).
  destruct (SHA256Update_rep _ c1 (be_bytes 8 bits) R1) as (c2 & E2 & R2); [apply bytes_be|done|].
  change (Z.of_nat (length (be_bytes 8 bits))) with 8 in E2. rewrite E2. cbn [mbind option_bind].
  eexists. do 2 f_equal. destruct R2 as [_ _ _ _ Hw2 Hh2 _].
  replace ((m ++ 128 :: replicate (Z.to_nat pad - 1) 0) ++ be_bytes 8 bits) with (fips_pad bits m) in Hh2
    by (unfold fips_pad; rewrite <- app_assoc; replace (Z.to_nat pad - 1)%nat with
        (Z.to_nat ((55 - n) mod 64)) by lia; done).
  unfold fips_digest. rewrite <- Hh2.
  destruct (hash c2) as [|h0 [|h1 [|h2 [|h3 [|h4 [|h5 [|h6 [|h7 [|]]]]]]]]]; try discriminate Hw2.
  change (seqZ 0 8) with [0; 1; 2; 3; 4; 5; 6; 7]. cbn [map]. rewrite !PUT_BE_bytes. reflexivity.
Qed.

(** Updates in sequence, each with the whole of its buffer. *)
Definition sha256_updates (sc : SHA256Context) (chunks : list (list Z)) : option SHA256Context :=
  fold_left (fun c ch => sc ← c; SHA256Update sc ch (Z.of_nat (length ch))) chunks (Some sc).

Lemma sha256_updates_rep chunks : forall m sc, rep m sc -> Forall bytes chunks ->
  Forall (fun ch => Z.of_nat (length ch) < 2 ^ 32) chunks ->
  exists sc', sha256_updates sc chunks = Some sc' /\ rep (m ++ concat chunks) sc'.
Proof.
  induction chunks as [|ch chunks IH]; intros m sc Hm Hb Hl.
  { exists sc. by rewrite app_nil_r. }
  apply Forall_cons in Hb as [Hb Hbs]. apply Forall_cons in Hl as [Hl Hls].
  destruct (SHA256Update_rep m sc ch) as (c & E & Hc); [done..|].
  unfold sha256_updates. cbn [fold_left mbind option_bind concat]. rewrite E.
  rewrite app_assoc. by apply IH.
Qed.
End Update.

(** ** Theorem *)

(** C9: Hashing a message in pieces gives the SHA-256 digest of the whole: for any
    sequence of buffers that a [uint32_t] length can describe, and whatever the
    uninitialised context held, [SHA256Init], one [SHA256Update] per buffer and
    [SHA256Final] stay inside their buffers and return the FIPS 180-4 digest of
    the concatenation, if its length in bits fits [unsigned long].  Beyond that,
    from 512 megabytes on with the 32 bits of the boards, the digest is that of
    a padding whose length field has wrapped. *)
Theorem sha256_stream_fips `{Arch} (sc : SHA256Context) (chunks : list (list Z)) :
  length (buffer sc) = 64%nat -> bytes (buffer sc) -> Forall bytes chunks ->
  Forall (fun ch => Z.of_nat (length ch) < 2 ^ 32) chunks ->
  let m := concat chunks in
  let bits := 8 * Z.of_nat (length m) in
  exists digest,
    (sc ← sha256_updates (SHA256Init sc) chunks; snd <$> SHA256Final sc) = Some digest /\
    digest = fips_digest (bits mod 2 ^ long_bits) m /\
    (bits < 2 ^ long_bits -> digest = sha256_fips m).
Proof.
  intros Hs Hb Hch Hl m bits.
  destruct (sha256_updates_rep chunks [] _ (SHA256Init_rep sc Hs Hb) Hch Hl) as (c & -> & Hc).
  cbn [mbind option_bind app] in *. destruct (SHA256Final_rep _ _ Hc) as (c' & ->).
  eexists. split; [reflexivity|]. split; [reflexivity|]. intros Hfit.
  unfold sha256_fips. fold m bits. cbn [snd]. f_equal. apply Z.mod_small. lia.
Qed.

Lemma sha256_stream_fips_witness :
  (sc ← @sha256_updates arm32 (SHA256Init junk) [take 20 nist_sample; []; drop 20 nist_sample];
   snd <$> @SHA256Final arm32 sc) = Some (sha256_fips nist_sample).
Proof.
  destruct (@sha256_stream_fips arm32 junk [take 20 nist_sample; []; drop 20 nist_sample])
    as (d & E & _ & Hd);
    [reflexivity|eapply bool_decide_eq_true_1; vm_compute; reflexivity..|].
  rewrite E. f_equal. apply Hd. reflexivity.
Defined.
