(* ===== verification/Des.v ===== *)
(** * DES and triple DES (src/encryption/des.c)

    The table-driven implementation as it is written: the expanded S-boxes, the
    initial and final permutation macros, the round macro, the key schedules,
    the block functions and the [lib_des*] buffer interface.  The theorems:
    decryption inverts encryption for every key, on both word widths; the
    48-round triple-DES core is encrypt-decrypt-encrypt of the single-DES block
    function; the buffer interface round-trips on whole blocks; the result does
    not depend on the width of [unsigned long]. *)

From S2P Require Import Prelude.

(** ** Tables *)

(** Expanded DES S-boxes *)
Definition SB1 : list Z :=
  [ 0x01010400; 0x00000000; 0x00010000; 0x01010404;
    0x01010004; 0x00010404; 0x00000004; 0x00010000;
    0x00000400; 0x01010400; 0x01010404; 0x00000400;
    0x01000404; 0x01010004; 0x01000000; 0x00000004;
    0x00000404; 0x01000400; 0x01000400; 0x00010400;
    0x00010400; 0x01010000; 0x01010000; 0x01000404;
    0x00010004; 0x01000004; 0x01000004; 0x00010004;
    0x00000000; 0x00000404; 0x00010404; 0x01000000;
    0x00010000; 0x01010404; 0x00000004; 0x01010000;
    0x01010400; 0x01000000; 0x01000000; 0x00000400;
    0x01010004; 0x00010000; 0x00010400; 0x01000004;
    0x00000400; 0x00000004; 0x01000404; 0x00010404;
    0x01010404; 0x00010004; 0x01010000; 0x01000404;
    0x01000004; 0x00000404; 0x00010404; 0x01010400;
    0x00000404; 0x01000400; 0x01000400; 0x00000000;
    0x00010004; 0x00010400; 0x00000000; 0x01010004 ].

Definition SB2 : list Z :=
  [ 0x80108020; 0x80008000; 0x00008000; 0x00108020;
    0x00100000; 0x00000020; 0x80100020; 0x80008020;
    0x80000020; 0x80108020; 0x80108000; 0x80000000;
    0x80008000; 0x00100000; 0x00000020; 0x80100020;
    0x00108000; 0x00100020; 0x80008020; 0x00000000;
    0x80000000; 0x00008000; 0x00108020; 0x80100000;
    0x00100020; 0x80000020; 0x00000000; 0x00108000;
    0x00008020; 0x80108000; 0x80100000; 0x00008020;
    0x00000000; 0x00108020; 0x80100020; 0x00100000;
    0x80008020; 0x80100000; 0x80108000; 0x00008000;
    0x80100000; 0x80008000; 0x00000020; 0x80108020;
    0x00108020; 0x00000020; 0x00008000; 0x80000000;
    0x00008020; 0x80108000; 0x00100000; 0x80000020;
    0x00100020; 0x80008020; 0x80000020; 0x00100020;
    0x00108000; 0x00000000; 0x80008000; 0x00008020;
    0x80000000; 0x80100020; 0x80108020; 0x00108000 ].

Definition SB3 : list Z :=
  [ 0x00000208; 0x08020200; 0x00000000; 0x08020008;
    0x08000200; 0x00000000; 0x00020208; 0x08000200;
    0x00020008; 0x08000008; 0x08000008; 0x00020000;
    0x08020208; 0x00020008; 0x08020000; 0x00000208;
    0x08000000; 0x00000008; 0x08020200; 0x00000200;
    0x00020200; 0x08020000; 0x08020008; 0x00020208;
    0x08000208; 0x00020200; 0x00020000; 0x08000208;
    0x00000008; 0x08020208; 0x00000200; 0x08000000;
    0x08020200; 0x08000000; 0x00020008; 0x00000208;
    0x00020000; 0x08020200; 0x08000200; 0x00000000;
    0x00000200; 0x00020008; 0x08020208; 0x08000200;
    0x08000008; 0x00000200; 0x00000000; 0x08020008;
    0x08000208; 0x00020000; 0x08000000; 0x08020208;
    0x00000008; 0x00020208; 0x00020200; 0x08000008;
    0x08020000; 0x08000208; 0x00000208; 0x08020000;
    0x00020208; 0x00000008; 0x08020008; 0x00020200 ].

Definition SB4 : list Z :=
  [ 0x00802001; 0x00002081; 0x00002081; 0x00000080;
    0x00802080; 0x00800081; 0x00800001; 0x00002001;
    0x00000000; 0x00802000; 0x00802000; 0x00802081;
    0x00000081; 0x00000000; 0x00800080; 0x00800001;
    0x00000001; 0x00002000; 0x00800000; 0x00802001;
    0x00000080; 0x00800000; 0x00002001; 0x00002080;
    0x00800081; 0x00000001; 0x00002080; 0x00800080;
    0x00002000; 0x00802080; 0x00802081; 0x00000081;
    0x00800080; 0x00800001; 0x00802000; 0x00802081;
    0x00000081; 0x00000000; 0x00000000; 0x00802000;
    0x00002080; 0x00800080; 0x00800081; 0x00000001;
    0x00802001; 0x00002081; 0x00002081; 0x00000080;
    0x00802081; 0x00000081; 0x00000001; 0x00002000;
    0x00800001; 0x00002001; 0x00802080; 0x00800081;
    0x00002001; 0x00002080; 0x00800000; 0x00802001;
    0x00000080; 0x00800000; 0x00002000; 0x00802080 ].

Definition SB5 : list Z :=
  [ 0x00000100; 0x02080100; 0x02080000; 0x42000100;
    0x00080000; 0x00000100; 0x40000000; 0x02080000;
    0x40080100; 0x00080000; 0x02000100; 0x40080100;
    0x42000100; 0x42080000; 0x00080100; 0x40000000;
    0x02000000; 0x40080000; 0x40080000; 0x00000000;
    0x40000100; 0x42080100; 0x42080100; 0x02000100;
    0x42080000; 0x40000100; 0x00000000; 0x42000000;
    0x02080100; 0x02000000; 0x42000000; 0x00080100;
    0x00080000; 0x42000100; 0x00000100; 0x02000000;
    0x40000000; 0x02080000; 0x42000100; 0x40080100;
    0x02000100; 0x40000000; 0x42080000; 0x02080100;
    0x40080100; 0x00000100; 0x02000000; 0x42080000;
    0x42080100; 0x00080100; 0x42000000; 0x42080100;
    0x02080000; 0x00000000; 0x40080000; 0x42000000;
    0x00080100; 0x02000100; 0x40000100; 0x00080000;
    0x00000000; 0x40080000; 0x02080100; 0x40000100 ].

Definition SB6 : list Z :=
  [ 0x20000010; 0x20400000; 0x00004000; 0x20404010;
    0x20400000; 0x00000010; 0x20404010; 0x00400000;
    0x20004000; 0x00404010; 0x00400000; 0x20000010;
    0x00400010; 0x20004000; 0x20000000; 0x00004010;
    0x00000000; 0x00400010; 0x20004010; 0x00004000;
    0x00404000; 0x20004010; 0x00000010; 0x20400010;
    0x20400010; 0x00000000; 0x00404010; 0x20404000;
    0x00004010; 0x00404000; 0x20404000; 0x20000000;
    0x20004000; 0x00000010; 0x20400010; 0x00404000;
    0x20404010; 0x00400000; 0x00004010; 0x20000010;
    0x00400000; 0x20004000; 0x20000000; 0x00004010;
    0x20000010; 0x20404010; 0x00404000; 0x20400000;
    0x00404010; 0x20404000; 0x00000000; 0x20400010;
    0x00000010; 0x00004000; 0x20400000; 0x00404010;
    0x00004000; 0x00400010; 0x20004010; 0x00000000;
    0x20404000; 0x20000000; 0x00400010; 0x20004010 ].

Definition SB7 : list Z :=
  [ 0x00200000; 0x04200002; 0x04000802; 0x00000000;
    0x00000800; 0x04000802; 0x00200802; 0x04200800;
    0x04200802; 0x00200000; 0x00000000; 0x04000002;
    0x00000002; 0x04000000; 0x04200002; 0x00000802;
    0x04000800; 0x00200802; 0x00200002; 0x04000800;
    0x04000002; 0x04200000; 0x04200800; 0x00200002;
    0x04200000; 0x00000800; 0x00000802; 0x04200802;
    0x00200800; 0x00000002; 0x04000000; 0x00200800;
    0x04000000; 0x00200800; 0x00200000; 0x04000802;
    0x04000802; 0x04200002; 0x04200002; 0x00000002;
    0x00200002; 0x04000000; 0x04000800; 0x00200000;
    0x04200800; 0x00000802; 0x00200802; 0x04200800;
    0x00000802; 0x04000002; 0x04200802; 0x04200000;
    0x00200800; 0x00000000; 0x00000002; 0x04200802;
    0x00000000; 0x00200802; 0x04200000; 0x00000800;
    0x04000002; 0x04000800; 0x00000800; 0x00200002 ].

Definition SB8 : list Z :=
  [ 0x10001040; 0x00001000; 0x00040000; 0x10041040;
    0x10000000; 0x10001040; 0x00000040; 0x10000000;
    0x00040040; 0x10040000; 0x10041040; 0x00041000;
    0x10041000; 0x00041040; 0x00001000; 0x00000040;
    0x10040000; 0x10000040; 0x10001000; 0x00001040;
    0x00041000; 0x00040040; 0x10040040; 0x10041000;
    0x00001040; 0x00000000; 0x00000000; 0x10040040;
    0x10000040; 0x10001000; 0x00041040; 0x00040000;
    0x00041040; 0x00040000; 0x10041000; 0x00001000;
    0x00000040; 0x10040040; 0x00001000; 0x00041040;
    0x10001000; 0x00000040; 0x10000040; 0x10040000;
    0x10040040; 0x10000000; 0x00040000; 0x10001040;
    0x00000000; 0x10041040; 0x00040040; 0x10000040;
    0x10040000; 0x10001000; 0x10001040; 0x00000000;
    0x10041040; 0x00041000; 0x00041000; 0x00001040;
    0x00001040; 0x00040040; 0x10000000; 0x10041000 ].

Definition LHs : list Z :=
  [ 0x00000000; 0x00000001; 0x00000100; 0x00000101;
    0x00010000; 0x00010001; 0x00010100; 0x00010101;
    0x01000000; 0x01000001; 0x01000100; 0x01000101;
    0x01010000; 0x01010001; 0x01010100; 0x01010101 ].

Definition RHs : list Z :=
  [ 0x00000000; 0x01000000; 0x00010000; 0x01010000;
    0x00000100; 0x01000100; 0x00010100; 0x01010100;
    0x00000001; 0x01000001; 0x00010001; 0x01010001;
    0x00000101; 0x01000101; 0x00010101; 0x01010101 ].

(** ** The macros *)

Section Des.
Context `{Arch}.

(** Initial permutation *)
Definition DES_IP (X Y : Z) : Z * Z :=
  let T := ((X ≫ 4) .^ Y) .& 0x0F0F0F0F in let Y := Y .^ T in let X := X .^ shl T 4 in
  let T := ((X ≫ 16) .^ Y) .& 0x0000FFFF in let Y := Y .^ T in let X := X .^ shl T 16 in
  let T := ((Y ≫ 2) .^ X) .& 0x33333333 in let X := X .^ T in let Y := Y .^ shl T 2 in
  let T := ((Y ≫ 8) .^ X) .& 0x00FF00FF in let X := X .^ T in let Y := Y .^ shl T 8 in
  let Y := (shl Y 1 .| (Y ≫ 31)) .& 0xFFFFFFFF in
  let T := (X .^ Y) .& 0xAAAAAAAA in let Y := Y .^ T in let X := X .^ T in
  let X := (shl X 1 .| (X ≫ 31)) .& 0xFFFFFFFF in
  (X, Y).

(** Final permutation *)
Definition DES_FP (X Y : Z) : Z * Z :=
  let X := (shl X 31 .| (X ≫ 1)) .& 0xFFFFFFFF in
  let T := (X .^ Y) .& 0xAAAAAAAA in let X := X .^ T in let Y := Y .^ T in
  let Y := (shl Y 31 .| (Y ≫ 1)) .& 0xFFFFFFFF in
  let T := ((Y ≫ 8) .^ X) .& 0x00FF00FF in let X := X .^ T in let Y := Y .^ shl T 8 in
  let T := ((Y ≫ 2) .^ X) .& 0x33333333 in let X := X .^ T in let Y := Y .^ shl T 2 in
  let T := ((X ≫ 16) .^ Y) .& 0x0000FFFF in let Y := Y .^ T in let X := X .^ shl T 16 in
  let T := ((X ≫ 4) .^ Y) .& 0x0F0F0F0F in let Y := Y .^ T in let X := X .^ shl T 4 in
  (X, Y).

(** [DES_ROUND (X, Y)] with the two subkey words it consumes; the new [Y]. *)
Definition DES_ROUND (sk0 sk1 X Y : Z) : Z :=
  let T := sk0 .^ X in
  let Y := Y .^ (aget SB8 (T .& 0x3F) .^
                 aget SB6 ((T ≫ 8) .& 0x3F) .^
                 aget SB4 ((T ≫ 16) .& 0x3F) .^
                 aget SB2 ((T ≫ 24) .& 0x3F)) in
  let T := sk1 .^ (shl X 28 .| (X ≫ 4)) in
  Y .^ (aget SB7 (T .& 0x3F) .^
        aget SB5 ((T ≫ 8) .& 0x3F) .^
        aget SB3 ((T ≫ 16) .& 0x3F) .^
        aget SB1 ((T ≫ 24) .& 0x3F)).

(** ** Key schedule *)

(** Permuted choice 1: the two 28-bit halves. *)
Definition des_pc1 (X Y : Z) : Z * Z :=
  let T := ((Y ≫ 4) .^ X) .& 0x0F0F0F0F in let X := X .^ T in let Y := Y .^ shl T 4 in
  let T := (Y .^ X) .& 0x10101010 in let X := X .^ T in let Y := Y .^ T in
  let X := shl (aget LHs (X .& 0xF)) 3 .| shl (aget LHs ((X ≫ 8) .& 0xF)) 2
        .| shl (aget LHs ((X ≫ 16) .& 0xF)) 1 .| aget LHs ((X ≫ 24) .& 0xF)
        .| shl (aget LHs ((X ≫ 5) .& 0xF)) 7 .| shl (aget LHs ((X ≫ 13) .& 0xF)) 6
        .| shl (aget LHs ((X ≫ 21) .& 0xF)) 5 .| shl (aget LHs ((X ≫ 29) .& 0xF)) 4 in
  let Y := shl (aget RHs ((Y ≫ 1) .& 0xF)) 3 .| shl (aget RHs ((Y ≫ 9) .& 0xF)) 2
        .| shl (aget RHs ((Y ≫ 17) .& 0xF)) 1 .| aget RHs ((Y ≫ 25) .& 0xF)
        .| shl (aget RHs ((Y ≫ 4) .& 0xF)) 7 .| shl (aget RHs ((Y ≫ 12) .& 0xF)) 6
        .| shl (aget RHs ((Y ≫ 20) .& 0xF)) 5 .| shl (aget RHs ((Y ≫ 28) .& 0xF)) 4 in
  (X .& 0x0FFFFFFF, Y .& 0x0FFFFFFF).

(** The rotation of iteration [i]. *)
Definition ks_rot (i X : Z) : Z :=
  if (i <? 2) || (i =? 8) || (i =? 15)
  then (shl X 1 .| (X ≫ 27)) .& 0x0FFFFFFF
  else (shl X 2 .| (X ≫ 26)) .& 0x0FFFFFFF.

(** Permuted choice 2, in the word layout of [DES_ROUND]. *)
Definition ks_word0 (X Y : Z) : Z :=
     (shl X 4 .& 0x24000000) .| (shl X 28 .& 0x10000000)
  .| (shl X 14 .& 0x08000000) .| (shl X 18 .& 0x02080000)
  .| (shl X 6 .& 0x01000000) .| (shl X 9 .& 0x00200000)
  .| ((X ≫ 1) .& 0x00100000) .| (shl X 10 .& 0x00040000)
  .| (shl X 2 .& 0x00020000) .| ((X ≫ 10) .& 0x00010000)
  .| ((Y ≫ 13) .& 0x00002000) .| ((Y ≫ 4) .& 0x00001000)
  .| (shl Y 6 .& 0x00000800) .| ((Y ≫ 1) .& 0x00000400)
  .| ((Y ≫ 14) .& 0x00000200) .| (Y .& 0x00000100)
  .| ((Y ≫ 5) .& 0x00000020) .| ((Y ≫ 10) .& 0x00000010)
  .| ((Y ≫ 3) .& 0x00000008) .| ((Y ≫ 18) .& 0x00000004)
  .| ((Y ≫ 26) .& 0x00000002) .| ((Y ≫ 24) .& 0x00000001).

Definition ks_word1 (X Y : Z) : Z :=
     (shl X 15 .& 0x20000000) .| (shl X 17 .& 0x10000000)
  .| (shl X 10 .& 0x08000000) .| (shl X 22 .& 0x04000000)
  .| ((X ≫ 2) .& 0x02000000) .| (shl X 1 .& 0x01000000)
  .| (shl X 16 .& 0x00200000) .| (shl X 11 .& 0x00100000)
  .| (shl X 3 .& 0x00080000) .| ((X ≫ 6) .& 0x00040000)
  .| (shl X 15 .& 0x00020000) .| ((X ≫ 4) .& 0x00010000)
  .| ((Y ≫ 2) .& 0x00002000) .| (shl Y 8 .& 0x00001000)
  .| ((Y ≫ 14) .& 0x00000808) .| ((Y ≫ 9) .& 0x00000400)
  .| (Y .& 0x00000200) .| (shl Y 7 .& 0x00000100)
  .| ((Y ≫ 7) .& 0x00000020) .| ((Y ≫ 3) .& 0x00000011)
  .| (shl Y 2 .& 0x00000004) .| ((Y ≫ 21) .& 0x00000002).

Definition ks_step (st : Z * Z * list Z) (i : Z) : Z * Z * list Z :=
  let '(X, Y, SK) := st in
  let X := ks_rot i X in
  let Y := ks_rot i Y in
  (X, Y, SK ++ [ks_word0 X Y; ks_word1 X Y]).

(** The 32 subkey words written through [SK]. *)
Definition des_main_ks (key : list Z) : list Z :=
  let X := GET_UINT32_BE key 0 in
  let Y := GET_UINT32_BE key 4 in
  let '(X, Y) := des_pc1 X Y in
  snd (fold_left ks_step (seqZ 0 16) (X, Y, [])).

(** ** Contexts

    [des_context] and [des3_context]; a context starts with whatever the
    caller's memory held. *)
Record des_context := { esk : list Z; dsk : list Z }.

(** [i = 0, 2, .., 30] *)
Definition even_idx : list nat := (fun k => (2 * k)%nat) <$> seq 0 16.

Definition des_set_key (ctx : des_context) (key : list Z) : des_context :=
  let e := des_main_ks key in
  let d := fold_left (fun d i =>
             <[(i + 1)%nat := e !!! (31 - i)%nat]> (<[i := e !!! (30 - i)%nat]> d))
             even_idx (dsk ctx) in
  {| esk := e; dsk := d |}.

Definition des3_set_2keys (ctx : des_context) (key : list Z) : des_context :=
  let e := des_main_ks key ++ drop 32 (esk ctx) in
  let d := take 32 (dsk ctx) ++ des_main_ks (drop 8 key) ++ drop 64 (dsk ctx) in
  let '(e, d) := fold_left (fun '(e, d) i =>
      let d := <[i := e !!! (30 - i)%nat]> d in
      let d := <[(i + 1)%nat := e !!! (31 - i)%nat]> d in
      let e := <[(i + 32)%nat := d !!! (62 - i)%nat]> e in
      let e := <[(i + 33)%nat := d !!! (63 - i)%nat]> e in
      let e := <[(i + 64)%nat := e !!! i]> e in
      let e := <[(i + 65)%nat := e !!! (1 + i)%nat]> e in
      let d := <[(i + 64)%nat := d !!! i]> d in
      let d := <[(i + 65)%nat := d !!! (1 + i)%nat]> d in
      (e, d)) even_idx (e, d) in
  {| esk := e; dsk := d |}.

(** ** Block functions *)

(** [n] times [DES_ROUND (Y, X); DES_ROUND (X, Y);], with the advance of [SK]. *)
Fixpoint rounds_YX (n : nat) (SK : list Z) (X Y : Z) : list Z * Z * Z :=
  match n with
  | O => (SK, X, Y)
  | S n =>
      let X := DES_ROUND (aget SK 0) (aget SK 1) Y X in
      let Y := DES_ROUND (aget SK 2) (aget SK 3) X Y in
      rounds_YX n (drop 4 SK) X Y
  end.

(** [n] times [DES_ROUND (X, Y); DES_ROUND (Y, X);] *)
Fixpoint rounds_XY (n : nat) (SK : list Z) (X Y : Z) : list Z * Z * Z :=
  match n with
  | O => (SK, X, Y)
  | S n =>
      let Y := DES_ROUND (aget SK 0) (aget SK 1) X Y in
      let X := DES_ROUND (aget SK 2) (aget SK 3) Y X in
      rounds_XY n (drop 4 SK) X Y
  end.

(** The 8 output bytes. *)
Definition des_crypt (SK : list Z) (input : list Z) : list Z :=
  let X := GET_UINT32_BE input 0 in
  let Y := GET_UINT32_BE input 4 in
  let '(X, Y) := DES_IP X Y in
  let '(SK, X, Y) := rounds_YX 8 SK X Y in
  let '(Y, X) := DES_FP Y X in
  PUT_UINT32_BE Y ++ PUT_UINT32_BE X.

Definition des_encrypt (ctx : des_context) (input : list Z) : list Z := des_crypt (esk ctx) input.
Definition des_decrypt (ctx : des_context) (input : list Z) : list Z := des_crypt (dsk ctx) input.

Definition des3_crypt (SK : list Z) (input : list Z) : list Z :=
  let X := GET_UINT32_BE input 0 in
  let Y := GET_UINT32_BE input 4 in
  let '(X, Y) := DES_IP X Y in
  let '(SK, X, Y) := rounds_YX 8 SK X Y in
  let '(SK, X, Y) := rounds_XY 8 SK X Y in
  let '(SK, X, Y) := rounds_YX 8 SK X Y in
  let '(Y, X) := DES_FP Y X in
  PUT_UINT32_BE Y ++ PUT_UINT32_BE X.

Definition des3_encrypt (ctx : des_context) (input : list Z) : list Z := des3_crypt (esk ctx) input.
Definition des3_decrypt (ctx : des_context) (input : list Z) : list Z := des3_crypt (dsk ctx) input.

(** ** The library interface

    The contexts are uninitialised locals: [ctx] and [ctx3] stand for the
    memory they happen to occupy. *)

Definition lib_des (ctx : des_context) (inp key : list Z) (direct : Z) : list Z :=
  let ctx := des_set_key ctx key in
  if direct =? 1 then des_decrypt ctx inp else des_encrypt ctx inp.

Definition lib_des3 (ctx3 : des_context) (inp key : list Z) (direct : Z) : list Z :=
  let ctx3 := des3_set_2keys ctx3 key in
  if direct =? 1 then des3_decrypt ctx3 inp else des3_encrypt ctx3 inp.

Definition BUF_MAX_SIZE : Z := 1024.

(** The loop the four buffer functions share:
    [for (i = 0; i < inlen;) { f (&m_out[i], &m_in[i]); i += 8; }]. *)
Fixpoint block_loop (fuel : nat) (f : list Z -> list Z) (m_in : list Z) (inlen i : Z)
    (m_out : list Z) : option (list Z) :=
  if i <? inlen then
    match fuel with
    | O => None
    | S fuel =>
        m_out ← bcopy m_out i (f (take 8 (drop (Z.to_nat i) m_in)));
        block_loop fuel f m_in inlen (i + 8) m_out
    end
  else Some m_out.

(** [memcpy] into the 1024-byte stack buffer, the loop, [memcpy] out.  [None]
    is a copy that leaves a buffer ([inlen] negative or above 1024).  The
    result is the [inlen] bytes written to [out]. *)
Definition buffer_crypt (f : list Z -> list Z) (inp : list Z) (inlen : Z) : option (list Z) :=
  if bool_decide (0 <= inlen <= Z.of_nat (length inp)) then
    m_in ← bcopy (replicate (Z.to_nat BUF_MAX_SIZE) 0) 0 (take (Z.to_nat inlen) inp);
    m_out ← block_loop (Z.to_nat BUF_MAX_SIZE) f m_in inlen 0
              (replicate (Z.to_nat BUF_MAX_SIZE) 0);
    Some (take (Z.to_nat inlen) m_out)
  else None.

Definition lib_des3_encrypt ctx3 (inp : list Z) (inlen : Z) (key : list Z) : option (list Z) :=
  buffer_crypt (fun b => lib_des3 ctx3 b key 0) inp inlen.
Definition lib_des3_decrypt ctx3 (inp : list Z) (inlen : Z) (key : list Z) : option (list Z) :=
  buffer_crypt (fun b => lib_des3 ctx3 b key 1) inp inlen.
Definition lib_des_encrypt ctx (inp : list Z) (inlen : Z) (key : list Z) : option (list Z) :=
  buffer_crypt (fun b => lib_des ctx b key 0) inp inlen.
Definition lib_des_decrypt ctx (inp : list Z) (inlen : Z) (key : list Z) : option (list Z) :=
  buffer_crypt (fun b => lib_des ctx b key 1) inp inlen.

End Des.

Definition ctx_zero : des_context := {| esk := replicate 32 0; dsk := replicate 32 0 |}.
Definition ctx3_zero : des_context := {| esk := replicate 96 0; dsk := replicate 96 0 |}.

(** ** Known answers: NIST SP 800-17 / the vectors of the file's self test *)

Definition kat_key : list Z := [0x01; 0x23; 0x45; 0x67; 0x89; 0xAB; 0xCD; 0xEF].
Definition kat_plain : list Z := [0x4E; 0x6F; 0x77; 0x20; 0x69; 0x73; 0x20; 0x74].
Definition kat_cipher : list Z := [0x3F; 0xA4; 0x0E; 0x8A; 0x98; 0x4D; 0x48; 0x15].

Example des_kat_arm : @lib_des arm32 ctx_zero kat_plain kat_key 0 = kat_cipher.
Proof. vm_compute. reflexivity. Qed.
Example des_kat_lp64 : @lib_des lp64 ctx_zero kat_plain kat_key 0 = kat_cipher.
Proof. vm_compute. reflexivity. Qed.

(** ** The permutations are inverse to each other

    Every line of the two macros is a conditional exchange of bits (a delta
    swap), which is an involution, or a rotation. *)

Section Permutations.
Context `{Arch}.

Definition dswap (n m X Y : Z) : Z * Z :=
  let T := ((X ≫ n) .^ Y) .& m in (X .^ shl T n, Y .^ T).
Definition aswap (m X Y : Z) : Z * Z := let T := (X .^ Y) .& m in (X .^ T, Y .^ T).
Definition rotl1 (X : Z) : Z := (shl X 1 .| (X ≫ 31)) .& 0xFFFFFFFF.
Definition rotr1 (X : Z) : Z := (shl X 31 .| (X ≫ 1)) .& 0xFFFFFFFF.

Lemma DES_IP_steps X Y : DES_IP X Y =
  let '(X, Y) := dswap 4 0x0F0F0F0F X Y in
  let '(X, Y) := dswap 16 0x0000FFFF X Y in
  let '(Y, X) := dswap 2 0x33333333 Y X in
  let '(Y, X) := dswap 8 0x00FF00FF Y X in
  let Y := rotl1 Y in
  let '(X, Y) := aswap 0xAAAAAAAA X Y in
  (rotl1 X, Y).
Proof. done. Qed.

Lemma DES_FP_steps X Y : DES_FP X Y =
  let X := rotr1 X in
  let '(X, Y) := aswap 0xAAAAAAAA X Y in
  let Y := rotr1 Y in
  let '(Y, X) := dswap 8 0x00FF00FF Y X in
  let '(Y, X) := dswap 2 0x33333333 Y X in
  let '(X, Y) := dswap 16 0x0000FFFF X Y in
  dswap 4 0x0F0F0F0F X Y.
Proof. done. Qed.

Lemma dswap_invol n m X Y : 0 <= n <= 32 -> is_u (32 - n) m ->
  (let '(X, Y) := dswap n m X Y in dswap n m X Y) = (X, Y).
Proof.
  intros Hn Hm. unfold dswap. set (T := ((X ≫ n) .^ Y) .& m).
  assert (HT : is_u (32 - n) T) by (apply is_u_land_r; [lia|done]).
  rewrite (shl_fits T n) by (lia || done).
  assert (Ht : (((X .^ (T ≪ n)) ≫ n) .^ (Y .^ T)) .& m = T).
  { apply Z.bits_inj'; intros i Hi. unfold T. zbit_norm.
    replace (i + n - n) with i by lia.
    destruct (Z.testbit m i), (Z.testbit X (i + n)), (Z.testbit Y i); done. }
  rewrite Ht, (shl_fits T n) by (lia || done).
  by rewrite !Z.lxor_assoc, !Z.lxor_nilpotent, !Z.lxor_0_r.
Qed.

Lemma is_u32_dswap n m X Y : 0 <= n <= 32 -> is_u (32 - n) m -> is_u32 X -> is_u32 Y ->
  is_u32 (fst (dswap n m X Y)) /\ is_u32 (snd (dswap n m X Y)).
Proof.
  intros Hn Hm HX HY. unfold dswap. set (T := ((X ≫ n) .^ Y) .& m).
  assert (HT : is_u (32 - n) T) by (apply is_u_land_r; [lia|done]).
  rewrite (shl_fits T n) by (lia || done). cbn [fst snd].
  split; apply is_u_lxor; try done.
  - apply (is_u_shiftl (32 - n)); lia || done.
  - apply (is_u_weaken (32 - n)); lia || done.
Qed.

Lemma land_ones32 i : 0 <= i -> Z.testbit 0xFFFFFFFF i = (i <? 32).
Proof. intros. apply (Z.testbit_ones_nonneg 32); lia. Qed.

Lemma is_u32_mask x : is_u32 (x .& 0xFFFFFFFF).
Proof. apply is_u_land_r; [done|]. unfold is_u. lia. Qed.

Lemma testbit_rotl1 X i : is_u32 X -> 0 <= i < 32 ->
  Z.testbit (rotl1 X) i = if i =? 0 then Z.testbit X 31 else Z.testbit X (i - 1).
Proof.
  intros HX Hi. pose proof long_bits_32. unfold rotl1, shl, ul. zbit_norm.
  rewrite land_ones32 by lia.
  destruct (Z.eqb_spec i 0) as [->|]; zbit_out; zbit_simpl; done.
Qed.

Lemma testbit_rotr1 X i : is_u32 X -> 0 <= i < 32 ->
  Z.testbit (rotr1 X) i = if i =? 31 then Z.testbit X 0 else Z.testbit X (i + 1).
Proof.
  intros HX Hi. pose proof long_bits_32. unfold rotr1, shl, ul. zbit_norm.
  rewrite land_ones32 by lia.
  destruct (Z.eqb_spec i 31) as [->|]; zbit_out; zbit_simpl; done.
Qed.

Lemma rotr1_rotl1 X : is_u32 X -> rotr1 (rotl1 X) = X.
Proof.
  intros HX. apply (is_u_inj 32); [done|apply is_u32_mask|done|]. intros i Hi.
  rewrite testbit_rotr1, !testbit_rotl1 by (apply is_u32_mask || done || lia).
  destruct (Z.eqb_spec i 31) as [->|]; [done|].
  rewrite testbit_rotl1 by (done || lia). destruct (Z.eqb_spec (i + 1) 0); [lia|].
  f_equal. lia.
Qed.

Lemma rotl1_rotr1 X : is_u32 X -> rotl1 (rotr1 X) = X.
Proof.
  intros HX. apply (is_u_inj 32); [done|apply is_u32_mask|done|]. intros i Hi.
  rewrite testbit_rotl1, !testbit_rotr1 by (apply is_u32_mask || done || lia).
  destruct (Z.eqb_spec i 0) as [->|]; [done|].
  rewrite testbit_rotr1 by (done || lia). destruct (Z.eqb_spec (i - 1) 31); [lia|].
  f_equal. lia.
Qed.

(** The masked exchange of the two words. *)
Lemma aswap_invol m X Y :
  (let '(X, Y) := aswap m X Y in aswap m X Y) = (X, Y).
Proof.
  unfold aswap. f_equal; apply Z.bits_inj'; intros i Hi; zbit_norm;
    destruct (Z.testbit m i), (Z.testbit X i), (Z.testbit Y i); done.
Qed.

Lemma dswap_back n m X Y X' Y' : 0 <= n <= 32 -> is_u (32 - n) m ->
  dswap n m X Y = (X', Y') -> is_u32 X -> is_u32 Y ->
  dswap n m X' Y' = (X, Y) /\ is_u32 X' /\ is_u32 Y'.
Proof.
  intros Hn Hm E HX HY. pose proof (dswap_invol n m X Y Hn Hm) as Hi.
  pose proof (is_u32_dswap n m X Y Hn Hm HX HY) as Hr. rewrite E in Hi, Hr. done.
Qed.

Lemma aswap_back m X Y X' Y' : 0 <= m ->
  aswap m X Y = (X', Y') -> is_u32 X -> is_u32 Y ->
  aswap m X' Y' = (X, Y) /\ is_u32 X' /\ is_u32 Y'.
Proof.
  intros Hm E HX HY. pose proof (aswap_invol m X Y) as Hi. rewrite E in Hi.
  injection E as <- <-. split_and!; [done| |];
    (apply is_u_lxor; [done|done|apply is_u_land_l; [done|by apply is_u_lxor]]).
Qed.

(** Run one macro and read the other one backwards. *)
Ltac dswap_step :=
  match goal with
  | HX : is_u32 ?X, HY : is_u32 ?Y |- context [dswap ?n ?m ?X ?Y] =>
      let E := fresh "E" in let X' := fresh "X" in let Y' := fresh "Y" in
      destruct (dswap n m X Y) as [X' Y'] eqn:E;
      apply dswap_back in E; [|lia|unfold is_u; lia|done|done];
      destruct E as (? & ? & ?)
  | HX : is_u32 ?X, HY : is_u32 ?Y
    |- context [aswap ?m ?X ?Y] =>
      let E := fresh "E" in let X' := fresh "X" in let Y' := fresh "Y" in
      destruct (aswap m X Y) as [X' Y'] eqn:E;
      apply aswap_back in E; [|lia|done|done]; destruct E as (? & ? & ?)
  | |- context [rotl1 ?X] =>
      lazymatch goal with H : is_u32 (rotl1 X) |- _ => fail | _ =>
        assert (is_u32 (rotl1 X)) by apply is_u32_mask; cbv zeta end
  | |- context [rotr1 ?X] =>
      lazymatch goal with H : is_u32 (rotr1 X) |- _ => fail | _ =>
        assert (is_u32 (rotr1 X)) by apply is_u32_mask; cbv zeta end
  end.

Lemma DES_FP_IP X Y X' Y' : is_u32 X -> is_u32 Y -> DES_IP X Y = (X', Y') ->
  DES_FP X' Y' = (X, Y) /\ is_u32 X' /\ is_u32 Y'.
Proof.
  intros HX HY. rewrite DES_IP_steps, DES_FP_steps. repeat dswap_step.
  intros [= <- <-]. rewrite rotr1_rotl1 by done. cbv zeta.
  match goal with E : aswap _ _ _ = _ |- _ => rewrite E end.
  rewrite rotr1_rotl1 by done.
  repeat match goal with E : dswap _ _ _ _ = _ |- _ => rewrite E; clear E end.
  split_and!; done.
Qed.

Lemma DES_IP_FP X Y X' Y' : is_u32 X -> is_u32 Y -> DES_FP X Y = (X', Y') ->
  DES_IP X' Y' = (X, Y) /\ is_u32 X' /\ is_u32 Y'.
Proof.
  intros HX HY. rewrite DES_IP_steps, DES_FP_steps. repeat dswap_step.
  intros [= <- <-].
  repeat match goal with E : dswap _ _ _ _ = _ |- _ => rewrite E; clear E end.
  cbv zeta. rewrite rotl1_rotr1 by done.
  match goal with E : aswap _ _ _ = _ |- _ => rewrite E end.
  rewrite rotl1_rotr1 by done. done.
Qed.

End Permutations.

(** ** The Feistel network *)

Section Feistel.
Context `{Arch}.

(** Subkeys as the pairs one round consumes. *)
Fixpoint sk_pairs (SK : list Z) : list (Z * Z) :=
  match SK with a :: b :: r => (a, b) :: sk_pairs r | _ => [] end.

(** The round on the pair (modified half, used half), halves exchanged after it. *)
Definition half (s : Z * Z) (k : Z * Z) : Z * Z :=
  (snd s, DES_ROUND (fst k) (snd k) (snd s) (fst s)).
Definition feistel (ks : list (Z * Z)) (s : Z * Z) : Z * Z := fold_left half ks s.

Definition flip (s : Z * Z) : Z * Z := (snd s, fst s).

Lemma DES_ROUND_invol k0 k1 X Y : DES_ROUND k0 k1 X (DES_ROUND k0 k1 X Y) = Y.
Proof.
  unfold DES_ROUND. cbv zeta. generalize (aget SB8) (aget SB7). intros.
  apply Z.bits_inj'; intros i _. rewrite !Z.lxor_spec. btauto.
Qed.

(** Running the rounds backwards on the exchanged halves undoes them. *)
Lemma feistel_rev ks s : feistel (rev ks) (flip (feistel ks s)) = flip s.
Proof.
  revert s. induction ks as [|k ks IH]; intros s; [done|].
  cbn [rev]. unfold feistel in *. rewrite fold_left_app. cbn [fold_left].
  rewrite IH. unfold half, flip. cbn [fst snd]. by rewrite DES_ROUND_invol.
Qed.

Lemma rounds_YX_feistel n SK X Y : length SK = (4 * n)%nat ->
  forall SK', rounds_YX n (SK ++ SK') X Y =
    (SK', fst (feistel (sk_pairs SK) (X, Y)), snd (feistel (sk_pairs SK) (X, Y))).
Proof.
  revert SK X Y. induction n as [|n IH]; intros SK X Y Hl SK'.
  { by destruct SK. }
  destruct SK as [|a [|b [|c [|d SK]]]]; cbn [length] in Hl; try lia.
  cbn [rounds_YX app skipn]. rewrite drop_0, IH by lia. done.
Qed.

Lemma rounds_XY_feistel n SK X Y : length SK = (4 * n)%nat ->
  forall SK', rounds_XY n (SK ++ SK') X Y =
    (SK', snd (feistel (sk_pairs SK) (Y, X)), fst (feistel (sk_pairs SK) (Y, X))).
Proof.
  revert SK X Y. induction n as [|n IH]; intros SK X Y Hl SK'.
  { by destruct SK. }
  destruct SK as [|a [|b [|c [|d SK]]]]; cbn [length] in Hl; try lia.
  cbn [rounds_XY app skipn]. rewrite drop_0, IH by lia. done.
Qed.

(** The tables hold 32-bit words, so the halves stay 32-bit words. *)
Lemma is_u32_table t i : Forall is_u32 t -> is_u32 (aget t i).
Proof.
  intros Ht. unfold aget. rewrite list_lookup_total_alt.
  destruct (t !! Z.to_nat i) eqn:E; cbn; [by eapply Forall_lookup_1|].
  unfold is_u. lia.
Qed.

Lemma is_u32_DES_ROUND k0 k1 X Y : is_u32 Y -> is_u32 (DES_ROUND k0 k1 X Y).
Proof.
  intros HY. unfold DES_ROUND. cbv zeta.
  repeat (apply is_u_lxor; [done| |]); try done; apply is_u32_table;
    apply (bool_decide_unpack _); vm_compute; exact I.
Qed.

Definition u32_pair (s : Z * Z) : Prop := is_u32 (fst s) /\ is_u32 (snd s).

Lemma u32_pair_feistel ks s : u32_pair s -> u32_pair (feistel ks s).
Proof.
  revert s. induction ks as [|k ks IH]; intros s Hs; [done|].
  apply IH. destruct Hs. split; [done|]. by apply is_u32_DES_ROUND.
Qed.

(** ** Blocks *)

Definition is_block (b : list Z) : Prop := length b = 8%nat /\ bytes b.

(** Reading a block into the permuted halves, and writing one. *)
Definition block_in (b : list Z) : Z * Z := DES_IP (GET_UINT32_BE b 0) (GET_UINT32_BE b 4).
Definition block_out (s : Z * Z) : list Z :=
  PUT_UINT32_BE (fst (DES_FP (snd s) (fst s))) ++ PUT_UINT32_BE (snd (DES_FP (snd s) (fst s))).

Lemma block_explicit b : is_block b -> exists b0 b1 b2 b3 b4 b5 b6 b7,
  b = [b0; b1; b2; b3; b4; b5; b6; b7] /\ Forall (is_u 8) [b0; b1; b2; b3; b4; b5; b6; b7].
Proof.
  intros [Hl Hb]. do 8 (destruct b as [|? b]; [done|]). destruct b; [|done].
  by repeat eexists.
Qed.

Lemma block_in_u32 b : is_block b -> u32_pair (block_in b).
Proof.
  intros (b0 & b1 & b2 & b3 & b4 & b5 & b6 & b7 & -> & Hb)%block_explicit.
  rewrite !Forall_cons in Hb. destruct_and!. unfold block_in.
  destruct (DES_IP _ _) as [X Y] eqn:E. apply DES_FP_IP in E as (_ & ? & ?);
    [done|by apply is_u32_pack..].
Qed.

Lemma block_out_in b : is_block b -> block_out (flip (block_in b)) = b.
Proof.
  intros (b0 & b1 & b2 & b3 & b4 & b5 & b6 & b7 & -> & Hb)%block_explicit.
  rewrite !Forall_cons in Hb. destruct_and!. unfold block_in, block_out, flip.
  destruct (DES_IP _ _) as [X Y] eqn:E. cbn [fst snd]. apply DES_FP_IP in E as (-> & _ & _);
    [|by apply is_u32_pack..].
  cbn [fst snd].
  destruct (pack_bytes_inj b0 b1 b2 b3) as (E0 & E1 & E2 & E3); [done..|].
  destruct (pack_bytes_inj b4 b5 b6 b7) as (E4 & E5 & E6 & E7); [done..|].
  unfold PUT_UINT32_BE. change (GET_UINT32_BE _ 0) with ((b0 ≪ 24) .| (b1 ≪ 16) .| (b2 ≪ 8) .| b3).
  change (GET_UINT32_BE _ 4) with ((b4 ≪ 24) .| (b5 ≪ 16) .| (b6 ≪ 8) .| b7).
  by rewrite E0, E1, E2, E3, E4, E5, E6, E7.
Qed.

Lemma block_in_out s : u32_pair s -> block_in (block_out s) = flip s /\ is_block (block_out s).
Proof.
  intros [H1 H2]. unfold block_in, block_out.
  destruct (DES_FP _ _) as [X Y] eqn:E. apply DES_IP_FP in E as (E & ? & ?); [|done..].
  cbn [fst snd]. split; [|split; [done|apply Forall_app; split; apply bytes_PUT_UINT32_BE]].
  unfold flip. rewrite <- E. f_equal; by apply pack_unpack.
Qed.

Lemma des_crypt_spec SK b : length SK = 32%nat ->
  des_crypt SK b = block_out (feistel (sk_pairs SK) (block_in b)).
Proof.
  intros Hl. unfold des_crypt, block_out, block_in.
  destruct (DES_IP _ _) as [X Y]. rewrite <- (app_nil_r SK) at 1.
  rewrite rounds_YX_feistel by done. destruct (DES_FP _ _). done.
Qed.

Lemma des3_crypt_spec SK1 SK2 SK3 b :
  length SK1 = 32%nat -> length SK2 = 32%nat -> length SK3 = 32%nat ->
  des3_crypt (SK1 ++ SK2 ++ SK3) b =
    block_out (feistel (sk_pairs SK3) (flip (feistel (sk_pairs SK2)
      (flip (feistel (sk_pairs SK1) (block_in b)))))).
Proof.
  intros H1 H2 H3. unfold des3_crypt, block_out, block_in.
  destruct (DES_IP _ _) as [X Y]. rewrite rounds_YX_feistel by done.
  rewrite rounds_XY_feistel by done. rewrite <- (app_nil_r SK3) at 1.
  rewrite rounds_YX_feistel by done. unfold flip.
  destruct (feistel _ (snd _, fst _)) as [u v]. cbn [fst snd].
  destruct (DES_FP _ _). done.
Qed.

(** The block function with the subkeys in reverse order is its own inverse. *)
Lemma des_crypt_rev SK RK b : length SK = 32%nat -> length RK = 32%nat ->
  sk_pairs RK = rev (sk_pairs SK) -> is_block b ->
  des_crypt RK (des_crypt SK b) = b /\ is_block (des_crypt SK b).
Proof.
  intros H1 H2 Hr Hb. rewrite !des_crypt_spec by done.
  destruct (block_in_out (feistel (sk_pairs SK) (block_in b))) as [E ?].
  { by apply u32_pair_feistel, block_in_u32. }
  split; [|done]. rewrite E, Hr, feistel_rev. by apply block_out_in.
Qed.

End Feistel.

(** ** Key schedules and the theorems *)

Tactic Notation "explicit_list" ident(l) integer(n) :=
  do n (destruct l as [|? l]; [discriminate|]); destruct l; [|discriminate].

Section KeySchedule.
Context `{Arch}.

Lemma length_des_main_ks key : length (des_main_ks key) = 32%nat.
Proof.
  unfold des_main_ks. destruct (des_pc1 _ _) as [X Y].
  assert (Hk : forall l X Y SK,
    length (snd (fold_left ks_step l (X, Y, SK))) = (length SK + 2 * length l)%nat).
  { induction l as [|i l IH]; intros; cbn [fold_left]; [cbn; lia|].
    unfold ks_step at 2. rewrite IH, length_app. cbn. lia. }
  rewrite Hk. done.
Qed.

Lemma even_idx_eq :
  even_idx = [0; 2; 4; 6; 8; 10; 12; 14; 16; 18; 20; 22; 24; 26; 28; 30]%nat.
Proof. done. Qed.

(** [des_set_key] writes the subkeys, and their pairs in reverse order. *)
Lemma rev_pairs_loop (e d : list Z) : length e = 32%nat -> length d = 32%nat ->
  let d' := fold_left (fun d i =>
     <[(i + 1)%nat := e !!! (31 - i)%nat]> (<[i := e !!! (30 - i)%nat]> d)) even_idx d in
  length d' = 32%nat /\ sk_pairs d' = rev (sk_pairs e).
Proof. intros He Hd. explicit_list e 32. explicit_list d 32. split; reflexivity. Qed.

(** The context [des_set_key] leaves, whatever it held before. *)
Lemma des_set_key_spec ctx key : length (dsk ctx) = 32%nat ->
  let c := des_set_key ctx key in
  esk c = des_main_ks key /\ length (dsk c) = 32%nat /\
  sk_pairs (dsk c) = rev (sk_pairs (des_main_ks key)).
Proof.
  intros Hd c. split; [done|].
  apply (rev_pairs_loop (des_main_ks key) (dsk ctx)); [apply length_des_main_ks|done].
Qed.

(** The pairs of a subkey array in reverse order, as an array. *)
Definition rev_pairs (k : list Z) : list Z := rev (sk_pairs k) ≫= fun p => [fst p; snd p].

Lemma rev_pairs_spec k : length k = 32%nat ->
  length (rev_pairs k) = 32%nat /\ sk_pairs (rev_pairs k) = rev (sk_pairs k).
Proof. intros Hk. explicit_list k 32. done. Qed.

(** [des3_set_2keys] writes (K1, reversed K2, K1) and (reversed K1, K2, reversed K1). *)
Lemma des3_keys_loop (k1 k2 e d0 d2 : list Z) :
  length k1 = 32%nat -> length k2 = 32%nat -> length e = 64%nat ->
  length d0 = 32%nat -> length d2 = 32%nat ->
  fold_left (fun '(e, d) i =>
      let d := <[i := e !!! (30 - i)%nat]> d in
      let d := <[(i + 1)%nat := e !!! (31 - i)%nat]> d in
      let e := <[(i + 32)%nat := d !!! (62 - i)%nat]> e in
      let e := <[(i + 33)%nat := d !!! (63 - i)%nat]> e in
      let e := <[(i + 64)%nat := e !!! i]> e in
      let e := <[(i + 65)%nat := e !!! (1 + i)%nat]> e in
      let d := <[(i + 64)%nat := d !!! i]> d in
      let d := <[(i + 65)%nat := d !!! (1 + i)%nat]> d in
      (e, d)) even_idx (k1 ++ e, d0 ++ k2 ++ d2) =
  (k1 ++ rev_pairs k2 ++ k1, rev_pairs k1 ++ k2 ++ rev_pairs k1).
Proof.
  intros. explicit_list k1 32. explicit_list k2 32. explicit_list e 64.
  explicit_list d0 32. explicit_list d2 32. vm_compute. reflexivity.
Qed.

Definition ctx3_ok (c : des_context) : Prop :=
  length (esk c) = 96%nat /\ length (dsk c) = 96%nat.

Lemma des3_set_2keys_spec ctx key : ctx3_ok ctx ->
  let K1 := des_main_ks key in
  let K2 := des_main_ks (drop 8 key) in
  des3_set_2keys ctx key =
    {| esk := K1 ++ rev_pairs K2 ++ K1; dsk := rev_pairs K1 ++ K2 ++ rev_pairs K1 |}.
Proof.
  intros [He Hd] K1 K2. unfold des3_set_2keys. fold K1 K2.
  assert (length K1 = 32%nat /\ length K2 = 32%nat) as [] by (split; apply length_des_main_ks).
  rewrite des3_keys_loop; rewrite ?length_drop, ?length_take; try lia. done.
Qed.

End KeySchedule.

Section Theorems.
Context `{Arch}.

#[local] Opaque des_main_ks des_crypt des3_crypt rev_pairs block_in block_out feistel.

Lemma des_block_roundtrip ctx key b : length (dsk ctx) = 32%nat -> is_block b ->
  des_decrypt (des_set_key ctx key) (des_encrypt (des_set_key ctx key) b) = b /\
  is_block (des_encrypt (des_set_key ctx key) b).
Proof.
  intros Hc Hb. destruct (des_set_key_spec ctx key Hc) as (He & Hl & Hr).
  unfold des_decrypt, des_encrypt. rewrite He.
  apply des_crypt_rev; [apply length_des_main_ks|done..].
Qed.

(** C4: single DES: for every key and every 8-byte block, [des_decrypt] undoes
    [des_encrypt], whatever the uninitialised context held and on both word
    widths. *)
Theorem des_decrypt_encrypt ctx key b : length (dsk ctx) = 32%nat -> is_block b ->
  des_decrypt (des_set_key ctx key) (des_encrypt (des_set_key ctx key) b) = b.
Proof. apply des_block_roundtrip. Qed.

(** Single DES under the key's subkeys in order and in reverse order. *)
Definition E (key b : list Z) : list Z := des_crypt (des_main_ks key) b.
Definition D (key b : list Z) : list Z := des_crypt (rev_pairs (des_main_ks key)) b.

Lemma E_spec key b : E key b = block_out (feistel (sk_pairs (des_main_ks key)) (block_in b)).
Proof. unfold E. rewrite des_crypt_spec; [done|apply length_des_main_ks]. Qed.

Lemma D_spec key b :
  D key b = block_out (feistel (rev (sk_pairs (des_main_ks key))) (block_in b)).
Proof.
  destruct (rev_pairs_spec (des_main_ks key)) as [Hl Hp]; [apply length_des_main_ks|].
  unfold D. by rewrite des_crypt_spec, Hp.
Qed.

Lemma is_block_ED key b : is_block b -> is_block (E key b) /\ is_block (D key b).
Proof.
  intros Hb. rewrite E_spec, D_spec.
  split; apply block_in_out, u32_pair_feistel, block_in_u32, Hb.
Qed.

Lemma DE_ED key b : is_block b -> D key (E key b) = b /\ E key (D key b) = b.
Proof.
  intros Hb. destruct (rev_pairs_spec (des_main_ks key)) as [Hl Hp]; [apply length_des_main_ks|].
  pose proof (length_des_main_ks key). unfold D, E. split.
  - by apply des_crypt_rev.
  - apply des_crypt_rev; [assumption|assumption| |assumption].
    rewrite Hp, rev_involutive. reflexivity.
Qed.

(** The fused 48 rounds are three runs of the block function: the inner final
    and initial permutations cancel. *)
Lemma des3_crypt_compose SK1 SK2 SK3 b :
  length SK1 = 32%nat -> length SK2 = 32%nat -> length SK3 = 32%nat -> is_block b ->
  des3_crypt (SK1 ++ SK2 ++ SK3) b = des_crypt SK3 (des_crypt SK2 (des_crypt SK1 b)).
Proof.
  intros H1 H2 H3 Hb. rewrite des3_crypt_spec, !des_crypt_spec by done.
  assert (Hu : u32_pair (feistel (sk_pairs SK1) (block_in b)))
    by by apply u32_pair_feistel, block_in_u32.
  destruct (block_in_out _ Hu) as [-> _].
  assert (Hv : u32_pair (feistel (sk_pairs SK2) (flip (feistel (sk_pairs SK1) (block_in b))))).
  { apply u32_pair_feistel. destruct Hu. by split. }
  by destruct (block_in_out _ Hv) as [-> _].
Qed.

Lemma des3_EDE ctx key b : ctx3_ok ctx -> is_block b ->
  des3_encrypt (des3_set_2keys ctx key) b = E key (D (drop 8 key) (E key b)) /\
  des3_decrypt (des3_set_2keys ctx key) b = D key (E (drop 8 key) (D key b)).
Proof.
  intros Hc Hb. rewrite des3_set_2keys_spec by done. unfold des3_encrypt, des3_decrypt. cbn [esk dsk].
  destruct (rev_pairs_spec (des_main_ks key)) as [? _]; [apply length_des_main_ks|].
  destruct (rev_pairs_spec (des_main_ks (drop 8 key))) as [? _]; [apply length_des_main_ks|].
  unfold E, D.
  split; apply des3_crypt_compose; first [assumption | apply length_des_main_ks].
Qed.

(** Triple DES: the 48-round core run with the subkeys of [des3_set_2keys]
    is encrypt under K1, decrypt under K2, encrypt under K1 of the single-DES
    block function, and the decryption direction is its mirror image. *)
Theorem des3_is_EDE ctx key b : ctx3_ok ctx -> is_block b ->
  des3_encrypt (des3_set_2keys ctx key) b = E key (D (drop 8 key) (E key b)) /\
  des3_decrypt (des3_set_2keys ctx key) b = D key (E (drop 8 key) (D key b)).
Proof. apply des3_EDE. Qed.

Lemma des3_roundtrip ctx ctx' key b : ctx3_ok ctx -> ctx3_ok ctx' -> is_block b ->
  lib_des3 ctx' (lib_des3 ctx b key 0) key 1 = b /\ is_block (lib_des3 ctx b key 0).
Proof.
  intros Hc Hc' Hb. unfold lib_des3. cbn [Z.eqb].
  destruct (is_block_ED key b Hb) as [HE _].
  destruct (is_block_ED (drop 8 key) _ HE) as [_ HD].
  destruct (is_block_ED key _ HD) as [HB _].
  destruct (des3_EDE ctx key b Hc Hb) as [-> _].
  destruct (des3_EDE ctx' key _ Hc' HB) as [_ ->]. split; [|done].
  destruct (DE_ED key (D (drop 8 key) (E key b))) as [-> _]; [done|].
  destruct (DE_ED (drop 8 key) (E key b)) as [_ ->]; [done|].
  exact (proj1 (DE_ED key b Hb)).
Qed.

Lemma des_lib_roundtrip ctx ctx' key b :
  length (dsk ctx) = 32%nat -> length (dsk ctx') = 32%nat -> is_block b ->
  lib_des ctx' (lib_des ctx b key 0) key 1 = b /\ is_block (lib_des ctx b key 0).
Proof.
  intros Hc Hc' Hb. unfold lib_des. cbn [Z.eqb].
  destruct (des_set_key_spec ctx key Hc) as (He & _).
  destruct (des_set_key_spec ctx' key Hc') as (He' & _).
  destruct (des_block_roundtrip ctx' key b Hc' Hb) as [H1 H2].
  unfold des_encrypt, des_decrypt in *. rewrite He. rewrite He' in H1, H2.
  exact (conj H1 H2).
Qed.

End Theorems.

(** ** The buffer interface *)

Section Buffers.

(** The first [n] blocks of a buffer. *)
Fixpoint blocks (n : nat) (l : list Z) : list (list Z) :=
  match n with O => [] | S n => take 8 l :: blocks n (drop 8 l) end.

Lemma concat_blocks n l : length l = (8 * n)%nat -> concat (blocks n l) = l.
Proof.
  revert l. induction n as [|n IH]; intros l Hl; cbn [blocks concat]; [by destruct l|].
  rewrite IH by (rewrite length_drop; lia). apply take_drop.
Qed.

Lemma blocks_concat (ls : list (list Z)) : Forall (fun b => length b = 8%nat) ls ->
  blocks (length ls) (concat ls) = ls.
Proof.
  induction 1 as [|b ls Hb _ IH]; cbn [length concat blocks]; [done|].
  rewrite take_app_length', drop_app_length' by done. by rewrite IH.
Qed.

Lemma length_blocks n l : length (blocks n l) = n.
Proof. revert l. induction n; intros; cbn; auto. Qed.

Lemma blocks_ok n l : length l = (8 * n)%nat -> bytes l -> Forall is_block (blocks n l).
Proof.
  revert l. induction n as [|n IH]; intros l Hl Hb; cbn [blocks]; constructor.
  - split; [rewrite length_take; lia|]. by apply Forall_take.
  - apply IH; [rewrite length_drop; lia|]. by apply Forall_drop.
Qed.

Lemma length_concat_blocks (ls : list (list Z)) :
  Forall (fun b => length b = 8%nat) ls -> length (concat ls) = (8 * length ls)%nat.
Proof. induction 1; cbn; [done|]. rewrite length_app. lia. Qed.

(** The loop writes [f] of each block in turn behind what it has written. *)
Lemma block_loop_spec f m_in n : (forall b, length (f b) = 8%nat) -> forall m fuel k out rest,
  n = (k + m)%nat -> (m <= fuel)%nat ->
  length out = (8 * k)%nat -> (8 * m <= length rest)%nat ->
  block_loop fuel f m_in (Z.of_nat (8 * n)) (Z.of_nat (8 * k)) (out ++ rest) =
    Some (out ++ concat (f <$> blocks m (drop (8 * k) m_in)) ++ drop (8 * m) rest).
Proof.
  intros Hf m. induction m as [|m IH]; intros fuel k out rest Hn Hfuel Hout Hrest.
  { replace n with k by lia. destruct fuel; cbn [block_loop];
      destruct (Z.ltb_spec (Z.of_nat (8 * k)) (Z.of_nat (8 * k))); try lia; done. }
  destruct fuel as [|fuel]; [lia|]. cbn [block_loop].
  destruct (Z.ltb_spec (Z.of_nat (8 * k)) (Z.of_nat (8 * n))); [|lia].
  unfold bcopy. rewrite bool_decide_eq_true_2 by (rewrite length_app, Hf; lia).
  cbn [mbind option_bind]. rewrite Nat2Z.id, Hf.
  rewrite take_app_length' by lia.
  replace (drop (8 * k + 8) (out ++ rest)) with (drop 8 rest)
    by (rewrite drop_app_ge by lia; f_equal; lia).
  rewrite (app_assoc out). replace (Z.of_nat (8 * k) + 8) with (Z.of_nat (8 * (k + 1))) by lia.
  rewrite (IH fuel (k + 1)%nat); rewrite ?length_app, ?length_drop, ?Hf; try lia.
  cbn [blocks fmap list_fmap concat]. rewrite !drop_drop, <- !app_assoc.
  do 5 f_equal; lia || (do 3 f_equal; lia).
Qed.

Lemma blocks_app n l r : length l = (8 * n)%nat -> blocks n (l ++ r) = blocks n l.
Proof.
  revert l. induction n as [|n IH]; intros l Hl; cbn [blocks]; [done|].
  rewrite take_app_le, drop_app_le by lia. f_equal. apply IH. rewrite length_drop. lia.
Qed.

(** On whole blocks that fit the stack buffer the interface is [f] on each block. *)
Lemma buffer_crypt_blocks f n l : (forall b, length (f b) = 8%nat) -> length l = (8 * n)%nat ->
  (n <= 128)%nat -> buffer_crypt f l (Z.of_nat (length l)) = Some (concat (f <$> blocks n l)).
Proof.
  intros Hf Hl Hn. unfold buffer_crypt. rewrite bool_decide_eq_true_2 by lia.
  rewrite Nat2Z.id, firstn_all. unfold bcopy.
  rewrite bool_decide_eq_true_2 by (rewrite length_replicate; unfold BUF_MAX_SIZE; lia).
  cbn [mbind option_bind].
  set (m_in := take _ _ ++ l ++ _). set (z := replicate _ 0).
  rewrite Hl. change 0 with (Z.of_nat (8 * 0)) at 1.
  rewrite <- (app_nil_l z), (block_loop_spec f m_in n Hf n);
    [|lia|unfold BUF_MAX_SIZE; lia|done|unfold z; rewrite length_replicate; unfold BUF_MAX_SIZE; lia].
  cbn [mbind option_bind app Nat.mul]. rewrite drop_0. f_equal.
  rewrite take_app_length'.
  2:{ rewrite length_concat_blocks, length_fmap, length_blocks; [lia|].
      apply Forall_fmap, Forall_true. intros. apply Hf. }
  do 2 f_equal. unfold m_in. change (Z.to_nat 0) with 0%nat. rewrite take_0. cbn [app].
  by apply blocks_app.
Qed.

Lemma length_des_crypt `{Arch} SK b : length (des_crypt SK b) = 8%nat.
Proof.
  unfold des_crypt. destruct (DES_IP _ _). destruct (rounds_YX _ _ _ _) as [[? ?] ?].
  by destruct (DES_FP _ _).
Qed.

Lemma length_des3_crypt `{Arch} SK b : length (des3_crypt SK b) = 8%nat.
Proof.
  unfold des3_crypt. destruct (DES_IP _ _). destruct (rounds_YX _ _ _ _) as [[? ?] ?].
  destruct (rounds_XY _ _ _ _) as [[? ?] ?]. destruct (rounds_YX _ _ _ _) as [[? ?] ?].
  by destruct (DES_FP _ _).
Qed.

(** A pair of block functions that invert each other gives a pair of buffer
    functions that invert each other. *)
Lemma buffer_roundtrip f g l : (forall b, length (f b) = 8%nat) -> (forall b, length (g b) = 8%nat) ->
  (forall b, is_block b -> g (f b) = b) ->
  bytes l -> (length l <= 1024)%nat -> (length l mod 8 = 0)%nat ->
  (c ← buffer_crypt f l (Z.of_nat (length l)); buffer_crypt g c (Z.of_nat (length c))) = Some l.
Proof.
  intros Hf Hg Hgf Hb Hle Hm. apply Nat.Div0.mod_divides in Hm as [n Hn].
  rewrite (buffer_crypt_blocks f n l Hf) by lia. cbn [mbind option_bind].
  assert (Hlen : Forall (fun b => length b = 8%nat) (f <$> blocks n l))
    by (apply Forall_fmap, Forall_true; intros; apply Hf).
  assert (Hl2 : length (concat (f <$> blocks n l)) = (8 * n)%nat)
    by (rewrite length_concat_blocks, length_fmap, length_blocks by done; lia).
  rewrite (buffer_crypt_blocks g n) by (done || lia).
  f_equal. rewrite <- (length_blocks n l) at 1. rewrite <- (length_fmap f (blocks n l)).
  rewrite blocks_concat by done. rewrite <- (concat_blocks n l) at 2 by done. f_equal.
  rewrite <- list_fmap_compose. rewrite <- (list_fmap_id (blocks n l)) at 2.
  apply list_fmap_ext. intros i b Hi. apply Hgf.
  eapply Forall_lookup_1; [|exact Hi]. by apply blocks_ok.
Qed.

(** C11: [lib_des3_decrypt] undoes [lib_des3_encrypt] on every buffer of whole
    blocks that fits the 1024-byte stack buffers. *)
Theorem lib_des3_roundtrip `{Arch} ctx ctx' key l : ctx3_ok ctx -> ctx3_ok ctx' ->
  bytes l -> (length l <= 1024)%nat -> (length l mod 8 = 0)%nat ->
  (c ← lib_des3_encrypt ctx l (Z.of_nat (length l)) key;
   lib_des3_decrypt ctx' c (Z.of_nat (length c)) key) = Some l.
Proof.
  intros Hc Hc'. apply buffer_roundtrip.
  - intros b. apply length_des3_crypt.
  - intros b. apply length_des3_crypt.
  - intros b Hb. by apply des3_roundtrip.
Qed.

Lemma ctx3_zero_ok : ctx3_ok ctx3_zero.
Proof. done. Qed.

(** A two-block buffer. *)
Lemma lib_des3_roundtrip_witness :
  (c ← @lib_des3_encrypt arm32 ctx3_zero (kat_plain ++ kat_cipher) 16 (kat_key ++ kat_cipher);
   @lib_des3_decrypt arm32 ctx3_zero c (Z.of_nat (length c)) (kat_key ++ kat_cipher)) =
  Some (kat_plain ++ kat_cipher).
Proof.
  apply (@lib_des3_roundtrip arm32 ctx3_zero ctx3_zero (kat_key ++ kat_cipher)
           (kat_plain ++ kat_cipher)); [apply ctx3_zero_ok|apply ctx3_zero_ok| | |].
  - apply (bool_decide_unpack _). vm_compute. exact I.
  - cbn. lia.
  - reflexivity.
Defined.

Lemma kat_plain_block : is_block kat_plain.
Proof. split; [done|]. apply (bool_decide_unpack _). vm_compute. exact I. Qed.

Lemma des_decrypt_encrypt_witness :
  @des_decrypt arm32 (@des_set_key arm32 ctx_zero kat_key)
    (@des_encrypt arm32 (@des_set_key arm32 ctx_zero kat_key) kat_plain) = kat_plain.
Proof.
  exact (@des_decrypt_encrypt arm32 ctx_zero kat_key kat_plain eq_refl kat_plain_block).
Defined.

Lemma des3_is_EDE_witness :
  @des3_encrypt lp64 (@des3_set_2keys lp64 ctx3_zero (kat_key ++ kat_cipher)) kat_plain =
    @E lp64 (kat_key ++ kat_cipher)
      (@D lp64 (drop 8 (kat_key ++ kat_cipher)) (@E lp64 (kat_key ++ kat_cipher) kat_plain)).
Proof.
  exact (proj1 (@des3_is_EDE lp64 ctx3_zero (kat_key ++ kat_cipher) kat_plain
                  ctx3_zero_ok kat_plain_block)).
Defined.

(** A buffer whose length is not a multiple of 8 does not survive: its last
    ciphertext block is cut to the input length, so decryption returns other
    bytes (here a 9-byte buffer). *)
Theorem lib_des_partial_block_lost :
  (c ← @lib_des_encrypt arm32 ctx_zero (kat_plain ++ [0x21]) 9 kat_key;
   @lib_des_decrypt arm32 ctx_zero c 9 kat_key) <> Some (kat_plain ++ [0x21]).
Proof. vm_compute. discriminate. Qed.

(** Memory safety: with 0 <= inlen <= 1024 no access leaves a buffer, and the
    loop ends. *)
Lemma block_loop_safe f m_in inlen : (forall b, length (f b) = 8%nat) -> inlen <= 1024 ->
  forall fuel i m_out, (exists k, i = 8 * k /\ 0 <= k) -> length m_out = 1024%nat ->
  inlen - i <= 8 * Z.of_nat fuel -> is_Some (block_loop fuel f m_in inlen i m_out).
Proof.
  intros Hf Hn fuel. induction fuel as [|fuel IH]; intros i m_out [k [Hk Hk0]] Hl Hfuel;
    cbn [block_loop]; destruct (Z.ltb_spec i inlen); try lia; [done| |done].
  unfold bcopy. rewrite bool_decide_eq_true_2 by (rewrite Hf; lia). cbn [mbind option_bind].
  apply IH; [exists (k + 1); lia| |lia].
  rewrite !length_app, length_take, length_drop, Hf. lia.
Qed.

Lemma buffer_crypt_safe f l inlen : (forall b, length (f b) = 8%nat) ->
  is_Some (buffer_crypt f l inlen) <-> 0 <= inlen <= Z.min 1024 (Z.of_nat (length l)).
Proof.
  intros Hf. unfold buffer_crypt. case_bool_decide as Hr; cycle 1.
  { split; [by intros []|lia]. }
  unfold bcopy. rewrite length_take, length_replicate. unfold BUF_MAX_SIZE.
  case_bool_decide as Hc; cbn [mbind option_bind]; cycle 1.
  { split; [by intros []|lia]. }
  split; [lia|]. intros _.
  destruct (block_loop_safe f (take (Z.to_nat 0) (replicate (Z.to_nat 1024) 0) ++
    take (Z.to_nat inlen) l ++ drop (Z.to_nat 0 + Z.to_nat inlen `min` length l)
      (replicate (Z.to_nat 1024) 0)) inlen Hf ltac:(lia) (Z.to_nat 1024) 0
    (replicate (Z.to_nat 1024) 0)) as [m_out Hm]; [by exists 0| |lia|].
  { by rewrite length_replicate. }
  rewrite Hm. done.
Qed.

(** The DES buffer functions stay inside their 1024-byte stack buffers
    exactly when 0 <= inlen <= 1024 (and the caller's buffer holds inlen
    bytes); for larger inlen the first memcpy already overruns one. *)
Theorem lib_des_encrypt_safe `{Arch} ctx l inlen key :
  is_Some (lib_des_encrypt ctx l inlen key) <-> 0 <= inlen <= Z.min 1024 (Z.of_nat (length l)).
Proof. apply buffer_crypt_safe. intros b. apply length_des_crypt. Qed.

End Buffers.

(** ** Independence of the width of [unsigned long] *)

Section Width.

Lemma dswap_arch (A B : Arch) n m X Y : 0 <= n <= 32 -> is_u (32 - n) m ->
  @dswap A n m X Y = @dswap B n m X Y.
Proof.
  intros Hn Hm. unfold dswap. cbv zeta.
  by rewrite !shl_fits by (lia || (apply is_u_land_r; [lia|done])).
Qed.

Lemma shl_lor_land (A : Arch) X Y n m : 0 <= n -> is_u32 m ->
  (@shl A X n .| Y) .& m = ((X ≪ n) .| Y) .& m.
Proof. intros. rewrite !Z.land_lor_distr_l. by rewrite shl_land. Qed.

Lemma DES_IP_arch (A B : Arch) X Y : @DES_IP A X Y = @DES_IP B X Y.
Proof.
  rewrite !DES_IP_steps.
  rewrite (dswap_arch A B 4) by (unfold is_u; lia). destruct (dswap 4 _ X Y) as [X0 Y0].
  rewrite (dswap_arch A B 16) by (unfold is_u; lia). destruct (dswap 16 _ _ _) as [X1 Y1].
  rewrite (dswap_arch A B 2) by (unfold is_u; lia). destruct (dswap 2 _ _ _) as [X2 Y2].
  rewrite (dswap_arch A B 8) by (unfold is_u; lia). destruct (dswap 8 _ _ _) as [X3 Y3].
  unfold rotl1. rewrite !shl_lor_land by (unfold is_u; lia).
  destruct (aswap _ _ _) as [X4 Y4]. by rewrite !shl_lor_land by (unfold is_u; lia).
Qed.

Lemma DES_FP_arch (A B : Arch) X Y : @DES_FP A X Y = @DES_FP B X Y.
Proof.
  rewrite !DES_FP_steps. unfold rotr1. rewrite !shl_lor_land by (unfold is_u; lia).
  cbv zeta. destruct (aswap _ _ _) as [X0 Y0]. rewrite !shl_lor_land by (unfold is_u; lia).
  rewrite (dswap_arch A B 8) by (unfold is_u; lia). destruct (dswap 8 _ _ _) as [X1 Y1].
  rewrite (dswap_arch A B 2) by (unfold is_u; lia). destruct (dswap 2 _ _ _) as [X2 Y2].
  rewrite (dswap_arch A B 16) by (unfold is_u; lia). destruct (dswap 16 _ _ _) as [X3 Y3].
  apply dswap_arch; unfold is_u; lia.
Qed.

(** The six bits an S-box looks at lie below bit 30. *)
Lemma round_index_arch (A : Arch) k X Y n : 0 <= n <= 26 ->
  ((k .^ (@shl A X 28 .| Y)) ≫ n) .& 0x3F = ((k .^ ((X ≪ 28) .| Y)) ≫ n) .& 0x3F.
Proof.
  intros Hn. apply Z.bits_inj'; intros i Hi. change 0x3F with (Z.ones 6).
  unfold shl, ul. pose proof (@long_bits_32 A). zbit_norm.
  destruct (Z.ltb_spec i 6); [zbit_out; done|].
  rewrite Z.ones_spec_high by lia. by rewrite !andb_false_r.
Qed.

Lemma DES_ROUND_arch (A B : Arch) k0 k1 X Y : @DES_ROUND A k0 k1 X Y = @DES_ROUND B k0 k1 X Y.
Proof.
  unfold DES_ROUND. cbv zeta. rewrite !round_index_arch by lia.
  rewrite <- (Z.shiftr_0_r (k1 .^ (@shl A _ _ .| _))), <- (Z.shiftr_0_r (k1 .^ (@shl B _ _ .| _))).
  by rewrite !round_index_arch by lia.
Qed.

Lemma half_tables i : is_u 25 (aget LHs i) /\ is_u 25 (aget RHs i).
Proof.
  split; (apply is_u_aget; [done|]); apply (bool_decide_unpack _); vm_compute; exact I.
Qed.

Lemma shl_half (A : Arch) i n : 0 <= n <= 7 ->
  @shl A (aget LHs i) n = aget LHs i ≪ n /\ @shl A (aget RHs i) n = aget RHs i ≪ n.
Proof.
  intros Hn. destruct (half_tables i). split; apply shl_fits; try lia;
    (eapply is_u_weaken; [|eassumption]; lia).
Qed.

Lemma des_pc1_arch (A B : Arch) X Y : @des_pc1 A X Y = @des_pc1 B X Y.
Proof.
  unfold des_pc1. cbv zeta.
  rewrite (shl_fits (H := A) (_ .& 0x0F0F0F0F)), (shl_fits (H := B) (_ .& 0x0F0F0F0F))
    by (lia || (apply is_u_land_r; [lia|unfold is_u; lia])).
  repeat match goal with
  | |- context [@shl ?C (aget LHs ?i) ?n] => rewrite (proj1 (shl_half C i n ltac:(lia)))
  | |- context [@shl ?C (aget RHs ?i) ?n] => rewrite (proj2 (shl_half C i n ltac:(lia)))
  end. done.
Qed.

Lemma ks_step_arch (A B : Arch) st i : @ks_step A st i = @ks_step B st i.
Proof.
  destruct st as [[X Y] SK]. unfold ks_step.
  assert (Hr : forall Z, @ks_rot A i Z = @ks_rot B i Z).
  { intros. unfold ks_rot. destruct (_ || _ || _);
      by rewrite !shl_lor_land by (unfold is_u; lia). }
  rewrite !Hr. unfold ks_word0, ks_word1. by rewrite !shl_land by (unfold is_u; lia).
Qed.

Lemma des_main_ks_arch (A B : Arch) key : @des_main_ks A key = @des_main_ks B key.
Proof.
  unfold des_main_ks. rewrite (des_pc1_arch A B). destruct (des_pc1 _ _) as [X Y]. f_equal.
  generalize (seqZ 0 16) (X, Y, @nil Z). intros l. induction l as [|i l IH]; intros st; [done|].
  cbn [fold_left]. by rewrite (ks_step_arch A B), IH.
Qed.

Lemma rounds_arch (A B : Arch) n : forall SK X Y,
  @rounds_YX A n SK X Y = @rounds_YX B n SK X Y /\ @rounds_XY A n SK X Y = @rounds_XY B n SK X Y.
Proof.
  induction n as [|n IH]; intros SK X Y; [done|]. cbn [rounds_YX rounds_XY].
  rewrite !(DES_ROUND_arch A B). split; apply IH.
Qed.

Lemma des3_crypt_arch (A B : Arch) SK b : @des3_crypt A SK b = @des3_crypt B SK b.
Proof.
  unfold des3_crypt. rewrite (DES_IP_arch A B). destruct (DES_IP _ _) as [X Y].
  rewrite (proj1 (rounds_arch A B 8 _ _ _)). destruct (rounds_YX 8 _ _ _) as [[SK1 X1] Y1].
  rewrite (proj2 (rounds_arch A B 8 _ _ _)). destruct (rounds_XY 8 _ _ _) as [[SK2 X2] Y2].
  rewrite (proj1 (rounds_arch A B 8 _ _ _)). destruct (rounds_YX 8 _ _ _) as [[SK3 X3] Y3].
  by rewrite (DES_FP_arch A B).
Qed.

(** Triple DES computes the same block whether [unsigned long] has 32 bits
    (the boards) or 64 (the hosts): the bits a wider word keeps above bit 31 are
    masked before they are used. *)
Theorem lib_des3_width_independent ctx b key direct :
  @lib_des3 arm32 ctx b key direct = @lib_des3 lp64 ctx b key direct.
Proof.
  unfold lib_des3, des3_set_2keys, des3_encrypt, des3_decrypt.
  rewrite !(des_main_ks_arch arm32 lp64). by rewrite !(des3_crypt_arch arm32 lp64).
Qed.

End Width.
