(* ===== verification/Aes.v ===== *)
(** * AES (src/encryption/aes.c, lines 1-46 and 433-871)

    The key schedule, the block cipher and the two buffer routines, with the
    file's global tables as explicit state.  Decryption is proved to invert
    encryption ([AesFips] has the equivalence with FIPS-197, [AesBuffers] the
    theorems on the buffer routines).  The buffer routines run in a flat
    memory, so that calls with [in == out] are covered.  As in
    [AesTables], the width of [ulong] does not matter: every value is at most
    32 bits wide. *)

From S2P Require Import Prelude AesTables.

(** ** State *)

Record aes_context := mk_aes_context {
  erk : list Z;      (* encryption round keys *)
  drk : list Z;      (* decryption round keys *)
  nr : Z             (* number of rounds *) }.

Definition zero_context : aes_context := mk_aes_context (replicate 64 0) (replicate 64 0) 0.

(** Decryption key schedule tables *)
Record kt_tables := mk_kt { KT0 : list Z; KT1 : list Z; KT2 : list Z; KT3 : list Z }.

(** The global variables of the file. *)
Record aes_globals := mk_aes_globals {
  tables : aes_tables;
  do_init : bool;
  kts : kt_tables;
  KT_init : bool }.

Definition initial_globals : aes_globals :=
  mk_aes_globals zero_tables true (mk_kt zero_table zero_table zero_table zero_table) true.

(** ** Key schedule *)

(** [(uchar) (w >> n)] *)
Definition byte_at (n w : Z) : Z := u8 (w ≫ n).

Definition rounds_of_keysize (keysize : Z) : Z :=
  if keysize =? 256 then 14 else if keysize =? 192 then 12 else 10.

(** The load loop; [None] is a read past the key or a write past [erk]. *)
Definition load_key (key : list Z) (keysize : Z) (rk : list Z) : option (list Z) :=
  let n := keysize ≫ 5 in
  if (n <=? 64) && (4 * n <=? Z.of_nat (length key))
  then Some (fold_left (fun rk i => aset rk i (GET_UINT32_BE key (i * 4))) (seqZ 0 n) rk)
  else None.

Definition sub_rot_word (T : aes_tables) (w : Z) : Z :=
  (aget (FSb T) (byte_at 16 w) ≪ 24) .^ (aget (FSb T) (byte_at 8 w) ≪ 16) .^
  (aget (FSb T) (byte_at 0 w) ≪ 8) .^ aget (FSb T) (byte_at 24 w).

Definition sub_word (T : aes_tables) (w : Z) : Z :=
  (aget (FSb T) (byte_at 24 w) ≪ 24) .^ (aget (FSb T) (byte_at 16 w) ≪ 16) .^
  (aget (FSb T) (byte_at 8 w) ≪ 8) .^ aget (FSb T) (byte_at 0 w).

(** [RK[j] = RK[i] ^ RK[k]], relative to the moving pointer [RK]. *)
Definition rk_xor (RK j i k : Z) (rk : list Z) : list Z :=
  aset rk (RK + j) (aget rk (RK + i) .^ aget rk (RK + k)).

Definition key_step10 (T : aes_tables) (st : list Z * Z) (i : Z) : list Z * Z :=
  let '(rk, RK) := st in
  let rk := aset rk (RK + 4)
    (aget rk (RK + 0) .^ aget (RCON T) i .^ sub_rot_word T (aget rk (RK + 3))) in
  let rk := rk_xor RK 5 1 4 rk in
  let rk := rk_xor RK 6 2 5 rk in
  let rk := rk_xor RK 7 3 6 rk in
  (rk, RK + 4).

Definition key_step12 (T : aes_tables) (st : list Z * Z) (i : Z) : list Z * Z :=
  let '(rk, RK) := st in
  let rk := aset rk (RK + 6)
    (aget rk (RK + 0) .^ aget (RCON T) i .^ sub_rot_word T (aget rk (RK + 5))) in
  let rk := rk_xor RK 7 1 6 rk in
  let rk := rk_xor RK 8 2 7 rk in
  let rk := rk_xor RK 9 3 8 rk in
  let rk := rk_xor RK 10 4 9 rk in
  let rk := rk_xor RK 11 5 10 rk in
  (rk, RK + 6).

Definition key_step14 (T : aes_tables) (st : list Z * Z) (i : Z) : list Z * Z :=
  let '(rk, RK) := st in
  let rk := aset rk (RK + 8)
    (aget rk (RK + 0) .^ aget (RCON T) i .^ sub_rot_word T (aget rk (RK + 7))) in
  let rk := rk_xor RK 9 1 8 rk in
  let rk := rk_xor RK 10 2 9 rk in
  let rk := rk_xor RK 11 3 10 rk in
  let rk := aset rk (RK + 12) (aget rk (RK + 4) .^ sub_word T (aget rk (RK + 11))) in
  let rk := rk_xor RK 13 5 12 rk in
  let rk := rk_xor RK 14 6 13 rk in
  let rk := rk_xor RK 15 7 14 rk in
  (rk, RK + 8).

(** The switch on [ctx->nr]; [RK] ends on the last round key. *)
Definition expand_key (T : aes_tables) (nr : Z) (rk : list Z) : list Z * Z :=
  if nr =? 10 then fold_left (key_step10 T) (seqZ 0 10) (rk, 0)
  else if nr =? 12 then fold_left (key_step12 T) (seqZ 0 8) (rk, 0)
  else if nr =? 14 then fold_left (key_step14 T) (seqZ 0 7) (rk, 0)
  else (rk, 0).

Definition kt_step (T : aes_tables) (K : kt_tables) (i : Z) : kt_tables :=
  let s := aget (FSb T) i in
  mk_kt (aset (KT0 K) i (aget (RT0 T) s)) (aset (KT1 K) i (aget (RT1 T) s))
        (aset (KT2 K) i (aget (RT2 T) s)) (aset (KT3 K) i (aget (RT3 T) s)).

Definition gen_kt (T : aes_tables) (K : kt_tables) : kt_tables :=
  fold_left (kt_step T) (seqZ 0 256) K.

Definition imc (K : kt_tables) (w : Z) : Z :=
  aget (KT0 K) (byte_at 24 w) .^ aget (KT1 K) (byte_at 16 w) .^
  aget (KT2 K) (byte_at 8 w) .^ aget (KT3 K) (byte_at 0 w).

(** Four times [*SK++ = f( *RK++ )]; [rd] reads the encryption keys. *)
Definition put4 (f rd : Z -> Z) (st : list Z * Z * Z) : list Z * Z * Z :=
  let '(sk, SK, RK) := st in
  (aset (aset (aset (aset sk SK (f (rd RK))) (SK + 1) (f (rd (RK + 1))))
     (SK + 2) (f (rd (RK + 2)))) (SK + 3) (f (rd (RK + 3))), SK + 4, RK + 4).

Definition back8 (st : list Z * Z * Z) : list Z * Z * Z :=
  let '(sk, SK, RK) := st in (sk, SK, RK - 8).

Definition reverse_keys (f rd : Z -> Z) (sk : list Z) (RK nr : Z) : list Z :=
  let st := put4 (fun w => w) rd (sk, 0, RK) in
  let st := fold_left (fun st _ => put4 f rd (back8 st)) (seqZ 1 (nr - 1)) st in
  (put4 (fun w => w) rd (back8 st)).1.1.

Definition aes_set_key (g : aes_globals) (ctx : aes_context) (key : list Z) (keysize : Z)
  : option (aes_globals * aes_context) :=
  let T := if do_init g then aes_gen_tables (tables g) else tables g in
  let nr := rounds_of_keysize keysize in
  rk ← load_key key keysize (erk ctx);
  let '(rk, RK) := expand_key T nr rk in
  let K := if KT_init g then gen_kt T (kts g) else kts g in
  let sk := reverse_keys (imc K) (aget rk) (drk ctx) RK nr in
  Some (mk_aes_globals T false K false, mk_aes_context rk sk nr).

(** ** Block cipher

    The sixteen-byte block lives in four words; the macros alternate between
    [X0..X3] and [Y0..Y3], here the argument and the result of a round. *)

Definition word4 : Type := Z * Z * Z * Z.

Definition load_block (rk input : list Z) : word4 :=
  (GET_UINT32_BE input 0 .^ aget rk 0, GET_UINT32_BE input 4 .^ aget rk 1,
   GET_UINT32_BE input 8 .^ aget rk 2, GET_UINT32_BE input 12 .^ aget rk 3).

Definition store_block (st : word4) : list Z :=
  let '(X0, X1, X2, X3) := st in
  PUT_UINT32_BE X0 ++ PUT_UINT32_BE X1 ++ PUT_UINT32_BE X2 ++ PUT_UINT32_BE X3.

Definition fcol (T : aes_tables) (k a b c d : Z) : Z :=
  k .^ aget (FT0 T) (byte_at 24 a) .^ aget (FT1 T) (byte_at 16 b) .^
  aget (FT2 T) (byte_at 8 c) .^ aget (FT3 T) (byte_at 0 d).

Definition AES_FROUND (T : aes_tables) (rk : list Z) (RK : Z) (Y : word4) : word4 :=
  let '(Y0, Y1, Y2, Y3) := Y in
  (fcol T (aget rk (RK + 0)) Y0 Y1 Y2 Y3, fcol T (aget rk (RK + 1)) Y1 Y2 Y3 Y0,
   fcol T (aget rk (RK + 2)) Y2 Y3 Y0 Y1, fcol T (aget rk (RK + 3)) Y3 Y0 Y1 Y2).

Definition rcol (T : aes_tables) (k a b c d : Z) : Z :=
  k .^ aget (RT0 T) (byte_at 24 a) .^ aget (RT1 T) (byte_at 16 b) .^
  aget (RT2 T) (byte_at 8 c) .^ aget (RT3 T) (byte_at 0 d).

Definition AES_RROUND (T : aes_tables) (rk : list Z) (RK : Z) (Y : word4) : word4 :=
  let '(Y0, Y1, Y2, Y3) := Y in
  (rcol T (aget rk (RK + 0)) Y0 Y3 Y2 Y1, rcol T (aget rk (RK + 1)) Y1 Y0 Y3 Y2,
   rcol T (aget rk (RK + 2)) Y2 Y1 Y0 Y3, rcol T (aget rk (RK + 3)) Y3 Y2 Y1 Y0).

(** [n] consecutive rounds, each stepping [RK] by 4 first. *)
Fixpoint rounds (round : Z -> word4 -> word4) (n : nat) (RK : Z) (Y : word4) : Z * word4 :=
  match n with
  | O => (RK, Y)
  | S n => rounds round n (RK + 4) (round (RK + 4) Y)
  end.

(** Nine rounds, two more when [nr > 10], two more when [nr > 12]. *)
Definition all_rounds (round : Z -> word4 -> word4) (nr : Z) (Y : word4) : Z * word4 :=
  let '(RK, Y) := rounds round 9 0 Y in
  let '(RK, Y) := if 10 <? nr then rounds round 2 RK Y else (RK, Y) in
  if 12 <? nr then rounds round 2 RK Y else (RK, Y).

Definition last_col (S : list Z) (k a b c d : Z) : Z :=
  k .^ (aget S (byte_at 24 a) ≪ 24) .^ (aget S (byte_at 16 b) ≪ 16) .^
  (aget S (byte_at 8 c) ≪ 8) .^ aget S (byte_at 0 d).

Definition aes_encrypt (T : aes_tables) (ctx : aes_context) (input : list Z) : list Z :=
  let rk := erk ctx in
  let '(RK, (Y0, Y1, Y2, Y3)) := all_rounds (AES_FROUND T rk) (nr ctx) (load_block rk input) in
  let RK := RK + 4 in
  store_block
    (last_col (FSb T) (aget rk (RK + 0)) Y0 Y1 Y2 Y3, last_col (FSb T) (aget rk (RK + 1)) Y1 Y2 Y3 Y0,
     last_col (FSb T) (aget rk (RK + 2)) Y2 Y3 Y0 Y1, last_col (FSb T) (aget rk (RK + 3)) Y3 Y0 Y1 Y2).

Definition aes_decrypt (T : aes_tables) (ctx : aes_context) (input : list Z) : list Z :=
  let rk := drk ctx in
  let '(RK, (Y0, Y1, Y2, Y3)) := all_rounds (AES_RROUND T rk) (nr ctx) (load_block rk input) in
  let RK := RK + 4 in
  store_block
    (last_col (RSb T) (aget rk (RK + 0)) Y0 Y3 Y2 Y1, last_col (RSb T) (aget rk (RK + 1)) Y1 Y0 Y3 Y2,
     last_col (RSb T) (aget rk (RK + 2)) Y2 Y1 Y0 Y3, last_col (RSb T) (aget rk (RK + 3)) Y3 Y2 Y1 Y0).

(** ** Buffer routines

    [in] and [out] are offsets in one memory, so they may overlap.  A block
    call reads its sixteen bytes before it writes any ([load_block] comes
    first in the C body). *)

Definition block_at (f : list Z -> list Z) (mem : list Z) (out inp : Z) : option (list Z) :=
  if bool_decide (0 <= inp /\ inp + 16 <= Z.of_nat (length mem))
  then bcopy mem out (f (take 16 (drop (Z.to_nat inp) mem)))
  else None.

Fixpoint blocks_loop (f : list Z -> list Z) (n : nat) (i : Z) (mem : list Z) (out inp : Z)
  : option (list Z) :=
  match n with
  | O => Some mem
  | S n => mem ← block_at f mem (out + i * 16) (inp + i * 16);
           blocks_loop f n (i + 1) mem out inp
  end.

(** The common body of the two routines; [int] division truncates. *)
Definition buffer_aes (f : list Z -> list Z) (mem : list Z) (out inp inlen : Z)
  : option (list Z) :=
  let n := inlen `quot` 16 in
  mem ← blocks_loop f (Z.to_nat n) 0 mem out inp;
  mem ← (if 0 <? inlen `rem` 16 then block_at f mem (out + n * 16) (inp + n * 16) else Some mem);
  block_at f mem out inp.

Definition lib_aes_encrypt (g : aes_globals) (mem : list Z) (out inp inlen : Z)
    (key : list Z) (keysize : Z) : option (aes_globals * list Z) :=
  '(g, ctx) ← aes_set_key g zero_context key keysize;
  mem ← buffer_aes (aes_encrypt (tables g) ctx) mem out inp inlen;
  Some (g, mem).

Definition lib_aes_decrypt (g : aes_globals) (mem : list Z) (out inp inlen : Z)
    (key : list Z) (keysize : Z) : option (aes_globals * list Z) :=
  '(g, ctx) ← aes_set_key g zero_context key keysize;
  mem ← buffer_aes (aes_decrypt (tables g) ctx) mem out inp inlen;
  Some (g, mem).

(** ** Known answers: FIPS-197, appendix C *)

Definition fips_block : list Z := map (fun i => i * 17) (seqZ 0 16).

Definition kat (keysize : Z) : option (list Z * list Z) :=
  '(g, ctx) ← aes_set_key initial_globals zero_context (seqZ 0 (keysize / 8)) keysize;
  let c := aes_encrypt (tables g) ctx fips_block in
  Some (c, aes_decrypt (tables g) ctx c).

Example aes128_kat : kat 128 = Some
  ([0x69; 0xc4; 0xe0; 0xd8; 0x6a; 0x7b; 0x04; 0x30; 0xd8; 0xcd; 0xb7; 0x80; 0x70; 0xb4; 0xc5; 0x5a],
   fips_block).
Proof. vm_compute. reflexivity. Qed.

Example aes192_kat : kat 192 = Some
  ([0xdd; 0xa9; 0x7c; 0xa4; 0x86; 0x4c; 0xdf; 0xe0; 0x6e; 0xaf; 0x70; 0xa0; 0xec; 0x0d; 0x71; 0x91],
   fips_block).
Proof. vm_compute. reflexivity. Qed.

Example aes256_kat : kat 256 = Some
  ([0x8e; 0xa2; 0xb7; 0xca; 0x51; 0x67; 0x45; 0xbf; 0xea; 0xfc; 0x49; 0x90; 0x4b; 0x49; 0x60; 0x89],
   fips_block).
Proof. vm_compute. reflexivity. Qed.

(** ** Facts about the tables, by evaluation *)

Definition kt_fixed : kt_tables :=
  Eval vm_compute in gen_kt fixed_tables (mk_kt zero_table zero_table zero_table zero_table).

(** The globals are in one of two states: never used, or fully initialised. *)
Definition ready_globals : aes_globals := mk_aes_globals fixed_tables false kt_fixed false.

Definition globals_ok (g : aes_globals) : Prop := g = initial_globals \/ g = ready_globals.

Lemma gen_kt_zero :
  gen_kt fixed_tables (mk_kt zero_table zero_table zero_table zero_table) = kt_fixed.
Proof. vm_compute. reflexivity. Qed.

(** Multiplication tables are linear: an entry is the sum of the entries of its bits. *)
Definition lin8 (t : list Z) (x : Z) : Z :=
  foldr (fun j acc => (if Z.testbit x j then aget t (2 ^ j) else 0) .^ acc) 0 (seqZ 0 8).

Ltac zxor :=
  apply Z.bits_inj'; intros ? _; rewrite ?Z.lxor_spec, ?Z.testbit_0_l; btauto.

Lemma lin8_lxor t x y : lin8 t (x .^ y) = lin8 t x .^ lin8 t y.
Proof.
  unfold lin8. induction (seqZ 0 8) as [|j l IH]; cbn [foldr]; [done|].
  rewrite IH, Z.lxor_spec. destruct (Z.testbit x j), (Z.testbit y j); cbn [xorb]; zxor.
Qed.

Lemma byte_at_lxor n x y : 0 <= n -> byte_at n (x .^ y) = byte_at n x .^ byte_at n y.
Proof. intros Hn. apply Z.bits_inj'; intros i Hi. unfold byte_at. zbit_norm.
  by destruct (i <? 8). Qed.

Lemma is_byte_byte_at n x : is_byte (byte_at n x).
Proof. apply is_u_u8. Qed.

Lemma table_linear t :
  forallb (fun a => aget t a =? lin8 t a) all_bytes = true ->
  forall n x y, 0 <= n ->
  aget t (byte_at n (x .^ y)) = aget t (byte_at n x) .^ aget t (byte_at n y).
Proof.
  intros H n x y Hn. pose proof (byte_eq _ _ H) as E.
  rewrite !E by apply is_byte_byte_at. rewrite byte_at_lxor by done. apply lin8_lxor.
Qed.

Lemma imc_lxor x y : imc kt_fixed (x .^ y) = imc kt_fixed x .^ imc kt_fixed y.
Proof.
  unfold imc. rewrite !table_linear by (lia || eval_true). zxor.
Qed.

(** A word as the sum of its shifted bytes. *)
Definition xpack (a b c d : Z) : Z := (a ≪ 24) .^ (b ≪ 16) .^ (c ≪ 8) .^ d.

Lemma byte_at_xpack a b c d : is_byte a -> is_byte b -> is_byte c -> is_byte d ->
  byte_at 24 (xpack a b c d) = a /\ byte_at 16 (xpack a b c d) = b /\
  byte_at 8 (xpack a b c d) = c /\ byte_at 0 (xpack a b c d) = d.
Proof.
  intros Ha Hb Hc Hd. unfold byte_at, xpack.
  repeat split; (eapply (is_u_inj 8); [done|auto with zbits|done|]);
    intros i Hi; zbit_norm; zbit_out; cbn [xorb andb]; rewrite ?xorb_false_r; f_equal; lia.
Qed.

Lemma xpack_bytes n : is_u32 n ->
  xpack (byte_at 24 n) (byte_at 16 n) (byte_at 8 n) (byte_at 0 n) = n.
Proof.
  intros Hn. rewrite <- (pack_unpack n Hn) at 5. unfold xpack, byte_at. rewrite Z.shiftr_0_r.
  apply Z.bits_inj'; intros i Hi. zbit_norm.
  assert (0 <= i < 8 \/ 8 <= i < 16 \/ 16 <= i < 24 \/ 24 <= i) as [|[|[|]]] by lia;
    zbit_out; zbit_norm; zbit_out; cbn [xorb andb orb]; by rewrite ?xorb_false_r, ?orb_false_r.
Qed.

Lemma is_u32_xpack a b c d : is_byte a -> is_byte b -> is_byte c -> is_byte d ->
  is_u32 (xpack a b c d).
Proof.
  intros. unfold xpack. repeat apply is_u_lxor; try lia;
    [apply (is_u_shiftl 8)|apply (is_u_weaken 24), (is_u_shiftl 8)
    |apply (is_u_weaken 16), (is_u_shiftl 8)|apply (is_u_weaken 8)]; done || lia.
Qed.

Abbreviation Sb := (aget (FSb fixed_tables)).

Lemma sbox_byte a : is_byte (Sb a).
Proof.
  apply is_u_aget; [lia|]. apply (bool_decide_unpack _). vm_compute. exact I.
Qed.

Lemma sbox_inv a : is_byte a -> aget (RSb fixed_tables) (Sb a) = a.
Proof. revert a. apply byte_eq. eval_true. Qed.

(** Each decryption-key entry is a reverse-table entry at a substituted byte. *)
Lemma kt_rt a : is_byte a ->
  aget (RT0 fixed_tables) (Sb a) = aget (KT0 kt_fixed) a /\
  aget (RT1 fixed_tables) (Sb a) = aget (KT1 kt_fixed) a /\
  aget (RT2 fixed_tables) (Sb a) = aget (KT2 kt_fixed) a /\
  aget (RT3 fixed_tables) (Sb a) = aget (KT3 kt_fixed) a.
Proof. intros Ha. repeat split; revert a Ha; apply byte_eq; eval_true. Qed.

(** InvMixColumns undoes the MixColumns built into the forward tables. *)
Lemma imc_ft a : is_byte a ->
  imc kt_fixed (aget (FT0 fixed_tables) a) = Sb a ≪ 24 /\
  imc kt_fixed (aget (FT1 fixed_tables) a) = Sb a ≪ 16 /\
  imc kt_fixed (aget (FT2 fixed_tables) a) = Sb a ≪ 8 /\
  imc kt_fixed (aget (FT3 fixed_tables) a) = Sb a.
Proof. intros Ha. repeat split; revert a Ha; apply byte_eq; eval_true. Qed.

(** ** Decryption inverts encryption *)

(** SubBytes and ShiftRows of a state. *)
Definition subshift (Y : word4) : word4 :=
  let '(Y0, Y1, Y2, Y3) := Y in
  let col a b c d := xpack (Sb (byte_at 24 a)) (Sb (byte_at 16 b)) (Sb (byte_at 8 c)) (Sb (byte_at 0 d)) in
  (col Y0 Y1 Y2 Y3, col Y1 Y2 Y3 Y0, col Y2 Y3 Y0 Y1, col Y3 Y0 Y1 Y2).

Lemma last_col_xpack t k a b c d :
  last_col t k a b c d = k .^ xpack (aget t (byte_at 24 a)) (aget t (byte_at 16 b))
                                    (aget t (byte_at 8 c)) (aget t (byte_at 0 d)).
Proof. unfold last_col, xpack. by rewrite !Z.lxor_assoc. Qed.

Lemma byte_at_sub a b c d :
  let w := xpack (Sb a) (Sb b) (Sb c) (Sb d) in
  byte_at 24 w = Sb a /\ byte_at 16 w = Sb b /\ byte_at 8 w = Sb c /\ byte_at 0 w = Sb d.
Proof. apply byte_at_xpack; apply sbox_byte. Qed.

(** A reverse column of substituted bytes is InvMixColumns of the word they came from. *)
Lemma rcol_sub k y a0 b0 c0 b1 c1 d1 c2 d2 a2 d3 a3 b3 :
  rcol fixed_tables k
    (xpack (Sb (byte_at 24 y)) (Sb a0) (Sb b0) (Sb c0)) (xpack (Sb b1) (Sb (byte_at 16 y)) (Sb c1) (Sb d1))
    (xpack (Sb c2) (Sb d2) (Sb (byte_at 8 y)) (Sb a2)) (xpack (Sb d3) (Sb a3) (Sb b3) (Sb (byte_at 0 y)))
  = k .^ imc kt_fixed y.
Proof.
  unfold rcol, imc. rewrite !Z.lxor_assoc.
  rewrite (proj1 (byte_at_sub _ _ _ _)), (proj1 (proj2 (byte_at_sub _ _ _ _))),
    (proj1 (proj2 (proj2 (byte_at_sub _ _ _ _)))), (proj2 (proj2 (proj2 (byte_at_sub _ _ _ _)))).
  by rewrite (proj1 (kt_rt _ (is_byte_byte_at 24 y))),
    (proj1 (proj2 (kt_rt _ (is_byte_byte_at 16 y)))),
    (proj1 (proj2 (proj2 (kt_rt _ (is_byte_byte_at 8 y))))),
    (proj2 (proj2 (proj2 (kt_rt _ (is_byte_byte_at 0 y))))).
Qed.

(** InvMixColumns of a forward column removes its key and its MixColumns. *)
Lemma imc_fcol k a b c d :
  imc kt_fixed k .^ imc kt_fixed (fcol fixed_tables k a b c d) =
  xpack (Sb (byte_at 24 a)) (Sb (byte_at 16 b)) (Sb (byte_at 8 c)) (Sb (byte_at 0 d)).
Proof.
  unfold fcol. rewrite !imc_lxor.
  rewrite (proj1 (imc_ft _ (is_byte_byte_at 24 a))), (proj1 (proj2 (imc_ft _ (is_byte_byte_at 16 b)))),
    (proj1 (proj2 (proj2 (imc_ft _ (is_byte_byte_at 8 c))))),
    (proj2 (proj2 (proj2 (imc_ft _ (is_byte_byte_at 0 d))))).
  unfold xpack. zxor.
Qed.

Section Inverse.
Context (ek dk : list Z).

(** Round key [p] of the decryption schedule is InvMixColumns of key [q]. *)
Definition keys_match (p q : Z) : Prop :=
  forall j, 0 <= j < 4 -> aget dk (p + j) = imc kt_fixed (aget ek (q + j)).

Lemma inverse_round p q Y : keys_match p q ->
  AES_RROUND fixed_tables dk p (subshift (AES_FROUND fixed_tables ek q Y)) = subshift Y.
Proof.
  intros Hk. destruct Y as [[[Y0 Y1] Y2] Y3]. unfold AES_FROUND, AES_RROUND, subshift.
  rewrite !rcol_sub. rewrite !Hk by lia. by rewrite !imc_fcol.
Qed.

Lemma rounds_snoc f n : forall RK Y,
  rounds f (S n) RK Y =
  (RK + 4 * Z.of_nat (S n), f (RK + 4 * Z.of_nat (S n)) (rounds f n RK Y).2).
Proof.
  induction n as [|n IH]; intros RK Y; [done|].
  change (rounds f (S (S n)) RK Y)
    with (rounds f (S n) (RK + 4) (f (RK + 4) Y)).
  rewrite IH. cbn [rounds]. f_equal; [lia|f_equal; lia].
Qed.

Lemma inverse_rounds n : forall p Y,
  (forall m, 1 <= m <= Z.of_nat n -> keys_match (p + 4 * m) (4 * (Z.of_nat n + 1 - m))) ->
  (rounds (AES_RROUND fixed_tables dk) n p
     (subshift (rounds (AES_FROUND fixed_tables ek) n 0 Y).2)).2 = subshift Y.
Proof.
  induction n as [|n IH]; intros p Y Hk; [done|].
  rewrite (rounds_snoc (AES_FROUND _ _)). cbn [snd rounds].
  rewrite inverse_round.
  - apply IH. intros m Hm. replace (p + 4 + 4 * m) with (p + 4 * (m + 1)) by lia.
    replace (Z.of_nat n + 1 - m) with (Z.of_nat (S n) + 1 - (m + 1)) by lia. apply Hk. lia.
  - specialize (Hk 1 ltac:(lia)). replace (0 + 4 * Z.of_nat (S n)) with
      (4 * (Z.of_nat (S n) + 1 - 1)) by lia. done.
Qed.

End Inverse.

Lemma rounds_app f a : forall b RK Y,
  rounds f (a + b) RK Y = rounds f b (rounds f a RK Y).1 (rounds f a RK Y).2.
Proof. induction a as [|a IH]; intros b RK Y; [done|]. cbn [Nat.add rounds]. apply IH. Qed.

Definition nr_ok (n : Z) : Prop := n = 10 \/ n = 12 \/ n = 14.

Lemma all_rounds_count f n Y : nr_ok n ->
  all_rounds f n Y = rounds f (Z.to_nat (n - 1)) 0 Y.
Proof.
  intros [->|[->| ->]]; unfold all_rounds.
  - change (Z.to_nat (10 - 1)) with 9%nat. by destruct (rounds f 9 0 Y).
  - change (Z.to_nat (12 - 1)) with (9 + 2)%nat. rewrite rounds_app. by destruct (rounds f 9 0 Y).
  - change (Z.to_nat (14 - 1)) with (9 + 2 + 2)%nat. rewrite rounds_app, (rounds_app f 9 2).
    by destruct (rounds f 9 0 Y).
Qed.

Lemma rounds_pointer f n RK Y : (rounds f n RK Y).1 = RK + 4 * Z.of_nat n.
Proof. destruct n as [|n]; [cbn; lia|]. by rewrite rounds_snoc. Qed.

(** What the key schedule establishes. *)
Record schedule_ok (ctx : aes_context) : Prop := {
  sched_nr : nr_ok (nr ctx);
  sched_u32 : Forall is_u32 (erk ctx);
  sched_first : forall j, 0 <= j < 4 -> aget (drk ctx) j = aget (erk ctx) (4 * nr ctx + j);
  sched_mid : forall m, 1 <= m < nr ctx -> keys_match (erk ctx) (drk ctx) (4 * m) (4 * (nr ctx - m));
  sched_last : forall j, 0 <= j < 4 -> aget (drk ctx) (4 * nr ctx + j) = aget (erk ctx) j }.

Lemma GET_PUT_block x0 x1 x2 x3 rk : is_u32 x0 -> is_u32 x1 -> is_u32 x2 -> is_u32 x3 ->
  load_block rk (store_block (x0, x1, x2, x3)) =
  (x0 .^ aget rk 0, x1 .^ aget rk 1, x2 .^ aget rk 2, x3 .^ aget rk 3).
Proof.
  intros. unfold load_block, store_block, PUT_UINT32_BE. cbn [app].
  repeat f_equal; by rewrite <- pack_unpack.
Qed.

Lemma PUT_GET_word a b c d : is_byte a -> is_byte b -> is_byte c -> is_byte d ->
  PUT_UINT32_BE ((a ≪ 24) .| (b ≪ 16) .| (c ≪ 8) .| d) = [a; b; c; d].
Proof.
  intros. unfold PUT_UINT32_BE. destruct (pack_bytes_inj a b c d) as (-> & -> & -> & ->); done.
Qed.

Lemma PUT_GET_block b : length b = 16%nat -> bytes b ->
  store_block (GET_UINT32_BE b 0, GET_UINT32_BE b 4, GET_UINT32_BE b 8, GET_UINT32_BE b 12) = b.
Proof.
  intros Hl Hb. do 16 (destruct b as [|? b]; [done|]). destruct b; [|done].
  repeat (apply Forall_cons in Hb as [? Hb]). unfold store_block, GET_UINT32_BE, aget.
  cbn [Z.add]. nat_lits. cbn -[PUT_UINT32_BE]. by rewrite !PUT_GET_word.
Qed.

Lemma is_u32_GET b i : bytes b -> is_u32 (GET_UINT32_BE b i).
Proof. intros. apply is_u32_pack; by apply is_u_aget. Qed.

Lemma is_u32_last_col k a b c d : is_u32 k -> is_u32 (last_col (FSb fixed_tables) k a b c d).
Proof.
  intros. rewrite last_col_xpack. apply is_u_lxor; [done|done|].
  apply is_u32_xpack; apply sbox_byte.
Qed.

(** The last decryption column: substitution undone, bytes back in place. *)
Lemma last_col_inv k y a0 b0 c0 b1 c1 d1 c2 d2 a2 d3 a3 b3 : is_u32 y ->
  last_col (RSb fixed_tables) k
    (xpack (Sb (byte_at 24 y)) (Sb a0) (Sb b0) (Sb c0)) (xpack (Sb b1) (Sb (byte_at 16 y)) (Sb c1) (Sb d1))
    (xpack (Sb c2) (Sb d2) (Sb (byte_at 8 y)) (Sb a2)) (xpack (Sb d3) (Sb a3) (Sb b3) (Sb (byte_at 0 y)))
  = k .^ y.
Proof.
  intros Hy. rewrite last_col_xpack. f_equal.
  rewrite (proj1 (byte_at_sub _ _ _ _)), (proj1 (proj2 (byte_at_sub _ _ _ _))),
    (proj1 (proj2 (proj2 (byte_at_sub _ _ _ _)))), (proj2 (proj2 (proj2 (byte_at_sub _ _ _ _)))).
  rewrite !sbox_inv by apply is_byte_byte_at. by apply xpack_bytes.
Qed.

Lemma lxor_cancel k x : k .^ (x .^ k) = x.
Proof. zxor. Qed.

Lemma last_col_key t k a b c d :
  last_col t k a b c d .^ k = xpack (aget t (byte_at 24 a)) (aget t (byte_at 16 b))
                                    (aget t (byte_at 8 c)) (aget t (byte_at 0 d)).
Proof. rewrite last_col_xpack, Z.lxor_comm, <- Z.lxor_assoc. by rewrite Z.lxor_nilpotent. Qed.

(** A valid schedule makes decryption the inverse of encryption. *)
Lemma decrypt_encrypt_block ctx b : schedule_ok ctx -> length b = 16%nat -> bytes b ->
  aes_decrypt fixed_tables ctx (aes_encrypt fixed_tables ctx b) = b.
Proof.
  intros [Hnr Hu Hfirst Hmid Hlast] Hl Hb. unfold aes_encrypt, aes_decrypt.
  rewrite !(all_rounds_count _ (nr ctx)) by done.
  set (n := Z.to_nat (nr ctx - 1)). set (Y := load_block (erk ctx) b).
  pose proof (rounds_pointer (AES_FROUND fixed_tables (erk ctx)) n 0 Y) as HRK.
  pose proof (inverse_rounds (erk ctx) (drk ctx) n 0 Y) as Hinv.
  destruct (rounds _ n 0 Y) as [RK [[[Y0 Y1] Y2] Y3]]. cbn [fst snd] in HRK, Hinv.
  assert (Hn : 0 + 4 * Z.of_nat n + 4 = 4 * nr ctx) by (unfold n, nr_ok in *; lia).
  rewrite HRK, Hn. rewrite GET_PUT_block by (apply is_u32_last_col, is_u_aget; done || lia).
  rewrite (Hfirst 0), (Hfirst 1), (Hfirst 2), (Hfirst 3), !last_col_key by lia.
  match goal with |- context [rounds _ n 0 ?x] => change x with (subshift (Y0, Y1, Y2, Y3)) end.
  pose proof (rounds_pointer (AES_RROUND fixed_tables (drk ctx)) n 0
    (subshift (Y0, Y1, Y2, Y3))) as HRK'.
  rewrite (surjective_pairing (rounds (AES_RROUND _ _) _ _ _)), HRK', Hinv.
  2: { intros m Hm. specialize (Hmid m ltac:(lia)).
       by replace (Z.of_nat n + 1 - m) with (nr ctx - m) by lia. }
  rewrite Hn. unfold Y, load_block, subshift.
  rewrite !last_col_inv by (apply is_u_lxor; [done|by apply is_u32_GET|by apply is_u_aget]).
  rewrite !Hlast, !lxor_cancel by lia. by apply PUT_GET_block.
Qed.

(** ** What the key schedule establishes *)

Lemma fold_left_inv {A B} (P : A -> Prop) (f : A -> B -> A) l : forall a,
  (forall a b, P a -> P (f a b)) -> P a -> P (fold_left f l a).
Proof. induction l as [|b l IH]; intros a Hf Ha; [done|]. cbn. apply IH; auto. Qed.

Lemma Forall_aset (P : Z -> Prop) t i v : Forall P t -> P v -> Forall P (aset t i v).
Proof. apply Forall_insert. Qed.

Lemma is_u32_rk_xor RK j i k rk : Forall is_u32 rk -> Forall is_u32 (rk_xor RK j i k rk).
Proof. intros H. apply Forall_aset; [done|]. by apply is_u_lxor; [|apply is_u_aget..]. Qed.

Lemma is_u32_sub a b c d : is_u32 (xpack (Sb a) (Sb b) (Sb c) (Sb d)).
Proof. apply is_u32_xpack; apply sbox_byte. Qed.

Lemma is_u32_sub_word w : is_u32 (sub_word fixed_tables w).
Proof. exact (is_u32_sub _ _ _ _). Qed.

Lemma is_u32_sub_rot_word w : is_u32 (sub_rot_word fixed_tables w).
Proof. exact (is_u32_sub _ _ _ _). Qed.

Lemma is_u32_rcon i : is_u32 (aget (RCON fixed_tables) i).
Proof. apply is_u_aget; [done|]. apply (bool_decide_unpack _). vm_compute. exact I. Qed.

Create HintDb aes.
#[export] Hint Resolve is_u32_rk_xor is_u32_sub_word is_u32_sub_rot_word is_u32_rcon : aes.

Ltac u32_keys :=
  repeat first [ assumption | apply is_u32_rk_xor | apply Forall_aset | solve [auto with aes]
               | apply is_u_lxor; [lia| |] | apply is_u_aget; [lia|] ].

Lemma expand_key_u32 n rk : Forall is_u32 rk -> Forall is_u32 (expand_key fixed_tables n rk).1.
Proof.
  intros Hrk. unfold expand_key.
  destruct (n =? 10); [|destruct (n =? 12); [|destruct (n =? 14); [|done]]];
    (apply (fold_left_inv (fun st => Forall is_u32 st.1)); [|done]);
    intros [r RK] i Hr; cbn [fst] in *.
  - unfold key_step10. cbn [fst]. u32_keys.
  - unfold key_step12. cbn [fst]. u32_keys.
  - unfold key_step14. cbn [fst]. u32_keys.
Qed.

Lemma fold_pointer (step : list Z * Z -> Z -> list Z * Z) d l : forall st,
  (forall st i, (step st i).2 = st.2 + d) ->
  (fold_left step l st).2 = st.2 + d * Z.of_nat (length l).
Proof.
  induction l as [|i l IH]; intros st Hs; [cbn; lia|].
  cbn [fold_left length]. rewrite IH, Hs by done. lia.
Qed.

Lemma expand_key_pointer T n rk : nr_ok n -> (expand_key T n rk).2 = 4 * n.
Proof.
  intros [->|[->| ->]]; unfold expand_key; cbn [Z.eqb Pos.eqb];
    (erewrite fold_pointer; [|intros [r RK] i; reflexivity]); reflexivity.
Qed.

Section Reverse.
Context (f rd : Z -> Z).

Lemma reverse_keys_ends n : nr_ok n -> forall j, 0 <= j < 4 ->
  aget (reverse_keys f rd (replicate 64 0) (4 * n) n) j = rd (4 * n + j) /\
  aget (reverse_keys f rd (replicate 64 0) (4 * n) n) (4 * n + j) = rd j.
Proof.
  intros Hn j Hj. apply (elem_of_seqZ 0 4) in Hj. revert j Hj. apply Forall_forall.
  destruct Hn as [->|[->| ->]]; vm_compute; repeat constructor.
Qed.

Lemma reverse_keys_mid n : nr_ok n -> forall m j, 1 <= m < n -> 0 <= j < 4 ->
  aget (reverse_keys f rd (replicate 64 0) (4 * n) n) (4 * m + j) = f (rd (4 * (n - m) + j)).
Proof.
  intros Hn m j Hm Hj. assert (Hm' : m ∈ seqZ 1 (n - 1)) by (apply elem_of_seqZ; lia).
  clear Hm. apply (elem_of_seqZ 0 4) in Hj. revert j Hj. apply Forall_forall.
  revert m Hm'. apply Forall_forall. destruct Hn as [->|[->| ->]]; vm_compute; repeat constructor.
Qed.

End Reverse.

Lemma load_key_u32 key keysize rk rk' : bytes key -> Forall is_u32 rk ->
  load_key key keysize rk = Some rk' -> Forall is_u32 rk'.
Proof.
  intros Hk Hrk. unfold load_key. destruct (_ && _); intros [= <-].
  apply (fold_left_inv (Forall is_u32)); [|done].
  intros a i Ha. apply Forall_aset; [done|]. by apply is_u32_GET.
Qed.

Lemma rounds_of_keysize_ok keysize : nr_ok (rounds_of_keysize keysize).
Proof. unfold rounds_of_keysize, nr_ok. destruct (keysize =? 256), (keysize =? 192); auto. Qed.

(** From either state of the globals, [aes_set_key] leaves them initialised and
    builds a valid schedule. *)
Lemma aes_set_key_ok g key keysize g' ctx : globals_ok g -> bytes key ->
  aes_set_key g zero_context key keysize = Some (g', ctx) ->
  g' = ready_globals /\ nr ctx = rounds_of_keysize keysize /\ schedule_ok ctx.
Proof.
  intros Hg Hkey. unfold aes_set_key. cbv zeta.
  replace (if do_init g then aes_gen_tables (tables g) else tables g) with fixed_tables
    by (destruct Hg as [-> | ->]; [symmetry; apply gen_tables_zero|done]).
  replace (if KT_init g then gen_kt fixed_tables (kts g) else kts g) with kt_fixed
    by (destruct Hg as [-> | ->]; [symmetry; apply gen_kt_zero|done]).
  destruct (load_key _ _ _) as [rk|] eqn:Hload; [|done]. cbn [mbind option_bind].
  pose proof (rounds_of_keysize_ok keysize) as Hnr. set (n := rounds_of_keysize keysize) in *.
  pose proof (expand_key_u32 n rk) as Hu. pose proof (expand_key_pointer fixed_tables n rk Hnr) as HRK.
  destruct (expand_key fixed_tables n rk) as [rk' RK]. cbn [fst snd] in Hu, HRK. subst RK.
  intros [= <- <-]. split; [done|]. split; [done|].
  apply (load_key_u32 _ _ (replicate 64 0)) in Hload; [|done|by apply Forall_replicate].
  split; cbn [nr erk drk zero_context]; [done|auto| | |].
  - intros j Hj. by apply reverse_keys_ends.
  - intros m Hm j Hj. by apply reverse_keys_mid.
  - intros j Hj. by apply reverse_keys_ends.
Qed.

(** C3: decryption inverts encryption: for every key the schedule accepts (128, 192
    or 256 bits, or any other size with ten rounds) and whether or not the file's
    global tables were initialised before, [aes_decrypt] returns the block that
    [aes_encrypt] was given. *)
Theorem aes_decrypt_encrypt g key keysize g' ctx b :
  globals_ok g -> bytes key -> aes_set_key g zero_context key keysize = Some (g', ctx) ->
  length b = 16%nat -> bytes b ->
  aes_decrypt (tables g') ctx (aes_encrypt (tables g') ctx b) = b.
Proof.
  intros Hg Hk Hset Hl Hb. destruct (aes_set_key_ok _ _ _ _ _ Hg Hk Hset) as (-> & _ & Hs).
  by apply decrypt_encrypt_block.
Qed.

Lemma bytes_seqZ n : 0 <= n <= 256 -> bytes (seqZ 0 n).
Proof.
  intros Hn. apply Forall_forall. intros x Hx%elem_of_seqZ. unfold is_u. lia.
Qed.

Lemma aes_decrypt_encrypt_witness :
  exists g' ctx, aes_set_key initial_globals zero_context (seqZ 0 24) 192 = Some (g', ctx) /\
    aes_decrypt (tables g') ctx (aes_encrypt (tables g') ctx (seqZ 100 16)) = seqZ 100 16.
Proof.
  destruct (aes_set_key initial_globals zero_context (seqZ 0 24) 192) as [[g' ctx]|] eqn:E;
    [|vm_compute in E; discriminate E].
  exists g', ctx. split; [reflexivity|].
  apply (aes_decrypt_encrypt initial_globals (seqZ 0 24) 192 g' ctx (seqZ 100 16)).
  - left. reflexivity.
  - apply bytes_seqZ. lia.
  - exact E.
  - reflexivity.
  - apply (bool_decide_unpack _). vm_compute. exact I.
Defined.
