(* ===== verification/AesFips.v ===== *)
(** * AES against FIPS-197

    A byte-wise specification written from the standard (field arithmetic,
    S-box as inverse and affine map, ShiftRows, MixColumns, the key-expansion
    recurrence) and the proofs that the table-driven code of
    src/encryption/aes.c computes it. *)

From S2P Require Import Prelude AesTables Aes.

(** ** The standard *)
Module Fips.

(** Multiplication by x in GF(2^8), then by any polynomial. *)
Definition xtime (b : Z) : Z := if b <? 128 then 2 * b else (2 * b - 256) .^ 0x1B.

Fixpoint gmul_bits (n : nat) (a b : Z) : Z :=
  match n with
  | O => 0
  | S n => (if Z.odd a then b else 0) .^ gmul_bits n (Z.div2 a) (xtime b)
  end.

Definition gmul (a b : Z) : Z := gmul_bits 8 a b.

(** The multiplicative inverse, 0 for 0. *)
Definition ginv (a : Z) : Z :=
  match filter (fun b => gmul a b = 1) all_bytes with b :: _ => b | [] => 0 end.

Definition affine_bit (b i : Z) : bool :=
  let bit k := Z.testbit b (k mod 8) in
  xorb (bit i) (xorb (bit (i + 4)) (xorb (bit (i + 5)) (xorb (bit (i + 6))
    (xorb (bit (i + 7)) (Z.testbit 0x63 i))))).

Definition sbox (a : Z) : Z :=
  foldr (fun i acc => Z.b2z (affine_bit (ginv a) i) * 2 ^ i + acc) 0 (seqZ 0 8).

Definition sub_bytes (s : list Z) : list Z := map sbox s.

(** Byte [r + 4c] of the state is row [r], column [c]. *)
Definition shift_rows (s : list Z) : list Z :=
  map (fun k => let r := k mod 4 in let c := k / 4 in aget s (r + 4 * ((c + r) mod 4))) (seqZ 0 16).

Definition mix_column (a b c d : Z) : list Z :=
  [ gmul 2 a .^ gmul 3 b .^ c .^ d; a .^ gmul 2 b .^ gmul 3 c .^ d;
    a .^ b .^ gmul 2 c .^ gmul 3 d; gmul 3 a .^ b .^ c .^ gmul 2 d ].

Definition mix_columns (s : list Z) : list Z :=
  concat (map (fun c => mix_column (aget s (4 * c)) (aget s (4 * c + 1)) (aget s (4 * c + 2))
                          (aget s (4 * c + 3))) (seqZ 0 4)).

Definition add_round_key (w : Z -> Z) (r : Z) (s : list Z) : list Z :=
  zip_with Z.lxor s (concat (map (fun j => PUT_UINT32_BE (w (4 * r + j))) (seqZ 0 4))).

Definition cipher (Nr : Z) (w : Z -> Z) (inp : list Z) : list Z :=
  let s := add_round_key w 0 inp in
  let s := fold_left (fun s r => add_round_key w r (mix_columns (shift_rows (sub_bytes s))))
             (seqZ 1 (Nr - 1)) s in
  add_round_key w Nr (shift_rows (sub_bytes s)).

(** Key expansion: word [i >= Nk] in terms of words [i - Nk] and [i - 1]. *)
Definition word_of (a b c d : Z) : Z := (a ≪ 24) .| (b ≪ 16) .| (c ≪ 8) .| d.
Definition wbyte (w n : Z) : Z := (w ≫ n) mod 256.
Definition sub_word (w : Z) : Z :=
  word_of (sbox (wbyte w 24)) (sbox (wbyte w 16)) (sbox (wbyte w 8)) (sbox (wbyte w 0)).
Definition rot_word (w : Z) : Z := word_of (wbyte w 16) (wbyte w 8) (wbyte w 0) (wbyte w 24).
Definition rcon (i : Z) : Z := Nat.iter (Z.to_nat (i - 1)) xtime 1 ≪ 24.

Definition temp (Nk : Z) (w : Z -> Z) (i : Z) : Z :=
  if i mod Nk =? 0 then sub_word (rot_word (w (i - 1))) .^ rcon (i / Nk)
  else if (6 <? Nk) && (i mod Nk =? 4) then sub_word (w (i - 1))
  else w (i - 1).

Definition expands (Nk Nr : Z) (key : list Z) (w : Z -> Z) : Prop :=
  (forall i, 0 <= i < Nk -> w i = GET_UINT32_BE key (4 * i)) /\
  (forall i, Nk <= i < 4 * (Nr + 1) -> w i = w (i - Nk) .^ temp Nk w i).

End Fips.

(** ** The round tables are SubBytes and MixColumns *)

Abbreviation fsb := (aget (FSb fixed_tables)).

Lemma sbox_fips a : is_byte a -> Fips.sbox a = fsb a.
Proof. revert a. apply byte_eq. eval_true. Qed.

Lemma ft0_bytes a : is_byte a -> aget (FT0 fixed_tables) a =
  xpack (Fips.gmul 2 (fsb a)) (fsb a) (fsb a) (Fips.gmul 3 (fsb a)).
Proof. revert a. apply byte_eq. eval_true. Qed.

Lemma ft1_bytes a : is_byte a -> aget (FT1 fixed_tables) a =
  xpack (Fips.gmul 3 (fsb a)) (Fips.gmul 2 (fsb a)) (fsb a) (fsb a).
Proof. revert a. apply byte_eq. eval_true. Qed.

Lemma ft2_bytes a : is_byte a -> aget (FT2 fixed_tables) a =
  xpack (fsb a) (Fips.gmul 3 (fsb a)) (Fips.gmul 2 (fsb a)) (fsb a).
Proof. revert a. apply byte_eq. eval_true. Qed.

Lemma ft3_bytes a : is_byte a -> aget (FT3 fixed_tables) a =
  xpack (fsb a) (fsb a) (Fips.gmul 3 (fsb a)) (Fips.gmul 2 (fsb a)).
Proof. revert a. apply byte_eq. eval_true. Qed.

Lemma gmul_byte a : is_byte a -> is_byte (Fips.gmul 2 a) /\ is_byte (Fips.gmul 3 a).
Proof.
  intros Ha. split; apply (bool_decide_unpack (is_byte _)), Is_true_eq_left; revert a Ha;
    apply (forall_byte (fun a => bool_decide (is_byte (Fips.gmul _ a)))); eval_true.
Qed.

Lemma PUT_bytes n : PUT_UINT32_BE n = [byte_at 24 n; byte_at 16 n; byte_at 8 n; byte_at 0 n].
Proof. unfold PUT_UINT32_BE, byte_at. by rewrite Z.shiftr_0_r. Qed.

Lemma PUT_lxor x y : PUT_UINT32_BE (x .^ y) = zip_with Z.lxor (PUT_UINT32_BE x) (PUT_UINT32_BE y).
Proof. rewrite !PUT_bytes. cbn [zip_with]. by rewrite !byte_at_lxor. Qed.

Lemma PUT_xpack a b c d : is_byte a -> is_byte b -> is_byte c -> is_byte d ->
  PUT_UINT32_BE (xpack a b c d) = [a; b; c; d].
Proof.
  intros. rewrite PUT_bytes. by destruct (byte_at_xpack a b c d) as (-> & -> & -> & ->).
Qed.

Lemma PUT_fcol k a b c d :
  PUT_UINT32_BE (fcol fixed_tables k a b c d) = zip_with Z.lxor
    (Fips.mix_column (fsb (byte_at 24 a)) (fsb (byte_at 16 b)) (fsb (byte_at 8 c)) (fsb (byte_at 0 d)))
    (PUT_UINT32_BE k).
Proof.
  unfold fcol. rewrite !PUT_lxor, ft0_bytes, ft1_bytes, ft2_bytes, ft3_bytes
    by apply is_byte_byte_at.
  rewrite !PUT_xpack by (apply sbox_byte || apply gmul_byte, sbox_byte).
  unfold Fips.mix_column. rewrite PUT_bytes. cbn [zip_with].
  repeat (apply f_equal2; [zxor|]). done.
Qed.

(** ** The cipher *)

Lemma lookup16 (x0 x1 x2 x3 x4 x5 x6 x7 x8 x9 x10 x11 x12 x13 x14 x15 : Z) :
  Fips.shift_rows [x0; x1; x2; x3; x4; x5; x6; x7; x8; x9; x10; x11; x12; x13; x14; x15]
  = [x0; x5; x10; x15; x4; x9; x14; x3; x8; x13; x2; x7; x12; x1; x6; x11].
Proof. reflexivity. Qed.

Lemma mix_columns16 (x0 x1 x2 x3 x4 x5 x6 x7 x8 x9 x10 x11 x12 x13 x14 x15 : Z) :
  Fips.mix_columns [x0; x1; x2; x3; x4; x5; x6; x7; x8; x9; x10; x11; x12; x13; x14; x15]
  = Fips.mix_column x0 x1 x2 x3 ++ Fips.mix_column x4 x5 x6 x7 ++
    Fips.mix_column x8 x9 x10 x11 ++ Fips.mix_column x12 x13 x14 x15.
Proof. reflexivity. Qed.

Lemma zip_with_app4 (a b c d k0 k1 k2 k3 : list Z) :
  length a = length k0 -> length b = length k1 -> length c = length k2 ->
  zip_with Z.lxor (a ++ b ++ c ++ d) (k0 ++ k1 ++ k2 ++ k3) =
  zip_with Z.lxor a k0 ++ zip_with Z.lxor b k1 ++ zip_with Z.lxor c k2 ++ zip_with Z.lxor d k3.
Proof. intros. by rewrite !zip_with_app by done. Qed.

Lemma round_keys w r :
  concat (map (fun j => PUT_UINT32_BE (w (4 * r + j))) (seqZ 0 4)) =
  PUT_UINT32_BE (w (4 * r + 0)) ++ PUT_UINT32_BE (w (4 * r + 1)) ++
  PUT_UINT32_BE (w (4 * r + 2)) ++ PUT_UINT32_BE (w (4 * r + 3)).
Proof. change (seqZ 0 4) with [0; 1; 2; 3]. cbn [map concat]. by rewrite app_nil_r. Qed.

(** The state after SubBytes, as bytes of the four words. *)
Lemma sub_bytes_store Y0 Y1 Y2 Y3 :
  Fips.sub_bytes (store_block (Y0, Y1, Y2, Y3)) =
  let s n w := fsb (byte_at n w) in
  [s 24 Y0; s 16 Y0; s 8 Y0; s 0 Y0; s 24 Y1; s 16 Y1; s 8 Y1; s 0 Y1;
   s 24 Y2; s 16 Y2; s 8 Y2; s 0 Y2; s 24 Y3; s 16 Y3; s 8 Y3; s 0 Y3].
Proof.
  unfold store_block, Fips.sub_bytes. rewrite !PUT_bytes. cbn [app map].
  by rewrite !sbox_fips by apply is_byte_byte_at.
Qed.

Lemma fround_fips rk r Y :
  store_block (AES_FROUND fixed_tables rk (4 * r) Y) =
  Fips.add_round_key (aget rk) r (Fips.mix_columns (Fips.shift_rows (Fips.sub_bytes (store_block Y)))).
Proof.
  destruct Y as [[[Y0 Y1] Y2] Y3]. rewrite sub_bytes_store. cbv zeta.
  rewrite lookup16, mix_columns16. unfold Fips.add_round_key.
  rewrite round_keys, zip_with_app4 by done. unfold AES_FROUND, store_block. by rewrite !PUT_fcol.
Qed.

Lemma PUT_last_col k a b c d :
  PUT_UINT32_BE (last_col (FSb fixed_tables) k a b c d) =
  zip_with Z.lxor [fsb (byte_at 24 a); fsb (byte_at 16 b); fsb (byte_at 8 c); fsb (byte_at 0 d)]
    (PUT_UINT32_BE k).
Proof.
  rewrite last_col_xpack, Z.lxor_comm, PUT_lxor. by rewrite PUT_xpack by apply sbox_byte.
Qed.

Lemma rounds_fips rk n : forall RK Y, RK = 0 ->
  store_block (rounds (AES_FROUND fixed_tables rk) n RK Y).2 =
  fold_left (fun s r => Fips.add_round_key (aget rk) r
      (Fips.mix_columns (Fips.shift_rows (Fips.sub_bytes s)))) (seqZ 1 (Z.of_nat n)) (store_block Y).
Proof.
  induction n as [|n IH]; intros RK Y ->; [done|].
  rewrite rounds_snoc. cbn [snd]. rewrite Z.add_0_l, fround_fips, IH by done.
  rewrite seqZ_S, fold_left_app. cbn [fold_left]. by replace (1 + Z.of_nat n) with (Z.of_nat (S n)) by lia.
Qed.

Lemma load_block_fips rk b : length b = 16%nat -> bytes b ->
  store_block (load_block rk b) = Fips.add_round_key (aget rk) 0 b.
Proof.
  intros Hl Hb. unfold Fips.add_round_key. rewrite <- (PUT_GET_block b) at 2 by done.
  unfold load_block, store_block. rewrite round_keys, zip_with_app4 by done. by rewrite !PUT_lxor.
Qed.

Lemma aes_encrypt_cipher ctx b : nr_ok (nr ctx) -> length b = 16%nat -> bytes b ->
  aes_encrypt fixed_tables ctx b = Fips.cipher (nr ctx) (aget (erk ctx)) b.
Proof.
  intros Hnr Hl Hb. unfold aes_encrypt, Fips.cipher. rewrite all_rounds_count by done.
  set (n := Z.to_nat (nr ctx - 1)).
  assert (Hn : nr ctx - 1 = Z.of_nat n) by (unfold n, nr_ok in *; lia).
  rewrite Hn, <- load_block_fips by done. rewrite <- (rounds_fips _ n 0) by done.
  pose proof (rounds_pointer (AES_FROUND fixed_tables (erk ctx)) n 0 (load_block (erk ctx) b)) as HRK.
  destruct (rounds _ n 0 _) as [RK [[[Y0 Y1] Y2] Y3]]. cbn [fst snd] in *.
  replace (RK + 4) with (4 * nr ctx) by lia. rewrite sub_bytes_store. cbv zeta.
  rewrite lookup16. unfold Fips.add_round_key. rewrite round_keys.
  unfold store_block. rewrite !PUT_last_col.
  by rewrite <- zip_with_app4.
Qed.

(** ** The key expansion *)

Lemma word_of_xpack a b c d : is_byte a -> is_byte b -> is_byte c -> is_byte d ->
  Fips.word_of a b c d = xpack a b c d.
Proof.
  intros. unfold Fips.word_of, xpack. apply Z.bits_inj'; intros i Hi. zbit_norm.
  assert (0 <= i < 8 \/ 8 <= i < 16 \/ 16 <= i < 24 \/ 24 <= i) as [|[|[|]]] by lia;
    zbit_out; cbn [xorb andb orb]; by rewrite ?xorb_false_r, ?orb_false_r.
Qed.

Lemma sub_word_fips w : Fips.sub_word w = sub_word fixed_tables w.
Proof.
  change (sub_word fixed_tables w) with
    (xpack (fsb (byte_at 24 w)) (fsb (byte_at 16 w)) (fsb (byte_at 8 w)) (fsb (byte_at 0 w))).
  unfold Fips.sub_word. change Fips.wbyte with (fun w n => byte_at n w). cbv beta.
  rewrite !sbox_fips by apply is_byte_byte_at. apply word_of_xpack; apply sbox_byte.
Qed.

Lemma sub_rot_word_fips w : Fips.sub_word (Fips.rot_word w) = sub_rot_word fixed_tables w.
Proof.
  rewrite sub_word_fips. unfold Fips.rot_word. change Fips.wbyte with (fun w n => byte_at n w).
  cbv beta. rewrite word_of_xpack by apply is_byte_byte_at. unfold sub_word.
  destruct (byte_at_xpack (byte_at 16 w) (byte_at 8 w) (byte_at 0 w) (byte_at 24 w))
    as (-> & -> & -> & ->); try apply is_byte_byte_at. reflexivity.
Qed.

Lemma rcon_fips t : 0 <= t < 10 -> Fips.rcon (t + 1) = aget (RCON fixed_tables) t.
Proof.
  intros Ht. apply (elem_of_seqZ 0 10) in Ht. revert t Ht. apply Forall_forall.
  change (seqZ 0 10) with [0; 1; 2; 3; 4; 5; 6; 7; 8; 9]. repeat constructor.
Qed.

Section Expansion.
Context (Nk : Z) (HNk : 0 < Nk).

(** One word of the expansion, written into the array. *)
Definition expand_word (rk : list Z) (i : Z) : list Z :=
  aset rk i (aget rk (i - Nk) .^ Fips.temp Nk (aget rk) i).

Lemma group_index t j : 0 <= j < Nk ->
  (Nk * t + (Nk + j)) mod Nk = j /\ (Nk * t + (Nk + j)) / Nk = t + 1.
Proof using HNk.
  intros Hj. replace (Nk * t + (Nk + j)) with (j + (t + 1) * Nk) by lia.
  rewrite Z.mod_add, Z.div_add, Z.mod_small, Z.div_small by lia. lia.
Qed.

Lemma expand_first rk t : 0 <= t < 10 ->
  expand_word rk (Nk * t + Nk) = aset rk (Nk * t + Nk)
    (aget rk (Nk * t + 0) .^ aget (RCON fixed_tables) t .^
     sub_rot_word fixed_tables (aget rk (Nk * t + (Nk - 1)))).
Proof using HNk.
  intros Ht. unfold expand_word, Fips.temp.
  destruct (group_index t 0) as [H1 H2]; [lia|]. rewrite Z.add_0_r in H1, H2.
  rewrite H1, H2, Z.eqb_refl, sub_rot_word_fips, rcon_fips by done.
  rewrite Z.lxor_assoc, (Z.lxor_comm (aget (RCON _) _)).
  do 3 f_equal; [|do 2 f_equal]; lia.
Qed.

Lemma expand_plain rk t j k l : 0 < j < Nk -> (6 <? Nk) && (j =? 4) = false ->
  k = Nk + j -> l = k - 1 ->
  expand_word rk (Nk * t + k) = rk_xor (Nk * t) k j l rk.
Proof using HNk.
  intros Hj H4 -> ->. unfold expand_word, Fips.temp, rk_xor.
  rewrite (proj1 (group_index t j ltac:(lia))), H4, (proj2 (Z.eqb_neq j 0)) by lia.
  do 2 f_equal; f_equal; lia.
Qed.

Lemma expand_spec rk n : length rk = 64%nat -> Nk + Z.of_nat n <= 64 ->
  let w := aget (fold_left expand_word (seqZ Nk (Z.of_nat n)) rk) in
  length (fold_left expand_word (seqZ Nk (Z.of_nat n)) rk) = 64%nat /\
  (forall i, 0 <= i < Nk -> w i = aget rk i) /\
  (forall i, Nk <= i < Nk + Z.of_nat n -> w i = w (i - Nk) .^ Fips.temp Nk w i).
Proof using HNk.
  intros Hl. induction n as [|n IH]; intros Hn; [split_and!; [done|done|lia]|].
  destruct IH as (Hlen & Hlow & Hrec); [lia|]. rewrite seqZ_S, fold_left_app. cbn [fold_left].
  set (rk' := fold_left expand_word _ rk) in *. unfold expand_word.
  assert (Hget : forall v i, 0 <= i < Nk + Z.of_nat n -> aget (aset rk' (Nk + Z.of_nat n) v) i = aget rk' i).
  { intros v i Hi. rewrite aget_aset by lia. by rewrite (proj2 (Z.eqb_neq _ _)) by lia. }
  cbv zeta. split_and!.
  - by rewrite length_aset.
  - intros i Hi. rewrite Hget by lia. by apply Hlow.
  - intros i Hi. set (v := _ .^ _).
    assert (Ht : Fips.temp Nk (aget (aset rk' (Nk + Z.of_nat n) v)) i = Fips.temp Nk (aget rk') i)
      by (unfold Fips.temp; by rewrite Hget by lia).
    rewrite Ht, (Hget _ (i - Nk)) by lia.
    destruct (Z.eq_dec i (Nk + Z.of_nat n)) as [->|Hne].
    + rewrite aget_aset, Z.eqb_refl by lia. done.
    + rewrite Hget by lia. apply Hrec. lia.
Qed.

(** A loop whose step writes the next [Nk] words writes them all. *)
Lemma expand_loop (step : list Z * Z -> Z -> list Z * Z) :
  (forall rk t, 0 <= t < 10 ->
    step (rk, Nk * t) t = (fold_left expand_word (seqZ (Nk * t + Nk) Nk) rk, Nk * t + Nk)) ->
  forall rk n, (n <= 10)%nat -> fold_left step (seqZ 0 (Z.of_nat n)) (rk, 0) =
    (fold_left expand_word (seqZ Nk (Nk * Z.of_nat n)) rk, Nk * Z.of_nat n).
Proof using HNk.
  intros Hs rk n. induction n as [|n IH]; intros Hn; [cbn; by rewrite Z.mul_0_r|].
  rewrite seqZ_S, fold_left_app, IH by lia. cbn [fold_left]. rewrite Z.add_0_l, Hs by lia.
  replace (Nk * Z.of_nat (S n)) with (Nk * Z.of_nat n + Nk) by lia.
  by rewrite seqZ_app, fold_left_app, (Z.add_comm Nk) by lia.
Qed.

End Expansion.

Lemma seqZ_lits m n :
  seqZ m (Z.of_nat n) = map (fun i => m + Z.of_nat i) (seq 0 n).
Proof. unfold seqZ. rewrite Nat2Z.id. apply map_ext. intros i. apply Z.add_comm. Qed.

(** The steps of the three schedules write whole groups of the recurrence. *)
Lemma key_step10_expands rk t : 0 <= t < 10 -> key_step10 fixed_tables (rk, 4 * t) t =
  (fold_left (expand_word 4) (seqZ (4 * t + 4) 4) rk, 4 * t + 4).
Proof.
  intros Ht. unfold key_step10. cbv zeta.
  change (4 * t + 3) with (4 * t + (4 - 1)). rewrite <- expand_first by lia.
  rewrite <- !(expand_plain 4) by (lia || done).
  rewrite (seqZ_lits _ 4). cbn [seq map fold_left]. by rewrite <- !Z.add_assoc.
Qed.

Lemma key_step12_expands rk t : 0 <= t < 10 -> key_step12 fixed_tables (rk, 6 * t) t =
  (fold_left (expand_word 6) (seqZ (6 * t + 6) 6) rk, 6 * t + 6).
Proof.
  intros Ht. unfold key_step12. cbv zeta.
  change (6 * t + 5) with (6 * t + (6 - 1)). rewrite <- expand_first by lia.
  rewrite <- !(expand_plain 6) by (lia || done).
  rewrite (seqZ_lits _ 6). cbn [seq map fold_left]. by rewrite <- !Z.add_assoc.
Qed.

(** The extra substitution in the middle of a 256-bit group. *)
Lemma expand_middle rk t : expand_word 8 rk (8 * t + 12) =
  aset rk (8 * t + 12) (aget rk (8 * t + 4) .^ sub_word fixed_tables (aget rk (8 * t + 11))).
Proof.
  unfold expand_word, Fips.temp.
  destruct (group_index 8 ltac:(lia) t 4 ltac:(lia)) as [H1 _]. change (8 + 4) with 12 in H1.
  rewrite H1. cbn [Z.eqb Pos.eqb Z.ltb Z.compare Pos.compare Pos.compare_cont andb].
  rewrite sub_word_fips. do 2 f_equal; [|do 2 f_equal]; f_equal; lia.
Qed.

Lemma key_step14_expands rk t : 0 <= t < 10 -> key_step14 fixed_tables (rk, 8 * t) t =
  (fold_left (expand_word 8) (seqZ (8 * t + 8) 8) rk, 8 * t + 8).
Proof.
  intros Ht. unfold key_step14. cbv zeta.
  change (8 * t + 7) with (8 * t + (8 - 1)). rewrite <- expand_first by lia.
  rewrite <- !(expand_plain 8 ltac:(lia) _ t 1), <- !(expand_plain 8 ltac:(lia) _ t 2),
    <- !(expand_plain 8 ltac:(lia) _ t 3) by (lia || done).
  rewrite <- expand_middle. rewrite <- !(expand_plain 8) by (lia || done).
  rewrite (seqZ_lits _ 8). cbn [seq map fold_left]. by rewrite <- !Z.add_assoc.
Qed.

Lemma load_key_spec key n rk : length rk = 64%nat -> Z.of_nat n <= 64 ->
  let rk' := fold_left (fun rk i => aset rk i (GET_UINT32_BE key (i * 4))) (seqZ 0 (Z.of_nat n)) rk in
  length rk' = 64%nat /\ forall i, 0 <= i < Z.of_nat n -> aget rk' i = GET_UINT32_BE key (4 * i).
Proof.
  intros Hl. induction n as [|n IH]; intros Hn; [split; [done|lia]|].
  destruct IH as [Hl' Hg]; [lia|]. rewrite seqZ_S, fold_left_app. cbn [fold_left]. cbv zeta.
  rewrite length_aset. split; [done|]. intros i Hi. rewrite aget_aset by lia.
  destruct (Z.eqb_spec (0 + Z.of_nat n) i) as [<-|]; [f_equal; lia|]. apply Hg. lia.
Qed.

(** The three key sizes of the standard. *)
Definition std_keysize (keysize : Z) : Prop := keysize = 128 \/ keysize = 192 \/ keysize = 256.

Lemma expand_key_fips keysize rk : std_keysize keysize ->
  (expand_key fixed_tables (rounds_of_keysize keysize) rk).1 =
  fold_left (expand_word (keysize / 32))
    (seqZ (keysize / 32) (if keysize =? 128 then 40 else if keysize =? 192 then 48 else 56)) rk.
Proof.
  intros [->|[->| ->]]; unfold expand_key; cbn [rounds_of_keysize Z.eqb Pos.eqb].
  - change (seqZ 0 10) with (seqZ 0 (Z.of_nat 10)).
    rewrite (expand_loop 4) by (lia || exact key_step10_expands). reflexivity.
  - change (seqZ 0 8) with (seqZ 0 (Z.of_nat 8)).
    rewrite (expand_loop 6) by (lia || exact key_step12_expands). reflexivity.
  - change (seqZ 0 7) with (seqZ 0 (Z.of_nat 7)).
    rewrite (expand_loop 8) by (lia || exact key_step14_expands). reflexivity.
Qed.

Lemma aes_set_key_erk g key keysize g' ctx : globals_ok g ->
  aes_set_key g zero_context key keysize = Some (g', ctx) ->
  exists rk, load_key key keysize (replicate 64 0) = Some rk /\
    erk ctx = (expand_key fixed_tables (rounds_of_keysize keysize) rk).1.
Proof.
  intros Hg. unfold aes_set_key. cbv zeta.
  replace (if do_init g then aes_gen_tables (tables g) else tables g) with fixed_tables
    by (destruct Hg as [-> | ->]; [symmetry; apply gen_tables_zero|done]).
  change (erk zero_context) with (replicate 64 0).
  destruct (load_key _ _ _) as [rk|]; [|done]. cbn [mbind option_bind].
  destruct (expand_key fixed_tables _ rk) as [rk' RK] eqn:E. intros [= <- <-].
  exists rk. split; [done|]. by rewrite E.
Qed.

Lemma erk_expands key keysize rk : std_keysize keysize ->
  load_key key keysize (replicate 64 0) = Some rk ->
  Fips.expands (keysize / 32) (rounds_of_keysize keysize) key
    (aget (expand_key fixed_tables (rounds_of_keysize keysize) rk).1).
Proof.
  intros Hks. rewrite expand_key_fips by done. unfold load_key.
  destruct (_ && _); [|done]. intros [= <-].
  replace (keysize ≫ 5) with (Z.of_nat (Z.to_nat (keysize / 32)))
    by (destruct Hks as [->|[->| ->]]; reflexivity).
  destruct (load_key_spec key (Z.to_nat (keysize / 32)) (replicate 64 0)) as [Hl Hg];
    [done|destruct Hks as [->|[->| ->]]; vm_compute; discriminate|].
  set (rk := fold_left _ _ _) in *.
  assert (HNk : 0 < keysize / 32 <= 8) by (destruct Hks as [->|[->| ->]]; vm_compute; split; congruence).
  set (n := if keysize =? 128 then 40 else if keysize =? 192 then 48 else 56).
  assert (Hn : 4 * (rounds_of_keysize keysize + 1) <= keysize / 32 + n <= 64)
    by (destruct Hks as [->|[->| ->]]; vm_compute; split; congruence).
  replace n with (Z.of_nat (Z.to_nat n)) in * by (destruct Hks as [->|[->| ->]]; reflexivity).
  destruct (expand_spec (keysize / 32) ltac:(lia) rk (Z.to_nat n)) as (_ & Hlow & Hrec);
    [done|lia|]. split.
  - intros i Hi. rewrite Hlow by lia. apply Hg. lia.
  - intros i Hi. apply Hrec. lia.
Qed.

(** C2: the code computes the cipher of FIPS-197: for 128, 192 and 256-bit keys the
    round keys satisfy the standard's key-expansion recurrence, and the table-driven
    [aes_encrypt] equals the standard's sequence of SubBytes, ShiftRows, MixColumns
    and AddRoundKey on every block. *)
Theorem aes_encrypt_fips197 g key keysize g' ctx :
  globals_ok g -> bytes key -> std_keysize keysize ->
  aes_set_key g zero_context key keysize = Some (g', ctx) ->
  nr ctx = keysize / 32 + 6 /\
  Fips.expands (keysize / 32) (nr ctx) key (aget (erk ctx)) /\
  forall b, length b = 16%nat -> bytes b ->
    aes_encrypt (tables g') ctx b = Fips.cipher (nr ctx) (aget (erk ctx)) b.
Proof.
  intros Hg Hk Hks Hset. destruct (aes_set_key_ok _ _ _ _ _ Hg Hk Hset) as (-> & Hnr & Hs).
  destruct (aes_set_key_erk _ _ _ _ _ Hg Hset) as (rk & Hload & Herk).
  rewrite Hnr at 1 2. split; [destruct Hks as [->|[->| ->]]; reflexivity|]. split.
  - rewrite Herk. by apply erk_expands.
  - intros b Hl Hb. apply aes_encrypt_cipher; [apply Hs|done|done].
Qed.

Lemma aes_encrypt_fips197_witness :
  exists g' ctx, aes_set_key ready_globals zero_context (seqZ 0 32) 256 = Some (g', ctx) /\
    aes_encrypt (tables g') ctx fips_block = Fips.cipher 14 (aget (erk ctx)) fips_block.
Proof.
  destruct (aes_set_key ready_globals zero_context (seqZ 0 32) 256) as [[g' ctx]|] eqn:E;
    [|vm_compute in E; discriminate E].
  exists g', ctx. split; [reflexivity|].
  destruct (aes_encrypt_fips197 ready_globals (seqZ 0 32) 256 g' ctx) as (Hnr & _ & Hb).
  - right. reflexivity.
  - apply bytes_seqZ. lia.
  - right. right. reflexivity.
  - exact E.
  - change (256 / 32 + 6) with 14 in Hnr. rewrite <- Hnr. apply Hb; [reflexivity|].
    apply (bool_decide_unpack _). vm_compute. exact I.
Defined.
