(* ===== verification/AesBuffers.v ===== *)
(** * The AES buffer routines (src/encryption/aes.c, lib_aes_encrypt and
      lib_aes_decrypt)

    The routines run in a flat memory with [in] and [out] as offsets.  The
    lemmas cover both ways of calling them, with disjoint buffers and in
    place; the theorems are the round trip for whole blocks and the effect of
    the extra block call the routines end with. *)

From S2P Require Import Prelude AesTables Aes.

(** Block [p .. p+15] of the memory. *)
Definition slice (mem : list Z) (p : Z) : list Z := take 16 (drop (Z.to_nat p) mem).

Lemma slice_lookup mem p (j : nat) : 0 <= p -> (j < 16)%nat ->
  slice mem p !! j = mem !! Z.to_nat (p + Z.of_nat j).
Proof. intros. unfold slice. rewrite lookup_take_lt, lookup_drop by lia. f_equal. lia. Qed.

Lemma length_slice mem p : 0 <= p -> p + 16 <= Z.of_nat (length mem) ->
  length (slice mem p) = 16%nat.
Proof. intros. unfold slice. rewrite length_take, length_drop. lia. Qed.

Lemma slice_ge mem p (j : nat) : (16 <= j)%nat -> slice mem p !! j = None.
Proof. intros. apply lookup_ge_None. unfold slice. rewrite length_take. lia. Qed.

Lemma slice_ext m m' p : 0 <= p ->
  (forall q, p <= q < p + 16 -> m !! Z.to_nat q = m' !! Z.to_nat q) -> slice m p = slice m' p.
Proof.
  intros Hp H. apply list_eq. intros j. destruct (decide (j < 16)%nat).
  - rewrite !slice_lookup by lia. apply H. lia.
  - by rewrite !slice_ge by lia.
Qed.

Lemma bytes_slice mem p : bytes mem -> bytes (slice mem p).
Proof. intros. by apply Forall_take, Forall_drop. Qed.

Lemma bcopy_spec mem off src m' : bcopy mem off src = Some m' ->
  length m' = length mem /\
  forall q, 0 <= q -> m' !! Z.to_nat q =
    if bool_decide (off <= q < off + Z.of_nat (length src))
    then src !! Z.to_nat (q - off) else mem !! Z.to_nat q.
Proof.
  unfold bcopy. case_bool_decide as Hb; [|done]. intros [= <-].
  split; [rewrite !length_app, length_take, length_drop; lia|].
  intros q Hq. case_bool_decide.
  - rewrite lookup_app_r, lookup_app_l; rewrite length_take; [f_equal; lia|lia|lia].
  - destruct (decide (q < off)).
    + rewrite lookup_app_l, lookup_take_lt; [done|lia|rewrite length_take; lia].
    + rewrite !lookup_app_r, lookup_drop by (rewrite !length_take; lia).
      f_equal. rewrite length_take. lia.
Qed.

Definition disjoint (a b len : Z) : Prop := a + len <= b \/ b + len <= a.

Section Buffers.
Context (f : list Z -> list Z) (Hf : forall b, length (f b) = 16%nat).

Lemma block_at_spec mem out inp : 0 <= inp -> inp + 16 <= Z.of_nat (length mem) ->
  0 <= out -> out + 16 <= Z.of_nat (length mem) ->
  exists m', block_at f mem out inp = Some m' /\ length m' = length mem /\
    slice m' out = f (slice mem inp) /\
    (forall q, 0 <= q -> q < out \/ out + 16 <= q -> m' !! Z.to_nat q = mem !! Z.to_nat q).
Proof using Hf.
  intros. unfold block_at. rewrite bool_decide_eq_true_2 by lia. fold (slice mem inp).
  destruct (bcopy mem out (f (slice mem inp))) as [m'|] eqn:E.
  2: { exfalso. unfold bcopy in E. rewrite Hf, bool_decide_eq_true_2 in E by lia. done. }
  exists m'. apply bcopy_spec in E as [Hl Hq]. rewrite Hf in Hq. split_and!; [done|done| |].
  - apply list_eq. intros j. destruct (decide (j < 16)%nat).
    + rewrite slice_lookup, Hq, bool_decide_eq_true_2 by lia. f_equal. lia.
    + rewrite slice_ge by lia. symmetry. apply lookup_ge_None. rewrite Hf. lia.
  - intros q Hq0 Hout. rewrite Hq, bool_decide_eq_false_2 by lia. done.
Qed.

(** Blocks [i .. i+n-1], in place or between disjoint buffers. *)
Lemma blocks_loop_spec out inp : 0 <= inp -> 0 <= out -> forall n i mem,
  0 <= i -> inp + 16 * (i + Z.of_nat n) <= Z.of_nat (length mem) ->
  out + 16 * (i + Z.of_nat n) <= Z.of_nat (length mem) ->
  (out = inp \/ disjoint out inp (16 * (i + Z.of_nat n))) ->
  exists m', blocks_loop f n i mem out inp = Some m' /\ length m' = length mem /\
    (forall k, i <= k < i + Z.of_nat n -> slice m' (out + 16 * k) = f (slice mem (inp + 16 * k))) /\
    (forall q, 0 <= q -> q < out + 16 * i \/ out + 16 * (i + Z.of_nat n) <= q ->
       m' !! Z.to_nat q = mem !! Z.to_nat q).
Proof using Hf.
  intros Hi0 Ho0. induction n as [|n IH]; intros i mem Hi Hin Hout Hdis.
  { exists mem. split_and!; [done|done|lia|done]. }
  cbn [blocks_loop].
  destruct (block_at_spec mem (out + i * 16) (inp + i * 16)) as (m1 & -> & Hl1 & Hs1 & Hq1); [lia..|].
  cbn [mbind option_bind].
  destruct (IH (i + 1) m1) as (m' & -> & Hl & Hs & Hq); [lia|rewrite Hl1; lia|rewrite Hl1; lia| |].
  { replace (i + 1 + Z.of_nat n) with (i + Z.of_nat (S n)) by lia. done. }
  exists m'. split_and!; [done|congruence| |].
  - intros k Hk. destruct (Z.eq_dec k i) as [->|Hne].
    + rewrite (slice_ext m' m1) by (lia || (intros; apply Hq; lia)).
      by replace (16 * i) with (i * 16) by lia.
    + rewrite Hs by lia. f_equal. apply slice_ext; [lia|]. intros q Hq'. apply Hq1; [lia|].
      unfold disjoint in Hdis. lia.
  - intros q Hq0 Hout'. rewrite Hq, Hq1 by lia. done.
Qed.

(** The whole routine on [n] full blocks: in place the first block goes through
    [f] twice, since the routine ends with one more call on it. *)
Lemma buffer_aes_spec mem out inp n : (0 < n)%nat -> 0 <= inp -> 0 <= out ->
  inp + 16 * Z.of_nat n <= Z.of_nat (length mem) ->
  out + 16 * Z.of_nat n <= Z.of_nat (length mem) ->
  (out = inp \/ disjoint out inp (16 * Z.of_nat n)) ->
  exists m', buffer_aes f mem out inp (16 * Z.of_nat n) = Some m' /\ length m' = length mem /\
    slice m' out = (if bool_decide (out = inp) then f (f (slice mem inp)) else f (slice mem inp)) /\
    (forall k, 1 <= k < Z.of_nat n -> slice m' (out + 16 * k) = f (slice mem (inp + 16 * k))) /\
    (forall q, 0 <= q -> q < out \/ out + 16 * Z.of_nat n <= q ->
       m' !! Z.to_nat q = mem !! Z.to_nat q).
Proof using Hf.
  intros Hn Hi0 Ho0 Hin Hout Hdis. unfold buffer_aes. cbv zeta.
  rewrite (Z.mul_comm 16), Z.quot_mul, Z.rem_mul, Nat2Z.id by lia.
  destruct (blocks_loop_spec out inp Hi0 Ho0 n 0 mem) as (m1 & -> & Hl1 & Hs1 & Hq1); [lia..| |].
  { by rewrite Z.add_0_l. }
  cbn [mbind option_bind Z.ltb Z.compare].
  destruct (block_at_spec m1 out inp) as (m' & -> & Hl & Hs & Hq); [lia..|].
  specialize (Hs1 0 ltac:(lia)) as Hs0. rewrite Z.mul_0_r, !Z.add_0_r in Hs0.
  exists m'. split_and!; [done|congruence| | |].
  - rewrite Hs. case_bool_decide as He.
    + subst inp. by rewrite Hs0.
    + f_equal. apply slice_ext; [lia|]. intros q Hq'. apply Hq1; [lia|]. unfold disjoint in Hdis. lia.
  - intros k Hk. rewrite (slice_ext m' m1) by (lia || (intros; apply Hq; lia)). apply Hs1. lia.
  - intros q Hq0 Hq'. rewrite Hq, Hq1 by lia. done.
Qed.

End Buffers.

(** ** The routines *)

Lemma length_aes_encrypt T ctx b : length (aes_encrypt T ctx b) = 16%nat.
Proof. unfold aes_encrypt. destruct (all_rounds _ _ _) as [RK [[[Y0 Y1] Y2] Y3]]. reflexivity. Qed.

Lemma length_aes_decrypt T ctx b : length (aes_decrypt T ctx b) = 16%nat.
Proof. unfold aes_decrypt. destruct (all_rounds _ _ _) as [RK [[[Y0 Y1] Y2] Y3]]. reflexivity. Qed.

Lemma bytes_aes_encrypt T ctx b : bytes (aes_encrypt T ctx b).
Proof.
  unfold aes_encrypt. destruct (all_rounds _ _ _) as [RK [[[Y0 Y1] Y2] Y3]]. unfold store_block.
  repeat (apply Forall_app; split); apply bytes_PUT_UINT32_BE.
Qed.

(** The key sizes and key lengths [aes_set_key] accepts. *)
Lemma aes_set_key_some g key keysize : 0 <= keysize ->
  keysize ≫ 5 <= 64 -> 4 * (keysize ≫ 5) <= Z.of_nat (length key) ->
  is_Some (aes_set_key g zero_context key keysize).
Proof.
  intros H0 H1 H2. unfold aes_set_key, load_key. cbv zeta.
  rewrite (proj2 (Z.leb_le _ _) H1), (proj2 (Z.leb_le _ _) H2). cbn [andb mbind option_bind].
  destruct (expand_key _ _ _). by eexists.
Qed.

(** The second call finds the tables ready and builds the same schedule. *)
Lemma aes_set_key_again g key keysize g' ctx : globals_ok g -> bytes key ->
  aes_set_key g zero_context key keysize = Some (g', ctx) ->
  aes_set_key g' zero_context key keysize = Some (g', ctx).
Proof.
  intros Hg Hk Hset. destruct (aes_set_key_ok _ _ _ _ _ Hg Hk Hset) as (-> & _ & _).
  revert Hset. destruct Hg as [-> | ->]; [|done]. intros <-. unfold aes_set_key. cbv zeta.
  cbn [do_init tables KT_init kts initial_globals ready_globals].
  by rewrite gen_tables_zero, gen_kt_zero.
Qed.

Section RoundTrip.
Context (g : aes_globals) (key : list Z) (keysize : Z).
Context (Hg : globals_ok g) (Hk : bytes key).
Context (H0 : 0 <= keysize) (H1 : keysize ≫ 5 <= 64)
        (H2 : 4 * (keysize ≫ 5) <= Z.of_nat (length key)).

(** C10: buffer round trip: on any number of whole blocks, [lib_aes_encrypt] from
    [src] to [mid] followed by [lib_aes_decrypt] from [mid] to [dst] with the same key
    puts the plain text at [dst], both when the calls work in place and when they work
    between disjoint buffers; neither call reads or writes outside the buffers. *)
Theorem lib_aes_roundtrip mem src mid dst n :
  bytes mem -> (0 < n)%nat -> 0 <= src -> 0 <= mid -> 0 <= dst ->
  src + 16 * Z.of_nat n <= Z.of_nat (length mem) ->
  mid + 16 * Z.of_nat n <= Z.of_nat (length mem) ->
  dst + 16 * Z.of_nat n <= Z.of_nat (length mem) ->
  (mid = src /\ dst = mid \/
   disjoint mid src (16 * Z.of_nat n) /\ disjoint dst mid (16 * Z.of_nat n)) ->
  exists g1 m1 m2,
    lib_aes_encrypt g mem mid src (16 * Z.of_nat n) key keysize = Some (g1, m1) /\
    lib_aes_decrypt g1 m1 dst mid (16 * Z.of_nat n) key keysize = Some (g1, m2) /\
    forall k, 0 <= k < Z.of_nat n -> slice m2 (dst + 16 * k) = slice mem (src + 16 * k).
Proof using Hg Hk H0 H1 H2.
  intros Hb Hn Hs Hm Hd Hsl Hml Hdl Hcase.
  destruct (aes_set_key_some g key keysize) as [[g' ctx] Hset]; [done..|].
  pose proof (aes_set_key_again _ _ _ _ _ Hg Hk Hset) as Hset'.
  destruct (aes_set_key_ok _ _ _ _ _ Hg Hk Hset) as (-> & _ & Hsch).
  destruct (buffer_aes_spec _ (length_aes_encrypt fixed_tables ctx) mem mid src n)
    as (m1 & He & Hl1 & Hfirst1 & Hrest1 & _); [lia..|tauto|].
  destruct (buffer_aes_spec _ (length_aes_decrypt fixed_tables ctx) m1 dst mid n)
    as (m2 & Hdec & Hl2 & Hfirst2 & Hrest2 & _); [lia..|tauto|].
  exists ready_globals, m1, m2. unfold lib_aes_encrypt, lib_aes_decrypt.
  rewrite Hset, Hset'. cbn [mbind option_bind tables ready_globals]. rewrite He, Hdec.
  split_and!; [done|done|]. intros k Hk'.
  assert (Hlen : length (slice mem (src + 16 * k)) = 16%nat) by (apply length_slice; lia).
  pose proof (bytes_slice mem (src + 16 * k) Hb) as Hbs.
  destruct (Z.eq_dec k 0) as [->|Hne].
  - rewrite Z.mul_0_r, !Z.add_0_r in *. rewrite Hfirst2, Hfirst1.
    destruct Hcase as [[-> ->]|[Hd1 Hd2]].
    + rewrite !bool_decide_eq_true_2 by done.
      by rewrite !decrypt_encrypt_block by (done || apply length_aes_encrypt || apply bytes_aes_encrypt).
    + rewrite !bool_decide_eq_false_2 by (unfold disjoint in *; lia). by apply decrypt_encrypt_block.
  - rewrite Hrest2, Hrest1 by lia. by apply decrypt_encrypt_block.
Qed.

(** The routines end with one more call on the first block.  Between disjoint
    buffers it repeats the first write, but in place it encrypts the first cipher
    block a second time: the first block of the result is E(E(b)), where the same
    call with disjoint buffers writes E(b). *)
Theorem lib_aes_in_place_first_block mem p : 0 <= p ->
  p + 16 <= Z.of_nat (length mem) ->
  exists g' ctx m', aes_set_key g zero_context key keysize = Some (g', ctx) /\
    lib_aes_encrypt g mem p p 16 key keysize = Some (g', m') /\
    slice m' p = aes_encrypt (tables g') ctx (aes_encrypt (tables g') ctx (slice mem p)).
Proof using H0 H1 H2.
  intros Hp Hpl. destruct (aes_set_key_some g key keysize) as [[g' ctx] Hset]; [done..|].
  destruct (buffer_aes_spec _ (length_aes_encrypt (tables g') ctx) mem p p 1)
    as (m' & He & _ & Hfirst & _); [lia..|by left|].
  exists g', ctx, m'. unfold lib_aes_encrypt. rewrite Hset. cbn [mbind option_bind].
  change (16 * Z.of_nat 1) with 16 in He. rewrite He.
  split_and!; [done|done|]. by rewrite Hfirst, bool_decide_eq_true_2.
Qed.

End RoundTrip.

Lemma lib_aes_roundtrip_witness :
  exists g1 m1 m2,
    lib_aes_encrypt initial_globals (seqZ 0 96) 32 0 32 (seqZ 0 16) 128 = Some (g1, m1) /\
    lib_aes_decrypt g1 m1 64 32 32 (seqZ 0 16) 128 = Some (g1, m2) /\
    slice m2 (64 + 16 * 1) = slice (seqZ 0 96) (0 + 16 * 1).
Proof.
  destruct (lib_aes_roundtrip initial_globals (seqZ 0 16) 128 (or_introl eq_refl)
    (bytes_seqZ 16 ltac:(lia)) ltac:(lia) ltac:(vm_compute; discriminate)
    ltac:(vm_compute; discriminate) (seqZ 0 96) 0 32 64 2 (bytes_seqZ 96 ltac:(lia)) ltac:(lia)
    ltac:(lia) ltac:(lia) ltac:(lia) ltac:(vm_compute; discriminate)
    ltac:(vm_compute; discriminate) ltac:(vm_compute; discriminate))
    as (g1 & m1 & m2 & He & Hd & Hs).
  - right. unfold disjoint. split; right; vm_compute; discriminate.
  - exists g1, m1, m2. split; [exact He|]. split; [exact Hd|]. apply (Hs 1). lia.
Defined.

Lemma lib_aes_in_place_first_block_witness :
  exists g' ctx m', aes_set_key initial_globals zero_context (seqZ 0 16) 128 = Some (g', ctx) /\
    lib_aes_encrypt initial_globals (seqZ 0 16) 0 0 16 (seqZ 0 16) 128 = Some (g', m') /\
    slice m' 0 = aes_encrypt (tables g') ctx (aes_encrypt (tables g') ctx (slice (seqZ 0 16) 0)).
Proof.
  exact (lib_aes_in_place_first_block initial_globals (seqZ 0 16) 128 ltac:(lia)
    ltac:(vm_compute; discriminate) ltac:(vm_compute; discriminate) (seqZ 0 16) 0 ltac:(lia)
    ltac:(vm_compute; discriminate)).
Defined.
