(* ===== verification/Sqlite.v ===== *)
(** * The SQLite interface used by src/records/records.c

    SQLite is not part of the sources: class [Sqlite] lists the functions the
    records module calls, and class [SqliteLaws] what it relies on, as SQLite
    documents it, for the statements the module prepares.  The statements
    themselves (the [sprintf] formats of records.c) are the type [sql] with
    its text [sql_text].  [MemDb] is an in-memory implementation that parses
    the statement texts and satisfies the laws. *)

From stdpp Require Import gmap.
From Stdlib Require Import Ascii String.
From S2P Require Import Prelude.

(** ** Return codes (sqlite3.h) *)

Definition SQLITE_OK : Z := 0.
Definition SQLITE_ERROR : Z := 1.
Definition SQLITE_MISUSE : Z := 21.
Definition SQLITE_ROW : Z := 100.
Definition SQLITE_DONE : Z := 101.

(** ** Tables and statements of records.c *)

Inductive table :=
  | REC_CONSUME | REC_EXCEPTION | REC_RECONSUME | REC_ONCARD_ACK | REC_OFFCARD_ACK | REC_RECHARGE.

#[export] Instance table_eq_dec : EqDecision table.
Proof. solve_decision. Defined.

Definition all_tables : list table :=
  [REC_CONSUME; REC_EXCEPTION; REC_RECONSUME; REC_ONCARD_ACK; REC_OFFCARD_ACK; REC_RECHARGE].

Definition table_name (t : table) : string :=
  match t with
  | REC_CONSUME => "tbl_consume"
  | REC_EXCEPTION => "tbl_exception"
  | REC_RECONSUME => "tbl_reconsume"
  | REC_ONCARD_ACK => "tbl_oncard_ack"
  | REC_OFFCARD_ACK => "tbl_offcard_ack"
  | REC_RECHARGE => "tbl_recharge"
  end.

(** The columns of the CREATE TABLE commands, with the tabs that the source's
    continued string literals contain. *)
Definition tabs (n : nat) : string := Nat.iter n (String (ascii_of_nat 9)) "".

Definition table_columns (t : table) : string :=
  let last := "[last_time] TimeStamp NOT NULL DEFAULT (datetime('now','localtime')))" in
  let packet := "pkt_sn INTEGER DEFAULT 0, pid CHAR(8), macaddr CHAR(6), pkt_len INTEGER DEFAULT 0, pkt_data BLOB, " in
  match t with
  | REC_CONSUME =>
      tabs 5 +:+ "pkt_sn INTEGER DEFAULT 0, pid CHAR(8), lid CHAR(8),  trade_record BLOB, " +:+ tabs 5 +:+ last
  | REC_EXCEPTION =>
      tabs 5 +:+ "sn INTEGER DEFAULT 0, pid CHAR(8), trade_record BLOB, " +:+ tabs 5 +:+ last
  | REC_RECONSUME => tabs 5 +:+ packet +:+ tabs 5 +:+ last
  | REC_ONCARD_ACK => tabs 6 +:+ packet +:+ " " +:+ tabs 6 +:+ last
  | REC_OFFCARD_ACK | REC_RECHARGE => tabs 5 +:+ packet +:+ " " +:+ tabs 5 +:+ last
  end.

Inductive sql :=
  | JournalOff | SynchronousOff | CaseSensitiveLike
  | CreateTable (t : table)
  | InsertConsume | InsertException
  | InsertPacket (t : table)
  | SelectSn (t : table) (n : Z)
  | SelectOne (t : table)
  | DeleteSn (t : table) (n : Z)
  | CountAll (t : table).

#[export] Instance sql_eq_dec : EqDecision sql.
Proof. solve_decision. Defined.

(** ** The [%u] conversion: at most ten digits for 32 bits *)

Definition digit (d : Z) : ascii := ascii_of_nat (48 + Z.to_nat d).
Definition undigit (c : ascii) : option Z :=
  let n := Z.of_nat (nat_of_ascii c) - 48 in
  if (0 <=? n) && (n <=? 9) then Some n else None.

Fixpoint print_u (fuel : nat) (n : Z) (acc : string) : string :=
  match fuel with
  | O => acc
  | S fuel =>
      let acc := String (digit (n mod 10)) acc in
      if n / 10 =? 0 then acc else print_u fuel (n / 10) acc
  end.

(** [pkt_sn] is an [int]; [%u] prints it as [unsigned int]. *)
Definition fmt_u (n : Z) : string := print_u 10 (u32 n) "".

Definition sql_text (c : sql) : string :=
  match c with
  | JournalOff => "PRAGMA journal_mode=OFF"
  | SynchronousOff => "PRAGMA synchronous=OFF"
  | CaseSensitiveLike => "PRAGMA case_sensitive_like=1"
  | CreateTable t =>
      "CREATE TABLE IF NOT EXISTS " +:+ table_name t +:+ "(idx INTEGER PRIMARY KEY AUTOINCREMENT, " +:+
      table_columns t
  | InsertConsume =>
      "INSERT INTO " +:+ table_name REC_CONSUME +:+ "(pkt_sn, pid, lid, trade_record) VALUES (?,?,?,?);"
  | InsertException =>
      "INSERT INTO " +:+ table_name REC_EXCEPTION +:+ "(sn, pid, trade_record) VALUES (?,?,?);"
  | InsertPacket t =>
      "INSERT INTO " +:+ table_name t +:+ "(pkt_sn, pid, macaddr, pkt_len, pkt_data) VALUES (?,?,?,?,?);"
  | SelectSn t n =>
      "SELECT * FROM " +:+ table_name t +:+ " WHERE pkt_sn = " +:+ fmt_u n +:+ ";"
  | SelectOne t => "SELECT * FROM " +:+ table_name t +:+ " LIMIT 1;"
  | DeleteSn t n =>
      "DELETE FROM " +:+ table_name t +:+ " WHERE pkt_sn = " +:+ fmt_u n +:+ ";"
  | CountAll t => "SELECT COUNT(*) FROM " +:+ table_name t +:+ ";"
  end.

(** The four queues, which have the packet columns. *)
Definition packet_table (t : table) : bool :=
  match t with REC_CONSUME | REC_EXCEPTION => false | _ => true end.

Definition sql_valid (c : sql) : bool :=
  match c with
  | InsertPacket t | SelectSn t _ | DeleteSn t _ => packet_table t
  | _ => true
  end.

(** The command SQLite reads back from the text. *)
Definition sql_norm (c : sql) : sql :=
  match c with
  | SelectSn t n => SelectSn t (u32 n)
  | DeleteSn t n => DeleteSn t (u32 n)
  | _ => c
  end.

(** ** Values and rows *)

Inductive sqlval := VNull | VInt (v : Z) | VBlob (b : list Z) | VText (s : string).

(** A row as [SELECT *] returns it: idx, the declared columns, last_time. *)
Definition row : Type := list sqlval.

Definition has_sn (n : Z) (r : row) : Prop := r !! 1%nat = Some (VInt n).

#[export] Instance sqlval_eq_dec : EqDecision sqlval.
Proof. solve_decision. Defined.
#[export] Instance has_sn_dec n r : Decision (has_sn n r).
Proof. unfold has_sn. apply _. Defined.

(** ** The library *)

(** [sqlite3_open]: SQLITE_OK with a connection, or an error; then a handle that
    holds the error message is still given out and must be closed, or NULL when
    there is no memory for it. *)
Inductive opening (C : Type) :=
  | Opened (d : C)
  | OpenFailed (given : bool).
Arguments Opened {C} _.
Arguments OpenFailed {C} _.

Class Sqlite := {
  conn : Type;
  stmt : Type;
  sqlite3_open : string -> opening conn;
  sqlite3_exec : conn -> string -> Z * conn;
  sqlite3_prepare_v2 : conn -> string -> Z * option stmt;   (* None is the NULL statement *)
  sqlite3_bind_int : stmt -> Z -> Z -> stmt;
  sqlite3_bind_blob : stmt -> Z -> list Z -> Z -> stmt;
  sqlite3_step : conn -> stmt -> Z * conn * stmt;
  sqlite3_column_int : stmt -> Z -> Z;
  sqlite3_column_blob : stmt -> Z -> option (list Z);
  sqlite3_finalize : conn -> stmt -> conn }.

(** What the records module relies on.  [rows d t] is the content of a table,
    [healthy d] says that the tables exist and the engine answers (no lock
    contention, no I/O error); [cmd_of], [args_of] and [row_of] describe a
    prepared statement: its command, its bound parameters and its current row. *)
Class SqliteLaws `{Sqlite} := {
  rows : conn -> table -> list row;
  healthy : conn -> Prop;
  cmd_of : stmt -> sql;
  args_of : stmt -> Z -> sqlval;
  row_of : stmt -> row;

  prepare_law d c : healthy d -> sql_valid c = true ->
    exists s, sqlite3_prepare_v2 d (sql_text c) = (SQLITE_OK, Some s) /\ cmd_of s = sql_norm c;
  bind_int_law s i v : cmd_of (sqlite3_bind_int s i v) = cmd_of s /\
    forall j, args_of (sqlite3_bind_int s i v) j = if j =? i then VInt v else args_of s j;
  (* the length given to bind_blob must not be negative *)
  bind_blob_law s i b n : 0 <= n ->
    cmd_of (sqlite3_bind_blob s i b n) = cmd_of s /\
    forall j, args_of (sqlite3_bind_blob s i b n) j =
      if j =? i then VBlob (take (Z.to_nat n) b) else args_of s j;

  insert_law d s t : healthy d -> cmd_of s = InsertPacket t ->
    exists d' s' idx tm, sqlite3_step d s = (SQLITE_DONE, d', s') /\ healthy d' /\
      rows d' t = rows d t ++
        [[VInt idx; args_of s 1; args_of s 2; args_of s 3; args_of s 4; args_of s 5; tm]] /\
      forall t', t' <> t -> rows d' t' = rows d t';
  delete_law d s t n : healthy d -> cmd_of s = DeleteSn t n ->
    exists d' s', sqlite3_step d s = (SQLITE_DONE, d', s') /\ healthy d' /\
      rows d' t = filter (fun r => ¬ has_sn n r) (rows d t) /\
      forall t', t' <> t -> rows d' t' = rows d t';
  (* no ORDER BY: any matching row may come first *)
  select_law d s t n : healthy d -> cmd_of s = SelectSn t n ->
    exists rc d' s', sqlite3_step d s = (rc, d', s') /\ healthy d' /\ rows d' = rows d /\
      (rc = SQLITE_ROW /\ row_of s' ∈ filter (has_sn n) (rows d t) \/
       rc = SQLITE_DONE /\ filter (has_sn n) (rows d t) = []);
  select_one_law d s t : healthy d -> cmd_of s = SelectOne t ->
    exists rc d' s', sqlite3_step d s = (rc, d', s') /\ healthy d' /\ rows d' = rows d /\
      (rc = SQLITE_ROW /\ row_of s' ∈ rows d t \/ rc = SQLITE_DONE /\ rows d t = []);
  count_law d s t : healthy d -> cmd_of s = CountAll t ->
    exists d' s', sqlite3_step d s = (SQLITE_ROW, d', s') /\ healthy d' /\ rows d' = rows d /\
      row_of s' = [VInt (Z.of_nat (length (rows d t)))];

  (* a column read as int keeps 32 bits; a zero-length blob reads as NULL *)
  column_int_law s i v : row_of s !! Z.to_nat i = Some (VInt v) -> is_int v ->
    sqlite3_column_int s i = v;
  column_blob_law s i b : row_of s !! Z.to_nat i = Some (VBlob b) ->
    sqlite3_column_blob s i = match b with [] => None | _ => Some b end;
  finalize_law d s : rows (sqlite3_finalize d s) = rows d /\
    (healthy d -> healthy (sqlite3_finalize d s)) }.
