(* ===== verification/MemDb.v ===== *)
(** * An in-memory database that satisfies the SQLite laws

    It reads the statement texts of records.c, so the laws of [SqliteLaws] are
    shown to hold together; the records theorems use it in their concrete
    instances. *)

From Stdlib Require Import Ascii String.
From S2P Require Import Prelude Sqlite.
#[local] Open Scope string_scope.
#[local] Open Scope Z_scope.

(** ** Reading statement texts *)

Fixpoint strip_prefix (p s : string) : option string :=
  match p, s with
  | "", _ => Some s
  | String a p, String b s => if Ascii.eqb a b then strip_prefix p s else None
  | String _ _, "" => None
  end.

(** Digits up to the closing semicolon. *)
Fixpoint parse_u (v : Z) (s : string) : option Z :=
  match s with
  | String c s =>
      if Ascii.eqb c ";" then (if String.eqb s "" then Some v else None)
      else d ← undigit c; parse_u (10 * v + d) s
  | "" => None
  end.

Definition plain_cmds : list sql :=
  [JournalOff; SynchronousOff; CaseSensitiveLike; InsertConsume; InsertException] ++
  (CreateTable <$> all_tables) ++ (InsertPacket <$> all_tables) ++
  (SelectOne <$> all_tables) ++ (CountAll <$> all_tables).

Definition sn_cmds : list (string * (Z -> sql)) :=
  ((fun t => ("SELECT * FROM " +:+ table_name t +:+ " WHERE pkt_sn = ", SelectSn t)) <$> all_tables) ++
  ((fun t => ("DELETE FROM " +:+ table_name t +:+ " WHERE pkt_sn = ", DeleteSn t)) <$> all_tables).

Definition parse_with (pu : string -> option Z) (s : string) : option sql :=
  match List.find (fun c => String.eqb (sql_text c) s) plain_cmds with
  | Some c => Some c
  | None => head (omap (fun '(p, f) => rest ← strip_prefix p s; f <$> pu rest) sn_cmds)
  end.

Definition parse_sql : string -> option sql := parse_with (parse_u 0).

Lemma undigit_digit d : 0 <= d < 10 -> undigit (digit d) = Some d /\ Ascii.eqb (digit d) ";" = false.
Proof.
  intros Hd. apply (elem_of_seqZ 0 10) in Hd. revert d Hd. apply Forall_forall.
  vm_compute. repeat constructor.
Qed.

Lemma parse_print fuel : forall n acc, 0 <= n < 10 ^ Z.of_nat fuel -> (0 < fuel)%nat ->
  parse_u 0 (print_u fuel n acc) = parse_u n acc.
Proof.
  induction fuel as [|fuel IH]; intros n acc Hn Hf; [lia|]. cbn [print_u].
  destruct (undigit_digit (n mod 10)) as [Hd Hs]; [apply Z.mod_pos_bound; lia|].
  destruct (Z.eqb_spec (n / 10) 0) as [H0|H0].
  - cbn [parse_u]. rewrite Hs, Hd. cbn [mbind option_bind]. f_equal. zdm.
  - rewrite Nat2Z.inj_succ, Z.pow_succ_r in Hn by lia. destruct fuel as [|fuel].
    { exfalso. apply H0. apply Z.div_small. lia. }
    rewrite IH; [|split; [apply Z.div_pos; lia|apply Z.div_lt_upper_bound; lia]|lia].
    cbn [parse_u]. rewrite Hs, Hd. cbn [mbind option_bind]. f_equal. zdm.
Qed.

Lemma print_app fuel : forall n acc t, print_u fuel n acc +:+ t = print_u fuel n (acc +:+ t).
Proof.
  induction fuel as [|fuel IH]; intros n acc t; [done|]. cbn [print_u].
  destruct (n / 10 =? 0); [done|]. apply IH.
Qed.

Lemma parse_fmt n : parse_u 0 (fmt_u n +:+ ";") = Some (u32 n).
Proof.
  unfold fmt_u. rewrite print_app, parse_print; [done| |lia].
  pose proof (is_u_u32 n) as [H0 H1]. change (2 ^ 32) with 4294967296 in H1.
  change (10 ^ Z.of_nat 10) with 10000000000. lia.
Qed.

Lemma parse_select pu t rest m : pu rest = Some m ->
  parse_with pu ("SELECT * FROM " +:+ table_name t +:+ " WHERE pkt_sn = " +:+ rest) = Some (SelectSn t m).
Proof. intros H. destruct t; lazy -[u32 u16 uwrap]; by rewrite H. Qed.

Lemma parse_delete pu t rest m : pu rest = Some m ->
  parse_with pu ("DELETE FROM " +:+ table_name t +:+ " WHERE pkt_sn = " +:+ rest) = Some (DeleteSn t m).
Proof. intros H. destruct t; lazy -[u32 u16 uwrap]; by rewrite H. Qed.

Lemma parse_text c : parse_sql (sql_text c) = Some (sql_norm c).
Proof.
  destruct c as [| | |t| | |t|t n|t|t n|t].
  8: apply parse_select, parse_fmt.
  9: apply parse_delete, parse_fmt.
  all: try destruct t; vm_compute; reflexivity.
Qed.

(** ** The database *)

Record memdb := mk_memdb { m_rows : table -> list row; m_next : Z }.

Record memstmt := mk_memstmt { m_cmd : sql; m_args : Z -> sqlval; m_row : row }.

Definition set_rows (d : memdb) (t : table) (l : list row) : memdb :=
  mk_memdb (fun t' => if bool_decide (t' = t) then l else m_rows d t') (m_next d + 1).

Definition set_row (s : memstmt) (r : row) : memstmt := mk_memstmt (m_cmd s) (m_args s) r.

Definition set_arg (s : memstmt) (i : Z) (v : sqlval) : memstmt :=
  mk_memstmt (m_cmd s) (fun j => if (j =? i)%Z then v else m_args s j) (m_row s).

Definition mem_prepare (d : memdb) (text : string) : Z * option memstmt :=
  match parse_sql text with
  | Some c => (SQLITE_OK, Some (mk_memstmt c (fun _ => VNull) []))
  | None => (SQLITE_ERROR, None)
  end.

Definition mem_insert (d : memdb) (s : memstmt) (t : table) (n : Z) : Z * memdb * memstmt :=
  (SQLITE_DONE, set_rows d t (m_rows d t ++ [VInt (m_next d) :: map (m_args s) (seqZ 1 n) ++ [VText "now"]]), s).

Definition mem_found (d : memdb) (s : memstmt) (l : list row) : Z * memdb * memstmt :=
  match l with
  | r :: _ => (SQLITE_ROW, d, set_row s r)
  | [] => (SQLITE_DONE, d, s)
  end.

Definition mem_step (d : memdb) (s : memstmt) : Z * memdb * memstmt :=
  match m_cmd s with
  | InsertPacket t => mem_insert d s t 5
  | InsertConsume => mem_insert d s REC_CONSUME 4
  | InsertException => mem_insert d s REC_EXCEPTION 3
  | SelectSn t n => mem_found d s (filter (has_sn n) (m_rows d t))
  | SelectOne t => mem_found d s (m_rows d t)
  | DeleteSn t n =>
      (SQLITE_DONE, set_rows d t (filter (fun r => ¬ has_sn n r) (m_rows d t)), s)
  | CountAll t => (SQLITE_ROW, d, set_row s [VInt (Z.of_nat (List.length (m_rows d t)))])
  | _ => (SQLITE_DONE, d, s)
  end.

(** [int] results keep the low 32 bits. *)
Definition to_int (v : Z) : Z := (v + 2 ^ 31) mod 2 ^ 32 - 2 ^ 31.

Definition mem_column_int (s : memstmt) (i : Z) : Z :=
  match m_row s !! Z.to_nat i with Some (VInt v) => to_int v | _ => 0 end.

Definition mem_column_blob (s : memstmt) (i : Z) : option (list Z) :=
  match m_row s !! Z.to_nat i with Some (VBlob (b :: l)) => Some (b :: l) | _ => None end.

#[export] Instance MemDb : Sqlite := {|
  conn := memdb;
  stmt := memstmt;
  sqlite3_open := fun _ => Opened (mk_memdb (fun _ => []) 1);
  sqlite3_exec := fun d text =>
    (match parse_sql text with Some _ => SQLITE_OK | None => SQLITE_ERROR end, d);
  sqlite3_prepare_v2 := mem_prepare;
  sqlite3_bind_int := fun s i v => set_arg s i (VInt v);
  sqlite3_bind_blob := fun s i b n => set_arg s i (VBlob (take (Z.to_nat n) b));
  sqlite3_step := mem_step;
  sqlite3_column_int := mem_column_int;
  sqlite3_column_blob := mem_column_blob;
  sqlite3_finalize := fun d _ => d |}.

Lemma set_rows_other d t l t' : t' <> t -> m_rows (set_rows d t l) t' = m_rows d t'.
Proof. intros. cbn. by rewrite bool_decide_eq_false_2. Qed.

Lemma set_rows_same d t l : m_rows (set_rows d t l) t = l.
Proof. cbn. by rewrite bool_decide_eq_true_2. Qed.

#[export, program] Instance MemDbLaws : SqliteLaws := {|
  rows := m_rows;
  healthy := fun _ => True;
  cmd_of := m_cmd;
  args_of := m_args;
  row_of := m_row |}.
Next Obligation.
  intros d c _ _. cbn. unfold mem_prepare. rewrite parse_text. by eexists.
Qed.
Next Obligation. done. Qed.
Next Obligation. done. Qed.
Next Obligation.
  intros d s t _ Hc. cbn in *. unfold mem_step. rewrite Hc.
  eexists _, _, _, _. split_and!; [reflexivity|done|apply set_rows_same|].
  intros. by apply set_rows_other.
Qed.
Next Obligation.
  intros d s t n _ Hc. cbn in *. unfold mem_step. rewrite Hc.
  eexists _, _. split_and!; [reflexivity|done|apply set_rows_same|].
  intros. by apply set_rows_other.
Qed.
Next Obligation.
  intros d s t n _ Hc. cbn in *. unfold mem_step, mem_found. rewrite Hc.
  destruct (filter _ _) as [|r l]; eexists _, _, _; (split_and!; [reflexivity|done|done|]).
  - by right.
  - left. split; [done|]. cbn. left.
Qed.
Next Obligation.
  intros d s t _ Hc. cbn in *. unfold mem_step, mem_found. rewrite Hc.
  destruct (m_rows d t) as [|r l]; eexists _, _, _; (split_and!; [reflexivity|done|done|]).
  - by right.
  - left. split; [done|]. cbn. left.
Qed.
Next Obligation.
  intros d s t _ Hc. cbn in *. unfold mem_step. rewrite Hc. by eexists _, _.
Qed.
Next Obligation.
  intros s i v Hr [H0 H1]. cbn in *. unfold mem_column_int. rewrite Hr. unfold to_int.
  rewrite Z.mod_small; unfold int_min, int_max in *; lia.
Qed.
Next Obligation.
  intros s i b Hr. cbn in *. unfold mem_column_blob. rewrite Hr. by destruct b.
Qed.
Next Obligation. done. Qed.
