(* ===== verification/Records.v ===== *)
(** * The records store (src/records/records.c, lib_records.h)

    Six SQLite tables behind a System V semaphore: consume and exception
    records that are only written, and four packet queues (reconsume,
    oncard_ack, offcard_ack, recharge) with insert, select by serial number,
    select of one row, delete and count.  The C functions of the four queues
    are copies that differ in the table name; here they are instances of one
    definition per operation.

    Operations run in a monad over [st]: the handle the caller holds, the
    kernel's semaphores and the numbers of open statements and connections.
    An operation returns, blocks forever on the semaphore, or faults (a write
    or read outside an object, a NULL dereference). *)

From stdpp Require Import gmap.
From S2P Require Import Prelude Sqlite.

Definition LIB_REC_OK : Z := 0.
Definition LIB_REC_ERROR : Z := 1.

(** ** State *)

Record records_file `{Sqlite} := mk_rec {
  db : option conn;          (* sqlite3 *db, NULL is None *)
  pathname : string;
  sem_id : Z }.
Arguments mk_rec {_} _ _ _.

Record st `{Sqlite} := mk_st {
  handle : option records_file;     (* the caller's lib_records_file_t * *)
  sems : gmap Z Z;                  (* semaphore sets of the kernel, by id *)
  n_stmts : Z;                      (* prepared and not yet finalised *)
  n_conns : Z                       (* opened and not yet closed *) }.
Arguments mk_st {_} _ _ _ _.

Inductive outcome (A : Type) :=
  | Ret (a : A)
  | Blocked
  | Fault.
Arguments Ret {A} _.
Arguments Blocked {A}.
Arguments Fault {A}.

Section Records.
Context `{Sqlite}.

Definition M (A : Type) : Type := st -> outcome (A * st).

#[export] Instance M_ret : MRet M := fun A a s => Ret (a, s).
#[export] Instance M_bind : MBind M := fun A B f m s =>
  match m s with
  | Ret (a, s) => f a s
  | Blocked => Blocked
  | Fault => Fault
  end.

Definition get : M st := fun s => Ret (s, s).
Definition fault {A} : M A := fun _ => Fault.

Definition set_handle (h : option records_file) : M unit := fun s =>
  Ret (tt, mk_st h (sems s) (n_stmts s) (n_conns s)).
Definition set_sems (k : gmap Z Z) : M unit := fun s =>
  Ret (tt, mk_st (handle s) k (n_stmts s) (n_conns s)).
Definition add_stmts (n : Z) : M unit := fun s =>
  Ret (tt, mk_st (handle s) (sems s) (n_stmts s + n) (n_conns s)).
Definition add_conns (n : Z) : M unit := fun s =>
  Ret (tt, mk_st (handle s) (sems s) (n_stmts s) (n_conns s + n)).

(** ** Semaphore: [semop] and [semctl] on set [id], member 0

    On an id that does not exist the calls fail and return -1; the module
    ignores that. *)

Definition __sem_p (id : Z) : M Z := s ← get;
  match sems s !! id with
  | None => mret (-1)
  | Some v => if 0 <? v then set_sems (<[id := v - 1]> (sems s));; mret 0 else fun _ => Blocked
  end.

Definition __sem_v (id : Z) : M Z := s ← get;
  match sems s !! id with
  | None => mret (-1)
  | Some v => set_sems (<[id := v + 1]> (sems s));; mret 0
  end.

Definition semctl_setval (id v : Z) : M unit := s ← get;
  set_sems (if bool_decide (is_Some (sems s !! id)) then <[id := v]> (sems s) else sems s).

Definition semctl_rmid (id : Z) : M unit := s ← get; set_sems (delete id (sems s)).

(** ** Calls into SQLite that change the state *)

Definition set_db (d : conn) : M unit := s ← get;
  match handle s with
  | None => fault
  | Some r => set_handle (Some (mk_rec (Some d) (pathname r) (sem_id r)))
  end.

(** [sqlite3_stmt *]: [None] is NULL. *)
Definition prepare (d : conn) (c : sql) : M (Z * option stmt) :=
  let '(rc, q) := sqlite3_prepare_v2 d (sql_text c) in
  (match q with None => mret tt | Some _ => add_stmts 1 end : M unit);; mret (rc, q).

(** SQLite rejects a NULL statement with SQLITE_MISUSE. *)
Definition step (d : conn) (q : option stmt) : M (Z * option stmt) :=
  match q with
  | None => mret (SQLITE_MISUSE, None)
  | Some q => let '(rc, d', q') := sqlite3_step d q in set_db d';; mret (rc, Some q')
  end.

Definition bind_int (q : option stmt) (i v : Z) : option stmt :=
  (fun q => sqlite3_bind_int q i v) <$> q.

(** SQLITE_STATIC: SQLite takes [n] bytes from the array itself, so an array
    that does not hold them is a fault; a negative [n] is undefined.  Nothing is
    bound to a NULL statement. *)
Definition bind_blob (q : option stmt) (i : Z) (b : list Z) (n : Z) : M (option stmt) :=
  match q with
  | None => mret None
  | Some q =>
      if (0 <=? n) && (n <=? Z.of_nat (length b)) then mret (Some (sqlite3_bind_blob q i b n)) else fault
  end.

(** Column reads of a NULL statement give 0 and NULL. *)
Definition column_int (q : option stmt) (i : Z) : Z :=
  match q with Some q => sqlite3_column_int q i | None => 0 end.
Definition column_blob (q : option stmt) (i : Z) : option (list Z) :=
  q ← q; sqlite3_column_blob q i.

(** The connection as the last call left it. *)
Definition cur_db : M conn := s ← get;
  match handle s with
  | Some r => match db r with Some d => mret d | None => fault end
  | None => fault
  end.

(** [if(stmt != NULL) sqlite3_finalize(stmt);] *)
Definition finalize (q : option stmt) : M unit :=
  match q with
  | None => mret tt
  | Some q => d ← cur_db; set_db (sqlite3_finalize d q);; add_stmts (-1)
  end.

(** [if(stmt != NULL) sqlite3_finalize(stmt); __sem_v(rec); return rc;] *)
Definition leave (r : records_file) (q : option stmt) (rc : Z) : M Z :=
  finalize q;; __sem_v (sem_id r);; mret rc.

(** The common start: NULL checks, [__sem_p], prepare. *)
Definition with_stmt (args_null : bool) (c : sql) (body : records_file -> option stmt -> M Z) : M Z :=
  s ← get;
  match handle s with
  | None => mret LIB_REC_ERROR
  | Some r =>
      if args_null then mret LIB_REC_ERROR
      else match db r with
      | None => mret LIB_REC_ERROR
      | Some d =>
          __sem_p (sem_id r);;
          '(rc, q) ← prepare d c;
          if rc =? SQLITE_OK then body r q else leave r q LIB_REC_ERROR
      end
  end.

Definition is_null {A} (p : option A) : bool := match p with None => true | Some _ => false end.
Definition ptr (p : option (list Z)) : list Z := default [] p.

(** Insert and delete end alike: one step, which must return SQLITE_DONE. *)
Definition run_to_done (r : records_file) (q : option stmt) : M Z :=
  d ← cur_db;
  '(rc, q) ← step d q;
  leave r q (if rc =? SQLITE_DONE then LIB_REC_OK else LIB_REC_ERROR).

(** ** Consume and exception records *)

Definition lib_records_consume_insert_data (pkt_sn : Z)
    (pid lid trade_record : option (list Z)) : M Z :=
  with_stmt (is_null pid || is_null lid || is_null trade_record) InsertConsume (fun r q =>
    let q := bind_int q 1 pkt_sn in
    q ← bind_blob q 2 (ptr pid) 8;
    q ← bind_blob q 3 (ptr lid) 8;
    q ← bind_blob q 4 (ptr trade_record) 90;
    run_to_done r q).

Definition lib_records_exception_insert_data (sn : Z) (pid trade_record : option (list Z)) : M Z :=
  with_stmt (is_null pid || is_null trade_record) InsertException (fun r q =>
    let q := bind_int q 1 sn in
    q ← bind_blob q 2 (ptr pid) 8;
    q ← bind_blob q 3 (ptr trade_record) 90;
    run_to_done r q).

(** ** Packet queues: the operations, for any table *)

Definition insert_data (t : table) (pkt_sn : Z) (pid macaddr : option (list Z)) (pkt_len : Z)
    (pkt_data : option (list Z)) : M Z :=
  with_stmt (is_null pid || is_null macaddr || is_null pkt_data) (InsertPacket t) (fun r q =>
    let q := bind_int q 1 pkt_sn in
    q ← bind_blob q 2 (ptr pid) 8;
    q ← bind_blob q 3 (ptr macaddr) 6;
    let q := bind_int q 4 pkt_len in
    q ← bind_blob q 5 (ptr pkt_data) pkt_len;
    run_to_done r q).

(** [memcpy(dst, src, n)]: [n] converts to [size_t], so a negative length is
    larger than any object. *)
Definition memcpy (dst src : list Z) (n : Z) : option (list Z) :=
  if (0 <=? n) && (n <=? Z.of_nat (length src)) && (n <=? Z.of_nat (length dst))
  then Some (take (Z.to_nat n) src ++ drop (Z.to_nat n) dst) else None.

(** The out-parameters of the select functions, as the caller's variables. *)
Record out := mk_out { o_sn : Z; o_len : Z; o_data : list Z }.

(** The row part the two select functions share; [sn] says whether [*pkt_sn]
    is written too. *)
Definition select_row (sn : bool) (r : records_file) (q : option stmt) (o : out) : M (Z * out) :=
  d ← cur_db;
  '(rc, q) ← step d q;
  if rc =? SQLITE_ROW then
    let p_pkt_sn := column_int q 1 in
    let p_pkt_len := column_int q 4 in
    if 512 <? p_pkt_len then mret (LIB_REC_ERROR, o)
    else match column_blob q 5 with
    | Some p_pkt_data =>
        match memcpy (o_data o) p_pkt_data p_pkt_len with
        | None => fault
        | Some data =>
            rc ← leave r q LIB_REC_OK;
            mret (rc, mk_out (if sn then p_pkt_sn else o_sn o) p_pkt_len data)
        end
    | None => rc ← leave r q LIB_REC_OK; mret (rc, o)
    end
  else rc ← leave r q LIB_REC_OK; mret (rc, o).

(** NULL out-pointers are [args_null]; the result carries the variables. *)
Definition with_out (args_null : bool) (c : sql) (o : out)
    (body : records_file -> option stmt -> M (Z * out)) : M (Z * out) :=
  s ← get;
  match handle s with
  | None => mret (LIB_REC_ERROR, o)
  | Some r =>
      if args_null then mret (LIB_REC_ERROR, o)
      else match db r with
      | None => mret (LIB_REC_ERROR, o)
      | Some d =>
          __sem_p (sem_id r);;
          '(rc, q) ← prepare d c;
          if rc =? SQLITE_OK then body r q
          else rc ← leave r q LIB_REC_ERROR; mret (rc, o)
      end
  end.

Definition select_data (t : table) (pkt_sn : Z) (args_null : bool) (o : out) : M (Z * out) :=
  with_out args_null (SelectSn t pkt_sn) o (fun r q => select_row false r q o).

Definition select_all_data (t : table) (args_null : bool) (o : out) : M (Z * out) :=
  with_out args_null (SelectOne t) o (fun r q => select_row true r q o).

Definition delete_data (t : table) (pkt_sn : Z) : M Z :=
  with_stmt false (DeleteSn t pkt_sn) run_to_done.

(** [*count] is the caller's variable [cnt]. *)
Definition count (t : table) (args_null : bool) (cnt : Z) : M (Z * Z) :=
  s ← get;
  match handle s with
  | None => mret (LIB_REC_ERROR, cnt)
  | Some r =>
      if args_null then mret (LIB_REC_ERROR, cnt)
      else match db r with
      | None => mret (LIB_REC_ERROR, cnt)
      | Some d =>
          __sem_p (sem_id r);;
          '(rc, q) ← prepare d (CountAll t);
          if rc =? SQLITE_OK then
            d ← cur_db;
            '(rc, q) ← step d q;
            if rc =? SQLITE_ROW then
              let n := column_int q 0 in
              rc ← leave r q LIB_REC_OK; mret (rc, n)
            else rc ← leave r q LIB_REC_ERROR; mret (rc, cnt)
          else rc ← leave r q LIB_REC_ERROR; mret (rc, cnt)
      end
  end.

(** ** The four queues *)

Definition lib_records_reconsume_insert_data := insert_data REC_RECONSUME.
Definition lib_records_reconsume_select_data := select_data REC_RECONSUME.
Definition lib_records_reconsume_select_all_data := select_all_data REC_RECONSUME.
Definition lib_records_reconsume_delete_data := delete_data REC_RECONSUME.
Definition lib_records_reconsume_count := count REC_RECONSUME.

Definition lib_records_oncard_ack_insert_data := insert_data REC_ONCARD_ACK.
Definition lib_records_oncard_ack_select_data := select_data REC_ONCARD_ACK.
Definition lib_records_oncard_ack_select_all_data := select_all_data REC_ONCARD_ACK.
Definition lib_records_oncard_ack_delete_data := delete_data REC_ONCARD_ACK.
Definition lib_records_oncard_ack_count := count REC_ONCARD_ACK.

Definition lib_records_offcard_ack_insert_data := insert_data REC_OFFCARD_ACK.
Definition lib_records_offcard_ack_select_data := select_data REC_OFFCARD_ACK.
Definition lib_records_offcard_ack_select_all_data := select_all_data REC_OFFCARD_ACK.
Definition lib_records_offcard_ack_delete_data := delete_data REC_OFFCARD_ACK.
Definition lib_records_offcard_ack_count := count REC_OFFCARD_ACK.

Definition lib_records_recharge_insert_data := insert_data REC_RECHARGE.
Definition lib_records_recharge_select_data := select_data REC_RECHARGE.
Definition lib_records_recharge_select_all_data := select_all_data REC_RECHARGE.
Definition lib_records_recharge_delete_data := delete_data REC_RECHARGE.
Definition lib_records_recharge_count := count REC_RECHARGE.

(** ** Opening and closing *)

Definition setup_cmds : list sql :=
  [JournalOff; SynchronousOff; CaseSensitiveLike; CreateTable REC_CONSUME;
   CreateTable REC_EXCEPTION; CreateTable REC_RECONSUME; CreateTable REC_ONCARD_ACK;
   CreateTable REC_OFFCARD_ACK; CreateTable REC_RECHARGE].

(** Each [sqlite3_exec] in turn; false at the first that fails. *)
Fixpoint exec_all (cs : list sql) : M bool :=
  match cs with
  | [] => mret true
  | c :: cs =>
      d ← cur_db;
      let '(rc, d) := sqlite3_exec d (sql_text c) in
      set_db d;;
      if rc =? SQLITE_OK then exec_all cs else mret false
  end.

(** The records_file under construction is in the state's handle.  [semget] is
    the id the kernel gives, -1 when [semget] fails.  After a failed open the
    error message is taken from the handle just closed: a use after free, unless
    there was no handle. *)
Definition __sqlite3_create (path : string) (semget : Z) : M Z :=
  match sqlite3_open path with
  | OpenFailed given => if given then fault else mret LIB_REC_ERROR
  | Opened d =>
    add_conns 1;;
    set_handle (Some (mk_rec (Some d) path semget));;
    s ← get;
    set_sems (if semget =? -1 then sems s else <[semget := default 0 (sems s !! semget)]> (sems s));;
    semctl_setval semget 1;;
    ok ← exec_all setup_cmds;
    if (ok : bool) then mret LIB_REC_OK
    else
      (if semget =? -1 then mret tt else semctl_rmid semget : M unit);;
      add_conns (-1);;
      set_handle (Some (mk_rec None path (-1)));;
      mret LIB_REC_ERROR
  end.

(** [path] is NULL or a string; [malloc_ok] is whether malloc succeeds. *)
Definition lib_records_create (path : option string) (malloc_ok : bool) (semget : Z) : M unit :=
  match path with
  | None => set_handle None
  | Some path =>
      if negb malloc_ok then fault                 (* ERR reads rec->sem_id through NULL *)
      else if (64 <=? Z.of_nat (String.length path)) then fault    (* strcpy into char[64] *)
      else
        set_handle (Some (mk_rec None path 0));;   (* memset: sem_id is 0 *)
        err ← __sqlite3_create path semget;
        if err =? LIB_REC_OK then mret tt
        else
          s ← get;
          let id := match handle s with Some r => sem_id r | None => -1 end in
          (if id =? -1 then mret tt else semctl_rmid id : M unit);;
          set_handle None
  end.

Definition lib_records_destroy : M unit :=
  s ← get;
  match handle s with
  | None => mret tt
  | Some r =>
      (if sem_id r =? -1 then mret tt else semctl_rmid (sem_id r) : M unit);;
      (match db r with Some _ => add_conns (-1) | None => mret tt end : M unit);;
      set_handle None
  end.

End Records.
