(* ===== verification/RecordsProofs.v ===== *)
(** * Theorems on the records store

    First what holds whatever SQLite answers (the lock is released, statements
    are finalised), then, under the SQLite laws, the refinement of a set of
    packet queues by any sequence of calls, and the cases where the code
    departs from it. *)

From stdpp Require Import gmap.
From S2P Require Import Prelude Sqlite Records MemDb.

Lemma filter_all {A} (P : A -> Prop) `{forall x, Decision (P x)} l : Forall P l -> filter P l = l.
Proof. induction 1 as [|x l Hx Hl IH]; [done|]. by rewrite filter_cons_True, IH. Qed.

Section Live.
Context `{Sqlite}.

(** A handle with an open connection; [k] are the kernel's semaphores. *)
Definition live (d : conn) (p : string) (id : Z) (k : gmap Z Z) (n c : Z) : st :=
  mk_st (Some (mk_rec (Some d) p id)) k n c.

Definition nn (q : option stmt) : Z := match q with None => 0 | Some _ => 1 end.
Definition fin (d : conn) (q : option stmt) : conn :=
  match q with None => d | Some q => sqlite3_finalize d q end.
Definition pstep (d : conn) (q : option stmt) : Z * conn * option stmt :=
  match q with
  | None => (SQLITE_MISUSE, d, None)
  | Some q => let '(rc, d', q') := sqlite3_step d q in (rc, d', Some q')
  end.

Lemma M_bind_eq {A B} (m : M A) (f : A -> M B) s :
  (m ≫= f) s = match m s with Ret (a, s) => f a s | Blocked => Blocked | Fault => Fault end.
Proof. done. Qed.

Lemma M_bind_Ret {A B} (m : M A) (f : A -> M B) s a s' :
  m s = Ret (a, s') -> (m ≫= f) s = f a s'.
Proof. intros E. by rewrite M_bind_eq, E. Qed.

Lemma sem_p_live id d p k n c v : k !! id = Some v -> 0 < v ->
  __sem_p id (live d p id k n c) = Ret (0, live d p id (<[id := v - 1]> k) n c).
Proof.
  intros Hk Hv. unfold __sem_p. erewrite M_bind_Ret by reflexivity. cbn [sems live].
  rewrite Hk, (proj2 (Z.ltb_lt _ _)) by done. done.
Qed.

Lemma sem_p_blocked id d p k n c : k !! id = Some 0 -> __sem_p id (live d p id k n c) = Blocked.
Proof. intros Hk. unfold __sem_p. erewrite M_bind_Ret by reflexivity. cbn [sems live]. by rewrite Hk. Qed.

Lemma prepare_live d0 cmd d p id k n c :
  prepare d0 cmd (live d p id k n c) =
  let '(rc, q) := sqlite3_prepare_v2 d0 (sql_text cmd) in
  Ret ((rc, q), live d p id k (n + nn q) c).
Proof.
  unfold prepare. destruct (sqlite3_prepare_v2 d0 _) as [rc [q|]]; cbn; [done|].
  by rewrite Z.add_0_r.
Qed.

Lemma step_live d q p id k n c :
  step d q (live d p id k n c) =
  let '(rc, d', q') := pstep d q in Ret ((rc, q'), live d' p id k n c).
Proof. destruct q as [q|]; cbn; [|done]. by destruct (sqlite3_step d q) as [[rc d'] q']. Qed.

Lemma cur_db_live d p id k n c : cur_db (live d p id k n c) = Ret (d, live d p id k n c).
Proof. done. Qed.

Lemma leave_live r q rc d p id k n c v : sem_id r = id -> k !! id = Some v ->
  leave r q rc (live d p id k n c) = Ret (rc, live (fin d q) p id (<[id := v + 1]> k) (n - nn q) c).
Proof.
  intros <- Hk. unfold leave.
  assert (Hf : finalize q (live d p (sem_id r) k n c) =
    Ret (tt, live (fin d q) p (sem_id r) k (n - nn q) c))
    by (destruct q; [done|]; cbn [nn fin finalize]; by rewrite Z.sub_0_r).
  erewrite M_bind_Ret by exact Hf. unfold __sem_v. rewrite M_bind_eq.
  erewrite M_bind_Ret by reflexivity. cbn [sems live]. by rewrite Hk.
Qed.

Lemma nn_pstep d q rc d' q' : pstep d q = (rc, d', q') -> nn q' = nn q.
Proof. destruct q as [q|]; cbn; [destruct (sqlite3_step d q) as [[??]?]|]; by intros [= <- <- <-]. Qed.

Lemma lock_cycle (k : gmap Z Z) id : k !! id = Some 1 -> <[id := 0 + 1]> (<[id := 0]> k) = k.
Proof. intros. rewrite insert_insert_eq. by apply insert_id. Qed.

(** The lock held, and a statement that [q] counts for. *)
Definition held (d : conn) (p : string) (id : Z) (k : gmap Z Z) (n c : Z) : st :=
  live d p id (<[id := 0]> k) n c.

Section Free.
Context (p : string) (id : Z) (k : gmap Z Z) (n c : Z) (Hk : k !! id = Some 1).

Lemma leave_free r q rc d : sem_id r = id ->
  leave r q rc (held d p id k (n + nn q) c) = Ret (rc, live (fin d q) p id k n c).
Proof using Hk.
  intros Hr. unfold held. rewrite (leave_live r q rc d p id _ _ _ 0) by (done || apply lookup_insert_eq).
  rewrite lock_cycle by done. by rewrite Z.add_simpl_r.
Qed.

Lemma with_stmt_live cmd body d :
  with_stmt false cmd body (live d p id k n c) =
  let '(rc, q) := sqlite3_prepare_v2 d (sql_text cmd) in
  if rc =? SQLITE_OK then body (mk_rec (Some d) p id) q (held d p id k (n + nn q) c)
  else Ret (LIB_REC_ERROR, live (fin d q) p id k n c).
Proof using Hk.
  unfold with_stmt. erewrite M_bind_Ret by reflexivity. cbn [handle live db sem_id].
  erewrite M_bind_Ret by (by apply sem_p_live). change (1 - 1) with 0.
  rewrite M_bind_eq, prepare_live. destruct (sqlite3_prepare_v2 d _) as [rc q].
  destruct (rc =? SQLITE_OK); [done|]. by apply leave_free.
Qed.

Lemma with_out_live cmd o body d :
  with_out false cmd o body (live d p id k n c) =
  let '(rc, q) := sqlite3_prepare_v2 d (sql_text cmd) in
  if rc =? SQLITE_OK then body (mk_rec (Some d) p id) q (held d p id k (n + nn q) c)
  else Ret ((LIB_REC_ERROR, o), live (fin d q) p id k n c).
Proof using Hk.
  unfold with_out. erewrite M_bind_Ret by reflexivity. cbn [handle live db sem_id].
  erewrite M_bind_Ret by (by apply sem_p_live). change (1 - 1) with 0.
  rewrite M_bind_eq, prepare_live. destruct (sqlite3_prepare_v2 d _) as [rc q].
  destruct (rc =? SQLITE_OK); [done|]. by erewrite M_bind_Ret by (by apply leave_free).
Qed.

Lemma run_to_done_live r q d : sem_id r = id ->
  run_to_done r q (held d p id k (n + nn q) c) =
  let '(rc, d', q') := pstep d q in
  Ret (if rc =? SQLITE_DONE then LIB_REC_OK else LIB_REC_ERROR, live (fin d' q') p id k n c).
Proof using Hk.
  intros Hr. unfold run_to_done, held. erewrite M_bind_Ret by apply cur_db_live.
  rewrite M_bind_eq, step_live. destruct (pstep d q) as [[rc d'] q'] eqn:E.
  rewrite <- (nn_pstep _ _ _ _ _ E). by apply (leave_free r q').
Qed.

(** A parameter whose array holds the bytes. *)
Definition blob_arg (q : option stmt) (i : Z) (b : list Z) (m : Z) : option stmt :=
  (fun q => sqlite3_bind_blob q i b m) <$> q.

Lemma bind_blob_ok {A} q i b m (f : option stmt -> M A) s : 0 <= m <= Z.of_nat (length b) ->
  (bind_blob q i b m ≫= f) s = f (blob_arg q i b m) s.
Proof.
  intros Hm. destruct q as [q|]; [|done]. cbn [bind_blob].
  by rewrite (proj2 (Z.leb_le 0 m)), (proj2 (Z.leb_le m _)) by lia.
Qed.

(** The parameters of a packet insert. *)
Definition packet_args (sn : Z) (pid mac : list Z) (len : Z) (data : list Z) (q : option stmt)
  : option stmt :=
  blob_arg (bind_int (blob_arg (blob_arg (bind_int q 1 sn) 2 pid 8) 3 mac 6) 4 len) 5 data len.

Lemma with_stmt_done cmd body (bind : option stmt -> option stmt) d :
  (forall r q s, body r q s = run_to_done r (bind q) s) -> (forall q, nn (bind q) = nn q) ->
  exists rc d', with_stmt false cmd body (live d p id k n c) = Ret (rc, live d' p id k n c).
Proof using Hk.
  intros Hbody Hb. rewrite with_stmt_live. destruct (sqlite3_prepare_v2 d _) as [rc q].
  destruct (rc =? SQLITE_OK); [|by eexists _, _].
  rewrite Hbody, <- (Hb q), run_to_done_live by done. destruct (pstep d _) as [[rc' d'] q'].
  by eexists _, _.
Qed.

(** An argument that does not hold the bytes bound from it. *)
Definition short (b : list Z) (m : Z) : Prop := m < 0 \/ Z.of_nat (length b) < m.

Lemma bind_blob_short {A} q i b m (f : option stmt -> M A) s : short b m -> (bind_blob (Some q) i b m ≫= f) s = Fault.
Proof.
  intros Hm. unfold short in Hm. rewrite M_bind_eq. cbn [bind_blob].
  destruct (Z.leb_spec 0 m), (Z.leb_spec m (Z.of_nat (length b))); try lia; done.
Qed.

Lemma bind_blob_either {A} q i b m (f : option stmt -> M A) s :
  (exists q', (bind_blob (Some q) i b m ≫= f) s = f (Some q') s) \/ (bind_blob (Some q) i b m ≫= f) s = Fault.
Proof.
  rewrite M_bind_eq. cbn [bind_blob]. destruct ((0 <=? m) && _); [left; by eexists|by right].
Qed.

(** A packet insert with a short argument faults once its statement is prepared. *)
Lemma insert_short t sn pid mac len data d q :
  sqlite3_prepare_v2 d (sql_text (InsertPacket t)) = (SQLITE_OK, Some q) ->
  short pid 8 \/ short mac 6 \/ short data len ->
  insert_data t sn (Some pid) (Some mac) len (Some data) (live d p id k n c) = Fault.
Proof using Hk.
  intros Hq Hs. unfold insert_data. cbn [is_null orb]. rewrite with_stmt_live, Hq.
  cbn [Z.eqb SQLITE_OK bind_int fmap option_fmap option_map ptr from_option Datatypes.id].
  destruct Hs as [Hs|Hs]; [by apply bind_blob_short|].
  destruct (bind_blob_either (sqlite3_bind_int q 1 sn) 2 pid 8 (fun q => q ← bind_blob q 3 mac 6;
    let q := bind_int q 4 len in q ← bind_blob q 5 data len; run_to_done (mk_rec (Some d) p id) q)
    (held d p id k (n + nn (Some q)) c)) as [[q' E]|E]; [|exact E]. etransitivity; [exact E|].
  destruct Hs as [Hs|Hs]; [by apply bind_blob_short|].
  destruct (bind_blob_either q' 3 mac 6 (fun q => let q := bind_int q 4 len in
    q ← bind_blob q 5 data len; run_to_done (mk_rec (Some d) p id) q)
    (held d p id k (n + nn (Some q)) c)) as [[q'' E']|E']; [|exact E']. etransitivity; [exact E'|].
  by apply bind_blob_short.
Qed.

Lemma count_live t cnt d :
  count t false cnt (live d p id k n c) =
  let '(rc, q) := sqlite3_prepare_v2 d (sql_text (CountAll t)) in
  if rc =? SQLITE_OK then
    let '(rc, d', q') := pstep d q in
    if rc =? SQLITE_ROW then Ret ((LIB_REC_OK, column_int q' 0), live (fin d' q') p id k n c)
    else Ret ((LIB_REC_ERROR, cnt), live (fin d' q') p id k n c)
  else Ret ((LIB_REC_ERROR, cnt), live (fin d q) p id k n c).
Proof using Hk.
  unfold count. erewrite M_bind_Ret by reflexivity. cbn [handle live db sem_id].
  erewrite M_bind_Ret by (by apply sem_p_live). change (1 - 1) with 0.
  rewrite M_bind_eq, prepare_live. destruct (sqlite3_prepare_v2 d _) as [rc q].
  destruct (rc =? SQLITE_OK).
  - erewrite M_bind_Ret by apply cur_db_live. rewrite M_bind_eq, step_live.
    destruct (pstep d q) as [[rc' d'] q'] eqn:E. rewrite <- (nn_pstep _ _ _ _ _ E).
    destruct (rc' =? SQLITE_ROW); by erewrite M_bind_Ret by (by apply (leave_free _ q')).
  - by erewrite M_bind_Ret by (by apply leave_free).
Qed.

(** What a select does once its statement is prepared. *)
Definition select_result (sn : bool) (o : out) (rc : Z) (d' : conn) (q' : option stmt)
  : outcome (Z * out * st) :=
  let free := live (fin d' q') p id k n c in
  if rc =? SQLITE_ROW then
    if 512 <? column_int q' 4 then Ret ((LIB_REC_ERROR, o), held d' p id k (n + nn q') c)
    else match column_blob q' 5 with
    | Some b =>
        match memcpy (o_data o) b (column_int q' 4) with
        | Some data =>
            Ret ((LIB_REC_OK, mk_out (if sn then column_int q' 1 else o_sn o) (column_int q' 4) data), free)
        | None => Fault
        end
    | None => Ret ((LIB_REC_OK, o), free)
    end
  else Ret ((LIB_REC_OK, o), free).

Lemma select_row_live sn o r q d : sem_id r = id ->
  select_row sn r q o (held d p id k (n + nn q) c) =
  let '(rc, d', q') := pstep d q in select_result sn o rc d' q'.
Proof using Hk.
  intros Hr. unfold select_row, held, select_result. erewrite M_bind_Ret by apply cur_db_live.
  rewrite M_bind_eq, step_live. destruct (pstep d q) as [[rc d'] q'] eqn:E.
  rewrite <- (nn_pstep _ _ _ _ _ E). cbv zeta.
  destruct (rc =? SQLITE_ROW); [|by erewrite M_bind_Ret by (by apply (leave_free _ q'))].
  destruct (512 <? column_int q' 4); [done|].
  destruct (column_blob q' 5) as [b|]; [|by erewrite M_bind_Ret by (by apply (leave_free _ q'))].
  destruct (memcpy _ _ _); [|done]. by erewrite M_bind_Ret by (by apply (leave_free _ q')).
Qed.

(** C38: the lock is always released: whatever SQLite returns, an insert (packet,
    consume or exception record) of arrays that hold the bytes bound from them (8 of
    the ids, 6 of the address, 90 of the record, the packet's length of its data),
    a delete or a count that starts with the semaphore free returns with the
    semaphore free, as many open statements as before and the connection still open;
    these operations never block or fault there.  An insert of a packet whose length
    is negative or exceeds one of its arrays makes SQLite read outside the array. *)
Theorem records_writes_release d t cnt :
  (forall sn pid mac len data,
     (8 <= length pid)%nat -> (6 <= length mac)%nat -> 0 <= len <= Z.of_nat (length data) -> exists rc d',
     insert_data t sn (Some pid) (Some mac) len (Some data) (live d p id k n c) =
       Ret (rc, live d' p id k n c)) /\
  (forall sn pid mac len data q, sqlite3_prepare_v2 d (sql_text (InsertPacket t)) = (SQLITE_OK, Some q) ->
     short pid 8 \/ short mac 6 \/ short data len ->
     insert_data t sn (Some pid) (Some mac) len (Some data) (live d p id k n c) = Fault) /\
  (forall sn pid lid rec, (8 <= length pid)%nat -> (8 <= length lid)%nat -> (90 <= length rec)%nat -> exists rc d',
     lib_records_consume_insert_data sn (Some pid) (Some lid) (Some rec) (live d p id k n c) =
       Ret (rc, live d' p id k n c)) /\
  (forall sn pid rec, (8 <= length pid)%nat -> (90 <= length rec)%nat -> exists rc d',
     lib_records_exception_insert_data sn (Some pid) (Some rec) (live d p id k n c) =
       Ret (rc, live d' p id k n c)) /\
  (forall sn, exists rc d', delete_data t sn (live d p id k n c) = Ret (rc, live d' p id k n c)) /\
  (exists r d', count t false cnt (live d p id k n c) = Ret (r, live d' p id k n c)).
Proof using Hk.
  split_and!.
  - intros. apply (with_stmt_done _ _ (packet_args sn pid mac len data)); [|by intros [q|]].
    intros. cbv zeta. by rewrite !bind_blob_ok by (cbn [ptr from_option Datatypes.id]; lia).
  - intros. by eapply insert_short.
  - intros. apply (with_stmt_done _ _ (fun q => blob_arg (blob_arg (blob_arg
      (bind_int q 1 sn) 2 pid 8) 3 lid 8) 4 rec 90)); [|by intros [q|]].
    intros. cbv zeta. by rewrite !bind_blob_ok by (cbn [ptr from_option Datatypes.id]; lia).
  - intros. apply (with_stmt_done _ _ (fun q => blob_arg (blob_arg
      (bind_int q 1 sn) 2 pid 8) 3 rec 90)); [|by intros [q|]].
    intros. cbv zeta. by rewrite !bind_blob_ok by (cbn [ptr from_option Datatypes.id]; lia).
  - intros. by apply (with_stmt_done _ _ (fun q => q)).
  - rewrite count_live. destruct (sqlite3_prepare_v2 d _) as [rc q].
    destruct (rc =? SQLITE_OK); [|by eexists _, _]. destruct (pstep d q) as [[rc' d'] q'].
    destruct (rc' =? SQLITE_ROW); by eexists _, _.
Qed.

End Free.

End Live.

(** ** The specification: a set of packet queues *)

Record packet := mk_packet { k_sn : Z; k_pid : list Z; k_mac : list Z; k_data : list Z }.

Definition store : Type := table -> list packet.

Definition set_queue (S : store) (t : table) (l : list packet) : store :=
  fun t' => if bool_decide (t' = t) then l else S t'.

(** The calls of the interface with non-NULL arguments, and their replies. *)
Inductive call :=
  | CInsert (t : table) (sn : Z) (pid mac : list Z) (len : Z) (data : list Z)
  | CSelect (t : table) (sn : Z) (o : out)
  | CSelectAll (t : table) (o : out)
  | CDelete (t : table) (sn : Z)
  | CCount (t : table) (cnt : Z).

Inductive reply :=
  | RCode (rc : Z)
  | ROut (rc : Z) (o : out)
  | RCount (rc cnt : Z).

Definition zlen {A} (l : list A) : Z := Z.of_nat (length l).

(** What the station sends: non-negative serial numbers, packets of 1 to 512
    bytes, a 512-byte buffer to receive into. *)
Definition call_ok (x : call) : Prop :=
  match x with
  | CInsert t sn pid mac len data =>
      packet_table t = true /\ 0 <= sn <= int_max /\ length pid = 8%nat /\ length mac = 6%nat /\
      len = zlen data /\ 0 < len <= 512
  | CSelect t sn o => packet_table t = true /\ 0 <= sn <= int_max /\ 512 <= zlen (o_data o)
  | CSelectAll t o => packet_table t = true /\ 512 <= zlen (o_data o)
  | CDelete t sn => packet_table t = true /\ 0 <= sn <= int_max
  | CCount t _ => packet_table t = true
  end.

(** A packet received into the caller's variables. *)
Definition received (sn : bool) (o : out) (x : packet) : out :=
  mk_out (if sn then k_sn x else o_sn o) (zlen (k_data x))
    (k_data x ++ drop (length (k_data x)) (o_data o)).

(** The specification of each call.  A select returns some packet of the
    queue, or leaves the caller's variables alone when there is none; either
    way its code is LIB_REC_OK. *)
Definition spec_call (S : store) (x : call) (y : reply) (S' : store) : Prop :=
  match x with
  | CInsert t sn pid mac _ data =>
      y = RCode LIB_REC_OK /\ S' = set_queue S t (S t ++ [mk_packet sn pid mac data])
  | CSelect t sn o => S' = S /\
      ((exists x, x ∈ S t /\ k_sn x = sn /\ y = ROut LIB_REC_OK (received false o x)) \/
       ((forall x, x ∈ S t -> k_sn x <> sn) /\ y = ROut LIB_REC_OK o))
  | CSelectAll t o => S' = S /\
      ((exists x, x ∈ S t /\ y = ROut LIB_REC_OK (received true o x)) \/
       (S t = [] /\ y = ROut LIB_REC_OK o))
  | CDelete t sn =>
      y = RCode LIB_REC_OK /\ S' = set_queue S t (filter (fun x => k_sn x <> sn) (S t))
  | CCount t _ => S' = S /\
      exists m, y = RCount LIB_REC_OK m /\ (zlen (S t) <= int_max -> m = zlen (S t))
  end.

Inductive spec_run : store -> list call -> list reply -> store -> Prop :=
  | spec_nil S : spec_run S [] [] S
  | spec_cons S x y S1 xs ys S2 :
      spec_call S x y S1 -> spec_run S1 xs ys S2 -> spec_run S (x :: xs) (y :: ys) S2.

Section Refinement.
Context `{SqliteLaws}.

Definition run_call (x : call) : M reply :=
  match x with
  | CInsert t sn pid mac len data =>
      rc ← insert_data t sn (Some pid) (Some mac) len (Some data); mret (RCode rc)
  | CSelect t sn o => r ← select_data t sn false o; mret (ROut r.1 r.2)
  | CSelectAll t o => r ← select_all_data t false o; mret (ROut r.1 r.2)
  | CDelete t sn => rc ← delete_data t sn; mret (RCode rc)
  | CCount t cnt => r ← count t false cnt; mret (RCount r.1 r.2)
  end.

Fixpoint run_calls (xs : list call) : M (list reply) :=
  match xs with
  | [] => mret []
  | x :: xs => y ← run_call x; ys ← run_calls xs; mret (y :: ys)
  end.

(** A stored row and the packet it stands for. *)
Definition row_is (r : row) (x : packet) : Prop :=
  (exists idx tm, r = [VInt idx; VInt (k_sn x); VBlob (k_pid x); VBlob (k_mac x);
                       VInt (zlen (k_data x)); VBlob (k_data x); tm]) /\
  0 <= k_sn x <= int_max /\ 0 < zlen (k_data x) <= 512.

Definition stores (d : conn) (S : store) : Prop :=
  forall t, packet_table t = true -> Forall2 row_is (rows d t) (S t).

Lemma has_sn_row r x sn : row_is r x -> has_sn sn r <-> k_sn x = sn.
Proof.
  intros [(idx & tm & ->) _]. unfold has_sn. cbn. split; [by intros [= ->]|by intros ->].
Qed.

Lemma filter_rows (sn : Z) (l : list row) (xs : list packet) : Forall2 row_is l xs ->
  Forall2 row_is (filter (has_sn sn) l) (filter (fun x => k_sn x = sn) xs) /\
  Forall2 row_is (filter (fun r => ¬ has_sn sn r) l) (filter (fun x => k_sn x <> sn) xs).
Proof.
  induction 1 as [|r x l xs Hr Hl [IH1 IH2]]; [done|].
  rewrite !filter_cons. pose proof (has_sn_row r x sn Hr) as Hs.
  split; repeat case_decide; try tauto; by constructor.
Qed.

Lemma u32_int sn : 0 <= sn <= int_max -> u32 sn = sn.
Proof. intros [? Hs]. apply uwrap_small. unfold is_u, int_max in *. lia. Qed.

(** Facts of a row that a select reads. *)
Lemma row_columns s r x : row_is r x -> row_of s = r ->
  sqlite3_column_int s 1 = k_sn x /\ sqlite3_column_int s 4 = zlen (k_data x) /\
  sqlite3_column_blob s 5 = Some (k_data x).
Proof.
  intros [(idx & tm & ->) [Hsn Hlen]] Hr.
  assert (is_int (k_sn x) /\ is_int (zlen (k_data x))) as [H1 H2]
    by (unfold is_int, int_min, int_max in *; lia).
  split_and!; [apply column_int_law; [by rewrite Hr|done]..|].
  rewrite (column_blob_law s 5 (k_data x)) by (by rewrite Hr).
  destruct (k_data x) eqn:E; [unfold zlen in Hlen; cbn in Hlen; lia|done].
Qed.

Lemma memcpy_ok (dst src : list Z) : zlen src <= zlen dst ->
  memcpy dst src (zlen src) = Some (src ++ drop (length src) dst).
Proof.
  intros Hl. unfold memcpy, zlen in *. rewrite !(proj2 (Z.leb_le _ _)) by lia. cbn [andb].
  by rewrite Nat2Z.id, take_ge by lia.
Qed.

(** After the statement is finalised. *)
Lemma stores_fin d q S : stores d S -> stores (sqlite3_finalize d q) S.
Proof. intros Hs t Ht. destruct (finalize_law d q) as [-> _]. by apply Hs. Qed.

Lemma healthy_fin d q : healthy d -> healthy (sqlite3_finalize d q).
Proof. apply finalize_law. Qed.

Lemma stores_same d d' S : rows d' = rows d -> stores d S -> stores d' S.
Proof. intros E Hs t Ht. rewrite E. by apply Hs. Qed.

Lemma stores_set d d' S t l : packet_table t = true -> stores d S ->
  Forall2 row_is (rows d' t) l -> (forall t', t' <> t -> rows d' t' = rows d t') ->
  stores d' (set_queue S t l).
Proof.
  intros Ht Hs Hl Ho t' Ht'. unfold set_queue. case_bool_decide as E; [by subst t'|].
  rewrite Ho by done. by apply Hs.
Qed.

Lemma bind_int_cmd s i v : cmd_of (sqlite3_bind_int s i v) = cmd_of s.
Proof. apply bind_int_law. Qed.

Lemma bind_blob_cmd s i b m : 0 <= m -> cmd_of (sqlite3_bind_blob s i b m) = cmd_of s.
Proof. intros. by apply bind_blob_law. Qed.

Lemma bind_int_arg s i v j :
  args_of (sqlite3_bind_int s i v) j = if j =? i then VInt v else args_of s j.
Proof. apply bind_int_law. Qed.

Lemma bind_blob_arg s i b m j : 0 <= m ->
  args_of (sqlite3_bind_blob s i b m) j =
  if j =? i then VBlob (take (Z.to_nat m) b) else args_of s j.
Proof. intros. by apply bind_blob_law. Qed.

Lemma packet_args_law q sn pid mac data : length pid = 8%nat -> length mac = 6%nat ->
  exists q', packet_args sn pid mac (zlen data) data (Some q) = Some q' /\ cmd_of q' = cmd_of q /\
    args_of q' 1 = VInt sn /\ args_of q' 2 = VBlob pid /\ args_of q' 3 = VBlob mac /\
    args_of q' 4 = VInt (zlen data) /\ args_of q' 5 = VBlob data.
Proof.
  intros Hp Hm. unfold packet_args. cbn [bind_int blob_arg fmap option_fmap option_map].
  eexists. split; [reflexivity|].
  assert (Hz : 0 <= zlen data) by (unfold zlen; lia).
  rewrite !bind_blob_cmd, bind_int_cmd, !bind_blob_cmd, bind_int_cmd by lia.
  repeat first [rewrite bind_blob_arg by lia | rewrite bind_int_arg].
  cbn [Z.eqb Pos.eqb]. unfold zlen. by rewrite Nat2Z.id, !take_ge by lia.
Qed.

Section Calls.
Context (p : string) (id : Z) (k : gmap Z Z) (n c : Z) (Hk : k !! id = Some 1).

Lemma insert_refines d S t sn pid mac data : healthy d -> stores d S ->
  call_ok (CInsert t sn pid mac (zlen data) data) -> exists d',
  insert_data t sn (Some pid) (Some mac) (zlen data) (Some data) (live d p id k n c) =
    Ret (LIB_REC_OK, live d' p id k n c) /\ healthy d' /\
  stores d' (set_queue S t (S t ++ [mk_packet sn pid mac data])).
Proof using Hk.
  intros Hd Hs (Ht & Hsn & Hp & Hm & _ & Hl).
  unfold insert_data. cbn [is_null orb].
  rewrite with_stmt_live by done. destruct (prepare_law d (InsertPacket t)) as (q & -> & Hc); [done..|].
  cbn [Z.eqb SQLITE_OK]. cbv zeta. rewrite !bind_blob_ok by (cbn [ptr from_option Datatypes.id]; unfold zlen; lia).
  fold (packet_args sn pid mac (zlen data) data (Some q)).
  change (nn (Some q)) with (nn (packet_args sn pid mac (zlen data) data (Some q))).
  rewrite run_to_done_live by done.
  destruct (packet_args_law q sn pid mac data) as (q' & -> & Hc' & A1 & A2 & A3 & A4 & A5); [done..|].
  cbn [pstep]. rewrite Hc in Hc'.
  destruct (insert_law d q' t) as (d' & q'' & idx & tm & -> & Hd' & Hr & Ho); [done..|].
  cbn [Z.eqb Pos.eqb SQLITE_DONE fin]. eexists. split; [reflexivity|].
  split; [by apply healthy_fin|]. apply stores_fin. apply (stores_set d); [done..| |done].
  rewrite Hr, A1, A2, A3, A4, A5. apply Forall2_app; [by apply Hs|].
  constructor; [|done]. split; [by exists idx, tm|done].
Qed.

Lemma delete_refines d S t sn : healthy d -> stores d S -> call_ok (CDelete t sn) -> exists d',
  delete_data t sn (live d p id k n c) = Ret (LIB_REC_OK, live d' p id k n c) /\ healthy d' /\
  stores d' (set_queue S t (filter (fun x => k_sn x <> sn) (S t))).
Proof using Hk.
  intros Hd Hs [Ht Hsn]. unfold delete_data. rewrite with_stmt_live by done.
  destruct (prepare_law d (DeleteSn t sn)) as (q & -> & Hc); [done..|].
  cbn [sql_norm] in Hc. rewrite u32_int in Hc by done.
  cbn [Z.eqb SQLITE_OK]. rewrite run_to_done_live by done. cbn [pstep].
  destruct (delete_law d q t sn) as (d' & q' & -> & Hd' & Hr & Ho); [done..|].
  cbn [Z.eqb Pos.eqb SQLITE_DONE fin]. eexists. split; [reflexivity|].
  split; [by apply healthy_fin|]. apply stores_fin. apply (stores_set d); [done..| |done].
  rewrite Hr. by apply filter_rows, Hs.
Qed.

Lemma count_refines d S t cnt : healthy d -> stores d S -> packet_table t = true -> exists m d',
  count t false cnt (live d p id k n c) = Ret ((LIB_REC_OK, m), live d' p id k n c) /\ healthy d' /\
  stores d' S /\ (zlen (S t) <= int_max -> m = zlen (S t)).
Proof using Hk.
  intros Hd Hs Ht. rewrite count_live by done.
  destruct (prepare_law d (CountAll t)) as (q & -> & Hc); [done..|]. cbn [Z.eqb SQLITE_OK pstep].
  destruct (count_law d q t) as (d' & q' & -> & Hd' & Hr & Hrow); [done..|].
  cbn [Z.eqb Pos.eqb SQLITE_ROW fin column_int].
  assert (Hlen : length (rows d t) = length (S t)) by (eapply Forall2_length, Hs; done).
  eexists _, _. split; [reflexivity|]. split; [by apply healthy_fin|].
  split; [apply stores_fin; by apply (stores_same d)|]. intros Hm.
  rewrite (column_int_law q' 0 (zlen (S t))); [done| |unfold is_int, int_min, zlen in *; lia].
  rewrite Hrow. unfold zlen. by rewrite Hlen.
Qed.

(** The row branch of a select on a stored packet. *)
Lemma select_result_row sn o d' q' r x : row_is r x -> row_of q' = r -> 512 <= zlen (o_data o) ->
  select_result p id k n c sn o SQLITE_ROW d' (Some q') =
  Ret ((LIB_REC_OK, received sn o x), live (sqlite3_finalize d' q') p id k n c).
Proof.
  intros Hr Hq Ho. destruct (row_columns q' r x Hr Hq) as (H1 & H2 & H3).
  destruct Hr as [_ [_ Hlen]]. unfold select_result. cbn [Z.eqb Pos.eqb SQLITE_ROW column_int fin].
  change (column_blob (Some q') 5) with (sqlite3_column_blob q' 5).
  rewrite H1, H2, H3, (proj2 (Z.ltb_ge _ _)) by lia.
  rewrite memcpy_ok by lia. done.
Qed.

Lemma select_refines d S t sn o : healthy d -> stores d S -> call_ok (CSelect t sn o) -> exists o' d',
  select_data t sn false o (live d p id k n c) = Ret ((LIB_REC_OK, o'), live d' p id k n c) /\
  healthy d' /\ stores d' S /\ spec_call S (CSelect t sn o) (ROut LIB_REC_OK o') S.
Proof using Hk.
  intros Hd Hs (Ht & Hsn & Ho). unfold select_data. rewrite with_out_live by done.
  destruct (prepare_law d (SelectSn t sn)) as (q & -> & Hc); [done..|].
  cbn [sql_norm] in Hc. rewrite u32_int in Hc by done.
  cbn [Z.eqb SQLITE_OK]. rewrite select_row_live by done. cbn [pstep].
  destruct (select_law d q t sn) as (rc & d' & q' & -> & Hd' & Hr & Hcase); [done..|].
  destruct (filter_rows sn _ _ (Hs t Ht)) as [Hf _].
  destruct Hcase as [[-> Hin]|[-> Hnone]].
  - apply list_elem_of_lookup in Hin as [i Hi]. destruct (Forall2_lookup_l _ _ _ _ _ Hf Hi) as (x & Hx & Hrow).
    apply list_elem_of_lookup_2, list_elem_of_filter in Hx as [Hxsn Hx].
    erewrite select_result_row by done. eexists _, _. split; [reflexivity|].
    split; [by apply healthy_fin|]. split; [apply stores_fin; by apply (stores_same d)|].
    split; [done|]. left. by exists x.
  - eexists _, _. split; [reflexivity|]. split; [by apply healthy_fin|].
    split; [apply stores_fin; by apply (stores_same d)|]. split; [done|]. right. split; [|done].
    rewrite Hnone in Hf. apply Forall2_nil_inv_l in Hf. intros x Hx Hxsn.
    assert (Hin : x ∈ filter (fun x => k_sn x = sn) (S t)) by (by apply list_elem_of_filter).
    rewrite Hf in Hin. by apply not_elem_of_nil in Hin.
Qed.

Lemma select_all_refines d S t o : healthy d -> stores d S -> call_ok (CSelectAll t o) -> exists o' d',
  select_all_data t false o (live d p id k n c) = Ret ((LIB_REC_OK, o'), live d' p id k n c) /\
  healthy d' /\ stores d' S /\ spec_call S (CSelectAll t o) (ROut LIB_REC_OK o') S.
Proof using Hk.
  intros Hd Hs (Ht & Ho). unfold select_all_data. rewrite with_out_live by done.
  destruct (prepare_law d (SelectOne t)) as (q & -> & Hc); [done..|].
  cbn [Z.eqb SQLITE_OK]. rewrite select_row_live by done. cbn [pstep].
  destruct (select_one_law d q t) as (rc & d' & q' & -> & Hd' & Hr & Hcase); [done..|].
  specialize (Hs t Ht) as Hf. destruct Hcase as [[-> Hin]|[-> Hnone]].
  - apply list_elem_of_lookup in Hin as [i Hi]. destruct (Forall2_lookup_l _ _ _ _ _ Hf Hi) as (x & Hx & Hrow).
    apply list_elem_of_lookup_2 in Hx.
    erewrite select_result_row by done. eexists _, _. split; [reflexivity|].
    split; [by apply healthy_fin|]. split; [apply stores_fin; by apply (stores_same d)|].
    split; [done|]. left. by exists x.
  - eexists _, _. split; [reflexivity|]. split; [by apply healthy_fin|].
    split; [apply stores_fin; by apply (stores_same d)|]. split; [done|]. right. split; [|done].
    rewrite Hnone in Hf. by apply Forall2_nil_inv_l in Hf.
Qed.

Lemma call_refines x d S : healthy d -> stores d S -> call_ok x ->
  exists y d' S', run_call x (live d p id k n c) = Ret (y, live d' p id k n c) /\
    healthy d' /\ stores d' S' /\ spec_call S x y S'.
Proof using Hk.
  intros Hd Hs Hx. destruct x as [t sn pid mac len data|t sn o|t o|t sn|t cnt]; cbn [run_call].
  - pose proof Hx as (_ & _ & _ & _ & -> & _).
    destruct (insert_refines d S t sn pid mac data) as (d' & E & Hd' & Hs'); [done..|].
    erewrite M_bind_Ret by exact E. by eexists _, _, _.
  - destruct (select_refines d S t sn o) as (o' & d' & E & Hd' & Hs' & Hspec); [done..|].
    erewrite M_bind_Ret by exact E. by eexists _, _, _.
  - destruct (select_all_refines d S t o) as (o' & d' & E & Hd' & Hs' & Hspec); [done..|].
    erewrite M_bind_Ret by exact E. by eexists _, _, _.
  - destruct (delete_refines d S t sn) as (d' & E & Hd' & Hs'); [done..|].
    erewrite M_bind_Ret by exact E. by eexists _, _, _.
  - destruct (count_refines d S t cnt) as (m & d' & E & Hd' & Hs' & Hm); [done..|].
    erewrite M_bind_Ret by exact E. eexists _, _, _.
    split; [reflexivity|]. split; [done|]. split; [done|]. split; [done|]. by exists m.
Qed.

(** C1: the store refines a set of packet queues: any sequence of insert, select,
    select-one, delete and count calls with in-range arguments, on a healthy database
    whose rows represent the queues [S], runs to the end without blocking or faulting,
    leaves the semaphore free and no statement open, gives the replies the queue
    specification gives, and ends in a database that represents the resulting queues. *)
Theorem records_refine_queues xs d S : healthy d -> stores d S -> Forall call_ok xs ->
  exists ys d' S', run_calls xs (live d p id k n c) = Ret (ys, live d' p id k n c) /\
    healthy d' /\ stores d' S' /\ spec_run S xs ys S'.
Proof using Hk.
  intros Hd Hs Hxs. revert d S Hd Hs. induction Hxs as [|x xs Hx Hxs IH]; intros d S Hd Hs.
  { eexists _, _, _. split_and!; [reflexivity|done|done|constructor]. }
  destruct (call_refines x d S) as (y & d1 & S1 & E1 & Hd1 & Hs1 & Hspec); [done..|].
  destruct (IH d1 S1) as (ys & d2 & S2 & E2 & Hd2 & Hs2 & Hrun); [done..|].
  exists (y :: ys), d2, S2. cbn [run_calls]. erewrite M_bind_Ret by exact E1.
  erewrite M_bind_Ret by exact E2. split_and!; [done..|]. by econstructor.
Qed.

(** ** Negative serial numbers *)

Definition int_rows (d : conn) (t : table) : Prop :=
  forall r v, r ∈ rows d t -> r !! 1%nat = Some (VInt v) -> is_int v.

Lemma u32_negative sn : int_min <= sn < 0 -> u32 sn = sn + 2 ^ 32 /\ int_max < u32 sn.
Proof.
  unfold int_min, int_max, u32, uwrap. intros Hs.
  rewrite <- (Z.mod_add sn 1), Z.mul_1_l, Z.mod_small by lia. lia.
Qed.

Lemma no_negative d t sn r : int_rows d t -> int_min <= sn < 0 -> r ∈ rows d t -> ¬ has_sn (u32 sn) r.
Proof.
  intros Hi Hs Hr Hsn. specialize (Hi r _ Hr Hsn). destruct (u32_negative sn Hs).
  unfold is_int in Hi. lia.
Qed.

(** Negative serial numbers are written but cannot be read back or removed: the
    select and delete commands print the number with %u, which no stored [int] equals,
    so a select returns LIB_REC_OK with the caller's variables untouched and a delete
    returns LIB_REC_OK and keeps every row, even one inserted with that number. *)
Theorem records_negative_sn_unreachable d t sn o : healthy d -> packet_table t = true ->
  int_rows d t -> int_min <= sn < 0 ->
  (exists d', select_data t sn false o (live d p id k n c) =
     Ret ((LIB_REC_OK, o), live d' p id k n c) /\ rows d' = rows d) /\
  (exists d', delete_data t sn (live d p id k n c) = Ret (LIB_REC_OK, live d' p id k n c) /\
     rows d' t = rows d t).
Proof using Hk.
  intros Hd Ht Hi Hsn. split.
  - unfold select_data. rewrite with_out_live by done.
    destruct (prepare_law d (SelectSn t sn)) as (q & -> & Hc); [done..|]. cbn [sql_norm] in Hc.
    cbn [Z.eqb SQLITE_OK]. rewrite select_row_live by done. cbn [pstep].
    destruct (select_law d q t (u32 sn)) as (rc & d' & q' & -> & Hd' & Hr & Hcase); [done..|].
    destruct Hcase as [[-> Hin]|[-> Hnone]].
    + apply list_elem_of_filter in Hin as [Hsn' Hin]. exfalso. by eapply no_negative.
    + eexists. split; [reflexivity|]. cbn [fin]. by rewrite (proj1 (finalize_law d' q')).
  - unfold delete_data. rewrite with_stmt_live by done.
    destruct (prepare_law d (DeleteSn t sn)) as (q & -> & Hc); [done..|]. cbn [sql_norm] in Hc.
    cbn [Z.eqb SQLITE_OK]. rewrite run_to_done_live by done. cbn [pstep].
    destruct (delete_law d q t (u32 sn)) as (d' & q' & -> & Hd' & Hr & Ho); [done..|].
    cbn [Z.eqb Pos.eqb SQLITE_DONE fin]. eexists. split; [reflexivity|].
    rewrite (proj1 (finalize_law d' q')), Hr. apply filter_all.
    apply Forall_forall. intros r Hr'. by apply (no_negative d t).
Qed.

(** ** Packets longer than 512 bytes *)

(** Every call starts with [__sem_p]. *)
Lemma run_call_blocked x d m : run_call x (held d p id k m c) = Blocked.
Proof.
  assert (Hb : forall A (f : Z -> M A), (__sem_p id ≫= f) (held d p id k m c) = Blocked)
    by (intros; rewrite M_bind_eq; unfold held; by rewrite sem_p_blocked by apply lookup_insert_eq).
  destruct x; cbn [run_call]; rewrite M_bind_eq;
    unfold insert_data, select_data, select_all_data, delete_data, count, with_stmt, with_out;
    (erewrite M_bind_Ret by reflexivity); cbn [handle held live is_null orb db sem_id];
    fold (live d p id (<[id := 0]> k) m c); fold (held d p id k m c); by rewrite Hb.
Qed.

(** C40: a stored packet longer than 512 bytes locks the store for good: the select that
    finds it returns LIB_REC_ERROR without releasing the semaphore or finalising its
    statement, and every later call on the handle blocks forever. *)
Theorem records_oversize_deadlock d t sn o : healthy d -> packet_table t = true ->
  0 <= sn <= int_max -> filter (has_sn sn) (rows d t) <> [] ->
  (forall r, r ∈ rows d t -> has_sn sn r -> exists len, r !! 4%nat = Some (VInt len) /\ 512 < len <= int_max) ->
  exists d', select_data t sn false o (live d p id k n c) =
      Ret ((LIB_REC_ERROR, o), held d' p id k (n + 1) c) /\
    forall x, run_call x (held d' p id k (n + 1) c) = Blocked.
Proof using Hk.
  intros Hd Ht Hsn Hne Hbig. unfold select_data. rewrite with_out_live by done.
  destruct (prepare_law d (SelectSn t sn)) as (q & -> & Hc); [done..|].
  cbn [sql_norm] in Hc. rewrite u32_int in Hc by done.
  cbn [Z.eqb SQLITE_OK]. rewrite select_row_live by done. cbn [pstep].
  destruct (select_law d q t sn) as (rc & d' & q' & -> & Hd' & Hr & Hcase); [done..|].
  destruct Hcase as [[-> Hin]|[-> Hnone]]; [|done].
  apply list_elem_of_filter in Hin as [Hs Hin]. destruct (Hbig _ Hin Hs) as (len & Hlen & Hb).
  exists d'. split; [|intros; apply run_call_blocked].
  unfold select_result. cbn [Z.eqb Pos.eqb SQLITE_ROW column_int].
  rewrite (column_int_law q' 4 len) by (done || (unfold is_int, int_min; lia)).
  by rewrite (proj2 (Z.ltb_lt _ _)) by lia.
Qed.

End Calls.

End Refinement.

(** ** Concrete instances on the in-memory database *)

Definition empty_db : memdb := mk_memdb (fun _ => []) 1.
Definition one_sem : gmap Z Z := {[5 := 1]}.

Lemma records_writes_release_witness :
  one_sem !! 5 = Some 1 /\
  exists rc d', insert_data REC_RECHARGE 9 (Some (replicate 8 1)) (Some (replicate 6 2)) 3 (Some [10; 11; 12])
    (live (H := MemDb) empty_db "a.db" 5 one_sem 0 1) = Ret (rc, live d' "a.db" 5 one_sem 0 1).
Proof.
  split; [reflexivity|].
  apply (proj1 (records_writes_release (H := MemDb) "a.db" 5 one_sem 0 1 eq_refl empty_db REC_RECHARGE 0));
    cbn; lia.
Defined.

Definition demo_calls : list call :=
  [CInsert REC_RECHARGE 7 (replicate 8 1) (replicate 6 2) 3 [10; 11; 12];
   CInsert REC_RECHARGE 8 (replicate 8 1) (replicate 6 2) 1 [20];
   CSelect REC_RECHARGE 7 (mk_out 0 0 (replicate 512 0));
   CDelete REC_RECHARGE 7;
   CSelectAll REC_RECHARGE (mk_out 0 0 (replicate 512 0));
   CCount REC_RECHARGE (-1)].

Lemma records_refine_queues_witness :
  Forall call_ok demo_calls /\
  exists ys d' S', run_calls demo_calls (live (H := MemDb) empty_db "a.db" 5 one_sem 0 1) =
      Ret (ys, live d' "a.db" 5 one_sem 0 1) /\
    healthy d' /\ stores d' S' /\ spec_run (fun _ => []) demo_calls ys S'.
Proof.
  assert (Hok : Forall call_ok demo_calls)
    by (repeat constructor; try reflexivity; try (vm_compute; discriminate); unfold zlen; cbn; lia).
  split; [exact Hok|].
  apply (records_refine_queues (H := MemDb) "a.db" 5 one_sem 0 1 eq_refl demo_calls empty_db (fun _ => [])).
  - exact I.
  - intros t _. constructor.
  - exact Hok.
Defined.

(** The replies of that run. *)
Example demo_replies :
  match run_calls demo_calls (live (H := MemDb) empty_db "a.db" 5 one_sem 0 1) with
  | Ret (ys, _) => ys =
      [RCode 0; RCode 0; ROut 0 (mk_out 0 3 ([10; 11; 12] ++ replicate 509 0)); RCode 0;
       ROut 0 (mk_out 8 1 (20 :: replicate 511 0)); RCount 0 1]
  | _ => False
  end.
Proof. vm_compute. reflexivity. Qed.

Definition packet_row (sn len : Z) (data : list Z) : row :=
  [VInt 1; VInt sn; VBlob (replicate 8 1); VBlob (replicate 6 2); VInt len; VBlob data; VText "now"].

Definition one_row (r : row) : memdb :=
  mk_memdb (fun t => if bool_decide (t = REC_ONCARD_ACK) then [r] else []) 2.

Lemma records_negative_sn_unreachable_witness :
  let d := one_row (packet_row (-3) 1 [9]) in
  (exists d', select_data REC_ONCARD_ACK (-3) false (mk_out 0 0 [0])
     (live (H := MemDb) d "a.db" 5 one_sem 0 1) =
     Ret ((LIB_REC_OK, mk_out 0 0 [0]), live d' "a.db" 5 one_sem 0 1) /\ rows d' = rows d) /\
  (exists d', delete_data REC_ONCARD_ACK (-3) (live (H := MemDb) d "a.db" 5 one_sem 0 1) =
     Ret (LIB_REC_OK, live d' "a.db" 5 one_sem 0 1) /\ rows d' REC_ONCARD_ACK = rows d REC_ONCARD_ACK).
Proof.
  apply (records_negative_sn_unreachable (H := MemDb) "a.db" 5 one_sem 0 1 eq_refl).
  - exact I.
  - reflexivity.
  - intros r v Hr. apply list_elem_of_singleton in Hr as ->. intros [= <-]. vm_compute. split; discriminate.
  - vm_compute. split; [discriminate|reflexivity].
Defined.

Lemma records_oversize_deadlock_witness :
  let d := one_row (packet_row 3 513 (replicate 513 0)) in
  exists d', select_data REC_ONCARD_ACK 3 false (mk_out 0 0 [])
      (live (H := MemDb) d "a.db" 5 one_sem 0 1) =
      Ret ((LIB_REC_ERROR, mk_out 0 0 []), held d' "a.db" 5 one_sem (0 + 1) 1) /\
    forall x, run_call x (held d' "a.db" 5 one_sem (0 + 1) 1) = Blocked.
Proof.
  apply (records_oversize_deadlock (H := MemDb) "a.db" 5 one_sem 0 1 eq_refl).
  - exact I.
  - reflexivity.
  - vm_compute. split; discriminate.
  - vm_compute. discriminate.
  - intros r Hr _. apply list_elem_of_singleton in Hr as ->. exists 513.
    split; [reflexivity|]. vm_compute. split; [reflexivity|discriminate].
Defined.
