(* ===== verification/RecordsLife.v ===== *)
(** * Opening and closing the records store; statement buffers

    What [lib_records_create] and [lib_records_destroy] of
    src/records/records.c do to the semaphores and connections on each path,
    and that every statement text fits the buffer it is printed into. *)

From stdpp Require Import gmap.
From Stdlib Require Import String.
From S2P Require Import Prelude Sqlite Records MemDb RecordsProofs.

(** ** Statement buffers *)

(** [char sql_cmd[512]] in __sqlite3_create, [char sql_cmd[128]] elsewhere. *)
Definition sql_buffer (c : sql) : Z :=
  match c with
  | JournalOff | SynchronousOff | CaseSensitiveLike | CreateTable _ => 512
  | _ => 128
  end.

Lemma length_append (a b : string) : String.length (a +:+ b) = (String.length a + String.length b)%nat.
Proof. induction a as [|x a IH]; [done|]. apply (f_equal S), IH. Qed.

Lemma length_print_u fuel : forall n acc,
  (String.length (print_u fuel n acc) <= fuel + String.length acc)%nat.
Proof.
  induction fuel as [|fuel IH]; intros n acc; [done|]. cbn [print_u].
  destruct (n / 10 =? 0); [cbn; lia|].
  specialize (IH (n / 10) (String (digit (n mod 10)) acc)). cbn in IH. lia.
Qed.

(** No statement overflows its buffer: the text of every command the module
    prints, with its terminating NUL and for every serial number, fits the array
    [sql_cmd] it is printed into. *)
Theorem sql_text_fits c : Z.of_nat (String.length (sql_text c)) + 1 <= sql_buffer c.
Proof.
  assert (Hu : forall n, (String.length (fmt_u n) <= 10)%nat)
    by (intros; unfold fmt_u; pose proof (length_print_u 10 (u32 n) ""); cbn in *; lia).
  destruct c as [| | |t| | |t|t n|t|t n|t].
  8: { cbn [sql_text sql_buffer]. rewrite !length_append. specialize (Hu n).
       destruct t; cbn [table_name String.length]; lia. }
  9: { cbn [sql_text sql_buffer]. rewrite !length_append. specialize (Hu n).
       destruct t; cbn [table_name String.length]; lia. }
  all: try destruct t; vm_compute; discriminate.
Qed.

(** ** Create and destroy *)

Section Life.
Context `{Sqlite}.

(** The setup commands as SQLite answers them. *)
Fixpoint exec_seq (d : conn) (cs : list sql) : bool * conn :=
  match cs with
  | [] => (true, d)
  | c :: cs =>
      let '(rc, d) := sqlite3_exec d (sql_text c) in
      if rc =? SQLITE_OK then exec_seq d cs else (false, d)
  end.

Lemma exec_all_live cs : forall d p id k n c,
  exec_all cs (live d p id k n c) =
  let '(ok, d') := exec_seq d cs in Ret (ok, live d' p id k n c).
Proof.
  induction cs as [|x cs IH]; intros d p id k n c; [done|]. cbn [exec_all exec_seq].
  erewrite M_bind_Ret by apply cur_db_live.
  destruct (sqlite3_exec d (sql_text x)) as [rc d'].
  erewrite M_bind_Ret by reflexivity. cbv beta. destruct (rc =? SQLITE_OK); [apply IH|done].
Qed.

Section Paths.
Context (path : string) (h : option records_file) (k : gmap Z Z) (n c : Z).
Context (Hlen : (String.length path < 64)%nat).

(** The kernel's semaphores when set [id] was taken and its value set, and when
    it was removed; no set has the id -1, which [semget] returns when it fails. *)
Definition sem_taken (id : Z) : gmap Z Z := if id =? -1 then k else <[id := 1]> k.
Definition sem_removed (id : Z) : gmap Z Z := if id =? -1 then k else delete id k.

Lemma create_opened d id : k !! (-1) = None -> sqlite3_open path = Opened d ->
  lib_records_create (Some path) true id (mk_st h k n c) =
  let '(ok, d') := exec_seq d setup_cmds in
  Ret (tt, if ok then live d' path id (sem_taken id) n (c + 1) else mk_st None (sem_removed id) n c).
Proof using Hlen.
  intros Hk Ho. destruct (exec_seq d setup_cmds) as [ok d'] eqn:E. unfold sem_taken, sem_removed.
  unfold lib_records_create. cbn [negb]. rewrite (proj2 (Z.leb_gt _ _)) by lia.
  erewrite M_bind_Ret by reflexivity. unfold __sqlite3_create. rewrite Ho.
  rewrite M_bind_eq. do 4 (erewrite M_bind_Ret by reflexivity). rewrite M_bind_eq.
  cbn [sems]. unfold semctl_setval. erewrite M_bind_Ret by reflexivity. cbn [sems set_sems].
  assert (Hval : (if bool_decide (is_Some ((if id =? -1 then k else <[id := default 0 (k !! id)]> k) !! id))
    then <[id := 1]> (if id =? -1 then k else <[id := default 0 (k !! id)]> k)
    else if id =? -1 then k else <[id := default 0 (k !! id)]> k) = if id =? -1 then k else <[id := 1]> k).
  { destruct (Z.eqb_spec id (-1)) as [->|_].
    - rewrite Hk, bool_decide_eq_false_2; [done|]. by intros [? [=]].
    - rewrite bool_decide_eq_true_2 by (rewrite lookup_insert_eq; eauto). by rewrite insert_insert_eq. }
  rewrite Hval, M_bind_eq. clear Hval. cbn [handle sems n_stmts n_conns live].
  fold (live d path id (if id =? -1 then k else <[id := 1]> k) n (c + 1)).
  rewrite exec_all_live, E. destruct ok; [done|].
  rewrite M_bind_eq. destruct (id =? -1); unfold semctl_rmid; repeat (progress (rewrite ?M_bind_eq; cbn));
    rewrite ?delete_insert_eq; by replace (c + 1 + -1) with c by lia.
Qed.

Lemma destroy_live d id :
  lib_records_destroy (live d path id (sem_taken id) n (c + 1)) = Ret (tt, mk_st None (sem_removed id) n c).
Proof.
  clear Hlen. unfold lib_records_destroy, sem_taken, sem_removed. erewrite M_bind_Ret by reflexivity.
  cbn [handle live sem_id db]. destruct (id =? -1); rewrite M_bind_eq; unfold semctl_rmid;
    repeat (progress (rewrite ?M_bind_eq; cbn)); rewrite ?delete_insert_eq; by replace (c + 1 + -1) with c by lia.
Qed.

End Paths.

(** C39: every way creation and destruction can go, [id] being what [semget]
    returns.  NULL is refused.  When [malloc] fails, and for a path of 64 bytes or
    more, creation faults.  When the database cannot be opened, creation uses the
    handle it has just closed, a fault, or, when there was no memory for a handle,
    returns NULL and removes semaphore set 0, whoever owns it.  When it opens,
    creation sets the semaphore to 1, also when the set existed, and returns a
    handle exactly when all nine setup commands succeed; otherwise it returns NULL
    with the connection closed and the set removed, which is the state before when
    the set was new.  Destroying the handle closes the connection and removes the
    set. *)
Theorem records_create_destroy (path : string) (h : option records_file) (k : gmap Z Z) (n c id : Z) (malloc_ok : bool) :
  k !! (-1) = None ->
  let s := mk_st h k n c in
  lib_records_create None malloc_ok id s = Ret (tt, mk_st None k n c) /\
  (malloc_ok = false \/ (64 <= String.length path)%nat -> lib_records_create (Some path) malloc_ok id s = Fault) /\
  ((String.length path < 64)%nat -> lib_records_create (Some path) true id s =
    match sqlite3_open path with
    | OpenFailed given => if given then Fault else Ret (tt, mk_st None (delete 0 k) n c)
    | Opened d =>
        let '(ok, d') := exec_seq d setup_cmds in
        Ret (tt, if ok then live d' path id (sem_taken k id) n (c + 1) else mk_st None (sem_removed k id) n c)
    end) /\
  (k !! id = None -> sem_removed k id = k) /\
  (forall d, lib_records_destroy (live d path id (sem_taken k id) n (c + 1)) =
    Ret (tt, mk_st None (sem_removed k id) n c)).
Proof.
  intros Hk s. split_and!.
  - done.
  - intros [->|Hl]; [done|]. unfold lib_records_create. destruct malloc_ok; [|done]. cbn [negb].
    by rewrite (proj2 (Z.leb_le _ _)) by lia.
  - intros Hl. destruct (sqlite3_open path) as [d|given] eqn:Ho; [by apply create_opened|].
    unfold lib_records_create. cbn [negb]. rewrite (proj2 (Z.leb_gt _ _)) by lia.
    erewrite M_bind_Ret by reflexivity. unfold __sqlite3_create. rewrite Ho. by destruct given.
  - intros Hid. unfold sem_removed. destruct (id =? -1); [done|]. by apply delete_id.
  - intros d. apply destroy_live.
Qed.

End Life.

Lemma records_create_destroy_witness :
  let s := mk_st (H := MemDb) None ∅ 0 0 in
  let created := live (H := MemDb) empty_db "a.db" 7 (<[7 := 1]> ∅) 0 (0 + 1) in
  lib_records_create (Some "a.db"%string) true 7 s = Ret (tt, created) /\
  lib_records_destroy created = Ret (tt, s).
Proof.
  destruct (records_create_destroy (H := MemDb) "a.db" None ∅ 0 0 7 true (lookup_empty (-1)))
    as (_ & _ & Hc & Hr & Hd).
  split; [apply Hc; cbn; lia|]. etransitivity; [apply (Hd empty_db)|].
  rewrite (Hr (lookup_empty 7)). reflexivity.
Defined.
