(* ===== verification/Ctos.v ===== *)
(** * CAN to serial (src/cantoserial/ctos.c, includes/lib_ctos.h)

    Messages to and from the stakes travel as CAN frames of eight data bytes:
    a head frame, middle frames and a tail frame, or a single frame.
    [lib_ctos_put] cuts a message into frames; [stake_cmd_buf_put] collects
    the frames of each stake and hands complete messages to a ring buffer.

    The ring buffer, the socket write and the delay come from the library
    lib_general, of which the sources have only the header: they are the
    parameters of class [LibGeneral].  An access outside an array is the
    result [None]. *)

From S2P Require Import Prelude.

(** ** Constants *)

Definition LIB_CTOS_EOK : Z := 0.
Definition LIB_CTOS_ERROR : Z := -1.
Definition LIB_CTOS_EXCMEM : Z := -6.

Definition CAN_BUS_NO_MAX : Z := 2.
Definition CAN_FRAME_LEN_MAX : Z := 8.
Definition CAN_FRAME_MARK_SINGLE : Z := 0.
Definition CAN_FRAME_MARK_HEAD : Z := 1.
Definition CAN_FRAME_MARK_MIDDLE : Z := 2.
Definition CAN_FRAME_MARK_TAIL : Z := 3.
Definition CAN_PRIORITY_LOW : Z := 1.

Definition BAUD_RATE_50kbps : Z := 1.
Definition BAUD_RATE_125kbps : Z := 2.
Definition BAUD_RATE_250kbps : Z := 3.
Definition BAUD_RATE_500kbps : Z := 4.
Definition BAUD_RATE_END : Z := 5.

Definition STAKE_NUM_MAX : Z := 128.
Definition STAKE_BUF_MAX : nat := 320.
Definition STAKE_FRAME_MAX : nat := 64.

(** ** Frames *)

Record can_frame_metadata := mk_meta {
  d_addr : Z; s_addr : Z; frame_mark : Z; frame_seq : Z; m_random : Z; rsv : Z;
  priority : Z; err : Z; rtr : Z; eff : Z; can_dlc : Z; m_data : list Z }.

(** The sixteen bytes of the struct as the ABI lays them out: the bit-fields
    fill one little-endian word from bit 0, then can_dlc, padding, data. *)
Definition meta_word (m : can_frame_metadata) : Z :=
  d_addr m .| (s_addr m ≪ 7) .| (frame_mark m ≪ 14) .| (frame_seq m ≪ 16) .| (m_random m ≪ 22) .|
  (rsv m ≪ 25) .| (priority m ≪ 28) .| (err m ≪ 29) .| (rtr m ≪ 30) .| (eff m ≪ 31).

Definition encode_meta (m : can_frame_metadata) : list Z :=
  PUT_UINT32_LE (meta_word m) ++ [can_dlc m; 0; 0; 0] ++ m_data m.

Definition field (w pos width : Z) : Z := uwrap width (w ≫ pos).

Definition decode_meta (b : list Z) : can_frame_metadata :=
  let w := GET_UINT32_LE b 0 in
  mk_meta (field w 0 7) (field w 7 7) (field w 14 2) (field w 16 6) (field w 22 3) (field w 25 3)
    (field w 28 1) (field w 29 1) (field w 30 1) (field w 31 1) (aget b 4) (drop 8 b).

(** ** State *)

Record stake_frame_buf := mk_buf {
  has_frame_head : Z; cnt : Z; len : Z; random : list Z; data : list Z }.

Definition zero_buf : stake_frame_buf :=
  mk_buf 0 0 0 (replicate STAKE_FRAME_MAX 0) (replicate STAKE_BUF_MAX 0).

Record stake_frame := mk_frame {
  err_statistics : Z; err_random : Z; frame_buf : list stake_frame_buf }.

Class LibGeneral := {
  ring : Type;
  lib_ringbuffer_putforce : ring -> list Z -> Z * ring;
  lib_ringbuffer_getforce : ring -> Z -> Z * list Z * ring;
  lib_ringbuffer_getchar : ring -> Z * list Z * ring;
  net : Type;
  lib_writen : net -> list Z -> Z * net }.

Record ctos `{LibGeneral} := mk_ctos {
  can_bus : Z; can_id : Z; baud_rate : Z; sn : Z; send_delay : Z;
  pack_ptr : option stake_frame;
  ringbuffer : option ring;
  sockfd : net }.
Arguments mk_ctos {_} _ _ _ _ _ _ _ _.

Section Ctos.
Context `{LibGeneral}.

Definition set_pack (ct : ctos) (f : stake_frame) : ctos :=
  mk_ctos (can_bus ct) (can_id ct) (baud_rate ct) (sn ct) (send_delay ct) (Some f)
    (ringbuffer ct) (sockfd ct).
Definition set_ring (ct : ctos) (r : ring) : ctos :=
  mk_ctos (can_bus ct) (can_id ct) (baud_rate ct) (sn ct) (send_delay ct) (pack_ptr ct)
    (Some r) (sockfd ct).
Definition set_sn (ct : ctos) (n : Z) : ctos :=
  mk_ctos (can_bus ct) (can_id ct) (baud_rate ct) n (send_delay ct) (pack_ptr ct)
    (ringbuffer ct) (sockfd ct).
Definition set_net (ct : ctos) (s : net) : ctos :=
  mk_ctos (can_bus ct) (can_id ct) (baud_rate ct) (sn ct) (send_delay ct) (pack_ptr ct)
    (ringbuffer ct) s.
Definition set_delay (ct : ctos) (d : Z) : ctos :=
  mk_ctos (can_bus ct) (can_id ct) (baud_rate ct) (sn ct) d (pack_ptr ct)
    (ringbuffer ct) (sockfd ct).

(** ** Baud rate

    The result lists the bit rate that the [ip link] command sets. *)
Definition baud_rate_set (ct : ctos) : Z * option Z * ctos :=
  if CAN_BUS_NO_MAX <? can_bus ct then (LIB_CTOS_ERROR, None, ct)
  else if BAUD_RATE_END - 1 <? baud_rate ct then (LIB_CTOS_ERROR, None, ct)
  else if baud_rate ct =? BAUD_RATE_50kbps then (LIB_CTOS_EOK, Some 50000, set_delay ct 2000)
  else if baud_rate ct =? BAUD_RATE_125kbps then (LIB_CTOS_EOK, Some 125000, set_delay ct 800)
  else if baud_rate ct =? BAUD_RATE_250kbps then (LIB_CTOS_EOK, Some 250000, set_delay ct 600)
  else if baud_rate ct =? BAUD_RATE_500kbps then (LIB_CTOS_EOK, Some 500000, set_delay ct 500)
  else (LIB_CTOS_EOK, Some 250000, set_delay ct 600).

(** The argument [baud_rate] is not used. *)
Definition lib_ctos_set_baudrate (ct : ctos) (rate : Z) : Z * option Z * ctos := baud_rate_set ct.

(** ** Sending *)

Definition frame_sn_get (ct : ctos) : Z * ctos :=
  let n := u8 (sn ct + 1) in
  let n := if 7 <? n then 0 else n in
  (n, set_sn ct n).

(** A zeroed frame with the common fields set; assignments to bit-fields keep
    the low bits. *)
Definition new_meta (ct : ctos) (dest prio seq rnd mark : Z) (d : list Z) : can_frame_metadata :=
  mk_meta (uwrap 7 dest) (uwrap 7 (can_id ct)) mark (uwrap 6 seq) (uwrap 3 rnd) 0
    (uwrap 1 prio) 0 0 1 CAN_FRAME_LEN_MAX d.

(** [memcpy(meta.data, data + off, n)] into the zeroed eight-byte array; [None]
    when it reads past [buf] or writes past the array. *)
Definition meta_copy (buf : list Z) (off n : Z) : option (list Z) :=
  if (0 <=? n) && (n <=? 8) && (off + n <=? Z.of_nat (length buf))
  then Some (take (Z.to_nat n) (drop (Z.to_nat off) buf) ++ replicate (8 - Z.to_nat n) 0)
  else None.

(** The loop over the frames; [k] frames are left, [i] is the next. *)
Fixpoint put_loop (k : nat) (ct : ctos) (dest prio rnd : Z) (buf : list Z) (len frame_num i send_bytes : Z)
  : option (Z * ctos) :=
  match k with
  | O => Some (LIB_CTOS_EOK, ct)
  | S k =>
      '(mark, d, send_bytes) ← (
        if i =? 0 then
          d ← meta_copy buf (i * 8) 8; Some (CAN_FRAME_MARK_HEAD, d, send_bytes + 8)
        else if i =? frame_num - 1 then
          d ← meta_copy buf (i * 8) (len - send_bytes); Some (CAN_FRAME_MARK_TAIL, d, send_bytes)
        else
          d ← meta_copy buf (i * 8) 8; Some (CAN_FRAME_MARK_MIDDLE, d, send_bytes + 8));
      let '(ret, s) := lib_writen (sockfd ct) (encode_meta (new_meta ct dest prio i rnd mark d)) in
      let ct := set_net ct s in
      if ret =? 16 then put_loop k ct dest prio rnd buf len frame_num (i + 1) send_bytes
      else Some (LIB_CTOS_ERROR, ct)
  end.

Definition lib_ctos_put_priority (ct : ctos) (dest : Z) (buf : list Z) (len prio : Z)
  : option (Z * ctos) :=
  let '(rnd, ct) := frame_sn_get ct in
  let frame_num := len / 8 + (if len mod 8 =? 0 then 0 else 1) in
  let loop ct := put_loop (Z.to_nat frame_num) ct dest prio rnd buf len frame_num 0 0 in
  if frame_num =? 1 then
    let m := new_meta ct dest prio 0 rnd CAN_FRAME_MARK_SINGLE (replicate 8 0) in
    let '(ret, s) := lib_writen (sockfd ct) (encode_meta m) in
    let ct := set_net ct s in
    if ret =? 16 then loop ct else Some (LIB_CTOS_ERROR, ct)
  else loop ct.

Definition lib_ctos_put (ct : ctos) (dest : Z) (buf : list Z) (len : Z) : option (Z * ctos) :=
  lib_ctos_put_priority ct dest buf len CAN_PRIORITY_LOW.

(** ** Receiving *)

Definition set_buf (f : stake_frame) (id : Z) (b : stake_frame_buf) : stake_frame :=
  mk_frame (err_statistics f) (err_random f) (<[Z.to_nat id := b]> (frame_buf f)).

Definition head_frame (m : can_frame_metadata) : option stake_frame_buf :=
  let b := zero_buf in
  d ← bcopy (data b) (frame_seq m * 8) (m_data m);
  r ← bput (random b) 0 (m_random m);
  Some (mk_buf 1 0 (u8 (len b + 8)) r d).

Definition middle_frame (b : stake_frame_buf) (m : can_frame_metadata) : option stake_frame_buf :=
  d ← bcopy (data b) (frame_seq m * 8) (m_data m);
  r ← bput (random b) (cnt b) (m_random m);
  Some (mk_buf (has_frame_head b) (u8 (cnt b + 1)) (u8 (len b + 8)) r d).

(** How many of [random[0 .. n-1]] differ from [random[0]]. *)
Definition random_errors (r : list Z) (n : Z) : Z :=
  Z.of_nat (length (filter (fun x => x <> aget r 0) (take (Z.to_nat n) r))).

Definition tail_frame (ct : ctos) (f : stake_frame) (rb : ring) (id : Z) (b : stake_frame_buf)
    (m : can_frame_metadata) : option (Z * ctos) :=
  d ← bcopy (data b) (frame_seq m * 8) (m_data m);
  let old := cnt b in
  let b := mk_buf (has_frame_head b) (u8 (cnt b + 1)) (len b) (random b) d in
  if negb (cnt b =? frame_seq m) || negb (has_frame_head b =? 1)
  then Some (LIB_CTOS_EXCMEM, set_pack ct (set_buf f id b))
  else
    r ← bput (random b) old (m_random m);
    let b := mk_buf 0 (cnt b) (u8 (len b + 8)) r (data b) in
    let errors := random_errors r old in
    if errors =? 0 then
      let '(ret, rb) := lib_ringbuffer_putforce rb (take (Z.to_nat (len b)) (data b)) in
      Some (ret, set_ring (set_pack ct (set_buf f id zero_buf)) rb)
    else
      let f := mk_frame (err_statistics f) (u32 (err_random f + errors)) (frame_buf f) in
      Some (LIB_CTOS_ERROR, set_pack ct (set_buf f id zero_buf)).

Definition stake_cmd_buf_put (ct : ctos) (m : can_frame_metadata) : option (Z * ctos) :=
  match pack_ptr ct with
  | None => Some (LIB_CTOS_ERROR, ct)
  | Some f =>
      if err m =? 1 then
        Some (LIB_CTOS_ERROR, set_pack ct
          (mk_frame (u32 (err_statistics f + 1)) (err_random f) (frame_buf f)))
      else match ringbuffer ct with
      | None => Some (LIB_CTOS_ERROR, ct)
      | Some rb =>
          let id := s_addr m in
          if (STAKE_NUM_MAX <=? id) || (id =? can_id ct) then Some (LIB_CTOS_ERROR, ct)
          else
            b ← frame_buf f !! Z.to_nat id;
            let mark := frame_mark m in
            if mark =? CAN_FRAME_MARK_HEAD then
              b ← head_frame m; Some (LIB_CTOS_EOK, set_pack ct (set_buf f id b))
            else if mark =? CAN_FRAME_MARK_MIDDLE then
              b ← middle_frame b m; Some (LIB_CTOS_EOK, set_pack ct (set_buf f id b))
            else if mark =? CAN_FRAME_MARK_TAIL then tail_frame ct f rb id b m
            else
              let b := mk_buf (has_frame_head b) (cnt b) 8 (random b) (data b) in
              let '(ret, rb) := lib_ringbuffer_putforce rb (m_data m) in
              Some (ret, set_ring (set_pack ct (set_buf f id b)) rb)
      end
  end.

(** [can_explain_thread] on the frames it takes from the queue, in order. *)
Fixpoint explain (ct : ctos) (fs : list (list Z)) : option ctos :=
  match fs with
  | [] => Some ct
  | f :: fs => '(_, ct) ← stake_cmd_buf_put ct (decode_meta f); explain ct fs
  end.

(** ** Reading a message *)

Definition lib_ctos_get (ct : ctos) (len : Z) : Z * list Z * ctos :=
  match ringbuffer ct with
  | None => (LIB_CTOS_ERROR, [], ct)
  | Some rb =>
      let '(ret, d, rb) := lib_ringbuffer_getforce rb len in (ret, d, set_ring ct rb)
  end.

(** The bytes stored at [ch]: one, or none on failure. *)
Definition lib_ctos_getchar (ct : ctos) : Z * list Z * ctos :=
  match ringbuffer ct with
  | None => (LIB_CTOS_ERROR, [], ct)
  | Some rb => let '(ret, d, rb) := lib_ringbuffer_getchar rb in (ret, d, set_ring ct rb)
  end.

End Ctos.
