(* ===== verification/CtosProofs.v ===== *)
(** * Theorems on the CAN framing

    The frame encoding round trip; what [lib_ctos_put] sends; what the
    receiver makes of it; and the messages that do not arrive. *)

From S2P Require Import Prelude Ctos.

(** ** The frame encoding *)

Record meta_ok (m : can_frame_metadata) : Prop := {
  ok_d : is_u 7 (d_addr m); ok_s : is_u 7 (s_addr m); ok_mark : is_u 2 (frame_mark m);
  ok_seq : is_u 6 (frame_seq m); ok_rnd : is_u 3 (m_random m); ok_rsv : is_u 3 (rsv m);
  ok_prio : is_u 1 (priority m); ok_err : is_u 1 (err m); ok_rtr : is_u 1 (rtr m);
  ok_eff : is_u 1 (eff m) }.

Lemma is_u_field w pos width x v : 0 <= pos -> 0 <= width -> pos + width <= w -> v = pos ->
  is_u width x -> is_u w (x ≪ v).
Proof.
  intros Hp Hw Hs -> Hx. apply (is_u_weaken (width + pos)); [lia|].
  by apply (is_u_shiftl width).
Qed.

Lemma is_u32_meta_word m : meta_ok m -> is_u32 (meta_word m).
Proof.
  intros []. unfold meta_word. repeat apply is_u_lor; try lia;
    try (eapply is_u_weaken; [|eassumption]; lia);
    (eapply is_u_field; [| | |reflexivity|eassumption]; lia).
Qed.

Ltac field_bits :=
  intros []; unfold field, meta_word; eapply is_u_inj;
  [|apply is_u_uwrap|eassumption|]; [lia|lia|]; intros i Hi; zbit_norm; zbit_out; zbit_simpl;
  f_equal; lia.

Lemma field_d m : meta_ok m -> field (meta_word m) 0 7 = d_addr m.
Proof. field_bits. Qed.
Lemma field_s m : meta_ok m -> field (meta_word m) 7 7 = s_addr m.
Proof. field_bits. Qed.
Lemma field_mark m : meta_ok m -> field (meta_word m) 14 2 = frame_mark m.
Proof. field_bits. Qed.
Lemma field_seq m : meta_ok m -> field (meta_word m) 16 6 = frame_seq m.
Proof. field_bits. Qed.
Lemma field_rnd m : meta_ok m -> field (meta_word m) 22 3 = m_random m.
Proof. field_bits. Qed.
Lemma field_rsv m : meta_ok m -> field (meta_word m) 25 3 = rsv m.
Proof. field_bits. Qed.
Lemma field_prio m : meta_ok m -> field (meta_word m) 28 1 = priority m.
Proof. field_bits. Qed.
Lemma field_err m : meta_ok m -> field (meta_word m) 29 1 = err m.
Proof. field_bits. Qed.
Lemma field_rtr m : meta_ok m -> field (meta_word m) 30 1 = rtr m.
Proof. field_bits. Qed.
Lemma field_eff m : meta_ok m -> field (meta_word m) 31 1 = eff m.
Proof. field_bits. Qed.

(** The receiver reads back the frame that was sent. *)
Lemma decode_encode m : meta_ok m -> decode_meta (encode_meta m) = m.
Proof.
  intros Hm. unfold decode_meta, encode_meta. cbv zeta. rewrite GET_PUT_LE by (by apply is_u32_meta_word).
  rewrite field_d, field_s, field_mark, field_seq, field_rnd, field_rsv, field_prio, field_err,
    field_rtr, field_eff by done. by destruct m.
Qed.

(** The frame encoding is lossless: the sixteen bytes of a frame, bit-fields, length
    and data, decode to the frame they were made from. *)
Theorem can_frame_roundtrip m : meta_ok m -> decode_meta (encode_meta m) = m.
Proof. apply decode_encode. Qed.

Lemma can_frame_roundtrip_witness :
  let m := mk_meta 0x55 0x2A 3 37 5 1 1 0 0 1 8 [1; 2; 3; 4; 5; 6; 7; 8] in
  decode_meta (encode_meta m) = m.
Proof. apply can_frame_roundtrip. split; unfold is_u; cbn; lia. Defined.

(** ** What is sent *)

(** The message padded with zeros to whole frames, and its chunks. *)
Definition padded (buf : list Z) (n : Z) : list Z :=
  buf ++ replicate (Z.to_nat (8 * n) - length buf) 0.

Definition chunk (buf : list Z) (n i : Z) : list Z :=
  take 8 (drop (Z.to_nat (8 * i)) (padded buf n)).

Definition mark_of (n i : Z) : Z :=
  if i =? 0 then CAN_FRAME_MARK_HEAD
  else if i =? n - 1 then CAN_FRAME_MARK_TAIL else CAN_FRAME_MARK_MIDDLE.

Lemma length_padded buf n : Z.of_nat (length buf) <= 8 * n -> length (padded buf n) = Z.to_nat (8 * n).
Proof. intros. unfold padded. rewrite length_app, length_replicate. lia. Qed.

Lemma meta_copy_chunk buf n i : 0 <= i < n - 1 -> 8 * (n - 1) < Z.of_nat (length buf) ->
  meta_copy buf (i * 8) 8 = Some (chunk buf n i).
Proof.
  intros Hi Hl. unfold meta_copy, chunk, padded. rewrite (proj2 (Z.leb_le (i * 8 + 8) _)) by lia.
  cbn [Z.leb Z.compare Pos.compare Pos.compare_cont andb]. nat_lits. cbn [Nat.sub replicate].
  rewrite app_nil_r, drop_app_le, take_app_le by (rewrite ?length_drop; lia).
  do 3 f_equal. lia.
Qed.

Lemma meta_copy_last buf n : 1 <= n -> 8 * (n - 1) < Z.of_nat (length buf) <= 8 * n ->
  meta_copy buf ((n - 1) * 8) (Z.of_nat (length buf) - 8 * (n - 1)) = Some (chunk buf n (n - 1)).
Proof.
  intros Hn Hl. unfold meta_copy, chunk, padded. rewrite !(proj2 (Z.leb_le _ _)) by lia. cbn [andb].
  rewrite drop_app_le, !take_ge by (rewrite ?length_app, ?length_drop, ?length_replicate; lia).
  do 3 f_equal; [lia|]. lia.
Qed.

Section Sender.
Context `{LibGeneral}.
Context (dest prio : Z) (buf : list Z) (n : Z).

(** The bus after the frames [fs] were written. *)
Definition send_all (s : net) (fs : list (list Z)) : net :=
  fold_left (fun s f => (lib_writen s f).2) fs s.

Definition message_frame (ct : ctos) (rnd i : Z) : can_frame_metadata :=
  new_meta ct dest prio i rnd (mark_of n i) (chunk buf n i).

Definition message_frames (ct : ctos) (rnd i : Z) (k : nat) : list (list Z) :=
  map (fun i => encode_meta (message_frame ct rnd i)) (seqZ i (Z.of_nat k)).

(** The writer accepts every frame. *)
Definition writes_all : Prop := forall s f, (lib_writen s f).1 = Z.of_nat (length f).

Lemma length_chunk i : 0 <= i < n -> Z.of_nat (length buf) <= 8 * n -> length (chunk buf n i) = 8%nat.
Proof.
  intros Hi Hl. unfold chunk. rewrite length_take, length_drop, length_padded by done. lia.
Qed.

Lemma length_encode_meta m : length (encode_meta m) = (8 + length (m_data m))%nat.
Proof. done. Qed.

Lemma put_loop_sends k : forall i ct rnd, writes_all -> 2 <= n ->
  8 * (n - 1) < Z.of_nat (length buf) <= 8 * n -> 0 <= i -> i + Z.of_nat k = n ->
  put_loop k ct dest prio rnd buf (Z.of_nat (length buf)) n i (8 * Z.min i (n - 1)) =
  Some (LIB_CTOS_EOK, set_net ct (send_all (sockfd ct) (message_frames ct rnd i k))).
Proof.
  induction k as [|k IH]; intros i ct rnd Hw Hn Hl Hi Hk; [by destruct ct|]. cbn [put_loop].
  assert (Hstep : (if i =? 0 then
      d ← meta_copy buf (i * 8) 8; Some (CAN_FRAME_MARK_HEAD, d, 8 * Z.min i (n - 1) + 8)
    else if i =? n - 1 then
      d ← meta_copy buf (i * 8) (Z.of_nat (length buf) - 8 * Z.min i (n - 1));
      Some (CAN_FRAME_MARK_TAIL, d, 8 * Z.min i (n - 1))
    else d ← meta_copy buf (i * 8) 8; Some (CAN_FRAME_MARK_MIDDLE, d, 8 * Z.min i (n - 1) + 8)) =
    Some (mark_of n i, chunk buf n i, 8 * Z.min (i + 1) (n - 1))).
  { unfold mark_of. destruct (Z.eqb_spec i 0); [|destruct (Z.eqb_spec i (n - 1)) as [->|]].
    - rewrite (meta_copy_chunk buf n) by lia. cbn [mbind option_bind]. do 2 f_equal. lia.
    - replace (Z.min (n - 1) (n - 1)) with (n - 1) by lia.
      rewrite meta_copy_last by lia. cbn [mbind option_bind]. do 2 f_equal. lia.
    - rewrite (meta_copy_chunk buf n) by lia. cbn [mbind option_bind]. do 2 f_equal. lia. }
  rewrite Hstep. cbn [mbind option_bind]. fold (message_frame ct rnd i).
  specialize (Hw (sockfd ct) (encode_meta (message_frame ct rnd i))) as Hret.
  rewrite length_encode_meta in Hret. cbn [message_frame new_meta m_data] in Hret.
  rewrite length_chunk in Hret by lia.
  unfold message_frames. rewrite (seqZ_cons i) by lia. cbn [map send_all fold_left].
  destruct (lib_writen (sockfd ct) _) as [ret s]. cbn [fst snd] in *. subst ret.
  change (Z.of_nat (8 + 8) =? 16) with true. cbv iota.
  rewrite IH by (done || lia). unfold message_frames.
  replace (Z.pred (Z.of_nat (S k))) with (Z.of_nat k) by lia.
  rewrite Z.add_1_r. by destruct ct.
Qed.

End Sender.

(** ** What is received *)

(** The data area after the first [8 * j] bytes of [l] arrived. *)
Definition filled (l : list Z) (j : Z) : list Z :=
  take (Z.to_nat (8 * j)) l ++ replicate (STAKE_BUF_MAX - Z.to_nat (8 * j)) 0.

Lemma fill_next l j : 0 <= j -> 8 * (j + 1) <= Z.of_nat (length l) -> 8 * (j + 1) <= 320 ->
  bcopy (filled l j) (j * 8) (take 8 (drop (Z.to_nat (8 * j)) l)) = Some (filled l (j + 1)).
Proof.
  intros Hj Hl Hm. unfold bcopy, filled, STAKE_BUF_MAX.
  assert (Hc : length (take 8 (drop (Z.to_nat (8 * j)) l)) = 8%nat)
    by (rewrite length_take, length_drop; lia).
  rewrite Hc, bool_decide_eq_true_2
    by (rewrite length_app, length_take, length_replicate; lia).
  f_equal. replace (Z.to_nat (8 * (j + 1))) with (Z.to_nat (8 * j) + 8)%nat by lia.
  rewrite <- take_take_drop, <- app_assoc. rewrite take_app_length' by (rewrite length_take; lia).
  do 2 f_equal. rewrite drop_app_ge by (rewrite length_take; lia).
  rewrite drop_replicate. f_equal. rewrite length_take. lia.
Qed.

(** The buffer after the head and [m] middle frames of a message whose frames
    all carry [rnd]. *)
Definition collecting (l : list Z) (m : Z) (r : list Z) : stake_frame_buf :=
  mk_buf 1 m (u8 (8 * (m + 1))) r (filled l (m + 1)).

Definition same_random (r : list Z) (rnd m : Z) : Prop :=
  length r = 64%nat /\ forall j, 0 <= j < m -> r !! Z.to_nat j = Some rnd.

Lemma u8_add8 x : u8 (u8 x + 8) = u8 (x + 8).
Proof. unfold u8, uwrap. by rewrite Zplus_mod_idemp_l. Qed.

Lemma collect_middle l m r rnd fr : 0 <= m -> 8 * (m + 2) <= Z.of_nat (length l) -> m + 2 <= 40 ->
  same_random r rnd m -> m_random fr = rnd -> frame_seq fr = m + 1 ->
  m_data fr = take 8 (drop (Z.to_nat (8 * (m + 1))) l) ->
  exists r', middle_frame (collecting l m r) fr = Some (collecting l (m + 1) r') /\
    same_random r' rnd (m + 1).
Proof.
  intros Hm Hl Hn [Hlen Hr] Hrnd Hseq Hd. unfold middle_frame.
  cbn [collecting data random cnt len has_frame_head]. rewrite Hseq, Hd, Hrnd.
  rewrite fill_next by lia. cbn [mbind option_bind].
  unfold bput. rewrite bool_decide_eq_true_2 by lia. cbn [mbind option_bind].
  exists (<[Z.to_nat m := rnd]> r). split.
  - unfold collecting. rewrite (u8_small (m + 1)) by (unfold is_u; lia).
    rewrite u8_add8. by replace (8 * (m + 1) + 8) with (8 * (m + 1 + 1)) by lia.
  - split; [by rewrite length_insert|]. intros j Hj. destruct (Z.eq_dec j m) as [->|].
    + apply list_lookup_insert_eq. lia.
    + rewrite list_lookup_insert_ne by lia. apply Hr. lia.
Qed.

Lemma no_random_errors r rnd m : same_random r rnd m -> 0 <= m <= 64 -> random_errors r m = 0.
Proof.
  intros [Hlen Hr] Hm. unfold random_errors.
  assert (Hf : filter (fun x => x <> aget r 0) (take (Z.to_nat m) r) = []); [|by rewrite Hf].
  destruct (filter _ _) as [|x t] eqn:E; [done|].
  assert (Hx : x ∈ filter (fun x => x <> aget r 0) (take (Z.to_nat m) r)) by (rewrite E; left).
  apply list_elem_of_filter in Hx as [Hne Hx]. exfalso. apply Hne.
  apply list_elem_of_lookup in Hx as [j Hj]. apply lookup_take_Some in Hj as [Hj Hlt].
  specialize (Hr (Z.of_nat j) ltac:(lia)) as Hrj. rewrite Nat2Z.id, Hj in Hrj.
  specialize (Hr 0 ltac:(lia)) as Hr0. unfold aget. rewrite list_lookup_total_alt, Hr0. cbn. congruence.
Qed.

Lemma filled_0 k : filled k 0 = replicate STAKE_BUF_MAX 0.
Proof. reflexivity. Qed.

(** A head frame starts the collection, whatever was in the buffer. *)
Lemma head_collecting l fr : frame_seq fr = 0 -> m_data fr = take 8 (drop (Z.to_nat (8 * 0)) l) ->
  8 <= Z.of_nat (length l) ->
  head_frame fr = Some (collecting l 0 (<[0%nat := m_random fr]> (replicate 64 0))).
Proof.
  intros Hs Hd Hl. unfold head_frame. cbn [zero_buf data random len]. rewrite <- (filled_0 l), Hs, Hd.
  rewrite fill_next by lia. cbn [mbind option_bind].
  unfold bput. rewrite bool_decide_eq_true_2 by (rewrite length_replicate; unfold STAKE_FRAME_MAX; lia).
  reflexivity.
Qed.

Section Receiver.
Context `{LibGeneral}.
Context (rcv : ctos) (f : stake_frame) (rb : ring) (id : Z).
Context (Hpack : pack_ptr rcv = Some f) (Hring : ringbuffer rcv = Some rb).
Context (Hbufs : length (frame_buf f) = 128%nat) (Hid : 0 <= id < 128) (Hself : id <> can_id rcv).

(** The receiver with buffer [b] for stake [id]. *)
Definition holding (b : stake_frame_buf) : ctos := set_pack rcv (set_buf f id b).

Lemma set_pack_twice ct a b : set_pack (set_pack ct a) b = set_pack ct b.
Proof. done. Qed.

Lemma set_buf_twice g a b : set_buf (set_buf g id a) id b = set_buf g id b.
Proof. unfold set_buf. cbn. by rewrite list_insert_insert_eq. Qed.

(** A data frame of the stake, accepted by the guards. *)
Definition from_stake (m : can_frame_metadata) : Prop := err m = 0 /\ s_addr m = id.

Lemma put_head_state ct g m b : pack_ptr ct = Some g -> ringbuffer ct = Some rb ->
  can_id ct = can_id rcv -> length (frame_buf g) = 128%nat -> from_stake m ->
  frame_mark m = CAN_FRAME_MARK_HEAD -> head_frame m = Some b ->
  stake_cmd_buf_put ct m = Some (LIB_CTOS_EOK, set_pack ct (set_buf g id b)).
Proof using Hbufs Hid Hself.
  intros Hp Hr Hc Hlen [He Hs] Hm Hb. unfold stake_cmd_buf_put. rewrite Hp, He, Hr, Hs, Hm, Hc.
  cbn [Z.eqb]. rewrite (proj2 (Z.leb_gt _ _)), (proj2 (Z.eqb_neq _ _)) by (done || unfold STAKE_NUM_MAX; lia).
  cbn [orb]. destruct (lookup_lt_is_Some_2 (frame_buf g) (Z.to_nat id)) as [b0 ->]; [lia|].
  cbn [mbind option_bind]. by rewrite Hb.
Qed.

Lemma holding_lookup b : frame_buf (set_buf f id b) !! Z.to_nat id = Some b.
Proof using Hbufs Hid. cbn. apply list_lookup_insert_eq. lia. Qed.

Lemma put_middle_state b m b' : from_stake m -> frame_mark m = CAN_FRAME_MARK_MIDDLE ->
  middle_frame b m = Some b' ->
  stake_cmd_buf_put (holding b) m = Some (LIB_CTOS_EOK, holding b').
Proof using Hring Hbufs Hid Hself.
  intros [He Hs] Hm Hb. unfold stake_cmd_buf_put. cbn [holding set_pack pack_ptr ringbuffer can_id].
  rewrite He, Hring, Hs, Hm.
  cbn [Z.eqb]. rewrite (proj2 (Z.leb_gt _ _)), (proj2 (Z.eqb_neq _ _)) by (done || unfold STAKE_NUM_MAX; lia).
  cbn [orb]. rewrite holding_lookup. cbn [mbind option_bind]. rewrite Hb. cbn.
  unfold holding. by rewrite set_pack_twice, set_buf_twice.
Qed.

Lemma put_tail_state b m : from_stake m -> frame_mark m = CAN_FRAME_MARK_TAIL ->
  stake_cmd_buf_put (holding b) m = tail_frame (holding b) (set_buf f id b) rb id b m.
Proof using Hring Hbufs Hid Hself.
  intros [He Hs] Hm. unfold stake_cmd_buf_put. cbn [holding set_pack pack_ptr ringbuffer can_id].
  rewrite He, Hring, Hs, Hm.
  cbn [Z.eqb]. rewrite (proj2 (Z.leb_gt _ _)), (proj2 (Z.eqb_neq _ _)) by (done || unfold STAKE_NUM_MAX; lia).
  cbn [orb]. by rewrite holding_lookup.
Qed.

(** The tail frame of [n] delivers [8n mod 256] bytes. *)
Lemma collect_tail l n r rnd fr : 2 <= n <= 40 -> Z.of_nat (length l) = 8 * n ->
  same_random r rnd (n - 2) -> frame_seq fr = n - 1 ->
  m_data fr = take 8 (drop (Z.to_nat (8 * (n - 1))) l) ->
  let '(ret, rb') := lib_ringbuffer_putforce rb (take (Z.to_nat (u8 (8 * n))) (filled l n)) in
  tail_frame (holding (collecting l (n - 2) r)) (set_buf f id (collecting l (n - 2) r)) rb id
    (collecting l (n - 2) r) fr = Some (ret, set_ring (holding zero_buf) rb').
Proof using Hbufs.
  intros Hn Hl Hr Hseq Hd.
  destruct (lib_ringbuffer_putforce rb _) as [ret rb'] eqn:Eput. unfold tail_frame.
  cbn [collecting data random cnt len has_frame_head]. rewrite Hseq, Hd.
  replace (n - 2 + 1) with (n - 1) by lia. rewrite fill_next by lia. cbn [mbind option_bind].
  cbn [cnt has_frame_head random data len]. rewrite (u8_small (n - 1)) by (unfold is_u; lia).
  rewrite Z.eqb_refl. cbn [Z.eqb negb orb Pos.eqb].
  pose proof Hr as [Hlen Hsame]. unfold bput. rewrite bool_decide_eq_true_2 by lia. cbn [mbind option_bind].
  rewrite (no_random_errors _ rnd) by
    (lia || (split; [by rewrite length_insert|]; intros j Hj; rewrite list_lookup_insert_ne by lia; by apply Hsame)).
  cbn [Z.eqb]. rewrite u8_add8. replace (8 * (n - 1) + 8) with (8 * n) by lia.
  replace (n - 1 + 1) with n by lia. rewrite Eput. unfold holding. by rewrite set_pack_twice, set_buf_twice.
Qed.

(** The whole message, frame by frame. *)
Lemma explain_app ct xs ys : explain ct (xs ++ ys) = (ct ← explain ct xs; explain ct ys).
Proof.
  revert ct. induction xs as [|x xs IH]; intros ct; [done|]. cbn [app explain].
  destruct (stake_cmd_buf_put ct (decode_meta x)) as [[ret ct']|]; [|done]. apply IH.
Qed.

End Receiver.

(** ** From sender to receiver *)

Section EndToEnd.
Context `{LibGeneral}.
Context (snd rcv : ctos) (f : stake_frame) (rb : ring) (dest prio : Z) (buf : list Z) (n : Z).
Context (Hpack : pack_ptr rcv = Some f) (Hring : ringbuffer rcv = Some rb).
Context (Hbufs : length (frame_buf f) = 128%nat).
Context (Hself : uwrap 7 (can_id snd) <> can_id rcv).

Abbreviation sid := (uwrap 7 (can_id snd)).

Lemma sid_range : 0 <= sid < 128.
Proof. by apply (is_u_uwrap 7). Qed.

Lemma message_frame_ok rnd i : meta_ok (message_frame dest prio buf n snd rnd i).
Proof.
  split; cbn [message_frame new_meta d_addr s_addr frame_mark frame_seq m_random rsv priority err rtr eff];
    try (by apply is_u_uwrap); try (vm_compute; split; congruence).
  unfold mark_of. destruct (i =? 0), (i =? n - 1); vm_compute; split; congruence.
Qed.

Lemma from_message rnd i : from_stake sid (message_frame dest prio buf n snd rnd i).
Proof. done. Qed.

Context (Hlen : 8 * (n - 1) < Z.of_nat (length buf) <= 8 * n).
Abbreviation l := (padded buf n).

Lemma middles k : forall m r rnd, same_random r (uwrap 3 rnd) m -> 0 <= m -> m + Z.of_nat k <= n - 2 ->
  n <= 40 -> exists r',
  explain (holding rcv f sid (collecting l m r)) (message_frames dest prio buf n snd rnd (m + 1) k) =
    Some (holding rcv f sid (collecting l (m + Z.of_nat k) r')) /\
  same_random r' (uwrap 3 rnd) (m + Z.of_nat k).
Proof using Hring Hbufs Hself Hlen.
  induction k as [|k IH]; intros m r rnd Hr Hm Hk Hn.
  { exists r. rewrite Z.add_0_r. by cbn [message_frames map explain seqZ]. }
  unfold message_frames. rewrite (seqZ_cons (m + 1)) by lia. cbn [map explain].
  rewrite decode_encode by apply message_frame_ok.
  destruct (collect_middle l m r (uwrap 3 rnd) (message_frame dest prio buf n snd rnd (m + 1)))
    as (r' & Hmid & Hr'); try done; try lia.
  { rewrite length_padded by lia. lia. }
  { cbn. apply uwrap_small. unfold is_u. lia. }
  assert (Hmark : frame_mark (message_frame dest prio buf n snd rnd (m + 1)) = CAN_FRAME_MARK_MIDDLE)
    by (cbn; unfold mark_of; by rewrite !(proj2 (Z.eqb_neq _ _)) by lia).
  rewrite (put_middle_state rcv f rb sid Hring Hbufs sid_range Hself _ _ _ (from_message _ _) Hmark Hmid).
  cbn [mbind option_bind]. destruct (IH (m + 1) r' rnd Hr') as (r'' & E & Hr''); [lia..|].
  exists r''. unfold message_frames in E.
  replace (Z.succ (m + 1)) with (m + 1 + 1) by lia. replace (Z.pred (Z.of_nat (S k))) with (Z.of_nat k) by lia.
  replace (m + Z.of_nat (S k)) with (m + 1 + Z.of_nat k) by lia. done.
Qed.

Lemma message_head rnd : 2 <= n <= 40 ->
  head_frame (message_frame dest prio buf n snd rnd 0) =
  Some (collecting l 0 (<[0%nat := uwrap 3 rnd]> (replicate 64 0))).
Proof using Hlen.
  clear Hbufs Hpack Hring Hself. intros Hn. apply (head_collecting l (message_frame _ _ _ _ _ _ _));
    [done|done|rewrite length_padded; lia].
Qed.

Lemma message_split rnd : 2 <= n ->
  message_frames dest prio buf n snd rnd 0 (Z.to_nat n) =
  encode_meta (message_frame dest prio buf n snd rnd 0) ::
  message_frames dest prio buf n snd rnd (0 + 1) (Z.to_nat (n - 2)) ++
  [encode_meta (message_frame dest prio buf n snd rnd (n - 1))].
Proof.
  clear. intros Hn. unfold message_frames. rewrite !Z2Nat.id, seqZ_cons by lia. cbn [map]. f_equal.
  replace (Z.pred n) with (n - 2 + 1) by lia. rewrite seqZ_app, map_app by lia.
  change (Z.succ 0) with (0 + 1). f_equal. by replace (0 + 1 + (n - 2)) with (n - 1) by lia.
Qed.

Lemma message_tail rnd r : 2 <= n <= 40 -> same_random r (uwrap 3 rnd) (n - 2) -> exists ret,
  stake_cmd_buf_put (holding rcv f sid (collecting l (n - 2) r))
    (message_frame dest prio buf n snd rnd (n - 1)) =
  Some (ret, set_ring (holding rcv f sid zero_buf)
    (lib_ringbuffer_putforce rb (take (Z.to_nat (u8 (8 * n))) (filled l n))).2).
Proof using Hring Hbufs Hself Hlen.
  intros Hn Hr. assert (Hl : Z.of_nat (length l) = 8 * n) by (rewrite length_padded; lia).
  assert (Hmark : frame_mark (message_frame dest prio buf n snd rnd (n - 1)) = CAN_FRAME_MARK_TAIL).
  { cbn [message_frame new_meta frame_mark]. unfold mark_of.
    by rewrite (proj2 (Z.eqb_neq _ _)), Z.eqb_refl by lia. }
  assert (Hseq : frame_seq (message_frame dest prio buf n snd rnd (n - 1)) = n - 1)
    by (apply uwrap_small; unfold is_u; lia).
  rewrite (put_tail_state rcv f rb sid Hring Hbufs sid_range Hself _ _ (from_message _ _) Hmark).
  pose proof (collect_tail rcv f rb sid Hbufs l n r (uwrap 3 rnd)
    (message_frame dest prio buf n snd rnd (n - 1)) Hn Hl Hr Hseq eq_refl) as Htail.
  destruct (lib_ringbuffer_putforce rb _) as [ret rb']. exists ret. exact Htail.
Qed.

Lemma explain_cons ct m fs ret ct' : meta_ok m -> stake_cmd_buf_put ct m = Some (ret, ct') ->
  explain ct (encode_meta m :: fs) = explain ct' fs.
Proof. intros Hm E. cbn [explain]. by rewrite decode_encode, E. Qed.

(** The receiver hands over [8n mod 256] bytes of the padded message. *)
Lemma explain_message rnd : 2 <= n <= 40 ->
  explain rcv (message_frames dest prio buf n snd rnd 0 (Z.to_nat n)) =
  Some (set_ring (holding rcv f sid zero_buf)
    (lib_ringbuffer_putforce rb (take (Z.to_nat (u8 (8 * n))) (filled l n))).2).
Proof using Hpack Hring Hbufs Hself Hlen.
  intros Hn. rewrite message_split by lia.
  pose proof (put_head_state rcv f rb sid Hbufs sid_range Hself rcv f _ _ Hpack Hring eq_refl Hbufs
    (from_message rnd 0) eq_refl (message_head rnd Hn)) as Hhead.
  rewrite (explain_cons _ _ _ _ _ (message_frame_ok rnd 0) Hhead), explain_app.
  destruct (middles (Z.to_nat (n - 2)) 0 (<[0%nat := uwrap 3 rnd]> (replicate 64 0)) rnd)
    as (r & E & Hr); [split; [reflexivity|lia]|lia..|].
  unfold holding at 1 in E. rewrite E. rewrite Z2Nat.id, Z.add_0_l in Hr by lia.
  rewrite Z2Nat.id, Z.add_0_l by lia.
  destruct (message_tail rnd r Hn Hr) as [ret Htail].
  change (explain (holding rcv f sid (collecting l (n - 2) r))
    [encode_meta (message_frame dest prio buf n snd rnd (n - 1))] =
    Some (set_ring (holding rcv f sid zero_buf)
      (lib_ringbuffer_putforce rb (take (Z.to_nat (u8 (8 * n))) (filled l n))).2)).
  by rewrite (explain_cons _ _ _ _ _ (message_frame_ok rnd (n - 1)) Htail).
Qed.

End EndToEnd.

(** ** Messages that arrive, and messages that do not *)

Definition frame_count (len : Z) : Z := len / 8 + (if len mod 8 =? 0 then 0 else 1).

Lemma frame_count_bounds len : 8 * (frame_count len - 1) < len <= 8 * frame_count len.
Proof. unfold frame_count. destruct (Z.eqb_spec (len mod 8) 0); zdm. Qed.

Lemma meta_copy_all buf : length buf = 8%nat -> meta_copy buf (0 * 8) 8 = Some buf.
Proof. intros Hl. do 8 (destruct buf as [|? buf]; [done|]). by destruct buf. Qed.

(** Up to 248 bytes the length counter of the receiver holds the whole message. *)
Lemma whole_message buf : 9 <= Z.of_nat (length buf) <= 248 ->
  let n := frame_count (Z.of_nat (length buf)) in
  take (Z.to_nat (u8 (8 * n))) (filled (padded buf n) n) = padded buf n.
Proof.
  intros Hlen n. pose proof (frame_count_bounds (Z.of_nat (length buf))) as Hb. fold n in Hb.
  rewrite u8_small by (unfold is_u; lia). unfold filled.
  pose proof (length_padded buf n ltac:(lia)) as Hpl.
  rewrite (take_ge (padded buf n)), take_app_le, take_ge by lia. done.
Qed.

Section Delivery.
Context `{LibGeneral}.
Context (snd rcv : ctos) (f : stake_frame) (rb : ring) (dest prio : Z) (buf : list Z).
Context (Hpack : pack_ptr rcv = Some f) (Hring : ringbuffer rcv = Some rb).
Context (Hbufs : length (frame_buf f) = 128%nat).
Context (Hself : uwrap 7 (can_id snd) <> can_id rcv).
Context (Hw : writes_all).

Abbreviation sid := (uwrap 7 (can_id snd)).
Abbreviation buflen := (Z.of_nat (length buf)).

(** A message of two frames or more is sent as its frames and collected from them. *)
Lemma delivery : 9 <= buflen <= 320 -> exists fs snd',
  lib_ctos_put_priority snd dest buf buflen prio = Some (LIB_CTOS_EOK, snd') /\
  sockfd snd' = send_all (sockfd snd) fs /\
  explain rcv fs = Some (set_ring (holding rcv f sid zero_buf) (lib_ringbuffer_putforce rb
    (take (Z.to_nat (u8 (8 * frame_count buflen)))
       (filled (padded buf (frame_count buflen)) (frame_count buflen)))).2).
Proof using Hpack Hring Hbufs Hself Hw.
  intros Hlen. pose proof (frame_count_bounds buflen) as Hb. set (n := frame_count buflen) in *.
  unfold lib_ctos_put_priority. destruct (frame_sn_get snd) as [rnd ct] eqn:E.
  injection E as Ernd Ect. fold (frame_count buflen). fold n.
  rewrite (proj2 (Z.eqb_neq n 1)) by lia.
  pose proof (put_loop_sends dest prio buf n (Z.to_nat n) 0 ct rnd Hw) as Hput.
  rewrite Z.min_l, Z.mul_0_r in Hput by lia. rewrite Hput by lia.
  exists (message_frames dest prio buf n snd rnd 0 (Z.to_nat n)), (set_net ct
    (send_all (sockfd ct) (message_frames dest prio buf n ct rnd 0 (Z.to_nat n)))).
  split; [done|]. split; [by rewrite <- Ect|].
  apply (explain_message snd rcv f rb dest prio buf n Hpack Hring Hbufs Hself Hb). lia.
Qed.

(** C5: a message of 9 to 248 bytes arrives: the frames [lib_ctos_put_priority] writes,
    received in order by any station with a different address and whatever its buffer for
    that stake held before, put exactly the message, padded with zeros to whole frames,
    into the ring buffer, and leave the stake's buffer cleared. *)
Theorem ctos_message_roundtrip : 9 <= buflen <= 248 -> exists fs snd',
  lib_ctos_put_priority snd dest buf buflen prio = Some (LIB_CTOS_EOK, snd') /\
  sockfd snd' = send_all (sockfd snd) fs /\
  explain rcv fs = Some (set_ring (holding rcv f sid zero_buf)
    (lib_ringbuffer_putforce rb (padded buf (frame_count buflen))).2).
Proof using Hpack Hring Hbufs Hself Hw.
  intros Hlen. destruct delivery as (fs & snd' & E1 & E2 & E3); [lia|].
  exists fs, snd'. by rewrite E3, whole_message.
Qed.

(** A message of 249 to 256 bytes is lost: the receiver's length counter is one byte
    and 32 frames bring it back to zero, so the complete message is handed to the ring
    buffer as zero bytes. *)
Theorem ctos_32_frames_lost : 249 <= buflen <= 256 -> exists fs snd',
  lib_ctos_put_priority snd dest buf buflen prio = Some (LIB_CTOS_EOK, snd') /\
  sockfd snd' = send_all (sockfd snd) fs /\
  explain rcv fs = Some (set_ring (holding rcv f sid zero_buf) (lib_ringbuffer_putforce rb []).2).
Proof using Hpack Hring Hbufs Hself Hw.
  intros Hlen. destruct delivery as (fs & snd' & E1 & E2 & E3); [lia|].
  pose proof (frame_count_bounds buflen) as Hb. replace (frame_count buflen) with 32 in * by lia.
  exists fs, snd'. by split_and!.
Qed.

(** The frames of a one-frame message. *)
Definition single_frames (rnd : Z) : list (list Z) :=
  [encode_meta (new_meta snd dest prio 0 rnd CAN_FRAME_MARK_SINGLE (replicate 8 0));
   encode_meta (new_meta snd dest prio 0 rnd CAN_FRAME_MARK_HEAD buf)].

Lemma new_meta_ok seq rnd mark d : is_u 2 mark -> meta_ok (new_meta snd dest prio seq rnd mark d).
Proof.
  intros. split; cbn [new_meta d_addr s_addr frame_mark frame_seq m_random rsv priority err rtr eff];
    try (by apply is_u_uwrap); try (vm_compute; split; congruence). done.
Qed.

Lemma single_put m : err m = 0 -> s_addr m = sid -> frame_mark m = CAN_FRAME_MARK_SINGLE ->
  exists ret g, length (frame_buf g) = 128%nat /\ stake_cmd_buf_put rcv m =
    Some (ret, set_ring (set_pack rcv g) (lib_ringbuffer_putforce rb (m_data m)).2).
Proof using Hpack Hring Hbufs Hself.
  intros He Hs Hm. unfold stake_cmd_buf_put. rewrite Hpack, He, Hring, Hs, Hm.
  pose proof (sid_range snd) as Hid. cbn [Z.eqb].
  rewrite (proj2 (Z.leb_gt _ _)), (proj2 (Z.eqb_neq _ _)) by (done || unfold STAKE_NUM_MAX; lia).
  cbn [orb]. destruct (lookup_lt_is_Some_2 (frame_buf f) (Z.to_nat sid)) as [b ->]; [lia|].
  cbn [mbind option_bind]. change (CAN_FRAME_MARK_SINGLE =? CAN_FRAME_MARK_HEAD) with false.
  change (CAN_FRAME_MARK_SINGLE =? CAN_FRAME_MARK_MIDDLE) with false.
  change (CAN_FRAME_MARK_SINGLE =? CAN_FRAME_MARK_TAIL) with false. cbv iota.
  destruct (lib_ringbuffer_putforce rb (m_data m)) as [ret rb'].
  eexists ret, _. split; [|reflexivity]. cbn [set_buf frame_buf]. by rewrite length_insert.
Qed.

Lemma single_sent : buflen = 8 -> exists rnd snd',
  lib_ctos_put_priority snd dest buf buflen prio = Some (LIB_CTOS_EOK, snd') /\
  sockfd snd' = send_all (sockfd snd) (single_frames rnd).
Proof using Hw.
  clear Hbufs Hpack Hring Hself. intros Hlen. unfold lib_ctos_put_priority.
  destruct (frame_sn_get snd) as [rnd ct] eqn:E.
  injection E as Ernd Ect. rewrite Hlen. change (8 / 8 + _) with 1. cbv zeta.
  change (Z.to_nat 1) with 1%nat. cbn [put_loop Z.eqb Pos.eqb]. rewrite meta_copy_all by lia.
  exists rnd. unfold single_frames. cbn [send_all fold_left].
  change (new_meta snd) with (new_meta (set_sn snd rnd)). change (sockfd snd) with (sockfd (set_sn snd rnd)).
  subst rnd. rewrite Ect.
  set (e1 := encode_meta (new_meta ct dest prio 0 _ _ (replicate 8 0))).
  set (e2 := encode_meta (new_meta ct dest prio 0 _ _ buf)).
  pose proof (Hw (sockfd ct) e1) as H1. destruct (lib_writen (sockfd ct) e1) as [ret s].
  cbn [fst Datatypes.snd] in *. subst ret. change (Z.of_nat (length e1) =? 16) with true. cbv iota.
  cbn [mbind option_bind sockfd set_net]. change (new_meta (set_net ct s)) with (new_meta ct). fold e2.
  pose proof (Hw s e2) as H2. destruct (lib_writen s e2) as [ret s']. cbn [fst Datatypes.snd] in *. subst ret.
  replace (Z.of_nat (length e2)) with 16 by (unfold e2; rewrite length_encode_meta; cbn [new_meta m_data]; lia).
  by eexists.
Qed.

Lemma single_received rnd : buflen = 8 -> exists rcv', explain rcv (single_frames rnd) = Some rcv' /\
  ringbuffer rcv' = Some (lib_ringbuffer_putforce rb (replicate 8 0)).2.
Proof using Hpack Hring Hbufs Hself.
  intros Hlen.
  destruct (single_put (new_meta snd dest prio 0 rnd CAN_FRAME_MARK_SINGLE (replicate 8 0)) eq_refl eq_refl eq_refl)
    as (ret & g & Hg & Hput). cbn [new_meta m_data] in Hput.
  set (rb' := (lib_ringbuffer_putforce rb (replicate 8 0)).2) in *.
  assert (Hhead : is_Some (head_frame (new_meta snd dest prio 0 rnd CAN_FRAME_MARK_HEAD buf))).
  { unfold head_frame, bcopy, bput. cbn [new_meta frame_seq m_data zero_buf data random].
    change (uwrap 6 0) with 0. unfold STAKE_BUF_MAX, STAKE_FRAME_MAX.
    rewrite length_replicate, bool_decide_eq_true_2 by lia. cbn [mbind option_bind].
    rewrite length_replicate, bool_decide_eq_true_2 by lia. by eexists. }
  destruct Hhead as [b Hhead].
  pose proof (put_head_state rcv f rb' sid Hbufs (sid_range snd) Hself (set_ring (set_pack rcv g) rb') g
    (new_meta snd dest prio 0 rnd CAN_FRAME_MARK_HEAD buf) b eq_refl eq_refl eq_refl Hg (conj eq_refl eq_refl) eq_refl Hhead) as Hput2.
  unfold single_frames.
  rewrite (explain_cons _ _ _ _ _ (new_meta_ok _ _ CAN_FRAME_MARK_SINGLE _ ltac:(vm_compute; split; congruence)) Hput).
  rewrite (explain_cons _ _ _ _ _ (new_meta_ok _ _ CAN_FRAME_MARK_HEAD _ ltac:(vm_compute; split; congruence)) Hput2).
  by eexists.
Qed.

(** An eight-byte message is lost: the sender marks a one-frame message with a SINGLE
    frame but never copies the data into it, and sends the data in a HEAD frame that no
    TAIL follows; the receiver delivers eight zero bytes whatever the message was. *)
Theorem ctos_single_frame_lost : buflen = 8 -> exists fs snd' rcv',
  lib_ctos_put_priority snd dest buf buflen prio = Some (LIB_CTOS_EOK, snd') /\
  sockfd snd' = send_all (sockfd snd) fs /\
  explain rcv fs = Some rcv' /\
  ringbuffer rcv' = Some (lib_ringbuffer_putforce rb (replicate 8 0)).2.
Proof using Hpack Hring Hbufs Hself Hw.
  intros Hlen. destruct (single_sent Hlen) as (rnd & snd' & E1 & E2).
  destruct (single_received rnd Hlen) as (rcv' & E3 & E4). by exists (single_frames rnd), snd', rcv'.
Qed.

(** A message of fewer than eight bytes makes the sender read past it: with a buffer
    of exactly [len] bytes the copy of eight bytes into the HEAD frame leaves the buffer. *)
Theorem ctos_short_overread : 0 < buflen < 8 -> lib_ctos_put_priority snd dest buf buflen prio = None.
Proof using Hw.
  clear Hbufs Hpack Hring Hself. intros Hlen. unfold lib_ctos_put_priority.
  destruct (frame_sn_get snd) as [rnd ct].
  fold (frame_count buflen). pose proof (frame_count_bounds buflen) as Hb.
  replace (frame_count buflen) with 1 by lia. change (Z.to_nat 1) with 1%nat. cbv zeta.
  cbn [put_loop Z.eqb Pos.eqb].
  set (e1 := encode_meta _). pose proof (Hw (sockfd ct) e1) as H1.
  destruct (lib_writen (sockfd ct) e1) as [ret s]. cbn [fst] in H1. subst ret.
  change (Z.of_nat (length e1) =? 16) with true. cbv iota.
  unfold meta_copy. rewrite (proj2 (Z.leb_gt (0 * 8 + 8) (Z.of_nat (length buf)))) by lia.
  by rewrite andb_false_r.
Qed.

End Delivery.

(** ** The random number of a message *)

Lemma split_chunks (a b c : list Z) : length a = 8%nat -> length b = 8%nat -> length c = 8%nat ->
  take 8 (drop (Z.to_nat (8 * 0)) (a ++ b ++ c)) = a /\
  take 8 (drop (Z.to_nat (8 * 1)) (a ++ b ++ c)) = b /\
  take 8 (drop (Z.to_nat (8 * 2)) (a ++ b ++ c)) = c.
Proof.
  intros Ha Hb Hc. change (Z.to_nat (8 * 0)) with 0%nat. change (Z.to_nat (8 * 1)) with 8%nat.
  change (Z.to_nat (8 * 2)) with (8 + 8)%nat. rewrite <- drop_drop, drop_0.
  rewrite (drop_app_length' a), (drop_app_length' b), !take_app_length', (take_ge c) by lia. done.
Qed.

Section Randoms.
Context `{LibGeneral}.
Context (rcv : ctos) (f : stake_frame) (rb : ring) (id : Z).
Context (Hpack : pack_ptr rcv = Some f) (Hring : ringbuffer rcv = Some rb).
Context (Hbufs : length (frame_buf f) = 128%nat) (Hid : 0 <= id < 128) (Hself : id <> can_id rcv).

(** Frame [seq] of a three-frame message of stake [id]. *)
Definition three_frame (m : can_frame_metadata) (seq : Z) : Prop :=
  from_stake id m /\ frame_seq m = seq /\ length (m_data m) = 8%nat /\
  frame_mark m = (if seq =? 0 then CAN_FRAME_MARK_HEAD
                  else if seq =? 1 then CAN_FRAME_MARK_MIDDLE else CAN_FRAME_MARK_TAIL).

(** The random number that should tie the frames of a message together is not
    checked on its first and last frame: the middle frame overwrites the head's entry and
    the loop stops before the tail's, so any head, middle and tail of a stake are joined
    into one message and delivered, whatever three random numbers they carry. *)
Theorem ctos_three_frames_random_unchecked h m t :
  three_frame h 0 -> three_frame m 1 -> three_frame t 2 ->
  exists rcv1 rcv2 ret,
    stake_cmd_buf_put rcv h = Some (LIB_CTOS_EOK, rcv1) /\
    stake_cmd_buf_put rcv1 m = Some (LIB_CTOS_EOK, rcv2) /\
    stake_cmd_buf_put rcv2 t = Some (ret, set_ring (holding rcv f id zero_buf)
      (lib_ringbuffer_putforce rb (m_data h ++ m_data m ++ m_data t)).2).
Proof using Hpack Hring Hbufs Hid Hself.
  intros (Hh & Hhs & Hhd & Hhm) (Hm & Hms & Hmd & Hmm) (Ht & Hts & Htd & Htm).
  set (l := m_data h ++ m_data m ++ m_data t).
  assert (Hl : Z.of_nat (length l) = 8 * 3) by (unfold l; rewrite !length_app; lia).
  destruct (split_chunks _ _ _ Hhd Hmd Htd) as (C0 & C1 & C2). fold l in C0, C1, C2.
  pose proof (put_head_state rcv f rb id Hbufs Hid Hself rcv f h _ Hpack Hring eq_refl Hbufs Hh Hhm
    (head_collecting l h Hhs (eq_sym C0) ltac:(lia))) as E1.
  destruct (collect_middle l 0 (<[0%nat := m_random h]> (replicate 64 0)) (m_random m) m)
    as (r & Hmid & Hr); [lia..|split; [reflexivity|lia]|done|done|done|].
  pose proof (put_middle_state rcv f rb id Hring Hbufs Hid Hself _ m _ Hm Hmm Hmid) as E2.
  pose proof (put_tail_state rcv f rb id Hring Hbufs Hid Hself (collecting l (0 + 1) r) t Ht Htm) as E3.
  pose proof (collect_tail rcv f rb id Hbufs l 3 r (m_random m) t ltac:(lia) Hl Hr Hts (eq_sym C2)) as E4.
  destruct (lib_ringbuffer_putforce rb _) as [ret rb'] eqn:Eput.
  exists (holding rcv f id (collecting l 0 (<[0%nat := m_random h]> (replicate 64 0)))),
    (holding rcv f id (collecting l (0 + 1) r)), ret.
  split; [exact E1|]. split; [exact E2|]. rewrite E3.
  replace (take (Z.to_nat (u8 (8 * 3))) (filled l 3)) with l in Eput.
  - rewrite Eput. exact E4.
  - change (Z.to_nat (u8 (8 * 3))) with 24%nat. unfold filled. change (Z.to_nat (8 * 3)) with 24%nat.
    by rewrite (take_ge l), take_app_le, take_ge by lia.
Qed.

End Randoms.

(** ** Concrete instances: a bus and a ring buffer that keep everything *)

Definition Loopback : LibGeneral := {|
  ring := list (list Z);
  lib_ringbuffer_putforce := fun r d => (Z.of_nat (length d), r ++ [d]);
  lib_ringbuffer_getforce := fun r n =>
    match r with d :: r => (Z.of_nat (length d), take (Z.to_nat n) d, r) | [] => (0, [], []) end;
  lib_ringbuffer_getchar := fun r =>
    match r with (c :: d) :: r => (1, [c], d :: r) | _ => (0, [], r) end;
  net := list (list Z);
  lib_writen := fun s d => (Z.of_nat (length d), s ++ [d]) |}.

Definition empty_frame : stake_frame := mk_frame 0 0 (replicate 128 zero_buf).
Definition station (addr : Z) : @ctos Loopback :=
  @mk_ctos Loopback 0 addr 3 0 600 (Some empty_frame) (Some []) [].

Lemma ctos_message_roundtrip_witness :
  exists fs snd', lib_ctos_put_priority (station 3) 9 (seqZ 1 20) 20 0 = Some (LIB_CTOS_EOK, snd') /\
  sockfd snd' = send_all (H := Loopback) [] fs /\
  explain (station 9) fs = Some (set_ring (holding (station 9) empty_frame 3 zero_buf)
    [seqZ 1 20 ++ [0; 0; 0; 0]]).
Proof.
  apply (ctos_message_roundtrip (H := Loopback) (station 3) (station 9) empty_frame [] 9 0 (seqZ 1 20)).
  - reflexivity.
  - reflexivity.
  - reflexivity.
  - vm_compute. discriminate.
  - intros s d. reflexivity.
  - vm_compute. split; discriminate.
Defined.

Lemma ctos_32_frames_lost_witness :
  exists fs snd', lib_ctos_put_priority (station 3) 9 (seqZ 0 256) 256 0 = Some (LIB_CTOS_EOK, snd') /\
  sockfd snd' = send_all (H := Loopback) [] fs /\
  explain (station 9) fs = Some (set_ring (holding (station 9) empty_frame 3 zero_buf) [[]]).
Proof.
  apply (ctos_32_frames_lost (H := Loopback) (station 3) (station 9) empty_frame [] 9 0 (seqZ 0 256)).
  - reflexivity.
  - reflexivity.
  - reflexivity.
  - vm_compute. discriminate.
  - intros s d. reflexivity.
  - vm_compute. split; discriminate.
Defined.

Lemma ctos_single_frame_lost_witness :
  exists fs snd' rcv', lib_ctos_put_priority (station 3) 9 (seqZ 1 8) 8 0 = Some (LIB_CTOS_EOK, snd') /\
  sockfd snd' = send_all (H := Loopback) [] fs /\
  explain (station 9) fs = Some rcv' /\ ringbuffer rcv' = Some [replicate 8 0].
Proof.
  apply (ctos_single_frame_lost (H := Loopback) (station 3) (station 9) empty_frame [] 9 0 (seqZ 1 8)).
  - reflexivity.
  - reflexivity.
  - reflexivity.
  - vm_compute. discriminate.
  - intros s d. reflexivity.
  - reflexivity.
Defined.

Lemma ctos_short_overread_witness : lib_ctos_put_priority (station 3) 9 [1; 2; 3] 3 0 = None.
Proof.
  apply (ctos_short_overread (H := Loopback) (station 3) 9 0 [1; 2; 3]).
  - intros s d. reflexivity.
  - vm_compute. split; reflexivity.
Defined.

Lemma ctos_three_frames_random_unchecked_witness :
  let fr seq mark rnd d := mk_meta 9 3 mark seq rnd 0 0 0 0 1 8 d in
  exists rcv1 rcv2 ret,
    stake_cmd_buf_put (station 9) (fr 0 1 5 (seqZ 0 8)) = Some (LIB_CTOS_EOK, rcv1) /\
    stake_cmd_buf_put rcv1 (fr 1 2 6 (seqZ 8 8)) = Some (LIB_CTOS_EOK, rcv2) /\
    stake_cmd_buf_put rcv2 (fr 2 3 7 (seqZ 16 8)) =
      Some (ret, set_ring (holding (station 9) empty_frame 3 zero_buf) [seqZ 0 24]).
Proof.
  intros fr. apply (ctos_three_frames_random_unchecked (H := Loopback) (station 9) empty_frame [] 3).
  - reflexivity.
  - reflexivity.
  - reflexivity.
  - lia.
  - vm_compute. discriminate.
  - repeat split.
  - repeat split.
  - repeat split.
Defined.
