(* ===== verification/CtosThreads.v ===== *)
(** * The threads of the CAN adapter (src/cantoserial/ctos.c)

    Three threads share a [ctos]: [can_recv_thread] reads frames from the
    socket into a queue, [can_explain_thread] takes them from the queue,
    collects messages and puts them into the ring buffer, and the program reads
    the ring buffer with [lib_ctos_get].  The queue has a lock of its own; the
    ring buffer is guarded by [ctos->mutex].

    Here each thread is a sequence of small steps, cut at the lock operations,
    and a schedule is any list of steps of the three.  The theorem: whatever
    the schedule, the calls take effect one at a time in some order, as in the
    sequential model of [Ctos], and no frame accepted by the queue is lost,
    duplicated or reordered; the mutex is never held by two threads, and its
    holder can always go on.

    The second part is the life of the adapter: [lib_ctos_create] with every
    failure, and [lib_ctos_destroy]. *)

From S2P Require Import Prelude Ctos CtosProofs.

(** ** The queue of lib_general *)

Class RegularRb := {
  rb : Type;
  lib_regular_rb_put : rb -> list Z -> Z * rb;
  lib_regular_rb_get : rb -> option (list Z) * rb;
  rb_frames : rb -> list (list Z) }.

(** It is a first-in first-out queue of blocks: a put that returns
    [LIB_GE_EOK] appends, any other leaves the queue alone; a get takes the
    oldest block and fails only on the empty queue. *)
Class RegularRbLaws `{RegularRb} : Prop := {
  rb_put_law q f : rb_frames (snd (lib_regular_rb_put q f)) =
    rb_frames q ++ (if fst (lib_regular_rb_put q f) =? 0 then [f] else []);
  rb_get_law q : match rb_frames q with
    | [] => fst (lib_regular_rb_get q) = None /\ rb_frames (snd (lib_regular_rb_get q)) = []
    | f :: fs => fst (lib_regular_rb_get q) = Some f /\ rb_frames (snd (lib_regular_rb_get q)) = fs
    end }.

Section Threads.
Context `{LibGeneral} `{RegularRb}.

(** ** [stake_cmd_buf_put] up to the lock

    Either it returns without touching the ring buffer, or it goes on to put
    [bytes]; [now] and [fin] are the frame buffers at that moment and at the
    end, after the last [memset]. *)
Inductive collected :=
  | Done (ret : Z) (ct : ctos)
  | Emit (bytes : list Z) (now fin : stake_frame).

Definition tail_collect (ct : ctos) (f : stake_frame) (id : Z) (b : stake_frame_buf)
    (m : can_frame_metadata) : option collected :=
  d ← bcopy (data b) (frame_seq m * 8) (m_data m);
  let old := cnt b in
  let b := mk_buf (has_frame_head b) (u8 (cnt b + 1)) (len b) (random b) d in
  if negb (cnt b =? frame_seq m) || negb (has_frame_head b =? 1)
  then Some (Done LIB_CTOS_EXCMEM (set_pack ct (set_buf f id b)))
  else
    r ← bput (random b) old (m_random m);
    let b := mk_buf 0 (cnt b) (u8 (len b + 8)) r (data b) in
    let errors := random_errors r old in
    if errors =? 0 then
      Some (Emit (take (Z.to_nat (len b)) (data b)) (set_buf f id b) (set_buf f id zero_buf))
    else
      let f := mk_frame (err_statistics f) (u32 (err_random f + errors)) (frame_buf f) in
      Some (Done LIB_CTOS_ERROR (set_pack ct (set_buf f id zero_buf))).

Definition collect (ct : ctos) (m : can_frame_metadata) : option collected :=
  match pack_ptr ct with
  | None => Some (Done LIB_CTOS_ERROR ct)
  | Some f =>
      if err m =? 1 then
        Some (Done LIB_CTOS_ERROR (set_pack ct
          (mk_frame (u32 (err_statistics f + 1)) (err_random f) (frame_buf f))))
      else match ringbuffer ct with
      | None => Some (Done LIB_CTOS_ERROR ct)
      | Some _ =>
          let id := s_addr m in
          if (STAKE_NUM_MAX <=? id) || (id =? can_id ct) then Some (Done LIB_CTOS_ERROR ct)
          else
            b ← frame_buf f !! Z.to_nat id;
            let mark := frame_mark m in
            if mark =? CAN_FRAME_MARK_HEAD then
              b ← head_frame m; Some (Done LIB_CTOS_EOK (set_pack ct (set_buf f id b)))
            else if mark =? CAN_FRAME_MARK_MIDDLE then
              b ← middle_frame b m; Some (Done LIB_CTOS_EOK (set_pack ct (set_buf f id b)))
            else if mark =? CAN_FRAME_MARK_TAIL then tail_collect ct f id b m
            else
              let b := mk_buf (has_frame_head b) (cnt b) 8 (random b) (data b) in
              Some (Emit (m_data m) (set_buf f id b) (set_buf f id b))
      end
  end.

(** ** Steps *)

(** Where [can_explain_thread] is. *)
Inductive explain_pc :=
  | EIdle                                             (* before lib_regular_rb_get *)
  | EGot (f : list Z)                                 (* has a frame *)
  | EWait (f bytes : list Z) (fin : stake_frame)      (* before lib_mutex_lock *)
  | EHeld (f bytes : list Z) (fin : stake_frame)      (* before lib_ringbuffer_putforce *)
  | EUnlock (fin : stake_frame)                       (* before lib_mutex_unlock *)
  | EClear (fin : stake_frame).                       (* before the memset *)

(** Where the caller of [lib_ctos_get] is. *)
Inductive client_pc :=
  | CIdle
  | CWait (len : Z)
  | CHeld (len : Z)
  | CUnlock (ret : Z) (d : list Z).

Inductive thread := Explain | Client.

Record sys := mk_sys {
  s_ct : ctos;
  s_queue : rb;
  s_mutex : option thread;
  s_explain : explain_pc;
  s_client : client_pc;
  s_accepted : list (list Z);             (* frames the queue took, in order *)
  s_results : list (Z * list Z) }.        (* what lib_ctos_get returned, in order *)

(** One turn of [can_recv_thread], with what the socket gave. *)
Definition can_recv_step (read : list Z) (s : sys) : sys :=
  if Z.of_nat (length read) =? 16 then
    let '(ret, q) := lib_regular_rb_put (s_queue s) read in
    mk_sys (s_ct s) q (s_mutex s) (s_explain s) (s_client s)
      (s_accepted s ++ if ret =? 0 then [read] else []) (s_results s)
  else s.

(** [None]: blocked on the mutex, or an access outside an array. *)
Definition can_explain_step (s : sys) : option sys :=
  let go ct q mx pc := mk_sys ct q mx pc (s_client s) (s_accepted s) (s_results s) in
  match s_explain s with
  | EIdle =>
      let '(r, q) := lib_regular_rb_get (s_queue s) in
      Some (go (s_ct s) q (s_mutex s) (match r with Some f => EGot f | None => EIdle end))
  | EGot f =>
      c ← collect (s_ct s) (decode_meta f);
      match c with
      | Done _ ct => Some (go ct (s_queue s) (s_mutex s) EIdle)
      | Emit bytes now fin => Some (go (set_pack (s_ct s) now) (s_queue s) (s_mutex s) (EWait f bytes fin))
      end
  | EWait f bytes fin =>
      match s_mutex s with
      | None => Some (go (s_ct s) (s_queue s) (Some Explain) (EHeld f bytes fin))
      | Some _ => None
      end
  | EHeld f bytes fin =>
      rb ← ringbuffer (s_ct s);
      let '(_, rb) := lib_ringbuffer_putforce rb bytes in
      Some (go (set_ring (s_ct s) rb) (s_queue s) (s_mutex s) (EUnlock fin))
  | EUnlock fin => Some (go (s_ct s) (s_queue s) None (EClear fin))
  | EClear fin => Some (go (set_pack (s_ct s) fin) (s_queue s) (s_mutex s) EIdle)
  end.

(** [lib_ctos_get] with the length [n] of a new call. *)
Definition client_step (n : Z) (s : sys) : option sys :=
  let go ct mx pc rs := mk_sys ct (s_queue s) mx (s_explain s) pc (s_accepted s) rs in
  match s_client s with
  | CIdle =>
      match ringbuffer (s_ct s) with
      | None => Some (go (s_ct s) (s_mutex s) CIdle (s_results s ++ [(LIB_CTOS_ERROR, [])]))
      | Some _ => Some (go (s_ct s) (s_mutex s) (CWait n) (s_results s))
      end
  | CWait n =>
      match s_mutex s with
      | None => Some (go (s_ct s) (Some Client) (CHeld n) (s_results s))
      | Some _ => None
      end
  | CHeld n =>
      rb ← ringbuffer (s_ct s);
      let '(ret, d, rb) := lib_ringbuffer_getforce rb n in
      Some (go (set_ring (s_ct s) rb) (s_mutex s) (CUnlock ret d) (s_results s))
  | CUnlock ret d => Some (go (s_ct s) None CIdle (s_results s ++ [(ret, d)]))
  end.

Inductive label :=
  | LRecv (read : list Z)
  | LExplain
  | LClient (n : Z).

Definition sys_step (l : label) (s : sys) : option sys :=
  match l with
  | LRecv read => Some (can_recv_step read s)
  | LExplain => can_explain_step s
  | LClient n => client_step n s
  end.

Fixpoint schedule (ls : list label) (s : sys) : option sys :=
  match ls with
  | [] => Some s
  | l :: ls => s ← sys_step l s; schedule ls s
  end.

Definition started (ct : ctos) (q : rb) : sys := mk_sys ct q None EIdle CIdle [] [].

(** ** The sequential system: one call at a time *)

Inductive op :=
  | OFrame (f : list Z)
  | OGet (len : Z).

Definition op_step (o : op) (c : ctos * list (Z * list Z)) : option (ctos * list (Z * list Z)) :=
  match o with
  | OFrame f => '(_, ct) ← stake_cmd_buf_put (fst c) (decode_meta f); Some (ct, snd c)
  | OGet n => let '(ret, d, ct) := lib_ctos_get (fst c) n in Some (ct, snd c ++ [(ret, d)])
  end.

Fixpoint sequential (os : list op) (c : ctos * list (Z * list Z)) : option (ctos * list (Z * list Z)) :=
  match os with
  | [] => Some c
  | o :: os => c ← op_step o c; sequential os c
  end.

Definition op_frames (os : list op) : list (list Z) :=
  concat (map (fun o => match o with OFrame f => [f] | OGet _ => [] end) os).

(** The frame that is taken from the queue and not yet processed. *)
Definition in_flight (pc : explain_pc) : list (list Z) :=
  match pc with EGot f | EWait f _ _ | EHeld f _ _ => [f] | _ => [] end.

(** The result that is computed and not yet returned. *)
Definition pending (pc : client_pc) : list (Z * list Z) :=
  match pc with CUnlock ret d => [(ret, d)] | _ => [] end.

(** The state once the explaining thread has finished what it began. *)
Definition settled (pc : explain_pc) (ct : ctos) : ctos :=
  match pc with EUnlock fin | EClear fin => set_pack ct fin | _ => ct end.
End Threads.

(** ** The small steps refine the calls *)

Section Refinement.
Context `{LibGeneral} `{RegularRbLaws}.

(** [stake_cmd_buf_put] is its first part followed by the put. *)
Lemma put_by_collect (ct : ctos) m : stake_cmd_buf_put ct m =
  (c ← collect ct m;
   match c with
   | Done ret ct => Some (ret, ct)
   | Emit bytes _ fin =>
       rb ← ringbuffer ct;
       let '(ret, rb) := lib_ringbuffer_putforce rb bytes in
       Some (ret, set_ring (set_pack ct fin) rb)
   end).
Proof.
  unfold stake_cmd_buf_put, collect. destruct (pack_ptr ct) as [f|]; [|done].
  destruct (err m =? 1); [done|]. destruct (ringbuffer ct) as [r|]; [|done].
  destruct (_ || _); [done|]. destruct (frame_buf f !! _) as [b|]; [|done]. cbn [mbind option_bind].
  destruct (_ =? CAN_FRAME_MARK_HEAD); [by destruct (head_frame m)|].
  destruct (_ =? CAN_FRAME_MARK_MIDDLE); [by destruct (middle_frame b m)|].
  destruct (_ =? CAN_FRAME_MARK_TAIL).
  - unfold tail_frame, tail_collect. destruct (bcopy _ _ _); [|done]. cbn [mbind option_bind].
    destruct (_ || _); [done|]. destruct (bput _ _ _); [|done]. cbn [mbind option_bind].
    destruct (_ =? 0); [|done]. cbn [mbind option_bind]. by destruct (lib_ringbuffer_putforce _ _).
  - cbn [mbind option_bind]. by destruct (lib_ringbuffer_putforce _ _).
Qed.

(** The first part needs the ring buffer to exist and nothing more of it. *)
Lemma collect_emit_ring (ct : ctos) m bytes now fin :
  collect ct m = Some (Emit bytes now fin) ->
  is_Some (ringbuffer ct) /\ forall r, collect (set_ring ct r) m = Some (Emit bytes now fin).
Proof.
  unfold collect. cbn [pack_ptr set_ring ringbuffer can_id]. destruct (pack_ptr ct) as [f|]; [|done].
  destruct (err m =? 1); [done|]. destruct (ringbuffer ct) as [r0|]; [|done].
  destruct (_ || _); [done|]. destruct (frame_buf f !! _) as [b|]; [|done]. cbn [mbind option_bind].
  destruct (_ =? CAN_FRAME_MARK_HEAD); [by destruct (head_frame m)|].
  destruct (_ =? CAN_FRAME_MARK_MIDDLE); [by destruct (middle_frame b m)|].
  destruct (_ =? CAN_FRAME_MARK_TAIL); [|by eauto].
  unfold tail_collect. destruct (bcopy _ _ _); [|done]. cbn [mbind option_bind].
  destruct (_ || _); [done|]. destruct (bput _ _ _); [|done]. cbn [mbind option_bind].
  destruct (_ =? 0); [|done]. by eauto.
Qed.

Lemma collect_done_ring (ct : ctos) m ret ct' :
  collect ct m = Some (Done ret ct') -> ringbuffer ct' = ringbuffer ct.
Proof.
  unfold collect. destruct (pack_ptr ct) as [f|]; [|by intros [= <- <-]].
  destruct (err m =? 1); [by intros [= <- <-]|].
  destruct (ringbuffer ct) as [r0|] eqn:Er; [|by intros [= <- <-]].
  destruct (_ || _); [by intros [= <- <-]|]. destruct (frame_buf f !! _) as [b|]; [|done].
  cbn [mbind option_bind]. destruct (_ =? CAN_FRAME_MARK_HEAD).
  { destruct (head_frame m); [|done]. by intros [= <- <-]. }
  destruct (_ =? CAN_FRAME_MARK_MIDDLE).
  { destruct (middle_frame b m); [|done]. by intros [= <- <-]. }
  destruct (_ =? CAN_FRAME_MARK_TAIL); [|done].
  unfold tail_collect. destruct (bcopy _ _ _); [|done]. cbn [mbind option_bind].
  destruct (_ || _); [by intros [= <- <-]|]. destruct (bput _ _ _); [|done]. cbn [mbind option_bind].
  destruct (_ =? 0); [done|]. by intros [= <- <-].
Qed.

Lemma sequential_snoc os o c : sequential (os ++ [o]) c = (c ← sequential os c; op_step o c).
Proof.
  revert c. induction os as [|o' os IH]; intros c; cbn [app sequential mbind option_bind].
  - by destruct (op_step o c).
  - destruct (op_step o' c); [apply IH|done].
Qed.

Lemma op_frames_snoc os o : op_frames (os ++ [o]) = op_frames os ++ op_frames [o].
Proof. unfold op_frames. by rewrite map_app, concat_app. Qed.

Definition e_critical (pc : explain_pc) : bool :=
  match pc with EHeld _ _ _ | EUnlock _ => true | _ => false end.
Definition c_critical (pc : client_pc) : bool :=
  match pc with CHeld _ | CUnlock _ _ => true | _ => false end.

(** The concrete adapter against the sequential one. *)
Definition related (pc : explain_pc) (ct a : ctos) : Prop :=
  match pc with
  | EWait f bytes fin | EHeld f bytes fin => exists now,
      ct = set_pack a now /\ collect a (decode_meta f) = Some (Emit bytes now fin)
  | _ => settled pc ct = a
  end.

Record inv (ct0 : ctos) (s : sys) (os : list op) (a : ctos) (rs : list (Z * list Z)) : Prop := {
  i_seq : sequential os (ct0, []) = Some (a, rs);
  i_results : rs = s_results s ++ pending (s_client s);
  i_frames : s_accepted s = op_frames os ++ in_flight (s_explain s) ++ rb_frames (s_queue s);
  i_state : related (s_explain s) (s_ct s) a;
  i_mutex : s_mutex s = if e_critical (s_explain s) then Some Explain
                        else if c_critical (s_client s) then Some Client else None;
  i_excl : e_critical (s_explain s) && c_critical (s_client s) = false;
  i_ring : match s_client s with CIdle => True | _ => is_Some (ringbuffer (s_ct s)) end }.

Lemma recv_inv ct0 s os a rs read : inv ct0 s os a rs -> inv ct0 (can_recv_step read s) os a rs.
Proof using Type*.
  intros I. unfold can_recv_step. destruct (_ =? 16); [|done].
  pose proof (rb_put_law (s_queue s) read) as L.
  destruct (lib_regular_rb_put (s_queue s) read) as [ret q]. cbn [fst snd] in L.
  destruct I. split; try done. cbn [s_accepted s_queue s_explain].
  rewrite L, i_frames0, !app_assoc. done.
Qed.

Lemma explain_inv ct0 s s' os a rs : inv ct0 s os a rs -> can_explain_step s = Some s' ->
  exists os' a', inv ct0 s' os' a' rs.
Proof using Type*.
  intros [Iseq Ires Ifr Ist Imx Iex Irg] E. unfold can_explain_step in E.
  destruct s as [ct q mx pc cpc acc res]; cbn [s_ct s_queue s_mutex s_explain s_client s_accepted s_results] in *.
  destruct pc as [|f|f bytes fin|f bytes fin|fin|fin]; cbn [related settled in_flight e_critical] in *.
  - pose proof (rb_get_law q) as L. destruct (lib_regular_rb_get q) as [r q']. cbn [fst snd] in L.
    injection E as <-. exists os, a.
    destruct (rb_frames q) as [|f fs] eqn:Eq; destruct L as [-> L]; split; cbn; rewrite ?L; done.
  - subst ct. destruct (collect a (decode_meta f)) as [[ret ct'|bytes now fin]|] eqn:Ec; [..|done];
      cbn [mbind option_bind] in E; injection E as <-.
    + exists (os ++ [OFrame f]), ct'. split; cbn; try done.
      * rewrite sequential_snoc, Iseq. cbn [mbind option_bind op_step fst snd].
        rewrite put_by_collect, Ec. done.
      * rewrite op_frames_snoc, Ifr, <- app_assoc. done.
      * apply collect_done_ring in Ec. by rewrite Ec.
    + exists os, a. split; cbn; try done. by exists now.
  - destruct mx as [h|]; [done|]. injection E as <-. exists os, a.
    destruct (c_critical cpc) eqn:Hc; [done|]. split; cbn; rewrite ?Hc; done.
  - destruct Ist as (now & -> & Ec). cbn [ringbuffer set_pack] in E.
    destruct (ringbuffer a) as [r|] eqn:Er; [|done].
    cbn [mbind option_bind] in E. destruct (lib_ringbuffer_putforce r bytes) as [ret r'] eqn:Ep.
    injection E as <-.
    exists (os ++ [OFrame f]), (set_ring (set_pack a fin) r'). split; cbn; try done.
    + rewrite sequential_snoc, Iseq. cbn [mbind option_bind op_step fst snd].
      rewrite put_by_collect, Ec. cbn [mbind option_bind]. rewrite Er. cbn [mbind option_bind].
      by rewrite Ep.
    + rewrite op_frames_snoc, Ifr, <- app_assoc. done.
    + by destruct cpc.
  - injection E as <-. exists os, a. split; cbn; try done.
    cbn [andb] in Iex. by rewrite Iex.
  - injection E as <-. exists os, a. split; cbn; try done.
Qed.

Lemma related_ring pc ct a : related pc ct a -> ringbuffer ct = ringbuffer a.
Proof. destruct pc; cbn; try by intros <-. all: by intros (now & -> & _). Qed.

Lemma related_set_ring pc ct a r : related pc ct a -> related pc (set_ring ct r) (set_ring a r).
Proof.
  destruct pc; cbn; try by intros <-.
  all: intros (now & -> & Ec); exists now; split; [done|]; by apply collect_emit_ring in Ec as [_ ?].
Qed.

Lemma client_inv ct0 s s' n os a rs : inv ct0 s os a rs -> client_step n s = Some s' ->
  exists os' a' rs', inv ct0 s' os' a' rs'.
Proof.
  intros [Iseq Ires Ifr Ist Imx Iex Irg] E. unfold client_step in E.
  destruct s as [ct q mx pc cpc acc res]; cbn [s_ct s_queue s_mutex s_explain s_client s_accepted s_results] in *.
  pose proof (related_ring _ _ _ Ist) as Er.
  destruct cpc as [|m|m|ret d]; cbn [pending c_critical] in *.
  - destruct (ringbuffer ct) as [r|] eqn:Ect; injection E as <-.
    + exists os, a, rs. split; cbn; done.
    + exists (os ++ [OGet n]), a, (rs ++ [(LIB_CTOS_ERROR, [])]). split; cbn; try done.
      * rewrite sequential_snoc, Iseq. cbn. unfold lib_ctos_get. by rewrite <- Er.
      * by rewrite Ires, !app_nil_r.
      * by rewrite op_frames_snoc, app_nil_r.
  - destruct mx; [done|]. injection E as <-. exists os, a, rs.
    destruct (e_critical pc) eqn:He; [done|]. split; cbn; rewrite ?He; done.
  - destruct (ringbuffer ct) as [r|] eqn:Ect; [|done]. cbn [mbind option_bind] in E.
    destruct (lib_ringbuffer_getforce r m) as [[ret d] r'] eqn:Eg. injection E as <-.
    exists (os ++ [OGet m]), (set_ring a r'), (rs ++ [(ret, d)]). split; cbn; try done.
    + rewrite sequential_snoc, Iseq. cbn. unfold lib_ctos_get. rewrite <- Er. cbn. by rewrite Eg.
    + by rewrite Ires, app_nil_r.
    + by rewrite op_frames_snoc, app_nil_r.
    + by apply related_set_ring.
  - injection E as <-. exists os, a, rs. destruct (e_critical pc) eqn:He; [done|].
    split; cbn; rewrite ?He, ?app_nil_r; done.
Qed.

Lemma schedule_inv ct0 ls : forall s s' os a rs, inv ct0 s os a rs -> schedule ls s = Some s' ->
  exists os' a' rs', inv ct0 s' os' a' rs'.
Proof using Type*.
  induction ls as [|l ls IH]; intros s s' os a rs I E; cbn [schedule] in E.
  - injection E as <-. by exists os, a, rs.
  - destruct (sys_step l s) as [s1|] eqn:El; [|done]. cbn [mbind option_bind] in E.
    assert (exists os1 a1 rs1, inv ct0 s1 os1 a1 rs1) as (os1 & a1 & rs1 & I1); [|by eapply IH].
    destruct l; cbn [sys_step] in El.
    + injection El as <-. exists os, a, rs. by apply recv_inv.
    + destruct (explain_inv _ _ _ _ _ _ I El) as (os1 & a1 & I1). by exists os1, a1, rs.
    + by eapply client_inv.
Qed.

(** The holder of the mutex is one thread, and it can take its next step. *)
Lemma holder_steps ct0 s os a rs : inv ct0 s os a rs ->
  match s_mutex s with
  | Some Explain => e_critical (s_explain s) = true /\ c_critical (s_client s) = false /\
                    is_Some (can_explain_step s)
  | Some Client => c_critical (s_client s) = true /\ e_critical (s_explain s) = false /\
                   forall n, is_Some (client_step n s)
  | None => e_critical (s_explain s) = false /\ c_critical (s_client s) = false
  end.
Proof.
  intros [_ _ _ Ist Imx Iex Irg]. destruct s as [ct q mx pc cpc acc res]; cbn in *. subst mx.
  destruct (e_critical pc) eqn:He, (c_critical cpc) eqn:Hc; try done; split_and!; try done.
  - unfold can_explain_step. cbn. destruct pc; try done.
    destruct Ist as (now & -> & Ec). destruct (collect_emit_ring _ _ _ _ _ Ec) as [[r Er] _].
    cbn. rewrite Er. cbn. destruct (lib_ringbuffer_putforce r bytes). by eexists.
  - intros n. unfold client_step. cbn. destruct cpc as [|n1|n1|]; try done.
    destruct Irg as [r Er]. rewrite Er. cbn. destruct (lib_ringbuffer_getforce r n1) as [[] ?]. by eexists.
Qed.
Lemma sequential_no_get os : forall c c' rs, sequential os (c, rs) = Some (c', rs) ->
  explain c (op_frames os) = Some c'.
Proof.
  assert (forall os c rs c' rs', sequential os (c, rs) = Some (c', rs') ->
    (length rs <= length rs')%nat /\ (length rs' = length rs -> explain c (op_frames os) = Some c')) as Hall.
  { clear os. induction os as [|[f|n] os IH]; intros c rs c' rs' E; cbn [sequential op_step fst snd] in E.
    - injection E as <- <-. done.
    - unfold op_frames. cbn [map concat app]. fold (op_frames os). cbn [explain].
      destruct (stake_cmd_buf_put c (decode_meta f)) as [[ret c1]|]; [|done].
      cbn [mbind option_bind] in *. by apply IH.
    - destruct (lib_ctos_get c n) as [[ret d] c1]. cbn [mbind option_bind] in E.
      apply IH in E as [E _]. rewrite length_app in E. cbn in E. split; [lia|]. intros. lia. }
  intros c c' rs E. by apply Hall in E as [_ E]; [..|apply E].
Qed.
End Refinement.

(** C12: The threads behave as if every call ran alone: for every schedule of the
    small steps from an empty queue there is an order of the calls - one
    [stake_cmd_buf_put] per frame, one per [lib_ctos_get] - whose sequential run
    gives the same results and, when no frame is half processed, the same
    adapter.  The frames the queue accepted are, in order, those processed, the
    one in work and those still queued.  As long as nothing was read the adapter
    is that of [explain] on the frames, to which the theorems on messages apply.
    The mutex is held by at most one thread, and that thread is not blocked. *)
Theorem ctos_threads_sequential `{LibGeneral} `{RegularRbLaws} (ct0 : ctos) (q0 : rb)
    (ls : list label) (s : sys) :
  rb_frames q0 = [] -> schedule ls (started ct0 q0) = Some s ->
  exists os a rs,
    sequential os (ct0, []) = Some (a, rs) /\
    rs = s_results s ++ pending (s_client s) /\
    s_accepted s = op_frames os ++ in_flight (s_explain s) ++ rb_frames (s_queue s) /\
    (in_flight (s_explain s) = [] -> settled (s_explain s) (s_ct s) = a) /\
    (rs = [] -> explain ct0 (op_frames os) = Some a) /\
    match s_mutex s with
    | Some Explain => e_critical (s_explain s) = true /\ c_critical (s_client s) = false /\
                      is_Some (can_explain_step s)
    | Some Client => c_critical (s_client s) = true /\ e_critical (s_explain s) = false /\
                     forall n, is_Some (client_step n s)
    | None => e_critical (s_explain s) = false /\ c_critical (s_client s) = false
    end.
Proof.
  intros Hq E.
  destruct (schedule_inv ct0 ls (started ct0 q0) s [] ct0 []) as (os & a & rs & I); [|done|].
  { split; cbn; rewrite ?Hq; done. }
  exists os, a, rs. pose proof (holder_steps _ _ _ _ _ I) as Hh. destruct I as [Iseq Ires Ifr Ist _ _ _].
  split; [done|]. split; [done|]. split; [done|]. split; [|split; [|exact Hh]].
  - intros Hf. by destruct (s_explain s).
  - intros ->. by eapply sequential_no_get.
Qed.

(** The first part does not check the position of a frame: a head frame with a
    sequence number of 40 or more, which the six bits allow, is written behind
    the 320 bytes of its buffer. *)
Lemma frame_seq_overflow `{LibGeneral} (ct : ctos) f r m :
  pack_ptr ct = Some f -> ringbuffer ct = Some r -> length (frame_buf f) = 128%nat ->
  err m <> 1 -> 0 <= s_addr m < 128 -> s_addr m <> can_id ct ->
  frame_mark m = CAN_FRAME_MARK_HEAD -> length (m_data m) = 8%nat -> 40 <= frame_seq m ->
  stake_cmd_buf_put ct m = None.
Proof.
  intros Hp Hr Hl He Hs Hself Hm Hd Hseq. unfold stake_cmd_buf_put. rewrite Hp, Hr, Hm.
  rewrite (proj2 (Z.eqb_neq (err m) 1)), (proj2 (Z.eqb_neq (s_addr m) (can_id ct))) by done.
  unfold STAKE_NUM_MAX. rewrite (proj2 (Z.leb_gt 128 (s_addr m))) by lia. cbn [orb].
  destruct (lookup_lt_is_Some_2 (frame_buf f) (Z.to_nat (s_addr m))) as [b ->]; [lia|].
  cbn [mbind option_bind]. change (CAN_FRAME_MARK_HEAD =? CAN_FRAME_MARK_HEAD) with true. cbv iota.
  unfold head_frame, bcopy. rewrite bool_decide_eq_false_2; [done|].
  change (length (data zero_buf)) with 320%nat. lia.
Qed.

(** ** A schedule *)

(** A queue of four frames. *)
Definition ListRb : RegularRb := {|
  rb := list (list Z);
  lib_regular_rb_put := fun q f => if (length q <? 4)%nat then (0, q ++ [f]) else (-1, q);
  lib_regular_rb_get := fun q => match q with [] => (None, []) | f :: q => (Some f, q) end;
  rb_frames := fun q => q |}.

Lemma ListRb_laws : @RegularRbLaws ListRb.
Proof.
  split; unfold rb_frames, lib_regular_rb_put, lib_regular_rb_get, ListRb.
  - intros q f. destruct (length q <? 4)%nat; cbn; [done|]. by rewrite app_nil_r.
  - by intros [|f q].
Qed.

(** The frames of a message of twenty bytes from station 3 to station 9. *)
Definition sample_frames : list (list Z) :=
  match lib_ctos_put_priority (station 3) 9 (seqZ 1 20) 20 0 with
  | Some (_, ct) => sockfd ct
  | None => []
  end.

(** The client reads the empty ring buffer while the message is being collected,
    and again while it is being put. *)
Definition sample_schedule : list label :=
  let f i := LRecv (nth i sample_frames []) in
  [LClient 8; f 0%nat; LExplain; LClient 8; LExplain; f 1%nat; LClient 8; f 2%nat; LExplain; LExplain;
   LClient 8; LExplain; LExplain; LExplain; LClient 30; LExplain; LExplain; LClient 30; LClient 30].

Abbreviation sample_run :=
  (@schedule Loopback ListRb sample_schedule (@started Loopback ListRb (station 9) [])).

Definition sample_view (s : @sys Loopback ListRb) :=
  (s_results s, pending (s_client s), s_mutex s, s_accepted s, in_flight (s_explain s),
   @rb_frames ListRb (s_queue s)).

Lemma sample_run_view : sample_view <$> sample_run =
  Some ([(0, [])], [(24, seqZ 1 20 ++ [0; 0; 0; 0])], Some Client, sample_frames, [], []).
Proof. vm_compute. reflexivity. Qed.

Lemma ctos_threads_sequential_witness :
  exists s, sample_run = Some s /\ s_mutex s = Some Client /\
  exists os a rs, sequential os (station 9, []) = Some (a, rs) /\
    rs = [(0, [])] ++ [(24, seqZ 1 20 ++ [0; 0; 0; 0])] /\ op_frames os = sample_frames /\
    settled (s_explain s) (s_ct s) = a.
Proof.
  pose proof sample_run_view as V. destruct sample_run as [s|] eqn:E; [|discriminate V].
  exists s. split; [reflexivity|].
  apply (inj Some) in V. unfold sample_view in V. injection V as Hr Hp Hm Ha Hf Hq.
  split; [exact Hm|].
  destruct (@ctos_threads_sequential Loopback ListRb ListRb_laws (station 9) [] sample_schedule s
    eq_refl E) as (os & a & rs & H1 & H2 & H3 & H4 & _).
  exists os, a, rs. split; [exact H1|]. rewrite Hr, Hp in H2. split; [exact H2|]. split; [|exact (H4 Hf)].
  rewrite Ha, Hf, Hq, !app_nil_r in H3. symmetry. exact H3.
Defined.

(** ** The life of an adapter *)

(** What a process can hold of an adapter. *)
Inductive resource := RMem | RSocket | RQueue | RPack | RMutex | RRing | RRecvThread | RExplainThread.
#[export] Instance resource_eq_dec : EqDecision resource.
Proof. solve_decision. Defined.

Definition release (r : resource) (live : list resource) : list resource := filter (fun x => x <> r) live.

(** What the system answers to the calls of [lib_ctos_create], in their order.
    [lib_rwlock_destroy], which the error path applies to the mutex, may release
    it or not. *)
Record answers := mk_answers {
  a_malloc : bool;
  a_fd : Z;
  a_ioctl : bool; a_bind : bool; a_loopback : bool; a_own_msgs : bool; a_filter : bool;
  a_queue : bool; a_pack : bool; a_mutex : bool; a_ring : bool;
  a_recv_thread : bool; a_explain_thread : bool;
  a_rwlock : bool }.

(** The error, the descriptor stored and the resources. *)
Definition can_socket_init (e : answers) (can_bus : Z) (live : list resource) : Z * Z * list resource :=
  if CAN_BUS_NO_MAX <? can_bus then (LIB_CTOS_ERROR, 0, live)
  else if a_fd e <? 0 then (LIB_CTOS_ERROR, 0, live)
  else
    let live := RSocket :: live in
    let ERR := (LIB_CTOS_ERROR, 0, release RSocket live) in
    if negb (a_ioctl e) then ERR
    else if negb (a_bind e) then ERR
    else if negb (a_loopback e) then ERR
    else if negb (a_own_msgs e) then ERR
    else if negb (a_filter e) then ERR
    else (LIB_CTOS_EOK, a_fd e, live).

(** The two ways down: [ctos->sockfd] is closed if it is positive. *)
Definition close_socket (fd : Z) (live : list resource) : list resource :=
  if 0 <? fd then release RSocket live else live.

Definition create_error (e : answers) (fd : Z) (live : list resource) : list resource :=
  let live := if a_rwlock e then release RMutex live else live in
  let live := release RRing live in
  let live := release RPack live in
  let live := close_socket fd live in
  let live := release RQueue live in
  release RMem live.

Definition lib_ctos_destroy (fd : Z) (live : list resource) : Z * list resource :=
  let live := release RMutex live in
  let live := release RRing live in
  let live := release RPack live in
  let live := close_socket fd live in
  let live := release RQueue live in
  (LIB_CTOS_EOK, release RMem live).

Section Life.
Context `{LibGeneral}.

Inductive created :=
  | Crash                                            (* NULL dereferenced *)
  | Null (live : list resource)
  | Created (ct : ctos) (live : list resource).

(** [bus], [id] and [rate] are the fields of [conf] that matter here; [frame0]
    is the memory [malloc] returns for the frame buffers, as it is, and [ring0]
    and [net0] are a new ring buffer and the socket. *)
Definition lib_ctos_create (e : answers) (bus id rate : Z) (frame0 : stake_frame) (ring0 : ring)
    (net0 : net) : created :=
  if negb (a_malloc e) then Crash
  else
    let live := [RMem] in
    let ct := mk_ctos bus id rate 0 0 None None net0 in
    let '(err, _, ct) := baud_rate_set ct in
    if negb (err =? LIB_CTOS_EOK) then Null (create_error e 0 live)
    else
      let '(err, fd, live) := can_socket_init e (can_bus ct) live in
      if negb (err =? LIB_CTOS_EOK) then Null (create_error e fd live)
      else if negb (a_queue e) then Null (create_error e fd live)
      else
        let live := RQueue :: live in
        if negb (a_pack e) then Null (create_error e fd live)
        else
          let live := RPack :: live in
          let ct := set_pack ct frame0 in
          if negb (a_mutex e) then Null (create_error e fd live)
          else
            let live := RMutex :: live in
            if negb (a_ring e) then Null (create_error e fd live)
            else
              let live := RRing :: live in
              let ct := set_ring ct ring0 in
              if negb (a_recv_thread e) then Null (create_error e fd live)
              else
                let live := RRecvThread :: live in
                if negb (a_explain_thread e) then Null (create_error e fd live)
                else Created ct (RExplainThread :: live).

(** The steps that succeeded up to the socket, the mutex and the first thread. *)
Definition socket_made (e : answers) (bus rate : Z) : Prop :=
  bus <= 2 /\ rate <= 4 /\ 0 <= a_fd e /\
  a_ioctl e = true /\ a_bind e = true /\ a_loopback e = true /\ a_own_msgs e = true /\ a_filter e = true.
Definition mutex_made (e : answers) (bus rate : Z) : Prop :=
  socket_made e bus rate /\ a_queue e = true /\ a_pack e = true /\ a_mutex e = true.
Definition recv_started (e : answers) (bus rate : Z) : Prop :=
  mutex_made e bus rate /\ a_ring e = true /\ a_recv_thread e = true.

Lemma baud_cases (ct : ctos) : exists o d, baud_rate_set ct =
  if (CAN_BUS_NO_MAX <? can_bus ct) || (BAUD_RATE_END - 1 <? baud_rate ct)
  then (LIB_CTOS_ERROR, None, ct) else (LIB_CTOS_EOK, o, set_delay ct d).
Proof.
  unfold baud_rate_set. destruct (CAN_BUS_NO_MAX <? _); [by exists None, 0|].
  destruct (BAUD_RATE_END - 1 <? _); [by exists None, 0|]. cbn [orb].
  repeat case_match; by eexists _, _.
Qed.

Lemma elem_release r x live : x ∈ release r live <-> x <> r /\ x ∈ live.
Proof. unfold release. by rewrite list_elem_of_filter. Qed.

Lemma elem_close fd x live : x ∈ close_socket fd live <-> (x = RSocket -> fd <= 0) /\ x ∈ live.
Proof.
  unfold close_socket. destruct (Z.ltb_spec 0 fd); rewrite ?elem_release; [|tauto].
  split; [tauto|]. intros [Hs Hx]. split; [|done]. intros E. apply Hs in E. lia.
Qed.

Lemma elem_create_error e fd x live : x ∈ create_error e fd live <->
  x ∈ live /\ x <> RRing /\ x <> RPack /\ x <> RQueue /\ x <> RMem /\
  (x = RMutex -> a_rwlock e = false) /\ (x = RSocket -> fd <= 0).
Proof.
  unfold create_error. rewrite !elem_release, elem_close, !elem_release.
  destruct (a_rwlock e); rewrite ?elem_release; intuition congruence.
Qed.

Lemma socket_cases e bus rate live : rate <= 4 -> RSocket ∉ live ->
  (can_socket_init e bus live = (LIB_CTOS_EOK, a_fd e, RSocket :: live) /\ socket_made e bus rate) \/
  (exists live', can_socket_init e bus live = (LIB_CTOS_ERROR, 0, live') /\ ~ socket_made e bus rate /\
   forall x, x ∈ live' <-> x ∈ live).
Proof.
  intros Hrate Hl. unfold can_socket_init, socket_made, CAN_BUS_NO_MAX.
  destruct (Z.ltb_spec 2 bus); [right; exists live; split_and!; [done|lia|done]|].
  destruct (Z.ltb_spec (a_fd e) 0); [right; exists live; split_and!; [done|lia|done]|].
  assert (forall x, x ∈ release RSocket (RSocket :: live) <-> x ∈ live) as Hr.
  { intros x. rewrite elem_release, elem_of_cons. intuition congruence. }
  destruct (a_ioctl e), (a_bind e), (a_loopback e), (a_own_msgs e), (a_filter e); cbn [negb];
    first [ left; split; [done|]; split_and!; done || lia
          | right; eexists; split; [done|]; split; [intuition congruence|exact Hr] ].
Qed.

(** The branches that return NULL. *)
Ltac null_case :=
  split; [done|]; split; [intuition congruence|]; intros x; rewrite elem_create_error;
  try match goal with Hl : forall x, x ∈ _ <-> _ |- _ => rewrite Hl end;
  rewrite ?elem_of_cons, elem_of_nil; destruct x; intuition (congruence || lia).

(** C19: Creating and destroying an adapter, in every case: [lib_ctos_create]
    dereferences NULL exactly when its first [malloc] fails; it succeeds exactly
    when every step does, with everything it needs; otherwise it returns NULL and
    has released all but a mutex (which it hands to [lib_rwlock_destroy]), a
    socket that got descriptor 0, and the receiving thread if only the second
    thread could not be started.  [lib_ctos_destroy] releases all but such a
    socket and the two threads, which go on with the memory that was freed. *)
Theorem ctos_create_outcomes (e : answers) (bus id rate : Z) (frame0 : stake_frame)
    (ring0 : ring) (net0 : net) :
  match lib_ctos_create e bus id rate frame0 ring0 net0 with
  | Crash => a_malloc e = false
  | Null live =>
      a_malloc e = true /\ ~ (recv_started e bus rate /\ a_explain_thread e = true) /\
      forall r, r ∈ live <->
        (r = RRecvThread /\ recv_started e bus rate) \/
        (r = RMutex /\ mutex_made e bus rate /\ a_rwlock e = false) \/
        (r = RSocket /\ socket_made e bus rate /\ a_fd e = 0)
  | Created ct live =>
      a_malloc e = true /\ (recv_started e bus rate /\ a_explain_thread e = true) /\
      can_id ct = id /\ pack_ptr ct = Some frame0 /\ ringbuffer ct = Some ring0 /\
      (forall r, r ∈ live) /\
      (forall r, r ∈ snd (lib_ctos_destroy (a_fd e) live) <->
         r = RRecvThread \/ r = RExplainThread \/ (r = RSocket /\ a_fd e = 0))
  end.
Proof.
  unfold lib_ctos_create, recv_started, mutex_made.
  destruct (a_malloc e); cbn [negb]; [|done].
  destruct (baud_cases (mk_ctos bus id rate 0 0 None None net0)) as (o & d & ->).
  cbn [can_bus baud_rate]. unfold BAUD_RATE_END.
  destruct (Z.ltb_spec CAN_BUS_NO_MAX bus) as [Hbus|Hbus]; cbn [orb].
  { assert (~ socket_made e bus rate) by (unfold socket_made, CAN_BUS_NO_MAX in *; lia). null_case. }
  destruct (Z.ltb_spec (5 - 1) rate).
  { assert (~ socket_made e bus rate) by (unfold socket_made; lia). null_case. }
  assert (rate <= 4) by lia. cbn [set_delay can_bus].
  destruct (socket_cases e bus rate [RMem]) as [[-> Hs]|(live & -> & Hs & Hl)]; [done|apply not_elem_of_cons; split; [done|apply not_elem_of_nil]|..].
  2: { cbn [negb Z.eqb LIB_CTOS_ERROR LIB_CTOS_EOK]. null_case. }
  cbn [negb Z.eqb LIB_CTOS_EOK]. pose proof Hs as (_ & _ & Hfd & _).
  destruct (a_queue e); cbn [negb]; [|null_case].
  destruct (a_pack e); cbn [negb]; [|null_case].
  destruct (a_mutex e); cbn [negb]; [|null_case].
  destruct (a_ring e); cbn [negb]; [|null_case].
  destruct (a_recv_thread e); cbn [negb]; [|null_case].
  destruct (a_explain_thread e); cbn [negb]; [|null_case].
  assert (forall x, x ∈ [RExplainThread; RRecvThread; RRing; RMutex; RPack; RQueue; RSocket; RMem]) as Hall
    by (intros x; rewrite !elem_of_cons; destruct x; tauto).
  split_and!; try done. intros x. unfold lib_ctos_destroy. cbn [snd].
  rewrite !elem_release, elem_close, !elem_release. specialize (Hall x).
  destruct x; intuition (congruence || lia).
Qed.
End Life.
