(* ===== verification/Escape.v ===== *)
(** * Node frames (src/node_server/escape.c, common.c)

    Frames between a node and its server start with 0xF1 and end with 0xF2;
    inside a frame 0xF0, 0xF1 and 0xF2 travel as two-byte escapes.
    [__uplink_escape] writes the escaped frame, [__downlink_escape] restores
    it, [package_make] builds a request and escapes it.  Buffers are lists
    with their real length, below 2^31 since the indices are [int]; an access
    outside one gives [None]. *)

From S2P Require Import Prelude.

Definition NDEV_HD : Z := 0xF1.
Definition NDEV_TAIL : Z := 0xF2.
Definition NDEV_ESC_F0H : Z := 0xF0.
Definition NDEV_ESC_00H : Z := 0x00.
Definition NDEV_ESC_01H : Z := 0x01.
Definition NDEV_ESC_02H : Z := 0x02.

(** ** Removing escapes *)

(** [while (idxI <= slen - 2)]; each round advances [idxI], so [slen] rounds
    of fuel are enough.  An unknown escape code writes nothing. *)
Fixpoint downlink_loop (fuel : nat) (src : list Z) (slen : Z) (dest : list Z) (i j : Z)
  : option (list Z * Z) :=
  if i <=? slen - 2 then
    match fuel with
    | O => None
    | S fuel =>
        c ← bget src i;
        if c =? NDEV_ESC_F0H then
          e ← bget src (i + 1);
          dest ← (if e =? 0x01 then bput dest j NDEV_HD
                  else if e =? 0x02 then bput dest j NDEV_ESC_F0H
                  else if e =? 0x00 then bput dest j NDEV_TAIL
                  else Some dest);
          downlink_loop fuel src slen dest (i + 2) (j + 1)
        else
          dest ← bput dest j c;
          downlink_loop fuel src slen dest (i + 1) (j + 1)
    end
  else Some (dest, j).

(** The end of both routines: [dest[0] = HD; dest[idxJ++] = TAIL]. *)
Definition close_frame (st : list Z * Z) : option (list Z * Z) :=
  let '(dest, j) := st in
  dest ← bput dest 0 NDEV_HD;
  dest ← bput dest j NDEV_TAIL;
  Some (dest, j + 1).

Definition __downlink_escape (dest src : list Z) (slen : Z) : option (list Z * Z) :=
  st ← downlink_loop (Z.to_nat slen) src slen dest 1 1;
  close_frame st.

(** ** Adding escapes *)

Definition put2 (dest : list Z) (j a b : Z) : option (list Z * Z) :=
  dest ← bput dest j a;
  dest ← bput dest (j + 1) b;
  Some (dest, j + 2).

Fixpoint uplink_loop (fuel : nat) (src : list Z) (slen : Z) (dest : list Z) (i j : Z)
  : option (list Z * Z) :=
  if i <=? slen - 2 then
    match fuel with
    | O => None
    | S fuel =>
        c ← bget src i;
        '(dest, j) ← (
          if c =? NDEV_HD then put2 dest j NDEV_ESC_F0H NDEV_ESC_01H
          else if c =? NDEV_TAIL then put2 dest j NDEV_ESC_F0H NDEV_ESC_00H
          else if c =? NDEV_ESC_F0H then put2 dest j NDEV_ESC_F0H NDEV_ESC_02H
          else dest ← bput dest j c; Some (dest, j + 1));
        uplink_loop fuel src slen dest (i + 1) j
    end
  else Some (dest, j).

Definition __uplink_escape (dest src : list Z) (slen : Z) : option (list Z * Z) :=
  st ← uplink_loop (Z.to_nat slen) src slen dest 1 1;
  close_frame st.

(** ** Requests

    [lib_b64_encode_hex] and [lib_crc16_with_byte] belong to lib_general. *)

Section Package.
Context (lib_b64_encode_hex : list Z -> list Z) (lib_crc16_with_byte : list Z -> Z).

Definition DATA : list Z := [0x54; 0x4A; 0x16; 0xC9; 0xF1; 0x3A; 0xAA; 0xAD; 0x00; 0x01; 0x00; 0x01].

(** [htons] and [memcpy]: two bytes, high byte first. *)
Definition be16 (x : Z) : list Z := [u8 (x ≫ 8); u8 x].

(** The frame built in [data], of [len] bytes. *)
Definition package_data (can_addr ctrl_bit cmd : Z) : list Z :=
  let tx := lib_b64_encode_hex DATA in
  let body := [0x02; 0xAA; 0xAD; can_addr; ctrl_bit; cmd] ++
    be16 (u16 (Z.of_nat (length tx) + 2)) ++ [0x44; 0x50] ++ tx in
  [NDEV_HD] ++ body ++ be16 (u16 (lib_crc16_with_byte body)) ++ [NDEV_TAIL].

(** [unsigned char data[128]] must hold the frame. *)
Definition package_make (tbuf : list Z) (can_addr ctrl_bit cmd : Z) : option (list Z * Z) :=
  let data := package_data can_addr ctrl_bit cmd in
  if Z.of_nat (length data) <=? 128
  then __uplink_escape tbuf data (Z.of_nat (length data)) else None.

End Package.

(** ** Specification: the escaped body *)

Definition esc1 (c : Z) : list Z :=
  if c =? 0xF1 then [0xF0; 1] else if c =? 0xF2 then [0xF0; 0] else if c =? 0xF0 then [0xF0; 2] else [c].

Definition escape (body : list Z) : list Z := body ≫= esc1.

Definition frame (body : list Z) : list Z := [NDEV_HD] ++ body ++ [NDEV_TAIL].

(** ** Writes at the end of what is already written *)

Lemma bput_end (pre : list Z) x rest j v : j = Z.of_nat (length pre) ->
  bput (pre ++ x :: rest) j v = Some ((pre ++ [v]) ++ rest).
Proof.
  intros ->. unfold bput. rewrite bool_decide_eq_true_2 by (rewrite length_app; cbn; lia).
  by rewrite Nat2Z.id, insert_app_r_alt, Nat.sub_diag, <- app_assoc by lia.
Qed.

Lemma escape_cons c body : escape (c :: body) = esc1 c ++ escape body.
Proof. done. Qed.

Lemma length_esc1 c : (1 <= length (esc1 c) <= 2)%nat.
Proof. unfold esc1. repeat case_match; cbn; lia. Qed.

Lemma length_escape body : (length body <= length (escape body) <= 2 * length body)%nat.
Proof.
  induction body as [|c body IH]; [done|]. rewrite escape_cons, length_app. cbn [length].
  pose proof (length_esc1 c). lia.
Qed.

(** One round of the uplink loop writes [esc1]. *)
Lemma uplink_step (pre junk : list Z) c j : j = Z.of_nat (length pre) ->
  (length (esc1 c) <= length junk)%nat ->
  (if c =? NDEV_HD then put2 (pre ++ junk) j NDEV_ESC_F0H NDEV_ESC_01H
   else if c =? NDEV_TAIL then put2 (pre ++ junk) j NDEV_ESC_F0H NDEV_ESC_00H
   else if c =? NDEV_ESC_F0H then put2 (pre ++ junk) j NDEV_ESC_F0H NDEV_ESC_02H
   else dest ← bput (pre ++ junk) j c; Some (dest, j + 1)) =
  Some ((pre ++ esc1 c) ++ drop (length (esc1 c)) junk, j + Z.of_nat (length (esc1 c))).
Proof.
  intros Hj Hl. unfold esc1, NDEV_HD, NDEV_TAIL, NDEV_ESC_F0H in *.
  assert (Hp2 : forall a b, (2 <= length junk)%nat ->
    put2 (pre ++ junk) j a b = Some ((pre ++ [a; b]) ++ drop 2 junk, j + 2)).
  { intros a b H2. destruct junk as [|x [|y junk]]; cbn in H2; [lia|lia|]. unfold put2.
    rewrite bput_end by done. cbn [mbind option_bind].
    rewrite bput_end by (rewrite length_app; cbn; lia). cbn [mbind option_bind].
    by rewrite <- !app_assoc. }
  repeat case_match; cbn [length] in *; try (by apply Hp2).
  destruct junk as [|x junk]; [cbn in *; lia|]. by rewrite bput_end by done.
Qed.

Lemma uplink_loop_spec body : forall (a b pre junk : list Z) fuel i j slen,
  i = Z.of_nat (length a) -> j = Z.of_nat (length pre) -> slen - 2 = i + Z.of_nat (length body) - 1 ->
  (length body <= fuel)%nat -> (length (escape body) <= length junk)%nat ->
  uplink_loop fuel (a ++ body ++ b) slen (pre ++ junk) i j =
  Some ((pre ++ escape body) ++ drop (length (escape body)) junk, j + Z.of_nat (length (escape body))).
Proof.
  induction body as [|c body IH]; intros a b pre junk fuel i j slen Hi Hj Hs Hf Hl.
  - destruct fuel; cbn [uplink_loop length] in *; rewrite (proj2 (Z.leb_gt _ _)) by lia;
      cbn; by rewrite app_nil_r, Z.add_0_r.
  - destruct fuel as [|fuel]; [cbn in Hf; lia|]. cbn [uplink_loop length] in *.
    rewrite escape_cons in *. rewrite length_app in *.
    change (a ++ (c :: body) ++ b) with (a ++ c :: (body ++ b)).
    rewrite (proj2 (Z.leb_le _ _)), bget_at by (done || lia). cbn [mbind option_bind].
    rewrite uplink_step by (done || lia). cbn [mbind option_bind].
    change (a ++ c :: (body ++ b)) with (a ++ [c] ++ (body ++ b)). rewrite (app_assoc a).
    rewrite IH; [|rewrite ?length_app, ?length_drop; cbn [length]; lia..].
    rewrite drop_drop, <- !app_assoc. do 2 f_equal. lia.
Qed.

(** ** Both routines on well-formed frames *)

Lemma close_frame_end x0 (p junk : list Z) y j : j = Z.of_nat (length p) + 1 ->
  close_frame ((x0 :: p) ++ y :: junk, j) = Some (frame p ++ junk, j + 1).
Proof.
  intros ->. unfold close_frame. change ((x0 :: p) ++ y :: junk) with ([] ++ x0 :: (p ++ y :: junk)).
  rewrite bput_end by done. cbn [mbind option_bind app].
  change (NDEV_HD :: p ++ y :: junk) with ((NDEV_HD :: p) ++ y :: junk).
  rewrite bput_end by (cbn [length]; lia). cbn [mbind option_bind]. unfold frame.
  by rewrite <- !app_assoc.
Qed.

(** The escaped frame in a buffer that is large enough. *)
Lemma uplink_spec body x0 junk h t : (length (escape body) < length junk)%nat ->
  __uplink_escape (x0 :: junk) (h :: body ++ [t]) (Z.of_nat (length body) + 2) =
  Some (frame (escape body) ++ drop (S (length (escape body))) junk,
        Z.of_nat (length (escape body)) + 2).
Proof.
  intros Hl. unfold __uplink_escape.
  pose proof (uplink_loop_spec body [h] [t] [x0] junk (Z.to_nat (Z.of_nat (length body) + 2)) 1 1
    (Z.of_nat (length body) + 2) eq_refl eq_refl ltac:(lia) ltac:(lia) ltac:(lia)) as E.
  cbn [app] in E. rewrite E. cbn [mbind option_bind].
  destruct (drop (length (escape body)) junk) as [|y rest] eqn:Ed.
  { apply (f_equal length) in Ed. rewrite length_drop in Ed. cbn in Ed. lia. }
  change (x0 :: escape body ++ y :: rest) with ((x0 :: escape body) ++ y :: rest).
  rewrite close_frame_end by lia. f_equal. f_equal; [|lia]. f_equal.
  replace (S (length (escape body))) with (length (escape body) + 1)%nat by lia.
  by rewrite <- drop_drop, Ed.
Qed.

(** A two-byte escape: read the code behind the prefix [a], write, go on. *)
Ltac escape_case a next :=
  rewrite Z.eqb_refl;
  match goal with |- context [bget (a ++ ?x :: ?y :: ?r) _] =>
    change (a ++ x :: y :: r) with (a ++ [x] ++ y :: r); rewrite (app_assoc a) end;
  rewrite bget_at by (rewrite length_app; cbn [length]; lia); cbn [mbind option_bind Z.eqb Pos.eqb];
  rewrite bput_end by done; cbn [mbind option_bind]; rewrite <- (app_assoc a); cbn [app];
  by apply next.

(** The downlink loop undoes [escape]. *)
Lemma downlink_loop_spec body : forall (a b pre junk : list Z) fuel i j slen,
  i = Z.of_nat (length a) -> j = Z.of_nat (length pre) ->
  slen - 2 = i + Z.of_nat (length (escape body)) - 1 ->
  (length body <= fuel)%nat -> (length body <= length junk)%nat ->
  downlink_loop fuel (a ++ escape body ++ b) slen (pre ++ junk) i j =
  Some ((pre ++ body) ++ drop (length body) junk, j + Z.of_nat (length body)).
Proof.
  induction body as [|c body IH]; intros a b pre junk fuel i j slen Hi Hj Hs Hf Hl.
  - destruct fuel; cbn [downlink_loop length] in *; rewrite (proj2 (Z.leb_gt _ _)) by (cbn in Hs; lia);
      by rewrite app_nil_r, Z.add_0_r.
  - destruct fuel as [|fuel]; [cbn in Hf; lia|]. destruct junk as [|y junk]; [cbn in Hl; lia|].
    cbn [downlink_loop]. rewrite escape_cons, length_app in *. pose proof (length_esc1 c).
    rewrite (proj2 (Z.leb_le _ _)) by lia.
    assert (Hnext : forall n, n = length (esc1 c) ->
      downlink_loop fuel (a ++ (esc1 c ++ escape body) ++ b) slen ((pre ++ [c]) ++ junk)
        (i + Z.of_nat n) (j + 1) =
      Some ((pre ++ c :: body) ++ drop (length (c :: body)) (y :: junk), j + Z.of_nat (length (c :: body)))).
    { intros n ->. rewrite <- (app_assoc (esc1 c)), app_assoc. cbn [length] in *.
      rewrite IH by (rewrite ?length_app; cbn [length]; lia).
      cbn [drop]. rewrite <- !app_assoc. do 2 f_equal. lia. }
    unfold esc1 in *. unfold NDEV_HD, NDEV_TAIL, NDEV_ESC_F0H in *.
    destruct (Z.eqb_spec c 0xF1) as [->|N1]; [|destruct (Z.eqb_spec c 0xF2) as [->|N2];
      [|destruct (Z.eqb_spec c 0xF0) as [->|N0]]]; cbn [app] in *;
      rewrite (bget_at a _ _ i) by done; cbn [mbind option_bind].
    + escape_case a (Hnext 2%nat).
    + escape_case a (Hnext 2%nat).
    + escape_case a (Hnext 2%nat).
    + rewrite (proj2 (Z.eqb_neq _ _)) by done. rewrite bput_end by done. cbn [mbind option_bind].
      by apply (Hnext 1%nat).
Qed.

Lemma downlink_spec body x0 junk h t : (length body < length junk)%nat ->
  __downlink_escape (x0 :: junk) (h :: escape body ++ [t]) (Z.of_nat (length (escape body)) + 2) =
  Some (frame body ++ drop (S (length body)) junk, Z.of_nat (length body) + 2).
Proof.
  intros Hl. unfold __downlink_escape. pose proof (length_escape body).
  pose proof (downlink_loop_spec body [h] [t] [x0] junk
    (Z.to_nat (Z.of_nat (length (escape body)) + 2)) 1 1
    (Z.of_nat (length (escape body)) + 2) eq_refl eq_refl ltac:(lia) ltac:(lia) ltac:(lia)) as E.
  cbn [app] in E. rewrite E. cbn [mbind option_bind].
  destruct (drop (length body) junk) as [|y rest] eqn:Ed.
  { apply (f_equal length) in Ed. rewrite length_drop in Ed. cbn in Ed. lia. }
  change (x0 :: body ++ y :: rest) with ((x0 :: body) ++ y :: rest).
  rewrite close_frame_end by lia. f_equal. f_equal; [|lia]. f_equal.
  replace (S (length body)) with (length body + 1)%nat by lia.
  by rewrite <- drop_drop, Ed.
Qed.

(** C7: escaping round trip: for every frame body, with buffers one byte longer than
    what is written, [__uplink_escape] followed by [__downlink_escape] of the bytes it
    reports gives back the frame and its length. *)
Theorem escape_roundtrip body x0 junk y0 junk' :
  (length (escape body) < length junk)%nat -> (length body < length junk')%nat ->
  exists up n, __uplink_escape (x0 :: junk) (frame body) (Z.of_nat (length (frame body))) = Some (up, n) /\
    0 <= n <= Z.of_nat (length up) /\
    __downlink_escape (y0 :: junk') (take (Z.to_nat n) up) n =
    Some (frame body ++ drop (S (length body)) junk', Z.of_nat (length (frame body))).
Proof.
  intros H1 H2. assert (Hf : Z.of_nat (length (frame body)) = Z.of_nat (length body) + 2)
    by (unfold frame; rewrite !length_app; cbn [length]; lia).
  assert (Hf' : length (frame (escape body)) = (length (escape body) + 2)%nat)
    by (unfold frame; rewrite !length_app; cbn [length]; lia).
  rewrite Hf. pose proof (uplink_spec body x0 junk NDEV_HD NDEV_TAIL H1) as E.
  change (NDEV_HD :: body ++ [NDEV_TAIL]) with (frame body) in E. rewrite E.
  eexists _, _. split; [reflexivity|]. split; [rewrite length_app; lia|].
  rewrite take_app_le, take_ge by lia. by apply downlink_spec.
Qed.

Lemma escape_roundtrip_witness :
  exists up n, __uplink_escape (replicate 20 0) (frame [1; 0xF0; 0xF1; 0xF2; 9]) 7 = Some (up, n) /\
    0 <= n <= Z.of_nat (length up) /\
    __downlink_escape (replicate 10 7) (take (Z.to_nat n) up) n =
    Some (frame [1; 0xF0; 0xF1; 0xF2; 9] ++ [7; 7; 7], 7).
Proof.
  apply (escape_roundtrip [1; 0xF0; 0xF1; 0xF2; 9] 0 (replicate 19 0) 7 (replicate 9 7));
    vm_compute; lia.
Defined.

(** Frames cannot be misread: what [__uplink_escape] writes starts with 0xF1, ends
    with 0xF2, holds neither byte in between, and is at most twice as long as the body
    plus the two delimiters. *)
Theorem uplink_framing body x0 junk : (2 * length body < length junk)%nat ->
  exists inner rest, __uplink_escape (x0 :: junk) (frame body) (Z.of_nat (length (frame body))) =
      Some (frame inner ++ rest, Z.of_nat (length (frame inner))) /\
    (NDEV_HD ∉ inner) /\ (NDEV_TAIL ∉ inner) /\ (length (frame inner) <= 2 * length body + 2)%nat.
Proof.
  intros Hl. pose proof (length_escape body) as He.
  assert (Hf : forall l : list Z, length (frame l) = (length l + 2)%nat)
    by (intros; unfold frame; rewrite !length_app; cbn [length]; lia).
  exists (escape body), (drop (S (length (escape body))) junk). rewrite !Hf, !Nat2Z.inj_add.
  split; [apply uplink_spec; lia|].
  assert (Hn : forall x, x ∈ escape body -> x <> 0xF1 /\ x <> 0xF2).
  { intros x Hx. unfold escape in Hx. apply list_elem_of_bind in Hx as (c & Hx & _). unfold esc1 in Hx.
    repeat case_match; rewrite ?elem_of_cons, ?elem_of_nil in Hx; lia. }
  split_and!; [intros Hx; by apply Hn in Hx as []..|lia].
Qed.

Lemma uplink_framing_witness :
  exists inner rest, __uplink_escape (replicate 8 0) (frame [0xF1; 5; 0xF2]) 5 =
      Some (frame inner ++ rest, Z.of_nat (length (frame inner))) /\
    (NDEV_HD ∉ inner) /\ (NDEV_TAIL ∉ inner) /\ (length (frame inner) <= 2 * 3 + 2)%nat.
Proof. apply (uplink_framing [0xF1; 5; 0xF2] 0 (replicate 7 0)). vm_compute. lia. Defined.

(** A frame written by [__uplink_escape] comes back from [__downlink_escape]. *)
Lemma framed_roundtrip body x0 junk y0 junk' :
  let data := frame body in
  (2 * length data <= length junk)%nat -> (length data <= length junk')%nat ->
  exists up n, __uplink_escape (x0 :: junk) data (Z.of_nat (length data)) = Some (up, n) /\
    __downlink_escape (y0 :: junk') (take (Z.to_nat n) up) n =
    Some (data ++ drop (length data - 1) junk', Z.of_nat (length data)).
Proof.
  intros data Hj Hj'. pose proof (length_escape body) as He.
  assert (Hf : forall l : list Z, length (frame l) = (length l + 2)%nat)
    by (intros; unfold frame; rewrite !length_app; cbn [length]; lia).
  unfold data in *. rewrite Hf, Nat2Z.inj_add in *.
  change (frame body) with (NDEV_HD :: body ++ [NDEV_TAIL]) at 1.
  change (Z.of_nat 2) with 2. rewrite uplink_spec by lia.
  eexists _, _. split; [reflexivity|].
  rewrite take_app_le, take_ge by (rewrite Hf; lia). unfold frame at 1. cbn [app].
  rewrite downlink_spec by lia. by replace (length body + 2 - 1)%nat with (S (length body)) by lia.
Qed.

Lemma package_framed b64 crc can_addr ctrl_bit cmd :
  exists body, package_data b64 crc can_addr ctrl_bit cmd = frame body.
Proof.
  unfold package_data. cbv zeta. set (B := _ ++ be16 (u16 (Z.of_nat _ + 2)) ++ _).
  exists (B ++ be16 (u16 (crc B))). unfold frame. by rewrite <- (app_assoc B).
Qed.

(** A request survives the link: what [package_make] writes, unescaped by the
    receiver, is the frame it built, with its fields, length and checksum in place,
    whatever the base64 and CRC routines return, as long as the frame fits its 128-byte
    array and the caller's buffer holds twice that. *)
Theorem package_roundtrip b64 crc can_addr ctrl_bit cmd x0 junk y0 junk' :
  let data := package_data b64 crc can_addr ctrl_bit cmd in
  (length data <= 128)%nat -> (256 <= length junk)%nat -> (128 <= length junk')%nat ->
  exists up n, package_make b64 crc (x0 :: junk) can_addr ctrl_bit cmd = Some (up, n) /\
    __downlink_escape (y0 :: junk') (take (Z.to_nat n) up) n =
    Some (data ++ drop (length data - 1) junk', Z.of_nat (length data)).
Proof.
  intros data Hd Hj Hj'. unfold package_make. fold data. rewrite (proj2 (Z.leb_le _ _)) by lia.
  destruct (package_framed b64 crc can_addr ctrl_bit cmd) as [body Eb]. fold data in Eb.
  rewrite Eb in *. apply framed_roundtrip; lia.
Qed.

Lemma package_roundtrip_witness :
  let data := package_data (fun l => l) (fun _ => 0xF1F2) 5 2 0xA4 in
  exists up n, package_make (fun l => l) (fun _ => 0xF1F2) (replicate 257 0) 5 2 0xA4 = Some (up, n) /\
    __downlink_escape (replicate 129 0) (take (Z.to_nat n) up) n =
    Some (data ++ drop (length data - 1) (replicate 128 0), Z.of_nat (length data)).
Proof.
  apply (package_roundtrip (fun l => l) (fun _ => 0xF1F2) 5 2 0xA4 0 (replicate 256 0) 0 (replicate 128 0));
    vm_compute; lia.
Defined.

(** An unknown escape code is not rejected: the receiver counts the byte but writes
    nothing, so the frame it returns contains whatever the buffer held before. *)
Theorem downlink_unknown_escape_stale code x0 stale x2 rest : code <> 0 -> code <> 1 -> code <> 2 ->
  __downlink_escape (x0 :: stale :: x2 :: rest) [0xF1; 0xF0; code; 0xF2] 4 =
  Some ([0xF1; stale; 0xF2] ++ rest, 3).
Proof.
  intros H0 H1 H2. unfold __downlink_escape. change (Z.to_nat 4) with 4%nat. cbn [downlink_loop].
  change (bget [0xF1; 0xF0; code; 0xF2] 1) with (Some 0xF0).
  change (bget [0xF1; 0xF0; code; 0xF2] (1 + 1)) with (Some code).
  change (1 <=? 4 - 2) with true. change (1 + 2 <=? 4 - 2) with false. cbv iota.
  cbn [mbind option_bind]. change (0xF0 =? NDEV_ESC_F0H) with true. cbv iota.
  rewrite !(proj2 (Z.eqb_neq _ _)) by done. cbn [mbind option_bind].
  change (x0 :: stale :: x2 :: rest) with ((x0 :: [stale]) ++ x2 :: rest).
  by rewrite close_frame_end.
Qed.

Lemma downlink_unknown_escape_stale_witness :
  __downlink_escape [0; 77; 0; 0] [0xF1; 0xF0; 9; 0xF2] 4 = Some ([0xF1; 77; 0xF2; 0], 3).
Proof. apply (downlink_unknown_escape_stale 9 0 77 0 [0]); lia. Defined.
