(* ===== verification/NodeServer.v ===== *)
(** * The node server client (src/node_server/main.c, common.c)

    [main] asks the load balancer for a communication server: it sends the
    request of [package_make] by UDP, takes the encryption key from the answer,
    and connects to the server by TCP.  [make_package] builds the registration
    that goes to it.  The sockets and the base64 and CRC routines belong to
    lib_general: [link] says how the sockets answer, the routines are
    parameters.  An access outside a buffer is the result [None].  The code
    under [#if 0] is left out, and the printing. *)

From S2P Require Import Prelude Escape.

(** ** Frame header *)

Record data_frame := mk_data_frame {
  head : Z; serial_num : Z; term_code : Z; dev_addr : Z; df_ctrl_bit : Z; df_cmd : Z;
  data_len : Z; guid_word : Z; df_data : list Z; crc16 : Z; tail : Z }.

(** [htons] on a little-endian machine. *)
Definition htons (x : Z) : Z := u8 (x ≫ 8) + 256 * u8 x.

Definition data_frame_init (d : data_frame) : Z * data_frame :=
  (0, mk_data_frame 0xf1 0x01 (htons 0xaaad) 0x00 0x02 (df_cmd d) (data_len d) (guid_word d)
        (df_data d) (crc16 d) 0xf2).

Section Node.
Context (lib_b64_encode_hex lib_b64_decode_hex : list Z -> list Z) (lib_crc16_with_byte : list Z -> Z).

(** ** Registration *)

(** The frame in [data]; [req] is the MAC address and the key. *)
Definition register_data (mac_addr encry_key : list Z) (can_addr ctrl_bit cmd : Z) : list Z :=
  let req := mac_addr ++ encry_key in
  let tx := lib_b64_encode_hex req in
  let body := [0x02; 0xAA; 0xAD; can_addr; ctrl_bit; cmd] ++
    be16 (u16 (Z.of_nat (length tx) + 2 + 1)) ++ [0x41; 0x4e] ++ tx ++ [0x26] in
  [NDEV_HD] ++ body ++ be16 (u16 (lib_crc16_with_byte body)) ++ [NDEV_TAIL].

(** [data] has 512 bytes. *)
Definition make_package (tbuf mac_addr encry_key : list Z) (can_addr ctrl_bit cmd : Z)
  : option (list Z * Z) :=
  let data := register_data mac_addr encry_key can_addr ctrl_bit cmd in
  if Z.of_nat (length data) <=? 512
  then __uplink_escape tbuf data (Z.of_nat (length data)) else None.

(** ** The program *)

(** How the sockets answer: the new descriptors, the result of sending, the
    bytes received (none when the call fails). *)
Record link := mk_link {
  udp_new : Z;
  udp_sendto : list Z -> Z;
  udp_recvfrom : list Z;
  tcp_new : Z }.

Inductive event :=
  | UdpNew (fd : Z)
  | UdpSend (data : list Z) (ret : Z)
  | UdpRecv (data : list Z)
  | UdpClose (fd : Z)
  | TcpNew (fd : Z)
  | TcpClose (fd : Z).

(** From the answer to [ack.encry_key]: [buf] is unescaped, 36 characters are
    decoded over [rxbuf], and the key is taken from there. *)
Definition take_key (rxbuf : list Z) (ret : Z) : option (list Z) :=
  '(buf, _) ← __downlink_escape (replicate 512 0) rxbuf ret;
  rxbuf ← bcopy rxbuf 0 (lib_b64_decode_hex (take 36 (drop 11 buf)));
  Some (take 16 (drop 11 rxbuf)).

(** The exchange with the load balancer, up to [err1]. *)
Definition request_server (l : link) (key : list Z) : option (list Z * list event) :=
  '(txbuf, ret) ← package_make lib_b64_encode_hex lib_crc16_with_byte (replicate 512 0) 0x00 0x02 0xA4;
  let sent := take (Z.to_nat ret) txbuf in
  let ret := udp_sendto l sent in
  if ret <=? 0 then Some (key, [UdpSend sent ret])
  else
    let d := take 128 (udp_recvfrom l) in
    if (length d =? 0)%nat then Some (key, [UdpSend sent ret; UdpRecv d])
    else
      key ← take_key (d ++ replicate (512 - length d) 0) (Z.of_nat (length d));
      Some (key, [UdpSend sent ret; UdpRecv d]).

(** The key left in [ack] and what happened on the sockets. *)
Definition main (l : link) (key : list Z) : option (list Z * list event) :=
  let sfd := udp_new l in
  if sfd <=? 0 then Some (key, [UdpNew sfd])
  else
    '(key, tr) ← request_server l key;
    let tr := [UdpNew sfd] ++ tr ++ [UdpClose sfd] in
    let sfd := tcp_new l in
    if sfd <=? 0 then Some (key, tr ++ [TcpNew sfd])
    else Some (key, tr ++ [TcpNew sfd; TcpClose sfd]).

End Node.

(** The registration is recovered by the server, whatever the base64 and CRC
    routines return, if it fits its array. *)
Lemma register_roundtrip b64 crc mac key can_addr ctrl_bit cmd x0 junk y0 junk' :
  let data := register_data b64 crc mac key can_addr ctrl_bit cmd in
  (length data <= 512)%nat -> (1024 <= length junk)%nat -> (512 <= length junk')%nat ->
  exists up n, make_package b64 crc (x0 :: junk) mac key can_addr ctrl_bit cmd = Some (up, n) /\
    __downlink_escape (y0 :: junk') (take (Z.to_nat n) up) n =
    Some (data ++ drop (length data - 1) junk', Z.of_nat (length data)).
Proof.
  intros data Hd Hj Hj'. unfold make_package. fold data. rewrite (proj2 (Z.leb_le _ _)) by lia.
  assert (exists body, data = frame body) as [body Eb].
  { unfold data, register_data. cbv zeta. set (B := _ ++ be16 (u16 (_ + 2 + 1)) ++ _).
    exists (B ++ be16 (u16 (crc B))). unfold frame. by rewrite <- (app_assoc B). }
  rewrite Eb in *. apply framed_roundtrip; lia.
Qed.

(** ** Unescaping stays in its buffers on any input *)

Lemma bput_some (t : list Z) i v : 0 <= i < Z.of_nat (length t) ->
  exists t', bput t i v = Some t' /\ length t' = length t.
Proof.
  intros Hi. unfold bput. rewrite bool_decide_eq_true_2 by lia. eexists. split; [done|].
  apply length_insert.
Qed.

Lemma bget_some (t : list Z) i : 0 <= i < Z.of_nat (length t) -> exists c, bget t i = Some c.
Proof.
  intros Hi. unfold bget. rewrite bool_decide_eq_true_2 by lia.
  destruct (lookup_lt_is_Some_2 t (Z.to_nat i)) as [c Hc]; [lia|]. by exists c.
Qed.

Lemma downlink_loop_total fuel : forall src slen dest i j,
  slen - i <= Z.of_nat fuel -> 0 <= i -> 0 <= j <= i -> slen <= Z.of_nat (length src) ->
  slen <= Z.of_nat (length dest) ->
  exists dest' j', downlink_loop fuel src slen dest i j = Some (dest', j') /\
    length dest' = length dest /\ 0 <= j' <= Z.max i slen.
Proof.
  induction fuel as [|fuel IH]; intros src slen dest i j Hf Hi Hj Hs Hd; cbn [downlink_loop];
    (destruct (Z.leb_spec i (slen - 2)); [|exists dest, j; split_and!; (done || lia)]); [lia|].
  destruct (bget_some src i) as [c ->]; [lia|]. cbn [mbind option_bind].
  destruct (c =? NDEV_ESC_F0H).
  - destruct (bget_some src (i + 1)) as [e ->]; [lia|]. cbn [mbind option_bind].
    assert (exists d1, (if e =? 0x01 then bput dest j NDEV_HD
                  else if e =? 0x02 then bput dest j NDEV_ESC_F0H
                  else if e =? 0x00 then bput dest j NDEV_TAIL
                  else Some dest) = Some d1 /\ length d1 = length dest) as (d1 & -> & L1).
    { repeat case_match; [apply bput_some; lia..|by exists dest]. }
    cbn [mbind option_bind].
    destruct (IH src slen d1 (i + 2) (j + 1)) as (d2 & j2 & -> & L2 & J2); [lia..|].
    exists d2, j2. split; [done|]. lia.
  - destruct (bput_some dest j c) as (d1 & -> & L1); [lia|]. cbn [mbind option_bind].
    destruct (IH src slen d1 (i + 1) (j + 1)) as (d2 & j2 & -> & L2 & J2); [lia..|].
    exists d2, j2. split; [done|]. lia.
Qed.

Lemma downlink_total src slen dest : 0 < slen <= Z.of_nat (length src) -> slen < Z.of_nat (length dest) ->
  exists dest' n, __downlink_escape dest src slen = Some (dest', n) /\ length dest' = length dest.
Proof.
  intros Hs Hd. unfold __downlink_escape.
  destruct (downlink_loop_total (Z.to_nat slen) src slen dest 1 1) as (d1 & j & -> & L1 & J1); [lia..|].
  cbn [mbind option_bind close_frame].
  destruct (bput_some d1 0 NDEV_HD) as (d2 & -> & L2); [lia|]. cbn [mbind option_bind].
  destruct (bput_some d2 j NDEV_TAIL) as (d3 & -> & L3); [lia|]. cbn [mbind option_bind].
  exists d3, (j + 1). split; [done|]. lia.
Qed.

Section Session.
Context (b64e b64d : list Z -> list Z) (crc : list Z -> Z).

(** The request of the balancer fits its arrays, and what is decoded fits
    [rxbuf]. *)
Context (Hreq : (length (package_data b64e crc 0x00 0x02 0xA4) <= 128)%nat)
        (Hdec : forall t, (length (b64d t) <= 512)%nat).

Definition request : list Z := package_data b64e crc 0x00 0x02 0xA4.

(** What is sent is the request, escaped. *)
Lemma package_sent : exists body tx n, request = frame body /\
  package_make b64e crc (replicate 512 0) 0x00 0x02 0xA4 = Some (tx, n) /\
  take (Z.to_nat n) tx = frame (escape body).
Proof using Hreq.
  destruct (package_framed b64e crc 0x00 0x02 0xA4) as [body E]. fold request in *.
  assert (forall l : list Z, length (frame l) = (length l + 2)%nat) as Hf
    by (intros; unfold frame; rewrite !length_app; cbn [length]; lia).
  pose proof (length_escape body) as He. rewrite E, Hf in Hreq.
  unfold package_make. fold request. rewrite E, Hf, (proj2 (Z.leb_le _ _)), Nat2Z.inj_add by lia.
  change (frame body) with (NDEV_HD :: body ++ [NDEV_TAIL]). change (Z.of_nat 2) with 2.
  change (replicate 512 0) with (0 :: replicate 511 0).
  rewrite uplink_spec by (rewrite length_replicate; lia).
  eexists body, _, _. split; [done|]. split; [done|].
  rewrite take_app_le, take_ge by (rewrite Hf; lia). done.
Qed.

(** Any answer is taken without leaving the buffers. *)
Lemma take_key_total d : (0 < length d <= 128)%nat ->
  exists key, take_key b64d (d ++ replicate (512 - length d) 0) (Z.of_nat (length d)) = Some key.
Proof using Hdec.
  clear Hreq. intros Hd. unfold take_key.
  destruct (downlink_total (d ++ replicate (512 - length d) 0) (Z.of_nat (length d)) (replicate 512 0))
    as (buf & n & -> & _); [rewrite length_app; lia|rewrite length_replicate; lia|].
  cbn [mbind option_bind]. unfold bcopy. rewrite bool_decide_eq_true_2; [by eexists|].
  rewrite length_app, length_replicate. specialize (Hdec (take 36 (drop 11 buf))). lia.
Qed.

(** The key in the answer of the server. *)
Lemma take_key_answer body : (length (frame (escape body)) <= 128)%nat ->
  (27 <= length (b64d (take 36 (drop 10 body))))%nat -> (46 <= length body)%nat ->
  let d := frame (escape body) in
  take_key b64d (d ++ replicate (512 - length d) 0) (Z.of_nat (length d)) =
  Some (take 16 (drop 11 (b64d (take 36 (drop 10 body))))).
Proof using Hdec.
  clear Hreq. intros Hl Hk Hb d. pose proof (length_escape body) as He.
  assert (length d = (length (escape body) + 2)%nat) as Hd
    by (unfold d, frame; rewrite !length_app; cbn [length]; lia).
  fold d in Hl. unfold take_key, __downlink_escape. rewrite Hd, Nat2Z.inj_add. change (Z.of_nat 2) with 2.
  set (z := replicate _ 0).
  replace (d ++ z) with ([NDEV_HD] ++ escape body ++ ([NDEV_TAIL] ++ z)) by
    (unfold d, frame; by rewrite <- !app_assoc).
  change (replicate 512 0) with ([0] ++ replicate 511 0).
  rewrite (downlink_loop_spec body [NDEV_HD] ([NDEV_TAIL] ++ z) [0] (replicate 511 0))
    by (cbn [length]; rewrite ?length_replicate; lia).
  cbn [mbind option_bind]. rewrite drop_replicate.
  destruct (511 - length body)%nat as [|k] eqn:Ek; [lia|]. cbn [replicate].
  change ([0] ++ body) with (0 :: body). rewrite close_frame_end by lia. cbn [mbind option_bind].
  assert (take 36 (drop 11 (frame body ++ replicate k 0)) = take 36 (drop 10 body)) as ->.
  { unfold frame. cbn [app drop]. rewrite <- app_assoc, drop_app_le, take_app_le by
      (rewrite ?length_drop; lia). done. }
  set (t := b64d _) in *. unfold bcopy. rewrite bool_decide_eq_true_2.
  - cbn [mbind option_bind]. change (Z.to_nat 0) with 0%nat. rewrite take_0, app_nil_l. f_equal.
    assert (forall X, take 16 (drop 11 (t ++ X)) = take 16 (drop 11 t)) as ->; [|done].
    intros X. rewrite drop_app_le, take_app_le by (rewrite ?length_drop; lia). done.
  - unfold z. rewrite !length_app, length_replicate. cbn [length].
    specialize (Hdec (take 36 (drop 10 body))). fold t in Hdec. lia.
Qed.

(** The exchange with the balancer, when [frame (escape body)] is sent. *)
Lemma request_server_run (l : link) (key body tx : list Z) n :
  package_make b64e crc (replicate 512 0) 0x00 0x02 0xA4 = Some (tx, n) ->
  take (Z.to_nat n) tx = frame (escape body) ->
  let wire := frame (escape body) in
  exists key', request_server b64e b64d crc l key =
      Some (key', UdpSend wire (udp_sendto l wire) ::
        (if udp_sendto l wire <=? 0 then [] else [UdpRecv (take 128 (udp_recvfrom l))])) /\
    (udp_sendto l wire <= 0 \/ udp_recvfrom l = [] -> key' = key) /\
    (forall b, 0 < udp_sendto l wire -> take 128 (udp_recvfrom l) = frame (escape b) ->
       (27 <= length (b64d (take 36 (drop 10 b))))%nat -> (46 <= length b)%nat ->
       key' = take 16 (drop 11 (b64d (take 36 (drop 10 b))))).
Proof using Hreq Hdec.
  intros Ep Et wire. unfold request_server. rewrite Ep. cbn [mbind option_bind]. rewrite Et. fold wire.
  destruct (Z.leb_spec (udp_sendto l wire) 0) as [Hs|Hs].
  { exists key. split_and!; [done|done|lia]. }
  pose proof (firstn_le_length 128 (udp_recvfrom l)) as Hlen. set (d := take 128 _) in *.
  destruct (Nat.eqb_spec (length d) 0) as [H0|Hn].
  { exists key. split_and!; [done|done|]. intros b _ Eb. rewrite Eb in H0. done. }
  destruct (take_key_total d) as [key' Ek]; [lia|]. rewrite Ek. cbn [mbind option_bind].
  exists key'. split_and!; [done| |].
  { intros [?|Hr]; [lia|]. unfold d in Hn. by rewrite Hr in Hn. }
  intros b _ Eb H27 H46. rewrite Eb in Ek. rewrite take_key_answer in Ek; [by injection Ek|rewrite <- Eb; lia|done|done].
Qed.

(** What is on the wire is recovered by unescaping. *)
Lemma wire_recovered body : request = frame body -> exists rest n,
  __downlink_escape (replicate 512 0) (frame (escape body)) (Z.of_nat (length (frame (escape body)))) =
  Some (request ++ rest, n).
Proof using Hreq.
  intros Er. rewrite Er.
  assert (length (frame (escape body)) = (length (escape body) + 2)%nat) as ->
    by (unfold frame; rewrite !length_app; cbn [length]; lia).
  rewrite Nat2Z.inj_add. change (Z.of_nat 2) with 2.
  change (frame (escape body)) with (NDEV_HD :: escape body ++ [NDEV_TAIL]).
  change (replicate 512 0) with (0 :: replicate 511 0).
  rewrite downlink_spec; [by eexists _, _|]. fold request in Hreq. rewrite Er in Hreq.
  revert Hreq. unfold frame. rewrite !length_app, length_replicate. cbn [length]. lia.
Qed.

(** The calls on the sockets, one after the other, when [wire] is sent. *)
Definition session (l : link) (wire : list Z) : list event :=
  UdpNew (udp_new l) ::
  if udp_new l <=? 0 then []
  else
    UdpSend wire (udp_sendto l wire) ::
    (if udp_sendto l wire <=? 0 then [] else [UdpRecv (take 128 (udp_recvfrom l))]) ++
    [UdpClose (udp_new l); TcpNew (tcp_new l)] ++
    (if tcp_new l <=? 0 then [] else [TcpClose (tcp_new l)]).

(** C18: The client and the load balancer, whatever the network does: [main] stays
    inside its buffers (if the encoded request fits its array and the decoder at
    most fills its own) and returns, and its calls are exactly these, in this
    order: the UDP socket is opened, and unless that fails the request of
    [package_make] is sent on it, which unescaping recovers from the bytes on
    the wire; unless the sending fails an answer of at most 128 bytes is
    awaited; the UDP socket is closed in every case, then the TCP socket opened,
    and closed if it was opened.  Without an answer the key is the old one; with
    the escaped answer of a server the key is bytes 11 to 26 of what the 36
    characters behind the header decode to. *)
Theorem node_session (l : link) (key : list Z) :
  exists wire key', main b64e b64d crc l key = Some (key', session l wire) /\
    (exists rest n, __downlink_escape (replicate 512 0) wire (Z.of_nat (length wire)) = Some (request ++ rest, n)) /\
    (udp_new l <= 0 \/ udp_sendto l wire <= 0 \/ udp_recvfrom l = [] -> key' = key) /\
    (forall body, 0 < udp_new l -> 0 < udp_sendto l wire -> take 128 (udp_recvfrom l) = frame (escape body) ->
       (27 <= length (b64d (take 36 (drop 10 body))))%nat -> (46 <= length body)%nat ->
       key' = take 16 (drop 11 (b64d (take 36 (drop 10 body))))).
Proof using Hreq Hdec.
  destruct package_sent as (body & tx & n & Er & Ep & Et).
  destruct (request_server_run l key body tx n Ep Et) as (key' & E & Hold & Hnew).
  exists (frame (escape body)). unfold main, session. destruct (Z.leb_spec (udp_new l) 0) as [H0|H0].
  { exists key. split_and!; [done|by apply wire_recovered|done|lia]. }
  exists key'. split_and!; [|by apply wire_recovered| |].
  - rewrite E. cbn [mbind option_bind]. destruct (_ <=? 0), (tcp_new l <=? 0); reflexivity.
  - intros [?|H]; [lia|]. by apply Hold.
  - intros b _. apply Hnew.
Qed.
End Session.

(** With base64 and CRC routines that copy: an answer of a server. *)
Definition sample_answer : list Z := [2; 0xAA; 0xAD; 0; 2; 0xA4; 0; 38; 68; 80] ++ seqZ 1 36 ++ [0; 0].

Lemma node_session_witness :
  let l := mk_link 5 (fun d => Z.of_nat (length d)) (frame (escape sample_answer)) 6 in
  exists wire key', main (fun d => d) (take 40) (fun _ => 0) l [] = Some (key', session l wire) /\
    (0 < length wire)%nat /\ key' = seqZ 12 16.
Proof.
  intros l.
  destruct (node_session (fun d => d) (take 40) (fun _ => 0) ltac:(vm_compute; lia)
    ltac:(intros t; rewrite length_take; lia) l []) as (wire & key' & E & _ & _ & Hkey).
  exists wire, key'. split; [exact E|].
  assert (0 < length wire)%nat as Hw.
  { assert (main (fun d => d) (take 40) (fun _ => 0) l [] = main (fun d => d) (take 40) (fun _ => 0) l [])
        as E2 by reflexivity. rewrite E in E2 at 1. destruct wire; [|cbn [length]; lia]. vm_compute in E2. discriminate E2. }
  split; [exact Hw|].
  rewrite (Hkey sample_answer); [vm_compute; reflexivity|vm_compute; reflexivity|cbn; lia|vm_compute; reflexivity|vm_compute; lia..].
Defined.
