(* ===== verification/Rent.v ===== *)
(** * Rent records (src/rent_record/rent_record.c, main.c)

    The centre sends the rental history of a card as a message of tab-separated
    records; the program gets it as hexadecimal text of base64 text.  Here:
    [str_to_hex], the record parser [ParseRentBikeRecord] and [main], which
    chains them with the decoder of [Base64].

    [char] may be signed or not ([char_signed]); the parser reads the record
    count through it.  The block of [calloc] is one flat array: the structure
    is packed, so a write past a member lands in the next one, and a write past
    the block is the result [None].  The result is what [printf] shows. *)

From S2P Require Import Prelude Base64.

(** ** Text to bytes *)

(** The value of one character, [None] for an illegal one. *)
Definition hex_digit (c : Z) : option Z :=
  if (48 <=? c) && (c <=? 57) then Some (c - 48)
  else if (65 <=? c) && (c <=? 70) then Some (c - 0x37)
  else if (97 <=? c) && (c <=? 102) then Some (c - 0x57)
  else None.

(** The first loop: each character is replaced by its value; it stops at the
    first illegal one, whose predecessors stay replaced. *)
Fixpoint str_values (n : nat) (i : Z) (o_buf : list Z) : option (bool * list Z) :=
  match n with
  | O => Some (true, o_buf)
  | S n =>
      c ← bget o_buf i;
      match hex_digit c with
      | Some v => o_buf ← bput o_buf i v; str_values n (i + 1) o_buf
      | None => Some (false, o_buf)
      end
  end.

(** The second loop: [for(temp_len = 0, j = 0; j < i; j += 2)]. *)
Fixpoint join_values (n : nat) (j : Z) (o_buf hex_data : list Z) : option (list Z) :=
  match n with
  | O => Some hex_data
  | S n =>
      a ← bget o_buf j;
      b ← bget o_buf (j + 1);
      hex_data ← bput hex_data (j / 2) (u8 ((a ≪ 4) .| b));
      join_values n (j + 2) o_buf hex_data
  end.

(** Value returned, text buffer and output buffer. *)
Definition str_to_hex (str_data hex_data : list Z) (str_len : Z)
  : option (Z * list Z * list Z) :=
  '(ok, o_buf) ← str_values (Z.to_nat str_len) 0 str_data;
  if (ok : bool) then
    let n := Z.to_nat ((Z.max 0 str_len + 1) / 2) in
    hex_data ← join_values n 0 o_buf hex_data;
    Some (Z.of_nat n, o_buf, hex_data)
  else Some (0, o_buf, hex_data).

(** ** The parser *)

(** [struct rent_info_fmt], packed: offset and size of each member. *)
Definition rent_info_fmt : list (Z * Z) :=
  [(0, 32); (32, 64); (96, 32); (128, 64); (192, 32); (224, 16); (240, 16)].
Definition sizeof_rent_info_fmt : Z := 256.

Record parser := mk_parser {
  p_mem : list Z;             (* m_RentRecordInfo *)
  p_begin : Z;
  p_cnt : Z;
  p_cur : Z;                  (* m_CurrRecordNum *)
  p_out : list (list (list Z))  (* the members printed, record by record *) }.

(** A member of the record: clamp [size], copy, terminate. *)
Definition put_member (buff mem : list Z) (cur off cap src size : Z) : option (list Z) :=
  let size := if size >=? cap then cap else size in
  if bool_decide (0 <= src /\ 0 <= size /\ src + size <= Z.of_nat (length buff)) then
    let data := take (Z.to_nat size) (drop (Z.to_nat src) buff) in
    mem ← bcopy mem (sizeof_rent_info_fmt * cur + off) data;
    bput mem (sizeof_rent_info_fmt * cur + off + size) 0
  else None.

(** The [switch]: the new memory and [cnt]. *)
Definition put_field (buff : list Z) (st : parser) (size : Z) : option (list Z * Z) :=
  let put off cap src := mem ← put_member buff (p_mem st) (p_cur st) off cap src size;
                         Some (mem, p_cnt st) in
  let begin := p_begin st in
  match p_cnt st with
  | 0 => put 0 32 (if p_cur st =? 0 then begin else begin + 1)
  | 1 => put 32 64 (begin + 1)
  | 2 => put 96 32 (begin + 1)
  | 3 => put 128 64 (begin + 1)
  | 4 => put 192 32 (begin + 1)
  | 5 => put 224 16 (begin + 1)
  | 6 => put 240 16 (begin + 1)
  | _ => Some (p_mem st, 0)
  end.

(** [%s]: the characters up to the terminator. *)
Fixpoint cstring (l : list Z) : option (list Z) :=
  match l with
  | [] => None
  | c :: l => if c =? 0 then Some [] else cons c <$> cstring l
  end.

Definition print_record (mem : list Z) (cur : Z) : option (list (list Z)) :=
  mapM (fun '(off, _) => cstring (drop (Z.to_nat (sizeof_rent_info_fmt * cur + off)) mem))
    rent_info_fmt.

(** One iteration of the [for] loop. *)
Definition parse_step (buff : list Z) (st : parser) (i : Z) : option parser :=
  c ← bget buff i;
  st ← (if (c =? 0x09) || (c =? 0x0a) then
          '(mem, cnt) ← put_field buff st (i - p_begin st);
          Some (mk_parser mem i (cnt + 1) (p_cur st) (p_out st))
        else Some st);
  if c =? 0x0a then
    rec ← print_record (p_mem st) (p_cur st);
    Some (mk_parser (p_mem st) (p_begin st) 0 (p_cur st + 1) (p_out st ++ [rec]))
  else Some st.

Fixpoint parse_loop (buff : list Z) (idx : list Z) (st : parser) : option parser :=
  match idx with
  | [] => Some st
  | i :: idx => st ← parse_step buff st i; parse_loop buff idx st
  end.

(** [calloc(buff[8], sizeof(rent_info_fmt_t))], [given] or not; a negative count
    is a size no allocation satisfies.  The result is not tested: NULL is a block
    in which no access is possible. *)
Definition record_block (given char_signed : bool) (c : Z) : list Z :=
  let n := if char_signed && (128 <=? c) then c - 256 else c in
  if given then replicate (Z.to_nat (sizeof_rent_info_fmt * n)) 0 else [].

Definition ParseRentBikeRecord (given char_signed : bool) (buff : option (list Z)) (len : Z)
  : option (Z * list (list (list Z))) :=
  match buff with
  | None => Some (-1, [])
  | Some buff =>
      if len <=? 0 then Some (-1, [])
      else
        c ← bget buff 8;
        st ← parse_loop buff (seqZ 11 len) (mk_parser (record_block given char_signed c) 11 0 0 []);
        Some (0, p_out st)
  end.

(** ** The program *)

(** [rent_str] is a NUL-terminated array; the two other buffers have 2048
    zero bytes.  [size] is the big-endian number in bytes 9 and 10. *)
Definition main (given char_signed : bool) (rent_str : list Z) : option (Z * list (list (list Z))) :=
  s ← cstring rent_str;
  '(_, _, hexdata) ← str_to_hex rent_str (replicate 2048 0) (Z.of_nat (length s));
  bin ← lib_base64_decode hexdata;
  bindata ← bcopy (replicate 2048 0) 0 bin;
  let size := aget bindata 9 * 256 + aget bindata 10 in
  ParseRentBikeRecord given char_signed (Some bindata) size.

(** ** The message format

    A record is seven fields, each followed by a tab, and a line feed. *)

Definition plain (c : Z) : Prop := is_byte c /\ c <> 0 /\ c <> 9 /\ c <> 10.

#[export] Instance plain_dec c : Decision (plain c).
Proof. unfold plain. apply _. Defined.

Definition tabbed (f : list Z) : list Z := f ++ [9].

Definition encode_record (r : list (list Z)) : list Z := concat (map tabbed r) ++ [10].

(** The field, its tab and a terminator fit the member. *)
Definition record_ok (r : list (list Z)) : Prop :=
  Forall (Forall plain) r /\
  Forall2 (fun m f => Z.of_nat (length f) + 1 < snd m) rent_info_fmt r.

(** What the program shows of a record: all fields but the first one of the
    first record keep their tab. *)
Definition shown_record (first : bool) (r : list (list Z)) : list (list Z) :=
  match first, r with
  | true, f :: r => f :: map tabbed r
  | _, r => map tabbed r
  end.

Definition shown (recs : list (list (list Z))) : list (list (list Z)) :=
  match recs with
  | [] => []
  | r :: recs => shown_record true r :: map (shown_record false) recs
  end.

(** ** The loop on one field *)

Lemma parse_loop_app buff l1 l2 st :
  parse_loop buff (l1 ++ l2) st = (st ← parse_loop buff l1 st; parse_loop buff l2 st).
Proof.
  revert st. induction l1 as [|i l1 IH]; intros st; [done|]. cbn.
  destruct (parse_step buff st i); [|done]. cbn. apply IH.
Qed.

Lemma bget_len (pre suf : list Z) (c : Z) : bget (pre ++ c :: suf) (Z.of_nat (length pre)) = Some c.
Proof. by apply bget_at. Qed.

Lemma parse_skip f : forall pre suf st, Forall plain f ->
  parse_loop (pre ++ f ++ suf) (seqZ (Z.of_nat (length pre)) (Z.of_nat (length f))) st = Some st.
Proof.
  induction f as [|c f IH]; intros pre suf st Hf; [done|].
  apply Forall_cons in Hf as [(Hc & H0 & H9 & H10) Hf].
  cbn [length]. rewrite seqZ_cons by lia. cbn [parse_loop app]. unfold parse_step.
  rewrite bget_len. cbn [mbind option_bind].
  rewrite (proj2 (Z.eqb_neq c 9)), (proj2 (Z.eqb_neq c 10)) by done. cbn.
  specialize (IH (pre ++ [c]) suf st Hf). rewrite length_app, <- app_assoc in IH. cbn in IH.
  etransitivity; [|exact IH]. f_equal. f_equal; lia.
Qed.

(** The [switch] reads the table of members. *)
Lemma put_field_member buff st size k off cap :
  rent_info_fmt !! k = Some (off, cap) -> p_cnt st = Z.of_nat k ->
  put_field buff st size =
  (mem ← put_member buff (p_mem st) (p_cur st) off cap
           (if (p_cnt st =? 0) && (p_cur st =? 0) then p_begin st else p_begin st + 1) size;
   Some (mem, p_cnt st)).
Proof.
  intros Hk Hc. unfold put_field. rewrite Hc.
  do 7 (destruct k as [|k]; [injection Hk as <- <-; reflexivity|]). done.
Qed.

Definition pad (cap : Z) (s : list Z) : list Z := s ++ replicate (Z.to_nat cap - length s) 0.

Lemma put_member_zeros buff A m cur off cap src s pre suf :
  buff = pre ++ s ++ suf -> src = Z.of_nat (length pre) ->
  Z.of_nat (length s) < cap -> Z.of_nat (length A) = 256 * cur + off ->
  cap <= Z.of_nat m ->
  put_member buff (A ++ replicate m 0) cur off cap src (Z.of_nat (length s)) =
  Some (A ++ pad cap s ++ replicate (m - Z.to_nat cap) 0).
Proof.
  intros -> -> Hs HA Hm. unfold put_member, sizeof_rent_info_fmt.
  rewrite Z.geb_leb, (proj2 (Z.leb_gt cap _)) by done.
  rewrite bool_decide_eq_true_2 by (rewrite !length_app; lia).
  rewrite !Nat2Z.id, drop_app_length, take_app_length, <- HA. unfold bcopy.
  rewrite bool_decide_eq_true_2 by (rewrite length_app, length_replicate; lia).
  cbn [mbind option_bind]. rewrite Nat2Z.id, take_app_length.
  rewrite drop_app_ge, drop_replicate by lia. unfold bput.
  rewrite bool_decide_eq_true_2 by (rewrite !length_app, length_replicate; lia).
  f_equal. rewrite insert_app_r_alt by lia. f_equal. rewrite insert_app_r_alt by lia.
  unfold pad. rewrite <- app_assoc, <- replicate_add. f_equal.
  replace (m - (length A + length s - length A))%nat
    with (S (Z.to_nat cap - length s + (m - Z.to_nat cap) - 1))%nat by lia.
  replace (Z.to_nat _ - length A - length s)%nat with 0%nat by lia.
  change (replicate (S ?n) 0) with (0 :: replicate n 0). cbn [insert list_insert].
  change (0 :: replicate ?n 0) with (replicate (S n) 0). f_equal. lia.
Qed.

(** One field: skipped, then stored at its tab. *)
Lemma parse_field f pre suf A m cur out k off cap beg :
  let first := (k =? 0)%nat && (cur =? 0) in
  let s := if first then f else tabbed f in
  Forall plain f -> rent_info_fmt !! k = Some (off, cap) ->
  (if first then beg else beg + 1) = Z.of_nat (length pre) ->
  Z.of_nat (length f) + 1 < cap -> Z.of_nat (length A) = 256 * cur + off -> cap <= Z.of_nat m ->
  parse_loop (pre ++ tabbed f ++ suf) (seqZ (Z.of_nat (length pre)) (Z.of_nat (length (tabbed f))))
    (mk_parser (A ++ replicate m 0) beg (Z.of_nat k) cur out) =
  Some (mk_parser (A ++ pad cap s ++ replicate (m - Z.to_nat cap) 0)
    (Z.of_nat (length pre + length f)) (Z.of_nat (S k)) cur out).
Proof.
  intros first s Hf Hk Hb Hl HA Hm. unfold tabbed at 1 2. rewrite <- app_assoc.
  rewrite length_app, Nat2Z.inj_add, seqZ_app, parse_loop_app, parse_skip by (done || lia).
  cbn [mbind option_bind length]. change (seqZ ?i (Z.of_nat 1)) with [i]. cbn [parse_loop].
  unfold parse_step at 1. change ([9] ++ suf) with (9 :: suf).
  rewrite <- Nat2Z.inj_add, <- length_app, (app_assoc pre f), bget_len.
  cbn [mbind option_bind]. change (9 =? 9) with true. change (9 =? 10) with false. cbn [orb].
  rewrite (put_field_member _ _ _ k off cap) by done.
  cbn [p_cnt p_cur p_begin p_mem p_out].
  replace (Z.of_nat k =? 0) with (k =? 0)%nat by (by destruct k). fold first. rewrite Hb.
  assert (Z.of_nat (length (pre ++ f)) - beg = Z.of_nat (length s)) as ->.
  { unfold s, tabbed. destruct first; rewrite ?length_app; cbn [length]; lia. }
  rewrite (put_member_zeros _ A m cur off cap _ s pre (if first then 9 :: suf else suf)); cycle 1.
  - unfold s, tabbed. destruct first; by rewrite <- !app_assoc.
  - done.
  - unfold s, tabbed. destruct first; rewrite ?length_app; cbn [length]; lia.
  - done.
  - done.
  - cbn [mbind option_bind]. do 2 f_equal; rewrite ?length_app; lia.
Qed.

(** ** A record *)

(** Offsets of the members, with the end of the structure. *)
Definition member_at (k : nat) : Z := [0; 32; 96; 128; 192; 224; 240; 256] !!! k.

#[local] Arguments member_at : simpl never.

Lemma member_lookup k : (k < 7)%nat ->
  rent_info_fmt !! k = Some (member_at k, member_at (S k) - member_at k) /\
  16 <= member_at (S k) - member_at k /\ member_at (S k) <= 256.
Proof. intros Hk. do 7 (destruct k as [|k]; [done|]). lia. Qed.

(** The members from the [k]th on, filled. *)
Fixpoint filled (k : nat) (ss : list (list Z)) : list Z :=
  match ss with
  | [] => []
  | s :: ss => pad (member_at (S k) - member_at k) s ++ filled (S k) ss
  end.

Definition fits (k : nat) (fs : list (list Z)) : Prop :=
  forall j f, fs !! j = Some f ->
    Z.of_nat (length f) + 1 < member_at (S (k + j)) - member_at (k + j).

Lemma fits_cons k f fs : fits k (f :: fs) ->
  Z.of_nat (length f) + 1 < member_at (S k) - member_at k /\ fits (S k) fs.
Proof.
  intros H. split; [by rewrite <- (Nat.add_0_r k); apply (H 0%nat)|].
  intros j g Hj. rewrite <- (Nat.add_succ_r k j) || rewrite Nat.add_succ_comm. by apply (H (S j)).
Qed.

Lemma length_pad cap s : Z.of_nat (length s) < cap -> Z.of_nat (length (pad cap s)) = cap.
Proof. intros. unfold pad. rewrite length_app, length_replicate. lia. Qed.

Definition shown_from (k : nat) (cur : Z) (fs : list (list Z)) : list (list Z) :=
  shown_record ((k =? 0)%nat && (cur =? 0)) fs.

Lemma shown_from_cons k cur f fs : shown_from k cur (f :: fs) =
  (if (k =? 0)%nat && (cur =? 0) then f else tabbed f) :: shown_from (S k) cur fs.
Proof. unfold shown_from, shown_record. by destruct ((k =? 0)%nat && (cur =? 0)). Qed.

Lemma parse_fields fs : forall k pre suf A m cur out beg,
  Forall (Forall plain) fs -> fits k fs -> (k + length fs = 7)%nat ->
  (if (k =? 0)%nat && (cur =? 0) then beg else beg + 1) = Z.of_nat (length pre) ->
  Z.of_nat (length A) = 256 * cur + member_at k -> 256 - member_at k <= Z.of_nat m ->
  let body := concat (map tabbed fs) in
  let n := (m - Z.to_nat (256 - member_at k))%nat in
  parse_loop (pre ++ body ++ suf) (seqZ (Z.of_nat (length pre)) (Z.of_nat (length body)))
    (mk_parser (A ++ replicate m 0) beg (Z.of_nat k) cur out) =
  Some (mk_parser (A ++ filled k (shown_from k cur fs) ++ replicate n 0)
    (if (k =? 7)%nat then beg else Z.of_nat (length pre + length body) - 1) 7 cur out).
Proof.
  induction fs as [|f fs IH]; intros k pre suf A m cur out beg Hp Hf Hk Hb HA Hm body n.
  { assert (k = 7%nat) as -> by (cbn in Hk; lia). unfold n. cbn. by rewrite Nat.sub_0_r. }
  apply Forall_cons in Hp as [Hpf Hp]. apply fits_cons in Hf as [Hff Hf]. cbn [length] in Hk.
  destruct (member_lookup k) as (Hmem & H16 & H256); [lia|].
  unfold body. cbn [map concat]. set (body' := concat (map tabbed fs)).
  rewrite length_app, Nat2Z.inj_add, seqZ_app, <- app_assoc by lia.
  rewrite parse_loop_app, (parse_field f _ _ _ _ _ _ _ _ _ _ Hpf Hmem) by (done || lia).
  cbn [mbind option_bind]. rewrite shown_from_cons. set (s := if _ && _ then f else _).
  assert (Z.of_nat (length s) < member_at (S k) - member_at k) as Hs.
  { unfold s, tabbed. destruct (_ && _); rewrite ?length_app; cbn [length]; lia. }
  assert (Hpre : Z.of_nat (length pre) + Z.of_nat (length (tabbed f)) =
    Z.of_nat (length (pre ++ tabbed f))) by (rewrite length_app; lia).
  rewrite Hpre, !(app_assoc pre (tabbed f)), (app_assoc A).
  rewrite (IH (S k)); [|done|done|lia|..].
  - f_equal. rewrite length_app, <- app_assoc. cbn [filled]. rewrite <- app_assoc. unfold n, body'.
    replace (k =? 7)%nat with false by (symmetry; apply Nat.eqb_neq; lia).
    f_equal; [do 4 f_equal; lia|]. destruct (Nat.eqb_spec (S k) 7) as [Hk7|]; [|lia].
    destruct fs; [|cbn in Hk; lia]. unfold tabbed. rewrite length_app. cbn [length map concat]. lia.
  - cbn [Nat.eqb andb]. rewrite length_app. unfold tabbed. rewrite length_app. cbn [length]. lia.
  - rewrite length_app, Nat2Z.inj_add, length_pad by done. lia.
  - lia.
Qed.

Definition text (s : list Z) : Prop := Forall (fun c => c <> 0) s.

Lemma cstring_text s r : text s -> cstring (s ++ 0 :: r) = Some s.
Proof.
  induction s as [|c s IH]; intros Hs; [done|]. apply Forall_cons in Hs as [Hc Hs].
  cbn. rewrite (proj2 (Z.eqb_neq c 0)), IH by done. done.
Qed.

Lemma cstring_pad (P R : list Z) cap s n : n = Z.of_nat (length P) -> text s ->
  Z.of_nat (length s) < cap -> cstring (drop (Z.to_nat n) (P ++ pad cap s ++ R)) = Some s.
Proof.
  intros -> Hs Hl. rewrite Nat2Z.id, drop_app_length. unfold pad.
  replace (Z.to_nat cap - length s)%nat with (S (Z.to_nat cap - length s - 1)) by lia.
  rewrite <- app_assoc. by apply cstring_text.
Qed.

(** Printing reads back the filled members. *)
Lemma print_filled ss : forall k P R cur, (k + length ss = 7)%nat ->
  Z.of_nat (length P) = 256 * cur + member_at k -> Forall text ss ->
  (forall j s, ss !! j = Some s -> Z.of_nat (length s) < member_at (S (k + j)) - member_at (k + j)) ->
  mapM (fun '(off, _) => cstring (drop (Z.to_nat (256 * cur + off)) (P ++ filled k ss ++ R)))
    (drop k rent_info_fmt) = Some ss.
Proof.
  induction ss as [|s ss IH]; intros k P R cur Hk HP Ht Hl.
  { assert (k = 7%nat) as -> by (cbn in Hk; lia). done. }
  cbn [length] in Hk. destruct (member_lookup k) as (Hmem & _ & _); [lia|].
  apply Forall_cons in Ht as [Hs Ht].
  assert (Z.of_nat (length s) < member_at (S k) - member_at k) as Hsl
    by (rewrite <- (Nat.add_0_r k); by apply (Hl 0%nat)).
  rewrite (drop_S _ _ _ Hmem). cbn [filled mapM]. rewrite <- app_assoc.
  rewrite cstring_pad by done. cbn [mbind option_bind].
  rewrite (app_assoc P), (IH (S k)); [done|lia| |done|].
  - rewrite length_app, Nat2Z.inj_add, length_pad by done. lia.
  - intros j x Hj. rewrite Nat.add_succ_comm. by apply (Hl (S j)).
Qed.

Lemma shown_from_text k cur fs : Forall (Forall plain) fs -> Forall text (shown_from k cur fs).
Proof.
  intros Hp. assert (Hpt : forall f, Forall plain f -> text f).
  { intros f Hf. eapply Forall_impl; [exact Hf|]. by intros c (_ & ? & _). }
  assert (Ht : Forall text (map tabbed fs)).
  { apply Forall_map. eapply Forall_impl; [exact Hp|]. intros f Hf.
    apply Forall_app. split; [by apply Hpt|by repeat constructor]. }
  unfold shown_from, shown_record. destruct (_ && _); [|done].
  destruct fs; [done|]. cbn in Ht. apply Forall_cons in Hp as [? _], Ht as [_ ?].
  constructor; auto.
Qed.

Lemma shown_from_fits k cur fs : fits k fs -> forall j s, shown_from k cur fs !! j = Some s ->
  Z.of_nat (length s) < member_at (S (k + j)) - member_at (k + j).
Proof.
  intros Hf j s. unfold shown_from, shown_record.
  assert (Hin : forall fs' i k', fits k' fs' -> map tabbed fs' !! i = Some s ->
    Z.of_nat (length s) < member_at (S (k' + i)) - member_at (k' + i)).
  { intros fs' i k' Hf' Hi. apply list_lookup_fmap_Some in Hi as (f & -> & Hi).
    unfold tabbed. rewrite length_app. cbn [length]. apply Hf' in Hi. lia. }
  destruct (_ && _), fs as [|f fs]; [done| | done|by apply Hin].
  apply fits_cons in Hf as [Hff Hf]. destruct j as [|j]; cbn.
  - intros [= ->]. rewrite Nat.add_0_r. lia.
  - rewrite <- Nat.add_succ_comm. by apply Hin.
Qed.

Lemma length_shown_from k cur fs : length (shown_from k cur fs) = length fs.
Proof.
  unfold shown_from, shown_record. destruct (_ && _), fs; cbn; by rewrite ?length_map.
Qed.

Lemma length_filled ss : forall k, (k + length ss = 7)%nat ->
  (forall j s, ss !! j = Some s -> Z.of_nat (length s) < member_at (S (k + j)) - member_at (k + j)) ->
  Z.of_nat (length (filled k ss)) = 256 - member_at k.
Proof.
  induction ss as [|s ss IH]; intros k Hk Hl; cbn [length filled] in *.
  - assert (k = 7%nat) as -> by lia. done.
  - pose proof (Hl 0%nat s eq_refl) as H0. rewrite Nat.add_0_r in H0.
    rewrite length_app, Nat2Z.inj_add, length_pad, IH by (try done; try lia;
      intros j x Hj; rewrite Nat.add_succ_comm; by apply (Hl (S j))). lia.
Qed.

(** A whole record, from its first character to its line feed. *)
Lemma parse_record r pre suf A m cur out beg :
  Forall (Forall plain) r -> fits 0 r -> length r = 7%nat ->
  (if cur =? 0 then beg else beg + 1) = Z.of_nat (length pre) ->
  Z.of_nat (length A) = 256 * cur -> (256 <= m)%nat ->
  exists B, length B = (length A + 256)%nat /\
  parse_loop (pre ++ encode_record r ++ suf)
    (seqZ (Z.of_nat (length pre)) (Z.of_nat (length (encode_record r))))
    (mk_parser (A ++ replicate m 0) beg 0 cur out) =
  Some (mk_parser (B ++ replicate (m - 256) 0)
    (Z.of_nat (length pre + length (encode_record r)) - 1) 0 (cur + 1)
    (out ++ [shown_record (cur =? 0) r])).
Proof.
  intros Hp Hf Hr Hb HA Hm. unfold encode_record. set (body := concat (map tabbed r)).
  assert (Hss : length (shown_from 0 cur r) = 7%nat) by (by rewrite length_shown_from).
  pose proof (shown_from_fits 0 cur r Hf) as Hfit.
  exists (A ++ filled 0 (shown_from 0 cur r)). split.
  { rewrite length_app. pose proof (length_filled _ 0%nat Hss Hfit) as Hl. change (member_at 0) with 0 in Hl. lia. }
  rewrite length_app, Nat2Z.inj_add, seqZ_app, <- app_assoc, parse_loop_app by lia.
  rewrite (parse_fields r 0) by (done || (change (member_at 0) with 0; lia)).
  cbn [mbind option_bind Nat.eqb length]. fold body.
  change (seqZ ?i (Z.of_nat 1)) with [i]. cbn [parse_loop]. unfold parse_step.
  change ([10] ++ suf) with (10 :: suf).
  rewrite <- Nat2Z.inj_add, <- length_app, (app_assoc pre body), bget_len.
  cbn [mbind option_bind]. change (10 =? 9) with false. change (10 =? 10) with true. cbn [orb].
  cbn [put_field p_cnt p_mem mbind option_bind p_cur p_out p_begin].
  unfold print_record, sizeof_rent_info_fmt. change rent_info_fmt with (drop 0 rent_info_fmt).
  rewrite print_filled by (done || (by apply shown_from_text) || (change (member_at 0) with 0; lia)).
  cbn [mbind option_bind]. change (Z.to_nat (256 - member_at 0)) with 256%nat.
  rewrite app_assoc, length_app. do 2 f_equal. lia.
Qed.

Lemma record_ok_fits r : record_ok r -> Forall (Forall plain) r /\ fits 0 r /\ length r = 7%nat.
Proof.
  intros [Hp Hf]. split_and!; [done| |by apply Forall2_length in Hf].
  intros j f Hj. destruct (Forall2_lookup_r _ _ _ _ _ Hf Hj) as ([off cap] & Hm & Hl).
  destruct (member_lookup j) as [Hm' _]; [by apply lookup_lt_Some in Hm|].
  rewrite Hm' in Hm. injection Hm as <- <-. exact Hl.
Qed.

(** ** All records *)

Lemma parse_records recs : forall pre suf A m cur out beg,
  Forall record_ok recs ->
  (if cur =? 0 then beg else beg + 1) = Z.of_nat (length pre) -> 0 <= cur ->
  Z.of_nat (length A) = 256 * cur -> (256 * length recs <= m)%nat ->
  let body := concat (map encode_record recs) in
  exists st, parse_loop (pre ++ body ++ suf) (seqZ (Z.of_nat (length pre)) (Z.of_nat (length body)))
      (mk_parser (A ++ replicate m 0) beg 0 cur out) = Some st /\
    p_out st = out ++ (if cur =? 0 then shown recs else map (shown_record false) recs).
Proof.
  induction recs as [|r recs IH]; intros pre suf A m cur out beg Hok Hb Hcur HA Hm body.
  { eexists. split; [reflexivity|]. cbn. destruct (cur =? 0); by rewrite app_nil_r. }
  apply Forall_cons in Hok as [Hr Hok]. apply record_ok_fits in Hr as (Hp & Hf & Hr).
  unfold body. cbn [map concat length] in *. rewrite length_app, Nat2Z.inj_add, seqZ_app by lia.
  rewrite parse_loop_app, <- app_assoc.
  destruct (parse_record r pre (concat (map encode_record recs) ++ suf) A m cur out beg)
    as (B & HB & ->); [done..|lia|]. cbn [mbind option_bind].
  rewrite <- Nat2Z.inj_add, <- length_app, app_assoc.
  destruct (IH (pre ++ encode_record r) suf B (m - 256)%nat (cur + 1)
    (out ++ [shown_record (cur =? 0) r]) (Z.of_nat (length (pre ++ encode_record r)) - 1))
    as (st & E & Hst); [done| |lia|lia|lia|].
  { rewrite (proj2 (Z.eqb_neq (cur + 1) 0)) by lia. lia. }
  exists st. rewrite E, Hst. split; [done|].
  rewrite (proj2 (Z.eqb_neq (cur + 1) 0)), <- app_assoc by lia. by destruct (cur =? 0).
Qed.

(** ** The hexadecimal text *)

Definition hex_char (n : Z) : Z := if n <? 10 then n + 48 else n + 55.
Definition hex_pair (b : Z) : list Z := [hex_char (b / 16); hex_char (b mod 16)].
Definition hex_text (l : list Z) : list Z := concat (map hex_pair l).
Definition nibbles (l : list Z) : list Z := concat (map (fun b => [b / 16; b mod 16]) l).

Lemma hex_digit_char n : 0 <= n < 16 -> hex_digit (hex_char n) = Some n.
Proof.
  intros Hn. unfold hex_char, hex_digit. destruct (Z.ltb_spec n 10).
  - rewrite (proj2 (Z.leb_le 48 _)), (proj2 (Z.leb_le _ 57)) by lia. cbn. f_equal. lia.
  - rewrite (proj2 (Z.leb_gt _ 57)), (proj2 (Z.leb_le 65 _)), (proj2 (Z.leb_le _ 70)) by lia.
    rewrite andb_false_r. cbn. f_equal. lia.
Qed.

Lemma bput_at (pre suf : list Z) c v :
  bput (pre ++ c :: suf) (Z.of_nat (length pre)) v = Some (pre ++ v :: suf).
Proof.
  unfold bput. rewrite bool_decide_eq_true_2 by (rewrite length_app; cbn [length]; lia).
  by rewrite Nat2Z.id, insert_app_r_alt, Nat.sub_diag by lia.
Qed.

Lemma str_values_hex cs vs rest : Forall2 (fun c v => hex_digit c = Some v) cs vs -> forall done,
  str_values (length cs) (Z.of_nat (length done)) (done ++ cs ++ rest) =
  Some (true, done ++ vs ++ rest).
Proof.
  induction 1 as [|c v cs vs Hc _ IH]; intros pre; [done|]. cbn [length str_values app].
  rewrite bget_len. cbn [mbind option_bind]. rewrite Hc, bput_at. cbn [mbind option_bind].
  specialize (IH (pre ++ [v])). rewrite length_app, <- !app_assoc in IH. cbn [app length] in IH.
  rewrite <- IH. f_equal. lia.
Qed.

Lemma hex_text_values l : bytes l ->
  Forall2 (fun c v => hex_digit c = Some v) (hex_text l) (nibbles l).
Proof.
  induction 1 as [|b l Hb _ IH]; [constructor|].
  repeat constructor; [| |exact IH]; apply hex_digit_char; unfold is_u in Hb; zdm.
Qed.

Lemma join_nibbles l rest : bytes l -> forall pv pd m, (length pv = 2 * length pd)%nat ->
  (length l <= m)%nat ->
  join_values (length l) (Z.of_nat (length pv)) (pv ++ nibbles l ++ rest) (pd ++ replicate m 0) =
  Some (pd ++ l ++ replicate (m - length l) 0).
Proof.
  induction 1 as [|b l Hb _ IH]; intros pv pd m Hpv Hm.
  { cbn. by rewrite Nat.sub_0_r. }
  destruct m as [|m]; [cbn in Hm; lia|]. cbn [length] in *.
  unfold nibbles. cbn [map concat app join_values]. fold (nibbles l).
  rewrite bget_len. cbn [mbind option_bind].
  rewrite bget_app_r by lia. change (Z.to_nat 1) with 1%nat. cbn [lookup list_lookup mbind option_bind].
  replace (Z.of_nat (length pv) / 2) with (Z.of_nat (length pd)) by zdm.
  change (replicate (S m) 0) with (0 :: replicate m 0).
  rewrite bput_at. cbn [mbind option_bind].
  assert (u8 (((b / 16) ≪ 4) .| (b mod 16)) = b) as ->.
  { apply (byte_eq (fun b => u8 (((b / 16) ≪ 4) .| (b mod 16))) id); [eval_true|done]. }
  specialize (IH (pv ++ [b / 16; b mod 16]) (pd ++ [b]) m).
  rewrite !length_app, <- !app_assoc in IH. cbn [app length] in IH.
  rewrite Nat.sub_succ. cbn [app]. rewrite <- IH by lia. f_equal. lia.
Qed.

Lemma cstring_hex l r : bytes l -> cstring (hex_text l ++ 0 :: r) = Some (hex_text l).
Proof.
  intros Hl. apply cstring_text. induction Hl as [|b l Hb _ IH]; [constructor|].
  repeat constructor; [| |exact IH]; unfold hex_char, is_u in *;
    (destruct (Z.ltb_spec (b / 16) 10), (Z.ltb_spec (b mod 16) 10); zdm).
Qed.

Lemma length_hex_text l : length (hex_text l) = (2 * length l)%nat.
Proof.
  unfold hex_text. induction l as [|b l IH]; [done|].
  cbn [map concat]. rewrite length_app, IH. cbn [hex_pair length]. lia.
Qed.

(** [str_to_hex] reads hexadecimal text back into bytes. *)
Lemma str_to_hex_text l m : bytes l -> (length l <= m)%nat ->
  str_to_hex (hex_text l ++ [0]) (replicate m 0) (Z.of_nat (length (hex_text l))) =
  Some (Z.of_nat (length l), nibbles l ++ [0], l ++ replicate (m - length l) 0).
Proof.
  intros Hl Hm. unfold str_to_hex. rewrite Nat2Z.id.
  pose proof (str_values_hex _ _ [0] (hex_text_values l Hl) []) as E. cbn [app length] in E.
  change (Z.of_nat 0) with 0 in E. rewrite E. cbn [mbind option_bind].
  rewrite length_hex_text. replace (Z.to_nat _) with (length l) by zdm.
  pose proof (join_nibbles l [0] Hl [] [] m eq_refl Hm) as J. cbn [app length] in J.
  change (Z.of_nat 0) with 0 in J. by rewrite J.
Qed.

(** ** Theorems *)

(** Header of a message: eight bytes, the number of records and the length of
    the body, high byte first. *)
Definition rent_message (hdr : list Z) (recs : list (list (list Z))) : list Z :=
  let body := concat (map encode_record recs) in
  let n := Z.of_nat (length body) in
  hdr ++ [Z.of_nat (length recs); n / 256; n mod 256] ++ body.

Lemma parse_message sg hdr recs suf : length hdr = 8%nat -> Forall record_ok recs ->
  recs <> [] -> Z.of_nat (length recs) < 128 ->
  ParseRentBikeRecord true sg (Some (rent_message hdr recs ++ suf))
    (Z.of_nat (length (concat (map encode_record recs)))) = Some (0, shown recs).
Proof.
  intros Hh Hok Hne Hn. unfold ParseRentBikeRecord, rent_message.
  set (body := concat (map encode_record recs)). set (n := Z.of_nat (length body)).
  assert (0 < n) as Hpos.
  { unfold n, body. destruct recs as [|r recs]; [done|]. cbn [map concat].
    rewrite length_app. unfold encode_record. rewrite length_app. cbn [length]. lia. }
  rewrite (proj2 (Z.leb_gt n 0)) by lia.
  rewrite !app_assoc, <- (app_assoc _ body), <- app_assoc.
  change 8 with (Z.of_nat 8). rewrite <- Hh. cbn [app]. rewrite bget_len. cbn [mbind option_bind].
  destruct (parse_records recs (hdr ++ [Z.of_nat (length recs); n / 256; n mod 256]) suf []
    (256 * length recs) 0 [] 11) as (st & E & Hst); [done| |done|done|lia|].
  { rewrite length_app, Hh. done. }
  rewrite length_app, Hh, <- app_assoc in E. change (Z.of_nat (8 + _)) with 11 in E.
  cbn [app] in E. fold body n in E. unfold record_block, sizeof_rent_info_fmt.
  rewrite (proj2 (Z.leb_gt 128 _)), andb_false_r by lia.
  replace (Z.to_nat (256 * _)) with (256 * length recs)%nat by lia.
  rewrite E. cbn [mbind option_bind]. by rewrite Hst.
Qed.

(** Without memory the first field is written to NULL. *)
Lemma put_member_null buff cur off cap src size : put_member buff [] cur off cap src size = None.
Proof.
  unfold put_member. destruct (bool_decide _); [|done]. unfold bcopy.
  case_bool_decide as HH; [|done]. destruct HH as [H0 H1].
  cbn [mbind option_bind]. cbn [length] in H1. destruct (take _ (drop _ buff)); [|cbn [length] in H1; lia].
  rewrite take_nil, drop_nil. unfold bput. rewrite bool_decide_eq_false_2 by (cbn [length app]; lia). done.
Qed.

Lemma parse_loop_cut buff (a b : Z) st : 0 <= a <= b -> parse_loop buff (seqZ 11 a) st = None ->
  parse_loop buff (seqZ 11 b) st = None.
Proof.
  intros Hab E. replace b with (a + (b - a)) by lia. rewrite seqZ_app by lia. by rewrite parse_loop_app, E.
Qed.

Lemma parse_no_memory f pre suf : Forall plain f ->
  parse_loop (pre ++ tabbed f ++ suf) (seqZ (Z.of_nat (length pre)) (Z.of_nat (length (tabbed f))))
    (mk_parser [] 11 0 0 []) = None.
Proof.
  intros Hf. unfold tabbed. rewrite <- app_assoc.
  rewrite length_app, Nat2Z.inj_add, seqZ_app, parse_loop_app, parse_skip by (done || lia).
  cbn [mbind option_bind length]. change (seqZ ?i (Z.of_nat 1)) with [i]. cbn [parse_loop].
  unfold parse_step at 1. change ([9] ++ suf) with (9 :: suf).
  rewrite <- Nat2Z.inj_add, <- length_app, (app_assoc pre f), bget_len.
  cbn [mbind option_bind]. change (9 =? 9) with true. cbn [orb].
  rewrite (put_field_member _ _ _ 0 0 32) by done. cbn [p_mem]. by rewrite put_member_null.
Qed.

Lemma parse_message_null sg hdr recs suf : length hdr = 8%nat -> Forall record_ok recs -> recs <> [] ->
  ParseRentBikeRecord false sg (Some (rent_message hdr recs ++ suf))
    (Z.of_nat (length (concat (map encode_record recs)))) = None.
Proof.
  intros Hh Hok Hne. destruct recs as [|r recs]; [done|]. apply Forall_cons in Hok as [Hr _].
  apply record_ok_fits in Hr as (Hp & _ & Hl). destruct r as [|f r]; [done|]. apply Forall_cons in Hp as [Hf _].
  unfold ParseRentBikeRecord. destruct (_ <=? 0) eqn:E0.
  { apply Z.leb_le in E0. cbn [map concat] in E0. unfold encode_record in E0. cbn [map concat] in E0.
    rewrite !length_app in E0. unfold tabbed in E0. rewrite length_app in E0. cbn [length] in E0. lia. }
  destruct (bget _ 8); [|done]. cbn [mbind option_bind record_block].
  rewrite (parse_loop_cut _ (Z.of_nat (length (tabbed f)))); [done|..].
  - cbn [map concat]. unfold encode_record at 1. cbn [map concat]. rewrite !length_app. lia.
  - unfold rent_message. cbv zeta.
    change 11 with (Z.of_nat (8 + 3)) at 1. rewrite <- Hh.
    set (three := [_; _; _]). change 3%nat with (length three). rewrite <- length_app.
    cbn [map concat]. unfold encode_record at 1. cbn [map concat].
    rewrite <- !app_assoc, (app_assoc hdr three). by apply parse_no_memory.
Qed.

(** The program finds the length of the body in the header. *)
Lemma message_size hdr recs suf : length hdr = 8%nat ->
  aget (rent_message hdr recs ++ suf) 9 * 256 + aget (rent_message hdr recs ++ suf) 10 =
  Z.of_nat (length (concat (map encode_record recs))).
Proof.
  intros Hh. unfold rent_message. set (body := concat (map encode_record recs)).
  destruct hdr as [|h0 [|h1 [|h2 [|h3 [|h4 [|h5 [|h6 [|h7 [|h8 r]]]]]]]]]; try discriminate Hh.
  unfold aget. change (Z.to_nat 9) with 9%nat. change (Z.to_nat 10) with 10%nat.
  cbn [lookup_total list_lookup_total app]. zdm.
Qed.

#[export] Instance record_ok_dec r : Decision (record_ok r).
Proof. unfold record_ok. apply _. Defined.

Definition sample_record : list (list Z) :=
  [[48; 49]; [67; 68]; [49; 53]; [67; 69]; [49; 54]; [53; 52]; [48; 48; 53]].

Lemma bytes_encode_record r : record_ok r -> bytes (encode_record r).
Proof.
  intros [Hp _]. apply Forall_app. split; [|by repeat constructor].
  apply Forall_concat, Forall_map. eapply Forall_impl; [exact Hp|]. intros f Hf.
  apply Forall_app. split; [|by repeat constructor].
  eapply Forall_impl; [exact Hf|]. by intros c [? _].
Qed.

Lemma bytes_message hdr recs : bytes hdr -> Forall record_ok recs ->
  Z.of_nat (length recs) < 128 -> Z.of_nat (length (concat (map encode_record recs))) < 65536 ->
  bytes (rent_message hdr recs).
Proof.
  intros Hh Hok Hn Hb. unfold rent_message. apply Forall_app. split; [done|].
  apply Forall_app. split; [repeat constructor; unfold is_u; zdm|].
  apply Forall_concat, Forall_map. eapply Forall_impl; [exact Hok|]. apply bytes_encode_record.
Qed.

Lemma length_rfc4648_ge l : (length l <= length (rfc4648 l))%nat.
Proof.
  induction l as [l IH] using list_len_ind. destruct l as [|a [|b [|c r]]]; cbn; try lia.
  specialize (IH r ltac:(cbn; lia)). lia.
Qed.

(** C21: The program shows the records it is sent, with their delimiters: for
    every list of 1 to 127 records whose fields and tabs fit their members, the
    message that encodes them, given as hexadecimal text of base64 text of less
    than 2048 characters, goes through [str_to_hex], [lib_base64_decode] and
    [ParseRentBikeRecord] without leaving a buffer, whether [char] is signed or
    not, and every record is printed with its fields in order; each field except
    the very first one of the message is printed together with the tab that
    ended it, although the tab is meant as a separator.  That is if [calloc]
    gives the block; if it does not, the first field is written to NULL. *)
Theorem rent_records_shown (char_signed : bool) (hdr : list Z) (recs : list (list (list Z))) :
  length hdr = 8%nat -> bytes hdr -> Forall record_ok recs -> recs <> [] ->
  Z.of_nat (length recs) < 128 ->
  (length (rfc4648 (rent_message hdr recs)) < 2048)%nat ->
  let rent_str := hex_text (rfc4648 (rent_message hdr recs)) ++ [0] in
  main true char_signed rent_str = Some (0, shown recs) /\ main false char_signed rent_str = None.
Proof.
  intros Hh Hbh Hok Hne Hn Hfit rent_str. set (msg := rent_message hdr recs) in *.
  pose proof (length_rfc4648_ge msg) as Hlen.
  assert (length msg = 11 + length (concat (map encode_record recs)))%nat as Hmsg.
  { unfold msg, rent_message. rewrite !length_app. cbn [length]. lia. }
  assert (bytes msg) as Hbm by (apply bytes_message; done || lia).
  assert (exists suf, forall given, main given char_signed rent_str =
    ParseRentBikeRecord given char_signed (Some (msg ++ suf)) (Z.of_nat (length (concat (map encode_record recs))))) as [suf E].
  { eexists. intros given. unfold main, rent_str. rewrite cstring_hex by apply bytes_rfc4648. cbn [mbind option_bind].
    rewrite str_to_hex_text by first [apply bytes_rfc4648 | lia]. cbn [mbind option_bind].
    replace (2048 - length (rfc4648 msg))%nat with (S (2047 - length (rfc4648 msg))) by lia.
    change (replicate (S (2047 - ?k)) 0) with (NUL :: replicate (2047 - k) 0).
    rewrite lib_base64_decode_text by done. cbn [mbind option_bind]. unfold bcopy.
    rewrite bool_decide_eq_true_2 by (rewrite length_replicate; lia).
    cbn [mbind option_bind]. change (Z.to_nat 0) with 0%nat. rewrite drop_replicate, take_0.
    cbn [app]. set (suf := replicate _ 0). unfold msg. by rewrite (message_size hdr recs suf) by done. }
  rewrite !E. split; [by apply parse_message|by apply parse_message_null].
Qed.

Lemma rent_records_shown_witness :
  let rent_str := hex_text (rfc4648 (rent_message (replicate 8 1) [sample_record; sample_record])) ++ [0] in
  main true true rent_str = Some (0, shown [sample_record; sample_record]) /\ main false true rent_str = None.
Proof.
  apply (rent_records_shown true (replicate 8 1) [sample_record; sample_record]);
    [reflexivity|by apply (bool_decide_unpack _); vm_compute|..|discriminate|reflexivity|vm_compute; lia].
  assert (record_ok sample_record) by (apply (bool_decide_unpack _); vm_compute; exact I).
  by repeat constructor.
Defined.
