(* ===== verification/Ping.v ===== *)
(** * Network check (src/ping/ping.c, lib_network_check.h)

    [lib_get_network_status] sends four ICMP echo requests and counts the
    packets that come back.  The socket, the clock and the name service belong
    to the system: class [Net] holds the calls the program makes on a state of
    the outside world, with no law.  The statistics are kept in single
    precision, computed here with the standard's formats ([SpecFloat], 24 bits
    of precision, exponents below 128).

    The sending loop retries a failed [sendto] without limit, so it need not
    end; [sendIcmp] takes the number of iterations it may make. *)

From Stdlib Require Import SpecFloat.
From S2P Require Import Prelude.

Definition ICMP_DATA_LEN : Z := 16.
Definition ICMP_ECHO_MAX : Z := 4.
Definition ICMP_ECHO : Z := 8.
Definition ICMP_ECHOREPLY : Z := 0.
Definition BUF_SIZE : Z := 1024 * 1024.

Inductive CHECK_RESULT :=
  | CHECK_RESULT_PACKET_OK
  | CHECK_RESULT_PACKET_LOSS
  | CHECK_RESULT_PACKET_ERROR
  | CHECK_RESULT_FAILED.

(** ** Single precision *)

Definition float_of (n : Z) : spec_float := binary_normalize 24 128 n 0 false.
Definition fadd := SFadd 24 128.
Definition fmul := SFmul 24 128.
Definition fdiv := SFdiv 24 128.

Record ICMP_STATIC_S := mk_static {
  uiSendPktNum : Z;
  uiRcvPktNum : Z;
  fMinTime : spec_float;
  fMaxTime : spec_float;
  fArgTime : spec_float }.

Definition showStatic (p : ICMP_STATIC_S) : CHECK_RESULT :=
  let uiSend := uiSendPktNum p in
  let uiRecv := uiRcvPktNum p in
  if uiRecv <? uiSend then
    if uiRecv =? 0 then CHECK_RESULT_PACKET_ERROR else CHECK_RESULT_PACKET_LOSS
  else if uiSend =? uiRecv then CHECK_RESULT_PACKET_OK
  else CHECK_RESULT_PACKET_OK.

(** ** Time *)

Record timeval := mk_tv { tv_sec : Z; tv_usec : Z }.

Definition timeSub (pstOut pstIn : timeval) : Z :=
  let uiSec := u32 (tv_sec pstOut - tv_sec pstIn) in
  let iUsec := tv_usec pstOut - tv_usec pstIn in
  let '(uiSec, iUsec) :=
    if 0 >? iUsec then (u32 (uiSec - 1), iUsec + 1000000) else (uiSec, iUsec) in
  u32 (uiSec * 1000 + u32 (Z.quot iUsec 1000)).

(** ** Checksum and packets *)

(** The [while] loop: words in the byte order of the machine (little endian),
    added in 16 bits. *)
Fixpoint chksum_loop (packet : list Z) (usChkSum : Z) : Z * list Z :=
  match packet with
  | a :: b :: packet => chksum_loop packet (u16 (usChkSum + (a + 256 * b)))
  | _ => (usChkSum, packet)
  end.

(** [packet] is the [iPktLen] bytes at [pPacket]; a last odd byte is read as
    [char]. *)
Definition calcIcmpChkSum (char_signed : bool) (packet : list Z) : Z :=
  let '(usChkSum, rest) := chksum_loop packet 0 in
  let usChkSum := match rest with
    | [c] => u16 (usChkSum + (if char_signed && (128 <=? c) then c - 256 else c))
    | _ => usChkSum end in
  let usChkSum := u16 ((usChkSum ≫ 16) + (usChkSum .& 0xffff)) in
  let usChkSum := u16 (usChkSum + (usChkSum ≫ 16)) in
  u16 (Z.lnot usChkSum).

(** A 16-bit number stored by [htons], high byte first, and as it is. *)
Definition net16 (x : Z) : list Z := [u8 (x ≫ 8); u8 x].
Definition host16 (x : Z) : list Z := [u8 x; u8 (x ≫ 8)].

(** [struct icmp]: type, code, checksum, identifier, sequence number. *)
Definition icmp_header (cksum pid seq : Z) : list Z :=
  [ICMP_ECHO; 0] ++ host16 cksum ++ net16 (u16 pid) ++ net16 (u16 seq).

(** The buffer and the length of the packet in it. *)
Definition newIcmpEcho (char_signed : bool) (pid iPacketNum iDataLen : Z) : list Z * Z :=
  let zeros := replicate (Z.to_nat (BUF_SIZE - 8)) 0 in
  let buf := icmp_header 0 pid iPacketNum ++ zeros in
  let cksum := calcIcmpChkSum char_signed (take (Z.to_nat (iDataLen + 8)) buf) in
  (icmp_header cksum pid iPacketNum ++ zeros, iDataLen + 8).

(** [pRecvBuf] starts with an IP header of [4 * ip_hl] bytes. *)
Definition parseIcmp (pid : Z) (pRecvBuf : list Z) (iLen : Z) : Z :=
  let iIpHeadLen := (aget pRecvBuf 0 .& 0xF) ≪ 2 in
  let iIcmpLen := iLen - iIpHeadLen in
  if 8 >? iIcmpLen then -1
  else if negb (aget pRecvBuf iIpHeadLen =? ICMP_ECHOREPLY) ||
          negb (bool_decide ([aget pRecvBuf (iIpHeadLen + 4); aget pRecvBuf (iIpHeadLen + 5)]
                             = net16 (u16 pid)))
  then -1 else 1.

(** ** The system *)

(** What [recvfrom] returns. *)
Inductive received :=
  | Packet (data : list Z)
  | Timeout                       (* -1 with EAGAIN *)
  | RecvError.

(** How [lib_get_network_status] starts: the protocol entry, the socket, the
    user id and the address, each available or not. *)
Record setup := mk_setup {
  s_proto : bool;
  s_socket : bool;
  s_setuid : bool;
  s_address : bool }.

Class Net := {
  world : Type;
  sendto : world -> list Z -> Z * world;
  recvfrom : world -> received * world;
  gettimeofday : world -> timeval * world }.

Section NetworkCheck.
Context `{Net} (char_signed : bool) (pid : Z).

Record st := mk_st {
  g_stPktStatic : ICMP_STATIC_S;
  stSendTime : timeval;
  stRcvTime : timeval;
  sockets : Z;                    (* open descriptors *)
  net : world }.

Definition set_net (s : st) (w : world) : st :=
  mk_st (g_stPktStatic s) (stSendTime s) (stRcvTime s) (sockets s) w.
Definition set_static (s : st) (p : ICMP_STATIC_S) : st :=
  mk_st p (stSendTime s) (stRcvTime s) (sockets s) (net s).
Definition set_sockets (s : st) (n : Z) : st :=
  mk_st (g_stPktStatic s) (stSendTime s) (stRcvTime s) n (net s).

(** The buffer [recvfrom] fills after [memset]: at most its size. *)
Definition recv_buf (data : list Z) : list Z :=
  let d := take (Z.to_nat BUF_SIZE) data in
  d ++ replicate (Z.to_nat BUF_SIZE - length d) 0.

(** A packet of any kind counts as a reply; [parseIcmp] decides only what is
    printed. *)
Definition recvIcmp (s : st) : st :=
  let '(r, w) := recvfrom (net s) in
  let '(now, w) := gettimeofday w in
  let s := mk_st (g_stPktStatic s) (stSendTime s) now (sockets s) w in
  let p := g_stPktStatic s in
  match r with
  | Timeout =>
      set_static s (mk_static (uiSendPktNum p) (uiRcvPktNum p) (fMinTime p) (float_of (-1)) (fArgTime p))
  | RecvError => s
  | Packet data =>
      let rcv := u32 (uiRcvPktNum p + 1) in
      let uiInterval := timeSub (stRcvTime s) (stSendTime s) in
      let send := uiSendPktNum p in
      let arg := fdiv (fadd (fmul (fArgTime p) (float_of (u32 (send - 1)))) (float_of uiInterval))
                      (float_of send) in
      let fmin := if SFltb (float_of uiInterval) (fMinTime p) then float_of uiInterval else fMinTime p in
      let fmax := if SFltb (fMaxTime p) (float_of uiInterval) then float_of uiInterval else fMaxTime p in
      let s := set_static s (mk_static send rcv fmin fmax arg) in
      let iRet := parseIcmp pid (recv_buf data) (Z.of_nat (length (take (Z.to_nat BUF_SIZE) data))) in
      if 0 >? iRet then s else s
  end.

(** One iteration of the loop: the state and the new [ucEchoNum]. *)
Definition send_once (s : st) (ucEchoNum : Z) : st * Z :=
  let '(buf, iPktLen) := newIcmpEcho char_signed pid ucEchoNum ICMP_DATA_LEN in
  let p := g_stPktStatic s in
  let p := mk_static (u32 (uiSendPktNum p + 1)) (uiRcvPktNum p) (fMinTime p) (fMaxTime p) (fArgTime p) in
  let '(now, w) := gettimeofday (net s) in
  let s := mk_st p now (stRcvTime s) (sockets s) w in
  let '(iRet, w) := sendto (net s) (take (Z.to_nat iPktLen) buf) in
  let s := set_net s w in
  if 0 >? iRet then (s, ucEchoNum) else (recvIcmp s, u8 (ucEchoNum + 1)).

(** [None]: not finished within [fuel] iterations. *)
Fixpoint sendIcmp_loop (fuel : nat) (s : st) (ucEchoNum : Z) : option st :=
  if ICMP_ECHO_MAX >? ucEchoNum then
    match fuel with
    | O => None
    | S fuel => let '(s, n) := send_once s ucEchoNum in sendIcmp_loop fuel s n
    end
  else Some s.

Definition sendIcmp (fuel : nat) (s : st) : option st := sendIcmp_loop fuel s 0.

Definition lib_get_network_status (fuel : nat) (su : setup) (s : st) : option (CHECK_RESULT * st) :=
  let s := set_static s (mk_static 0 0 (float_of 1000000) (float_of (-1)) (float_of 0)) in
  if negb (s_proto su) then Some (CHECK_RESULT_FAILED, s)
  else if negb (s_socket su) then Some (CHECK_RESULT_FAILED, s)
  else
    let s := set_sockets s (sockets s + 1) in
    if negb (s_setuid su) then Some (CHECK_RESULT_FAILED, set_sockets s (sockets s - 1))
    else if negb (s_address su) then Some (CHECK_RESULT_FAILED, set_sockets s (sockets s - 1))
    else
      s ← sendIcmp fuel s;
      Some (showStatic (g_stPktStatic s), set_sockets s (sockets s - 1)).

End NetworkCheck.

(** ** RFC 1071: the one's complement sum *)

Fixpoint words (packet : list Z) : list Z :=
  match packet with
  | a :: b :: packet => (a + 256 * b) :: words packet
  | [a] => [a]
  | [] => []
  end.

Definition onec_add (a b : Z) : Z := (a + b) mod 65536 + (a + b) / 65536.

(** A receiver accepts a packet when the sum of its words, checksum included,
    has all bits set. *)
Definition rfc1071_valid (packet : list Z) : bool := fold_left onec_add (words packet) 0 =? 0xFFFF.

(** The word a 16-bit number stored by [htons] makes. *)
Definition swap16 (x : Z) : Z := u8 (x ≫ 8) + 256 * u8 x.

Lemma chksum_loop_zeros n s : chksum_loop (replicate (2 * n) 0) (u16 s) = (u16 s, []).
Proof.
  induction n as [|n IH]; [done|]. replace (2 * S n)%nat with (S (S (2 * n))) by lia.
  cbn [replicate chksum_loop]. rewrite Z.mul_0_r, !Z.add_0_r.
  unfold u16 at 1. rewrite uwrap_small by (apply is_u_uwrap; lia). exact IH.
Qed.

Lemma words_zeros n : words (replicate (2 * n) 0) = replicate n 0.
Proof.
  induction n as [|n IH]; [done|]. replace (2 * S n)%nat with (S (S (2 * n))) by lia.
  cbn [replicate words]. by rewrite IH.
Qed.

Lemma onec_zeros n s : 0 <= s < 65536 -> fold_left onec_add (replicate n 0) s = s.
Proof.
  intros Hs. induction n as [|n IH]; [done|]. cbn. unfold onec_add at 2.
  rewrite Z.add_0_r, Z.mod_small, Z.div_small, Z.add_0_r by lia. exact IH.
Qed.

Lemma icmp_packet cs pid num n : 2 * Z.of_nat n + 8 <= BUF_SIZE ->
  let len := 2 * Z.of_nat n in
  let zeros := replicate (2 * n) 0 in
  let '(buf, l) := newIcmpEcho cs pid num len in
  take (Z.to_nat l) buf =
    icmp_header (calcIcmpChkSum cs (icmp_header 0 pid num ++ zeros)) pid num ++ zeros.
Proof.
  intros Hn len zeros. unfold newIcmpEcho.
  assert (forall c, take (Z.to_nat (len + 8)) (icmp_header c pid num ++
    replicate (Z.to_nat (BUF_SIZE - 8)) 0) = icmp_header c pid num ++ zeros) as E.
  { intros c. replace (Z.to_nat (len + 8)) with (length (icmp_header c pid num) + 2 * n)%nat
      by (change (length (icmp_header c pid num)) with 8%nat; lia).
    rewrite take_app_add, take_replicate. f_equal. unfold zeros. f_equal.
    lia. }
  by rewrite !E.
Qed.

(** The two lines that should add the carries do nothing: there are none left
    in 16 bits. *)
Lemma carry_lines x : 0 <= x < 65536 ->
  u16 ((x ≫ 16) + (x .& 0xffff)) = x /\ u16 (x + (x ≫ 16)) = x.
Proof.
  intros Hx. change 0xffff with (Z.ones 16). rewrite Z.land_ones, Z.shiftr_div_pow2 by lia.
  change (2 ^ 16) with 65536. rewrite Z.div_small, Z.mod_small by lia.
  unfold u16, uwrap. rewrite Z.add_0_r. split; by apply Z.mod_small.
Qed.

Lemma calc_header cs pid num n :
  let s := 8 + swap16 (u16 pid) + swap16 (u16 num) in
  calcIcmpChkSum cs (icmp_header 0 pid num ++ replicate (2 * n) 0) = 65535 - s mod 65536.
Proof.
  intros s. unfold calcIcmpChkSum, icmp_header, net16, host16. cbn [app chksum_loop].
  fold (swap16 (u16 pid)) (swap16 (u16 num)). change (u8 0 + 256 * u8 (0 ≫ 8)) with 0.
  change (u16 (0 + (ICMP_ECHO + 256 * 0))) with 8. rewrite chksum_loop_zeros, Z.add_0_r.
  change (u16 8) with 8. set (x := u16 (u16 (8 + _) + _)).
  assert (x = s mod 65536) as -> by (apply Zplus_mod_idemp_l).
  assert (0 <= s mod 65536 < 65536) as Hx by (apply Z.mod_pos_bound; lia).
  destruct (carry_lines _ Hx) as [E1 E2]. rewrite E1, E2.
  unfold u16, uwrap. change (2 ^ 16) with 65536.
  replace (Z.lnot (s mod 65536)) with (- 1 - s mod 65536) by (unfold Z.lnot; lia). zdm.
Qed.

Lemma swap16_bound x : 0 <= swap16 x < 65536.
Proof.
  unfold swap16. pose proof (is_u_u8 (x ≫ 8)) as [? ?]. pose proof (is_u_u8 x) as [? ?].
  change (2 ^ 8) with 256 in *. lia.
Qed.

(** C36: The checksum of an echo request is right exactly when adding its words
    does not carry: [calcIcmpChkSum] sums in 16 bits and loses the carries its
    last lines mean to add back.  For every process id, sequence number and
    even data length, a receiver accepts the packet if and only if
    8 + id + sequence, as stored, stays below 65536. *)
Theorem icmp_checksum_valid_iff (char_signed : bool) (pid num : Z) (n : nat) :
  2 * Z.of_nat n + 8 <= BUF_SIZE ->
  let '(buf, len) := newIcmpEcho char_signed pid num (2 * Z.of_nat n) in
  rfc1071_valid (take (Z.to_nat len) buf) = true <->
  ICMP_ECHO + swap16 (u16 pid) + swap16 (u16 num) < 65536.
Proof.
  intros Hn. pose proof (icmp_packet char_signed pid num n Hn) as E. cbv zeta in E.
  destruct (newIcmpEcho _ _ _ _) as [buf len]. rewrite E, calc_header.
  unfold rfc1071_valid, icmp_header, net16, host16. cbn [app words].
  fold (swap16 (u16 pid)) (swap16 (u16 num)). rewrite words_zeros. cbn [fold_left].
  pose proof (swap16_bound (u16 pid)). pose proof (swap16_bound (u16 num)).
  set (a := swap16 (u16 pid)) in *. set (b := swap16 (u16 num)) in *.
  set (ck := 65535 - (8 + a + b) mod 65536).
  assert (u8 ck + 256 * u8 (ck ≫ 8) = ck) as ->.
  { rewrite Z.shiftr_div_pow2 by lia. unfold u8, uwrap. change (2 ^ 8) with 256. unfold ck. zdm. }
  rewrite onec_zeros, Z.eqb_eq; unfold onec_add, ICMP_ECHO, ck; zdm.
Qed.

Lemma icmp_checksum_valid_iff_witness :
  let '(buf, len) := newIcmpEcho true 1234 3 (2 * Z.of_nat 8) in
  rfc1071_valid (take (Z.to_nat len) buf) = true <->
  ICMP_ECHO + swap16 (u16 1234) + swap16 (u16 3) < 65536.
Proof. apply (icmp_checksum_valid_iff true 1234 3 8). vm_compute. discriminate. Defined.

(** ** The loop as a relation

    [run s n s' fails replies]: from [s] with [n] requests answered or timed
    out, the loop ends in [s'] after [fails] rejected [sendto] calls, with
    [replies] packets received. *)

Section Runs.
Context `{Net} (char_signed : bool) (pid : Z).

Abbreviation once := (send_once char_signed pid).

(** The request number [n] as it is handed to [sendto]. *)
Definition request (n : Z) : list Z :=
  let '(buf, len) := newIcmpEcho char_signed pid n ICMP_DATA_LEN in take (Z.to_nat len) buf.

(** The outcome of one attempt in world [w]: the clock is read first. *)
Definition attempt (w : world) (n : Z) : Z * world := sendto (snd (gettimeofday w)) (request n).

Definition is_packet (r : received) : bool := match r with Packet _ => true | _ => false end.

Inductive run : st -> Z -> st -> Z -> Z -> Prop :=
  | run_done s n : ICMP_ECHO_MAX <= n -> run s n s 0 0
  | run_fail s n s' f r : n < ICMP_ECHO_MAX -> fst (attempt (net s) n) < 0 ->
      run (fst (once s n)) n s' f r -> run s n s' (f + 1) r
  | run_sent s n s' f r : n < ICMP_ECHO_MAX -> 0 <= fst (attempt (net s) n) ->
      run (fst (once s n)) (n + 1) s' f r ->
      run s n s' f (r + Z.b2z (is_packet (fst (recvfrom (snd (attempt (net s) n)))))).

(** Some later attempt at request [n] is accepted. *)
Inductive eventually_sends (n : Z) (w : world) : Prop :=
  | sends_now : 0 <= fst (attempt w n) -> eventually_sends n w
  | sends_later : fst (attempt w n) < 0 -> eventually_sends n (snd (attempt w n)) ->
      eventually_sends n w.

(** *** One iteration *)

Lemma recv_static s : let p := g_stPktStatic s in let p' := g_stPktStatic (recvIcmp pid s) in
  uiSendPktNum p' = uiSendPktNum p /\
  uiRcvPktNum p' = (if is_packet (fst (recvfrom (net s))) then u32 (uiRcvPktNum p + 1)
                    else uiRcvPktNum p) /\
  sockets (recvIcmp pid s) = sockets s.
Proof.
  unfold recvIcmp. destruct (recvfrom (net s)) as [r w]. destruct (gettimeofday w) as [now w'].
  cbn [fst]. destruct r as [data| |]; cbn; try done. by destruct (0 >? _).
Qed.

Lemma once_fail s n : fst (attempt (net s) n) < 0 -> exists s',
  once s n = (s', n) /\ net s' = snd (attempt (net s) n) /\ sockets s' = sockets s /\
  uiSendPktNum (g_stPktStatic s') = u32 (uiSendPktNum (g_stPktStatic s) + 1) /\
  uiRcvPktNum (g_stPktStatic s') = uiRcvPktNum (g_stPktStatic s).
Proof.
  unfold attempt, request, send_once. destruct (newIcmpEcho _ _ _ _) as [buf len].
  destruct (gettimeofday (net s)) as [now w]. cbn [snd net].
  destruct (sendto w _) as [iRet w']. cbn [fst snd]. intros Hr.
  rewrite Z.gtb_ltb, (proj2 (Z.ltb_lt iRet 0)) by done. by eexists.
Qed.

Lemma once_sent s n : 0 <= n < ICMP_ECHO_MAX -> 0 <= fst (attempt (net s) n) -> exists s',
  once s n = (s', n + 1) /\ sockets s' = sockets s /\
  uiSendPktNum (g_stPktStatic s') = u32 (uiSendPktNum (g_stPktStatic s) + 1) /\
  uiRcvPktNum (g_stPktStatic s') =
    (if is_packet (fst (recvfrom (snd (attempt (net s) n))))
     then u32 (uiRcvPktNum (g_stPktStatic s) + 1) else uiRcvPktNum (g_stPktStatic s)).
Proof.
  intros Hn. unfold attempt, request, send_once. destruct (newIcmpEcho _ _ _ _) as [buf len].
  destruct (gettimeofday (net s)) as [now w]. cbn [snd net].
  destruct (sendto w _) as [iRet w']. cbn [fst snd]. intros Hr.
  rewrite Z.gtb_ltb, (proj2 (Z.ltb_ge iRet 0)) by done. eexists. split.
  { f_equal. apply u8_small. unfold is_u, ICMP_ECHO_MAX in *. lia. }
  match goal with |- context [recvIcmp pid ?x] => destruct (recv_static x) as (E1 & E2 & E3) end.
  rewrite E1, E2, E3. done.
Qed.

(** *** The loop follows the relation *)

Lemma loop_run fuel : forall s n s', 0 <= n -> sendIcmp_loop char_signed pid fuel s n = Some s' ->
  exists f r, run s n s' f r.
Proof.
  induction fuel as [|fuel IH]; intros s n s' Hn; cbn [sendIcmp_loop]; rewrite Z.gtb_ltb;
    destruct (Z.ltb_spec n ICMP_ECHO_MAX) as [Hlt|Hge]; try done.
  1,3: intros [= <-]; exists 0, 0; by constructor.
  destruct (Z.ltb_spec (fst (attempt (net s) n)) 0) as [Hf|Hs].
  - destruct (once_fail s n Hf) as (s1 & E & _). rewrite E. intros Hr.
    destruct (IH s1 n s' Hn Hr) as (f & r & Hrun). exists (f + 1), r.
    apply run_fail; [done..|by rewrite E].
  - destruct (once_sent s n ltac:(lia) Hs) as (s1 & E & _). rewrite E. intros Hr.
    destruct (IH s1 (n + 1) s' ltac:(lia) Hr) as (f & r & Hrun). eexists f, _.
    apply run_sent; [done..|rewrite E; exact Hrun].
Qed.

Lemma run_loop s n s' f r : run s n s' f r -> 0 <= n -> exists fuel0, forall fuel,
  (fuel0 <= fuel)%nat -> sendIcmp_loop char_signed pid fuel s n = Some s'.
Proof.
  induction 1 as [s n Hge|s n s' f r Hlt Hf Hrun IH|s n s' f r Hlt Hs Hrun IH]; intros Hn.
  - exists 0%nat. intros fuel _. destruct fuel; cbn [sendIcmp_loop];
      rewrite Z.gtb_ltb, (proj2 (Z.ltb_ge _ _)) by done; done.
  - destruct (IH Hn) as [k Hk]. destruct (once_fail s n Hf) as (s1 & E & _). rewrite E in Hk.
    exists (S k). intros [|fuel] Hfu; [lia|]. cbn [sendIcmp_loop].
    rewrite Z.gtb_ltb, (proj2 (Z.ltb_lt _ _)), E by done. apply Hk. lia.
  - destruct (IH ltac:(lia)) as [k Hk].
    destruct (once_sent s n ltac:(lia) Hs) as (s1 & E & _). rewrite E in Hk.
    exists (S k). intros [|fuel] Hfu; [lia|]. cbn [sendIcmp_loop].
    rewrite Z.gtb_ltb, (proj2 (Z.ltb_lt _ _)), E by done. apply Hk. lia.
Qed.

(** *** What a run counts *)

Lemma run_counts s n s' f r : run s n s' f r -> 0 <= n <= ICMP_ECHO_MAX ->
  0 <= f /\ 0 <= r <= ICMP_ECHO_MAX - n /\ sockets s' = sockets s /\
  u32 (uiSendPktNum (g_stPktStatic s')) =
    u32 (uiSendPktNum (g_stPktStatic s) + (ICMP_ECHO_MAX - n) + f) /\
  u32 (uiRcvPktNum (g_stPktStatic s')) = u32 (uiRcvPktNum (g_stPktStatic s) + r).
Proof.
  unfold u32, uwrap. change (2 ^ 32) with 4294967296.
  induction 1 as [s n Hge|s n s' f r Hlt Hf Hrun IH|s n s' f r Hlt Hs Hrun IH]; intros Hn.
  - unfold ICMP_ECHO_MAX in *. split_and!; try lia; try done; f_equal; lia.
  - destruct (once_fail s n Hf) as (s1 & E & _ & Hk & Hsend & Hrcv). rewrite E in IH.
    destruct (IH Hn) as (H0 & H1 & H2 & H3 & H4). cbn [fst] in *. rewrite Hsend, Hrcv, Hk in *.
    split_and!; try lia; try done. rewrite H3. unfold u32, uwrap. change (2 ^ 32) with 4294967296. zdm.
  - destruct (once_sent s n ltac:(lia) Hs) as (s1 & E & Hk & Hsend & Hrcv). rewrite E in IH.
    destruct (IH ltac:(lia)) as (H0 & H1 & H2 & H3 & H4). cbn [fst] in *.
    rewrite Hsend, Hrcv, Hk in *. unfold u32, uwrap in *. change (2 ^ 32) with 4294967296 in *.
    destruct (is_packet _); cbn [Z.b2z]; split_and!; try lia; try done;
      first [rewrite H3|rewrite H4]; zdm.
Qed.

(** *** Progress *)

Lemma run_request n s : n < ICMP_ECHO_MAX -> 0 <= n -> eventually_sends n (net s) ->
  (forall s1, exists s' f r, run s1 (n + 1) s' f r) -> exists s' f r, run s n s' f r.
Proof.
  intros Hlt Hn He Hnext. remember (net s) as w eqn:Ew. revert s Ew.
  induction He as [w Hs|w Hf _ IH]; intros s ->.
  - destruct (Hnext (fst (once s n))) as (s' & f & r & Hr). eexists s', f, _.
    by apply run_sent.
  - destruct (once_fail s n Hf) as (s1 & E & Hw & _).
    destruct (IH s1 (eq_sym Hw)) as (s' & f & r & Hr). exists s', (f + 1), r.
    apply run_fail; [done..|by rewrite E].
Qed.

Lemma run_total : (forall n w, eventually_sends n w) -> forall s, exists s' f r, run s 0 s' f r.
Proof.
  intros He. assert (forall k n s, n + Z.of_nat k = ICMP_ECHO_MAX -> 0 <= n ->
    exists s' f r, run s n s' f r) as Hk.
  { induction k as [|k IH]; intros n s Hn H0.
    - exists s, 0, 0. constructor. lia.
    - apply run_request; [lia|done|done|]. intros s1. apply IH; lia. }
  intros s. by apply (Hk 4%nat).
Qed.
End Runs.

(** ** Theorems *)

Definition setup_ok (su : setup) : bool :=
  s_proto su && s_socket su && s_setuid su && s_address su.

(** The state in which the requests start. *)
Definition started `{Net} (s : st) : st :=
  set_sockets (set_static s (mk_static 0 0 (float_of 1000000) (float_of (-1)) (float_of 0)))
    (sockets s + 1).

Lemma status_started `{Net} cs pid fuel su s : setup_ok su = true ->
  lib_get_network_status cs pid fuel su s =
  (s1 ← sendIcmp cs pid fuel (started s);
   Some (showStatic (g_stPktStatic s1), set_sockets s1 (sockets s1 - 1))).
Proof. by destruct su as [[] [] [] []]. Qed.

Lemma status_failed `{Net} cs pid su s : setup_ok su = false ->
  exists s', (forall fuel, lib_get_network_status cs pid fuel su s = Some (CHECK_RESULT_FAILED, s')) /\
    sockets s' = sockets s /\ net s' = net s.
Proof.
  destruct su as [[] [] [] []]; intros Hsu; try discriminate Hsu; eexists;
    (split; [intros; reflexivity|]); cbn; split; try lia; done.
Qed.

Lemma run_u32 `{Net} cs pid s n s' f r : run cs pid s n s' f r -> 0 <= n ->
  is_u32 (uiSendPktNum (g_stPktStatic s)) -> is_u32 (uiRcvPktNum (g_stPktStatic s)) ->
  is_u32 (uiSendPktNum (g_stPktStatic s')) /\ is_u32 (uiRcvPktNum (g_stPktStatic s')).
Proof.
  induction 1 as [s n Hge|s n s' f r Hlt Hf Hrun IH|s n s' f r Hlt Hs Hrun IH];
    intros Hn H1 H2; [done| |].
  - destruct (once_fail cs pid s n Hf) as (s1 & E & _ & _ & E1 & E2). rewrite E in IH.
    apply IH; cbn; rewrite ?E1, ?E2; auto with zbits.
  - destruct (once_sent cs pid s n ltac:(lia) Hs) as (s1 & E & _ & E1 & E2). rewrite E in IH.
    apply IH; cbn; rewrite ?E1, ?E2; auto with zbits; [lia|]. destruct (is_packet _); auto with zbits.
Qed.

(** The verdict from the counts. *)
Lemma showStatic_counts p f r : uiSendPktNum p = ICMP_ECHO_MAX + f -> uiRcvPktNum p = r ->
  0 <= f -> 0 <= r <= ICMP_ECHO_MAX ->
  (showStatic p = CHECK_RESULT_PACKET_OK <-> f = 0 /\ r = ICMP_ECHO_MAX) /\
  (showStatic p = CHECK_RESULT_PACKET_ERROR <-> r = 0) /\
  (showStatic p = CHECK_RESULT_PACKET_LOSS <-> 0 < r /\ r < ICMP_ECHO_MAX + f).
Proof.
  intros E1 E2 Hf Hr. unfold showStatic. rewrite E1, E2. unfold ICMP_ECHO_MAX in *.
  destruct (Z.ltb_spec r (4 + f)), (Z.eqb_spec r 0), (Z.eqb_spec (4 + f) r);
    repeat split; intros; try done; try lia.
Qed.

(** C20: The network check answers: when every request is accepted by [sendto]
    after finitely many refusals, [lib_get_network_status] returns after
    finitely many iterations, closes its socket, and tells OK when no send was
    refused and four packets came back, ERROR when none came back and LOSS in
    between (with fewer than 2^32 - 4 refusals, which the counter can hold);
    when its preparations fail it returns FAILED, sends nothing and leaves no
    socket open. *)
Theorem network_check_returns `{Net} (char_signed : bool) (pid : Z) (su : setup) (s : st) :
  (forall n w, eventually_sends char_signed pid n w) ->
  exists (res : CHECK_RESULT) (s' : st) (fuel0 : nat),
    (forall fuel, (fuel0 <= fuel)%nat ->
       lib_get_network_status char_signed pid fuel su s = Some (res, s')) /\
    sockets s' = sockets s /\
    if setup_ok su then
      exists s1 fails replies, run char_signed pid (started s) 0 s1 fails replies /\
        s' = set_sockets s1 (sockets s) /\ 0 <= fails /\ 0 <= replies <= ICMP_ECHO_MAX /\
        (fails < 2 ^ 32 - ICMP_ECHO_MAX ->
         (res = CHECK_RESULT_PACKET_OK <-> fails = 0 /\ replies = ICMP_ECHO_MAX) /\
         (res = CHECK_RESULT_PACKET_ERROR <-> replies = 0) /\
         (res = CHECK_RESULT_PACKET_LOSS <-> 0 < replies /\ replies < ICMP_ECHO_MAX + fails))
    else res = CHECK_RESULT_FAILED /\ net s' = net s.
Proof.
  intros He. destruct (setup_ok su) eqn:Hsu; cycle 1.
  { destruct (status_failed char_signed pid su s Hsu) as (s' & E & Hk & Hw).
    exists CHECK_RESULT_FAILED, s', 0%nat. by split_and!. }
  destruct (run_total char_signed pid He (started s)) as (s1 & f & r & Hrun).
  destruct (run_loop _ _ _ _ _ _ _ Hrun ltac:(lia)) as [k Hk].
  destruct (run_counts _ _ _ _ _ _ _ Hrun) as (Hf & Hr & Hsock & Hsend & Hrcv); [done|].
  destruct (run_u32 _ _ _ _ _ _ _ Hrun) as [U1 U2]; [done..|].
  exists (showStatic (g_stPktStatic s1)), (set_sockets s1 (sockets s)), k. split_and!.
  - intros fuel Hfuel. rewrite status_started by done. unfold sendIcmp. rewrite Hk by done.
    cbn [mbind option_bind]. rewrite Hsock. do 3 f_equal. cbn. lia.
  - done.
  - exists s1, f, r. split_and!; try done; try lia. intros Hmax.
    apply showStatic_counts; try done; try lia.
    + rewrite <- (uwrap_small 32 _ U1). fold (u32 (uiSendPktNum (g_stPktStatic s1))).
      rewrite Hsend. apply uwrap_small. unfold is_u, ICMP_ECHO_MAX in *. cbn. lia.
    + rewrite <- (uwrap_small 32 _ U2). fold (u32 (uiRcvPktNum (g_stPktStatic s1))).
      rewrite Hrcv. apply uwrap_small. unfold is_u, ICMP_ECHO_MAX in *. cbn. lia.
Qed.

(** Without a route the network check never answers: when [sendto] is
    refused in every state of the world, the sending loop repeats the first
    request forever, so that [lib_get_network_status] returns for no number of
    iterations once its preparations succeed. *)
Theorem network_check_hangs `{Net} (char_signed : bool) (pid : Z) (su : setup) (s : st) (fuel : nat) :
  setup_ok su = true -> (forall w p, fst (sendto w p) < 0) ->
  lib_get_network_status char_signed pid fuel su s = None.
Proof.
  intros Hsu Hdead. rewrite status_started by done. unfold sendIcmp.
  assert (forall s, sendIcmp_loop char_signed pid fuel s 0 = None) as E; [|by rewrite E].
  clear s. induction fuel as [|fuel IH]; intros s; [done|]. cbn [sendIcmp_loop].
  destruct (once_fail char_signed pid s 0) as (s1 & E & _); [apply Hdead|]. rewrite E. apply IH.
Qed.

(** A scripted world: the answers of [sendto] and [recvfrom] in order, then
    success and time-outs; the clock advances by a millisecond. *)
Definition ScriptNet : Net := {|
  world := list Z * list received * Z;
  sendto := fun '(ss, rs, t) p => match ss with
    | [] => (Z.of_nat (length p), ([], rs, t))
    | x :: ss => (x, (ss, rs, t)) end;
  recvfrom := fun '(ss, rs, t) => match rs with
    | [] => (Timeout, (ss, [], t))
    | r :: rs => (r, (ss, rs, t)) end;
  gettimeofday := fun '(ss, rs, t) => (mk_tv 0 t, (ss, rs, t + 1000)) |}.

Definition DeadNet : Net := {|
  world := unit;
  sendto := fun w _ => (-1, w);
  recvfrom := fun w => (Timeout, w);
  gettimeofday := fun w => (mk_tv 0 0, w) |}.

Definition script_st (ss : list Z) (rs : list received) : @st ScriptNet :=
  @mk_st ScriptNet (mk_static 0 0 (float_of 0) (float_of 0) (float_of 0))
    (mk_tv 0 0) (mk_tv 0 0) 0 (ss, rs, 0).

Lemma script_sends cs pid n (w : @world ScriptNet) : @eventually_sends ScriptNet cs pid n w.
Proof.
  destruct w as [[ss rs] t]. revert t. induction ss as [|x ss IH]; intros t.
  - apply sends_now. unfold attempt. cbn [gettimeofday ScriptNet sendto fst snd]. lia.
  - destruct (Z.ltb_spec x 0); [|by apply sends_now]. apply sends_later; [done|]. apply IH.
Qed.

Lemma network_check_returns_witness :
  let su := mk_setup true true true true in
  let s := script_st [-1; 24] [Packet [69]; Timeout] in
  exists (res : CHECK_RESULT) (s' : @st ScriptNet) (fuel0 : nat),
    (forall fuel, (fuel0 <= fuel)%nat ->
       @lib_get_network_status ScriptNet true 77 fuel su s = Some (res, s')) /\
    sockets s' = sockets s /\
    if setup_ok su then
      exists s1 fails replies, run true 77 (started s) 0 s1 fails replies /\
        s' = set_sockets s1 (sockets s) /\ 0 <= fails /\ 0 <= replies <= ICMP_ECHO_MAX /\
        (fails < 2 ^ 32 - ICMP_ECHO_MAX ->
         (res = CHECK_RESULT_PACKET_OK <-> fails = 0 /\ replies = ICMP_ECHO_MAX) /\
         (res = CHECK_RESULT_PACKET_ERROR <-> replies = 0) /\
         (res = CHECK_RESULT_PACKET_LOSS <-> 0 < replies /\ replies < ICMP_ECHO_MAX + fails))
    else res = CHECK_RESULT_FAILED /\ net s' = net s.
Proof.
  apply (@network_check_returns ScriptNet true 77 (mk_setup true true true true)
    (script_st [-1; 24] [Packet [69]; Timeout])). apply script_sends.
Defined.

Lemma network_check_hangs_witness :
  @lib_get_network_status DeadNet true 77 1000 (mk_setup true true true true)
    (@mk_st DeadNet (mk_static 0 0 (float_of 0) (float_of 0) (float_of 0))
      (mk_tv 0 0) (mk_tv 0 0) 0 tt) = None.
Proof. apply (@network_check_hangs DeadNet); [reflexivity|intros w p; reflexivity]. Defined.

(** Two refused sends, then three packets and a time-out. *)
Example script_loss :
  fst <$> @lib_get_network_status ScriptNet true 77 10 (mk_setup true true true true)
    (script_st [-1; -1] [Packet [69]; Packet [69]; Timeout; Packet [69]]) =
  Some CHECK_RESULT_PACKET_LOSS.
Proof. vm_compute. reflexivity. Qed.
