(* ===== verification/Sha204.v ===== *)
(** * The SHA204 authentication chip (src/sha204_test/sha204_command.c,
      i2c_common.c)

    Command packets with their CRC, the exchanges with the chip over an i2c
    device file, the verification [LIB_Encry_Verify] and [read_device_info].

    The device file belongs to the system: class [I2c] holds the calls the code
    makes on it, with no law.  The state has the open descriptors and keeps the
    bytes that went over the wire, in order.  An access outside an array is the
    result [None]. *)

From S2P Require Import Prelude.

Definition PAGE_SIZE : Z := 128.
Definition MAX_BUF_SIZE : Z := 128.
Definition RANDOM_RSP_SIZE : Z := 35.
Definition MAC_RSP_SIZE : Z := 35.
Definition WAKEUP_RSP_SIZE : Z := 4.
Definition MIN_PAKET_SIZE : Z := 7.
Definition MAC_CHALLENGE_SIZE : Z := 32.
Definition SHA204_NORMAL : Z := 3.
Definition SHA204_RANDOM : Z := 0x1B.
Definition SHA204_MAC : Z := 0x08.
Definition SHA204_READ : Z := 0x02.
Definition SHA204_ADDRESS_MASK : Z := 0x007F.
Definition SHA204_ZONE_DATA : Z := 0x02.
Definition LIB_WAKE_UP_SUCCESS : Z := 0.
Definition LIB_EV_OK : Z := 1.
Definition LIB_EV_ERR : Z := 2.

(** ** CRC *)

Definition polynom : Z := 0x8005.

(** The inner loop body, for one value of [shift_register]. *)
Definition crc_step (byte crc_register shift_register : Z) : Z :=
  let data_bit := if negb (byte .& shift_register =? 0) then 1 else 0 in
  let crc_bit := u8 (crc_register ≫ 15) in
  let crc_register := u16 (crc_register ≪ 1) in
  if negb (data_bit .^ crc_bit =? 0) then crc_register .^ polynom else crc_register.

(** [for (shift_register = 0x01; shift_register > 0x00; shift_register <<= 1)]:
    eight values, then the byte is shifted out. *)
Definition crc_byte (crc_register byte : Z) : Z :=
  fold_left (crc_step byte) [0x01; 0x02; 0x04; 0x08; 0x10; 0x20; 0x40; 0x80] crc_register.

(** [for (counter = 0; counter < length; counter++)]: the counter and the length
    are 8-bit numbers. *)
Fixpoint crc_loop (n : nat) (counter crc_register : Z) (data : list Z) : option Z :=
  match n with
  | O => Some crc_register
  | S n => byte ← bget data counter; crc_loop n (u8 (counter + 1)) (crc_byte crc_register byte) data
  end.

(** [length] is converted to its type; [None] is a read behind [data]. *)
Definition sha204_calculate_crc (length : Z) (data : list Z) : option (list Z) :=
  crc_register ← crc_loop (Z.to_nat (u8 length)) 0 0 data;
  Some [u8 (crc_register .& 0x00FF); u8 (crc_register ≫ 8)].

(** ** Packets

    The commands fill [buf] in order: word address, count, op-code, two
    parameters, data; the CRC covers all but the first byte. *)

Definition packet (bytes : list Z) : option (list Z) :=
  crc ← sha204_calculate_crc (Z.of_nat (length bytes) - 1) (drop 1 bytes);
  Some (bytes ++ crc).

Definition random_packet (mode : Z) : option (list Z) :=
  packet [SHA204_NORMAL; MIN_PAKET_SIZE; SHA204_RANDOM; mode; 0; 0].

Definition mac_packet (mode slot_id : Z) (challenge : list Z) : option (list Z) :=
  packet ([SHA204_NORMAL; MIN_PAKET_SIZE + MAC_CHALLENGE_SIZE; SHA204_MAC; mode;
           u8 (slot_id .& 0xff); u8 (slot_id ≫ 8)] ++ challenge).

Definition read_packet (zone address : Z) : option (list Z) :=
  packet [SHA204_NORMAL; MIN_PAKET_SIZE; SHA204_READ; zone; u8 (address .& SHA204_ADDRESS_MASK); 0].

Definition update_extra_packet : option (list Z) := packet [0x03; 0x07; 0x20; 0x00; 0x22; 0x00].
Definition write_packet : option (list Z) :=
  packet ([0x03; 0x0b; 0x12; 0x00; 0x0c; 0x00] ++ [0xC2; 0x42; 0xAF; 0x8F]).
Definition nonce_packet : option (list Z) := packet [0x03; 0x07; 0x16; 0x02; 0x00; 0x00].
Definition test_packet : option (list Z) := packet [0x03; 0x07; 0x15; 0x01; 0x00; 0x00].

(** ** The device file *)

Class I2c := {
  chip : Type;
  i2c_open : chip -> Z * chip;
  i2c_ioctl : chip -> Z * chip;
  i2c_write : chip -> list Z -> Z * chip;
  i2c_read : chip -> Z -> option (list Z) * chip    (* None: an error, -1 *) }.

Inductive event :=
  | Wr (data : list Z) (ret : Z)
  | Rd (data : option (list Z)).

Record st `{I2c} := mk_st {
  dev : chip;
  opens : list Z;            (* the open descriptors, the newest first *)
  g_fd : Z;                  (* the global [fd] *)
  wire : list event }.
Arguments mk_st {_} _ _ _ _.

Section Commands.
Context `{I2c}.

Definition M (A : Type) : Type := st -> option (A * st).

#[export] Instance M_ret : MRet M := fun A a s => Some (a, s).
#[export] Instance M_bind : MBind M := fun A B f m s =>
  match m s with Some (a, s) => f a s | None => None end.

Definition open : M Z := fun s =>
  let '(fd, d) := i2c_open (dev s) in
  Some (fd, mk_st d (if fd <? 0 then opens s else fd :: opens s) (g_fd s) (wire s)).

Definition ioctl : M Z := fun s =>
  let '(ret, d) := i2c_ioctl (dev s) in Some (ret, mk_st d (opens s) (g_fd s) (wire s)).

Fixpoint closed (fd : Z) (l : list Z) : list Z :=
  match l with [] => [] | x :: l => if x =? fd then l else x :: closed fd l end.

(** Closing a descriptor that is not open fails and changes nothing. *)
Definition close (fd : Z) : M unit := fun s =>
  Some (tt, mk_st (dev s) (if fd <? 0 then opens s else closed fd (opens s)) (g_fd s) (wire s)).

Definition write (data : list Z) : M Z := fun s =>
  let '(ret, d) := i2c_write (dev s) data in
  Some (ret, mk_st d (opens s) (g_fd s) (wire s ++ [Wr data ret])).

(** At most [count] bytes arrive. *)
Definition read (count : Z) : M (option (list Z)) := fun s =>
  let '(r, d) := i2c_read (dev s) count in
  let r := take (Z.to_nat count) <$> r in
  Some (r, mk_st d (opens s) (g_fd s) (wire s ++ [Rd r])).

Definition set_fd (fd : Z) : M unit := fun s => Some (tt, mk_st (dev s) (opens s) fd (wire s)).
Definition fault {A} : M A := fun _ => None.

(** *** i2c_common.c *)

Definition i2c_dev_init : M Z :=
  fd ← open;
  if fd <? 0 then mret (-1)
  else ret ← ioctl; if ret <? 0 then mret (-2) else mret fd.

(** [buff] is the [count] bytes to send; [sendbuffer] has [PAGE_SIZE + 1]. *)
Definition write_chip (buff : list Z) (addr : Z) : M Z :=
  if PAGE_SIZE <? Z.of_nat (length buff) then fault else write (u8 addr :: buff).

(** The value returned and the bytes stored at [buff], an array of [size]. *)
Definition read_chip (size addr count : Z) : M (Z * list Z) :=
  ret ← write [u8 addr];
  if negb (ret =? 1) then mret (-1, [])
  else
    if size <? count then fault
    else r ← read count;
         match r with
         | Some data => mret (Z.of_nat (length data), data)
         | None => mret (-1, [])
         end.

(** An array of [size] zero bytes after a read of [data] into it. *)
Definition filled (size : Z) (data : list Z) : list Z :=
  data ++ replicate (Z.to_nat size - length data) 0.

(** *** sha204_command.c *)

Definition sha204_wakeup : M Z :=
  let addr := 0 in
  write_chip [0] addr;;
  '(ret, data) ← read_chip WAKEUP_RSP_SIZE addr WAKEUP_RSP_SIZE;
  if negb (ret =? WAKEUP_RSP_SIZE) then mret (-1)
  else if negb (aget (filled WAKEUP_RSP_SIZE data) 1 =? 0x11) then mret (-2)
  else mret 0.

(** The common shape of a command: build the packet, send the packet, read [count] bytes into an
    array of [size].  [waddr] is the word sent before the packet. *)
Definition exchange (waddr : Z) (built : option (list Z)) (size count : Z) : M (Z * list Z) :=
  match built with
  | None => fault
  | Some buf =>
      ret ← write_chip buf waddr;
      if negb (ret =? Z.of_nat (length buf) + 1) then mret (-1, [])
      else
        '(ret, data) ← read_chip size 0 count;
        if negb (ret =? count) then mret (-2, []) else mret (0, data)
  end.

(** The result is the value returned and the bytes copied to [rxbuf]. *)
Definition sha204_random (mode : Z) : M (Z * list Z) :=
  '(ret, data) ← exchange 0 (random_packet mode) RANDOM_RSP_SIZE RANDOM_RSP_SIZE;
  mret (ret, if ret <? 0 then [] else take 32 (drop 1 data)).

Definition sha204_mac (mode slot_id : Z) (challenge : list Z) : M (Z * list Z) :=
  exchange 0 (mac_packet mode slot_id challenge) MAX_BUF_SIZE MAC_RSP_SIZE.

(** These functions pass [&addr] where [write_chip] takes the word address:
    [ptr] is the low byte of the address of that variable. *)
Definition sha204_read (ptr size zone address : Z) : M (Z * list Z) :=
  '(ret, data) ← exchange ptr (read_packet zone address) MAX_BUF_SIZE size;
  mret (if ret <? 0 then ret else size, data).

Definition sha204_update_extra (ptr : Z) : M Z :=
  '(ret, _) ← exchange ptr update_extra_packet RANDOM_RSP_SIZE RANDOM_RSP_SIZE; mret ret.
Definition sha204_write (ptr : Z) : M Z :=
  '(ret, _) ← exchange ptr write_packet RANDOM_RSP_SIZE RANDOM_RSP_SIZE; mret ret.
Definition sha204_nonce (ptr : Z) : M Z :=
  '(ret, _) ← exchange ptr nonce_packet 256 RANDOM_RSP_SIZE; mret ret.
Definition sha204_command_test (ptr : Z) : M (Z * list Z) :=
  '(ret, data) ← exchange ptr test_packet 256 RANDOM_RSP_SIZE;
  mret (ret, if ret <? 0 then [] else take 32 (drop 1 data)).

Definition mac_response_expected : list Z :=
  [MAC_RSP_SIZE;
   0x6a; 0xaf; 0x4b; 0x30; 0xbd; 0xfa; 0xd1; 0x8c; 0xfb; 0xa2; 0x9d; 0xbe; 0xec; 0xc1; 0xf8; 0x19;
   0x9b; 0xce; 0x7e; 0xf3; 0x2b; 0x81; 0x61; 0xd5; 0x22; 0x5b; 0x83; 0x27; 0xdb; 0x8f; 0x7e; 0xcd;
   0x12; 0x8a].

Definition challenge : list Z :=
  [0x2d; 0xce; 0x04; 0x63; 0x36; 0x5c; 0x17; 0xad; 0x02; 0xe8; 0x62; 0xc6; 0x20; 0x75; 0xc7; 0x2f;
   0x5f; 0x4a; 0x98; 0x8f; 0x40; 0xe1; 0xe9; 0xda; 0x9f; 0x3d; 0x4b; 0x4d; 0x5e; 0x06; 0x10; 0x4f].

Definition LIB_Encry_Verify : M Z :=
  fd ← i2c_dev_init;
  set_fd fd;;
  if fd <? 0 then close fd;; mret LIB_EV_ERR
  else
    ret ← sha204_wakeup;
    if ret <? 0 then close fd;; mret LIB_EV_ERR
    else
      '(ret, mac_response) ← sha204_mac 0x20 0 challenge;
      if ret <? 0 then close fd;; mret LIB_EV_ERR
      else if bool_decide (mac_response_expected = mac_response) then mret LIB_EV_OK
      else close fd;; mret LIB_WAKE_UP_SUCCESS.

(** [device_info] is NULL or not; the bytes copied to it. *)
Definition read_device_info (ptr : Z) (null : bool) : M (Z * list Z) :=
  if null then mret (-1, [])
  else
    fd ← i2c_dev_init;
    set_fd fd;;
    if fd <? 0 then close fd;; mret (LIB_EV_ERR, [])
    else
      ret ← sha204_wakeup;
      if ret <? 0 then close fd;; mret (LIB_EV_ERR, [])
      else
        '(ret, rx_buf) ← sha204_read ptr 35 (SHA204_ZONE_DATA .| 0x80) 0;
        if negb (ret =? 35) then close fd;; mret (LIB_EV_ERR, [])
        else close fd;; mret (ret - 3, take 32 (drop 1 rx_buf)).

End Commands.

(** The constants of the chip's documentation: the answer to a wake-up and the
    expected answer carry the CRC computed here. *)
Example crc_wakeup : sha204_calculate_crc 2 [0x04; 0x11] = Some [0x33; 0x43].
Proof. vm_compute. reflexivity. Qed.
Example crc_expected :
  sha204_calculate_crc 33 mac_response_expected = Some (drop 33 mac_response_expected).
Proof. vm_compute. reflexivity. Qed.

(** ** The CRC as a remainder of polynomials

    Polynomials over the two-element field are numbers, one bit per
    coefficient; a message lists its coefficients from the highest, each byte
    from its lowest bit. *)

Definition bits (data : list Z) : list bool :=
  concat (map (fun b => map (Z.testbit b) [0; 1; 2; 3; 4; 5; 6; 7]) data).

Definition poly (coeffs : list bool) : Z :=
  fold_left (fun acc (b : bool) => (acc ≪ 1) .^ (if b then 1 else 0)) coeffs 0.

(** The product of the polynomials [coeffs] and [p]. *)
Definition pmul (coeffs : list bool) (p : Z) : Z :=
  fold_left (fun acc (b : bool) => (acc ≪ 1) .^ (if b then p else 0)) coeffs 0.

(** x^16 + x^15 + x^2 + 1 *)
Definition generator : Z := 0x18005.

Definition bit_step (crc_register : Z) (d : bool) : Z :=
  u16 (crc_register ≪ 1) .^ (if xorb d (Z.testbit crc_register 15) then polynom else 0).

Lemma top_bit r : is_u 16 r -> u8 (r ≫ 15) = Z.b2z (Z.testbit r 15).
Proof.
  intros Hr. rewrite Z.testbit_spec', Z.shiftr_div_pow2 by lia. unfold u8, uwrap, is_u in *.
  change (2 ^ 15) with 32768. change (2 ^ 8) with 256. change (2 ^ 16) with 65536 in Hr. zdm.
Qed.

Lemma land_pow2 b k : 0 <= k -> (b .& 2 ^ k =? 0) = negb (Z.testbit b k).
Proof.
  intros Hk. assert (b .& 2 ^ k = if Z.testbit b k then 2 ^ k else 0) as ->.
  { apply Z.bits_inj'; intros i Hi. rewrite Z.land_spec, Z.pow2_bits_eqb by done.
    destruct (Z.eqb_spec k i) as [<-|Hne].
    - rewrite andb_true_r. destruct (Z.testbit b k); rewrite ?Z.pow2_bits_true, ?Z.bits_0; done.
    - rewrite andb_false_r. destruct (Z.testbit b k); rewrite ?Z.pow2_bits_false, ?Z.bits_0; done. }
  destruct (Z.testbit b k); [|done]. apply Z.eqb_neq. pose proof (Z.pow_pos_nonneg 2 k). lia.
Qed.

Lemma crc_step_bit b r k : is_u 16 r -> 0 <= k -> crc_step b r (2 ^ k) = bit_step r (Z.testbit b k).
Proof.
  intros Hr Hk. unfold crc_step, bit_step. rewrite top_bit, land_pow2, negb_involutive by done.
  destruct (Z.testbit b k), (Z.testbit r 15); cbn; by rewrite ?Z.lxor_0_r.
Qed.

Lemma is_u16_bit_step r d : is_u 16 (bit_step r d).
Proof.
  unfold bit_step. apply is_u_lxor; [lia|by apply is_u_uwrap|]. by destruct (xorb _ _).
Qed.

Lemma crc_steps b ks : Forall (fun k => 0 <= k) ks -> forall r, is_u 16 r ->
  fold_left (crc_step b) (map (Z.pow 2) ks) r = fold_left bit_step (map (Z.testbit b) ks) r.
Proof.
  induction 1 as [|k ks Hk _ IH]; intros r Hr; [done|]. cbn [map fold_left].
  rewrite crc_step_bit by done. apply IH, is_u16_bit_step.
Qed.

Lemma crc_byte_bits b r : is_u 16 r ->
  crc_byte r b = fold_left bit_step (map (Z.testbit b) [0; 1; 2; 3; 4; 5; 6; 7]) r.
Proof. intros Hr. apply (crc_steps b [0; 1; 2; 3; 4; 5; 6; 7]); [by repeat constructor|done]. Qed.

Lemma is_u16_fold l r : is_u 16 r -> is_u 16 (fold_left bit_step l r).
Proof. revert r. induction l as [|d l IH]; intros r Hr; [done|]. apply IH, is_u16_bit_step. Qed.

Lemma crc_bits data : forall r, is_u 16 r ->
  fold_left crc_byte data r = fold_left bit_step (bits data) r.
Proof.
  induction data as [|b data IH]; intros r Hr; [done|].
  change (bits (b :: data)) with (map (Z.testbit b) [0; 1; 2; 3; 4; 5; 6; 7] ++ bits data).
  rewrite fold_left_app, <- crc_byte_bits by done.
  cbn [fold_left]. apply IH. rewrite crc_byte_bits by done. by apply is_u16_fold.
Qed.

(** One coefficient more: the register stays congruent to the message. *)
Lemma bit_step_poly (m r : Z) (d : bool) (q : Z) : is_u 16 r -> (m ≪ 16) .^ r = q ->
  (((m ≪ 1) .^ (if d then 1 else 0)) ≪ 16) .^ bit_step r d =
  (q ≪ 1) .^ (if xorb d (Z.testbit r 15) then generator else 0).
Proof.
  intros Hr <-. unfold bit_step. rewrite !Z.shiftl_lxor, !Z.shiftl_shiftl by lia.
  assert (r ≪ 1 = u16 (r ≪ 1) .^ (if Z.testbit r 15 then 2 ^ 16 else 0)) as E.
  { apply Z.bits_inj'; intros i Hi. zbit_norm.
    assert (i < 16 \/ i = 16 \/ 16 < i) as [H1|[->|H1]] by lia.
    - zbit_out. destruct (Z.testbit r 15); rewrite ?Z.pow2_bits_false, ?Z.bits_0, xorb_false_r by lia; done.
    - cbn [Z.ltb]. change (16 <? 16) with false. change (16 - 1) with 15.
      by destruct (Z.testbit r 15).
    - zbit_out. destruct (Z.testbit r 15); rewrite ?Z.pow2_bits_false, ?Z.bits_0 by lia; done. }
  revert E. generalize (u16 (r ≪ 1)) as v. intros v ->.
  change (16 + 1) with 17. change (1 + 16) with 17. change generator with (2 ^ 16 .^ polynom).
  destruct d, (Z.testbit r 15); cbn [xorb]; rewrite ?Z.shiftl_0_l, ?Z.lxor_0_r;
    change (1 ≪ 16) with (2 ^ 16); apply Z.bits_inj'; intros i Hi; rewrite !Z.lxor_spec; btauto.
Qed.

Lemma crc_poly l : forall m r q, is_u 16 r -> (m ≪ 16) .^ r = pmul q generator ->
  exists q', (fold_left (fun acc (b : bool) => (acc ≪ 1) .^ (if b then 1 else 0)) l m ≪ 16)
    .^ fold_left bit_step l r = pmul q' generator.
Proof.
  induction l as [|d l IH]; intros m r q Hr E; [by exists q|]. cbn [fold_left].
  apply (IH _ _ (q ++ [xorb d (Z.testbit r 15)])); [apply is_u16_bit_step|].
  rewrite (bit_step_poly m r d _ Hr E). unfold pmul. by rewrite fold_left_app.
Qed.

Lemma crc_bytes_value r : is_u 16 r -> u8 (r .& 0x00FF) + 256 * u8 (r ≫ 8) = r.
Proof.
  intros Hr. change 0x00FF with (Z.ones 8). rewrite Z.land_ones, Z.shiftr_div_pow2 by lia.
  unfold u8, uwrap, is_u in *. change (2 ^ 8) with 256. change (2 ^ 16) with 65536 in Hr. zdm.
Qed.

(** The loop is a fold over the first bytes. *)
Lemma crc_loop_fold n : forall pre data r, (length pre + n <= 255)%nat -> (n <= length data)%nat ->
  crc_loop n (Z.of_nat (length pre)) r (pre ++ data) = Some (fold_left crc_byte (take n data) r).
Proof.
  induction n as [|n IH]; intros pre data r Hn Hd; [done|]. destruct data as [|b data]; cbn [length] in Hd; [lia|].
  cbn [crc_loop take fold_left]. rewrite bget_at by done. cbn [mbind option_bind].
  assert (u8 (Z.of_nat (length pre) + 1) = Z.of_nat (length (pre ++ [b]))) as ->.
  { rewrite length_app. cbn [length]. unfold u8, uwrap. rewrite Z.mod_small by lia. lia. }
  rewrite (app_assoc pre [b] data : pre ++ b :: data = _). apply IH; [rewrite length_app; cbn [length]; lia|lia].
Qed.

Lemma calculate_crc_spec (n : Z) (data : list Z) : u8 n <= Z.of_nat (length data) ->
  sha204_calculate_crc n data =
  (let r := fold_left bit_step (bits (take (Z.to_nat (u8 n)) data)) 0 in Some [u8 (r .& 0x00FF); u8 (r ≫ 8)]).
Proof.
  intros Hn. unfold sha204_calculate_crc. pose proof (is_u_u8 n) as Hu. unfold is_u in Hu. change (2 ^ 8) with 256 in Hu.
  change data with ([] ++ data) at 1. change 0 with (Z.of_nat (length (@nil Z))) at 1.
  rewrite crc_loop_fold by (cbn [length]; lia). cbn [mbind option_bind]. by rewrite crc_bits.
Qed.

(** C35: The CRC of a packet is the remainder of its polynomial: with the bits of
    the first [n] bytes of the data, each byte from its lowest, as coefficients
    of a polynomial M, the two bytes [sha204_calculate_crc] writes, low byte
    first, are a polynomial R of degree below 16 such that M * x^16 + R is a
    multiple of x^16 + x^15 + x^2 + 1.  The length [n] is an 8-bit number, so of
    a longer length its value modulo 256 counts. *)
Theorem sha204_crc_remainder (n : Z) (data : list Z) : u8 n <= Z.of_nat (length data) ->
  exists lo hi q, sha204_calculate_crc n data = Some [lo; hi] /\
    is_byte lo /\ is_byte hi /\
    (poly (bits (take (Z.to_nat (u8 n)) data)) ≪ 16) .^ (lo + 256 * hi) = pmul q generator.
Proof.
  intros Hn. rewrite calculate_crc_spec by done. cbv zeta. set (l := bits _).
  destruct (crc_poly l 0 0 []) as [q E]; [done..|].
  eexists _, _, q. split; [reflexivity|]. split_and!; [apply is_u_u8..|].
  rewrite crc_bytes_value by (by apply is_u16_fold). exact E.
Qed.

Lemma sha204_crc_remainder_witness : u8 2 <= 2 /\ exists lo hi q, sha204_calculate_crc 2 [0x04; 0x11] = Some [lo; hi] /\
    is_byte lo /\ is_byte hi /\ (poly (bits [0x04; 0x11]) ≪ 16) .^ (lo + 256 * hi) = pmul q generator.
Proof. split; [vm_compute; discriminate|]. apply (sha204_crc_remainder 2 [0x04; 0x11]). vm_compute. discriminate. Defined.

(** At 256 bytes the length is 0 and so is the CRC. *)
Lemma crc_of_256 data : sha204_calculate_crc 256 data = Some [0; 0].
Proof. reflexivity. Qed.

(** ** Verification

    What the wire shows when the chip is accepted: the wake-up with its status
    byte 0x11, the complete MAC command, the expected answer. *)

Definition mac_command : list Z := default [] (mac_packet 0x20 0 challenge).

Definition accepted (tr : list event) : Prop :=
  exists r0 a b c, tr =
    [Wr [0; 0] r0; Wr [0] 1; Rd (Some [a; 0x11; b; c]);
     Wr (0 :: mac_command) 41; Wr [0] 1; Rd (Some mac_response_expected)].

(** When the device opens but cannot be addressed, its descriptor is lost. *)
Definition leaked `{I2c} (s : st) : list Z :=
  let '(fd, d) := i2c_open (dev s) in if (0 <=? fd) && (fst (i2c_ioctl d) <? 0) then [fd] else [].

Section Verify.
Context `{I2c}.

Lemma read_chip_cases size count (s : st) : count <= size ->
  exists ret data s' tr, read_chip size 0 count s = Some ((ret, data), s') /\
    wire s' = wire s ++ tr /\ opens s' = opens s /\ g_fd s' = g_fd s /\
    (length tr <= 2)%nat /\
    ((ret = -1 /\ forall d, tr <> [Wr [0] 1; Rd (Some d)]) \/
     (tr = [Wr [0] 1; Rd (Some data)] /\ ret = Z.of_nat (length data))).
Proof.
  intros Hc. unfold read_chip, write, read, mbind, M_bind, mret, M_ret. change (u8 0) with 0.
  destruct (i2c_write (dev s) [0]) as [ret d]. destruct (Z.eqb_spec ret 1) as [->|Hr]; cbn [negb].
  - rewrite (proj2 (Z.ltb_ge size count)) by lia. cbn [dev].
    destruct (i2c_read d count) as [[data|] d']; cbn [fmap option_fmap option_map wire opens g_fd];
      do 4 eexists; (split; [reflexivity|]); rewrite <- app_assoc; cbn [app];
      (split; [reflexivity|]); (split; [done|]); (split; [done|]); (split; [cbn; lia|]);
      [by right|left]; split; [done|].
    by intros d'' [=].
  - do 4 eexists. split; [reflexivity|]. cbn [wire opens g_fd]. split; [reflexivity|].
    do 2 (split; [done|]). split; [cbn; lia|]. left. split; [done|]. by intros d' [=].
Qed.

Lemma wakeup_cases (s : st) : exists ret s' tr, sha204_wakeup s = Some (ret, s') /\
  wire s' = wire s ++ tr /\ opens s' = opens s /\ g_fd s' = g_fd s /\
  ((ret < 0 /\ (length tr <= 3)%nat) \/
   (ret = 0 /\ exists r0 a b c, tr = [Wr [0; 0] r0; Wr [0] 1; Rd (Some [a; 0x11; b; c])])).
Proof.
  unfold sha204_wakeup, write_chip, write, WAKEUP_RSP_SIZE.
  change (PAGE_SIZE <? Z.of_nat (length [0])) with false. cbv iota.
  unfold mbind at 1. unfold M_bind at 1. change (u8 0) with 0.
  destruct (i2c_write (dev s) [0; 0]) as [r0 d0].
  destruct (read_chip_cases 4 4 (mk_st d0 (opens s) (g_fd s) (wire s ++ [Wr [0; 0] r0])))
    as (ret & data & s' & tr & E & Hw & Hn & Hg & Hlt & Hc); [lia|].
  unfold mbind, M_bind. rewrite E. cbn [wire opens g_fd] in *. rewrite <- app_assoc in Hw.
  destruct Hc as [[-> Hc]|[-> ->]].
  - cbn. do 3 eexists. split; [reflexivity|]. rewrite Hw. split; [reflexivity|]. do 2 (split; [done|]).
    left. split; [lia|]. cbn. lia.
  - destruct (Z.eqb_spec (Z.of_nat (length data)) 4) as [Hl|Hl]; cbn [negb].
    + destruct data as [|a [|x [|b [|c [|]]]]]; cbn in Hl; try lia.
      change (aget (filled 4 [a; x; b; c]) 1) with x.
      destruct (Z.eqb_spec x 17) as [->|Hx]; cbn [negb]; do 3 eexists; (split; [reflexivity|]);
        rewrite Hw; (split; [reflexivity|]); do 2 (split; [done|]).
      * right. split; [done|]. by exists r0, a, b, c.
      * left. split; [lia|]. cbn. lia.
    + do 3 eexists. split; [reflexivity|]. rewrite Hw. split; [reflexivity|]. do 2 (split; [done|]).
      left. split; [lia|]. cbn. lia.
Qed.

Lemma mac_cases (s : st) : exists ret data s' tr, sha204_mac 0x20 0 challenge s = Some ((ret, data), s') /\
  wire s' = wire s ++ tr /\ opens s' = opens s /\ g_fd s' = g_fd s /\
  ((ret < 0 /\ forall d, length d = 35%nat ->
      tr <> [Wr (0 :: mac_command) 41; Wr [0] 1; Rd (Some d)]) \/
   (ret = 0 /\ tr = [Wr (0 :: mac_command) 41; Wr [0] 1; Rd (Some data)])).
Proof.
  unfold sha204_mac, exchange, write_chip, write, MAX_BUF_SIZE, MAC_RSP_SIZE.
  assert (mac_packet 0x20 0 challenge = Some mac_command) as -> by reflexivity. set (p := mac_command).
  change (PAGE_SIZE <? Z.of_nat (length p)) with false. change (Z.of_nat (length p) + 1) with 41.
  clearbody p. cbv iota. unfold mbind at 1. unfold M_bind at 1. change (u8 0) with 0.
  destruct (i2c_write (dev s) (0 :: p)) as [r0 d0]. destruct (Z.eqb_spec r0 41) as [->|Hr]; cbn [negb].
  - destruct (read_chip_cases 128 35 (mk_st d0 (opens s) (g_fd s) (wire s ++ [Wr (0 :: p) 41])))
      as (ret & data & s' & tr & E & Hw & Hn & Hg & Hlt & Hc); [lia|].
    unfold mbind, M_bind. rewrite E. cbn [wire opens g_fd] in *. rewrite <- app_assoc in Hw.
    destruct Hc as [[-> Hc]|[-> ->]].
    + do 4 eexists. split; [reflexivity|]. rewrite Hw. split; [reflexivity|]. do 2 (split; [done|]).
      left. split; [lia|]. intros d _ [= E']. by eapply Hc.
    + destruct (Z.eqb_spec (Z.of_nat (length data)) 35) as [Hl|Hl]; cbn [negb]; do 4 eexists;
        (split; [reflexivity|]); rewrite Hw; (split; [reflexivity|]); do 2 (split; [done|]).
      * by right.
      * left. split; [lia|]. intros d Hd [= ->]. lia.
  - do 4 eexists. split; [reflexivity|]. cbn [wire opens g_fd]. split; [reflexivity|].
    do 2 (split; [done|]). left. split; [lia|]. by intros d _ [=].
Qed.

Lemma init_cases (s : st) : exists fd s', i2c_dev_init s = Some (fd, s') /\ wire s' = wire s /\
  ((fd < 0 /\ opens s' = leaked s ++ opens s) \/
   (0 <= fd /\ opens s' = fd :: opens s /\ leaked s = [])).
Proof.
  unfold i2c_dev_init, open, ioctl, leaked, mbind, M_bind, mret, M_ret.
  destruct (i2c_open (dev s)) as [fd d]. destruct (Z.ltb_spec fd 0) as [Hfd|Hfd]; cbn [dev].
  - do 2 eexists. split; [reflexivity|]. split; [done|]. left. split; [lia|].
    by rewrite (proj2 (Z.leb_gt 0 fd)) by done.
  - destruct (i2c_ioctl d) as [ret d']. rewrite (proj2 (Z.leb_le 0 fd)) by done. cbn [fst andb].
    destruct (Z.ltb_spec ret 0); do 2 eexists; (split; [reflexivity|]); (split; [done|]);
      [left|right]; cbn; (split; [lia|done]).
Qed.

Lemma bind_some {A B} (m : M A) (f : A -> M B) s a s' : m s = Some (a, s') -> (m ≫= f) s = f a s'.
Proof. intros E. unfold mbind, M_bind. by rewrite E. Qed.

(** Closing the newest descriptor. *)
Lemma close_run fd (s : st) l : 0 <= fd -> opens s = fd :: l ->
  close fd s = Some (tt, mk_st (dev s) l (g_fd s) (wire s)).
Proof. intros Hfd E. unfold close. rewrite (proj2 (Z.ltb_ge fd 0)), E by done. cbn. by rewrite Z.eqb_refl. Qed.

Lemma close_negative fd (s : st) : fd < 0 -> close fd s = Some (tt, s).
Proof. intros Hfd. unfold close. rewrite (proj2 (Z.ltb_lt fd 0)) by done. by destruct s. Qed.

Lemma read_cases ptr (s : st) : exists ret data s',
  sha204_read ptr 35 (SHA204_ZONE_DATA .| 0x80) 0 s = Some ((ret, data), s') /\ opens s' = opens s.
Proof.
  unfold sha204_read, exchange, write_chip, write, MAX_BUF_SIZE.
  destruct (read_packet (SHA204_ZONE_DATA .| 128) 0) as [p|] eqn:Ep; [|vm_compute in Ep; discriminate Ep].
  assert ((PAGE_SIZE <? Z.of_nat (length p)) = false) as -> by (vm_compute in Ep; injection Ep as <-; reflexivity).
  unfold mbind, M_bind. destruct (i2c_write (dev s) (u8 ptr :: p)) as [r0 d0].
  destruct (negb (r0 =? _)); [by do 3 eexists|].
  destruct (read_chip_cases 128 35 (mk_st d0 (opens s) (g_fd s) (wire s ++ [Wr (u8 ptr :: p) r0])))
    as (ret & data & s' & tr & E & _ & Hn & _ & _ & _); [lia|].
  rewrite E. destruct (negb (ret =? 35)); do 3 eexists; (split; [reflexivity|done]).
Qed.

(** Reading the device information opens a descriptor of its own and closes
    that one only. *)
Lemma device_info_opens ptr (s : st) : exists r s', read_device_info ptr false s = Some (r, s') /\
  opens s' = leaked s ++ opens s.
Proof.
  unfold read_device_info. destruct (init_cases s) as (fd & s0 & E & _ & Hc).
  rewrite (bind_some _ _ _ _ _ E). unfold set_fd at 1. erewrite bind_some by reflexivity.
  destruct Hc as [[Hfd Hn]|(Hfd & Hn & ->)].
  { rewrite (proj2 (Z.ltb_lt fd 0)), (bind_some _ _ _ _ _ (close_negative fd _ Hfd)) by done. by do 2 eexists. }
  rewrite (proj2 (Z.ltb_ge fd 0)) by done. set (s1 := mk_st _ _ _ _).
  destruct (wakeup_cases s1) as (r1 & s2 & t1 & E1 & _ & N1 & _ & _). rewrite (bind_some _ _ _ _ _ E1).
  cbn [opens s1] in N1. rewrite Hn in N1. destruct (r1 <? 0).
  { rewrite (bind_some _ _ _ _ _ (close_run fd s2 _ Hfd N1)). by do 2 eexists. }
  destruct (read_cases ptr s2) as (r2 & data & s3 & E2 & N2). rewrite (bind_some _ _ _ _ _ E2). rewrite N1 in N2. cbv beta iota.
  destruct (negb (r2 =? 35)); rewrite (bind_some _ _ _ _ _ (close_run fd s3 _ Hfd N2)); by do 2 eexists.
Qed.

Lemma verify_runs (s : st) : exists r s' tr, LIB_Encry_Verify s = Some (r, s') /\ wire s' = wire s ++ tr /\
  (r = LIB_EV_OK <-> accepted tr) /\
  opens s' = (if r =? LIB_EV_OK then [g_fd s'] else leaked s) ++ opens s.
Proof.
  unfold LIB_Encry_Verify. destruct (init_cases s) as (fd & s0 & E & Hw & Hc).
  rewrite (bind_some _ _ _ _ _ E). unfold set_fd at 1.
  erewrite bind_some by reflexivity. destruct Hc as [[Hfd Hn]|(Hfd & Hn & Hi)].
  { rewrite (proj2 (Z.ltb_lt fd 0)), (bind_some _ _ _ _ _ (close_negative fd _ Hfd)) by done. do 3 eexists. split; [reflexivity|].
    cbn [wire opens]. rewrite Hw, Hn by done. split; [by rewrite app_nil_r|].
    split; [|done]. split; [done|]. by intros (? & ? & ? & ? & [=]). }
  rewrite (proj2 (Z.ltb_ge fd 0)), Hi by done. set (s1 := mk_st _ _ _ _).
  destruct (wakeup_cases s1) as (r1 & s2 & t1 & E1 & W1 & N1 & G1 & C1).
  rewrite (bind_some _ _ _ _ _ E1). cbn [wire opens g_fd s1] in *. rewrite Hw, Hn in *.
  destruct C1 as [[Hr1 T1]|(-> & r0 & a & b & c & ->)].
  { rewrite (proj2 (Z.ltb_lt r1 0)), (bind_some _ _ _ _ _ (close_run fd s2 _ Hfd N1)) by done.
    do 3 eexists. split; [reflexivity|]. cbn [wire opens]. rewrite W1. split; [reflexivity|].
    split; [|done]. split; [done|]. intros (r0 & a & b & c & ->). cbn in T1. lia. }
  destruct (mac_cases s2) as (r2 & data & s3 & t2 & E2 & W2 & N2 & G2 & C2).
  change (0 <? 0) with false. cbv iota. rewrite (bind_some _ _ _ _ _ E2). cbv beta iota.
  rewrite W1, <- app_assoc in W2. rewrite N1 in N2. destruct C2 as [[Hr2 T2]|[-> ->]].
  { rewrite (proj2 (Z.ltb_lt r2 0)), (bind_some _ _ _ _ _ (close_run fd s3 _ Hfd N2)) by done.
    do 3 eexists. split; [reflexivity|]. cbn [wire opens]. rewrite W2. split; [reflexivity|].
    split; [|done]. split; [done|]. intros (? & ? & ? & ? & [= -> -> -> -> ->]).
    exfalso. by apply (T2 mac_response_expected). }
  change (0 <? 0) with false. cbv iota.
  destruct (bool_decide_reflect (mac_response_expected = data)) as [<-|Hne].
  - do 3 eexists. split; [reflexivity|]. rewrite W2, N2, G2, G1. split; [reflexivity|].
    split; [|done]. split; [|done]. intros _. by exists r0, a, b, c.
  - rewrite (bind_some _ _ _ _ _ (close_run fd s3 _ Hfd N2)). do 3 eexists. split; [reflexivity|].
    cbn [wire opens]. rewrite W2. split; [reflexivity|]. split; [|done].
    split; [done|]. intros (? & ? & ? & ? & E').
    apply (f_equal (fun l => l !! 5%nat)) in E'. cbn [app lookup list_lookup] in E'.
    exfalso. apply Hne. assert (Some mac_response_expected = Some data) as E3 by congruence.
    apply (inj Some) in E3. exact E3.
Qed.

(** C34: The verification is sound and complete on the wire: for every behaviour
    of the device, [LIB_Encry_Verify] returns without leaving its buffers, and
    answers LIB_EV_OK exactly when the wire shows the wake-up with status 0x11,
    the complete MAC command for the fixed challenge and the expected 35 bytes.
    It then leaves one descriptor open, the global [fd]; on every other path it
    closes what it opened, except when the chip address cannot be set.  The
    descriptor of a successful verification is lost for good:
    [read_device_info], which the code means to close it, overwrites [fd] with
    a descriptor of its own and closes that. *)
Theorem encry_verify_wire (s : st) :
  exists r s' tr, LIB_Encry_Verify s = Some (r, s') /\ wire s' = wire s ++ tr /\
    (r = LIB_EV_OK <-> accepted tr) /\
    opens s' = (if r =? LIB_EV_OK then [g_fd s'] else leaked s) ++ opens s /\
    (r = LIB_EV_OK -> forall ptr, exists info s2, read_device_info ptr false s' = Some (info, s2) /\
       opens s2 = leaked s' ++ g_fd s' :: opens s).
Proof.
  destruct (verify_runs s) as (r & s' & tr & E & W & R & O). exists r, s', tr. split_and!; [done..|]. intros -> ptr.
  destruct (device_info_opens ptr s') as (info & s2 & E2 & O2). exists info, s2. split; [done|]. by rewrite O2, O.
Qed.
End Verify.

(** A device with no key that plays a recording: the challenge is a constant,
    so the recording is accepted. *)
Definition ReplayChip : I2c := {|
  chip := nat;
  i2c_open := fun k => (5, k);
  i2c_ioctl := fun k => (0, k);
  i2c_write := fun k data => (Z.of_nat (length data), k);
  i2c_read := fun k _ => match k with
    | O => (Some [0x04; 0x11; 0x33; 0x43], 1%nat)
    | _ => (Some mac_response_expected, k) end |}.

Example replay_accepted :
  fst <$> @LIB_Encry_Verify ReplayChip (@mk_st ReplayChip 0%nat [] (-1) []) = Some LIB_EV_OK.
Proof. vm_compute. reflexivity. Qed.
