(* ===== verification/CStr.v ===== *)
(** * C strings (the functions of string.h and stdlib.h the programs use)

    A C string is a list that contains its terminator; what follows the
    terminator is the rest of the array.  [strtok] works on the buffer with the
    position it keeps between calls, and writes terminators into it.  A read or
    write outside the array is the result [None]. *)

From S2P Require Import Prelude.

(** ** Literals *)

Fixpoint text (s : string) : list Z :=
  match s with
  | EmptyString => []
  | String c s => Z.of_nat (Ascii.nat_of_ascii c) :: text s
  end.

(** The array a string literal denotes. *)
Definition lit (s : string) : list Z := text s ++ [0].

Definition CR : Z := 13.
Definition LF : Z := 10.
Definition crlf : list Z := [CR; LF].
Definition comma : Z := 44.
Definition quote : Z := 34.

(** ** Length, copy, concatenation, comparison *)

Fixpoint strlen (s : list Z) : option Z :=
  match s with
  | [] => None
  | c :: s => if c =? 0 then Some 0 else Z.succ <$> strlen s
  end.

(** The bytes before the terminator. *)
Fixpoint cstr (s : list Z) : option (list Z) :=
  match s with
  | [] => None
  | c :: s => if c =? 0 then Some [] else cons c <$> cstr s
  end.

Definition strcpy (dst src : list Z) : option (list Z) :=
  s ← cstr src; bcopy dst 0 (s ++ [0]).

Definition strcat (dst src : list Z) : option (list Z) :=
  n ← strlen dst; s ← cstr src; bcopy dst n (s ++ [0]).

(** [!strcmp(a, b)]: reading stops at the first difference. *)
Fixpoint str_eq (a b : list Z) : option bool :=
  match a, b with
  | x :: a, y :: b => if x =? y then if x =? 0 then Some true else str_eq a b else Some false
  | _, _ => None
  end.

Definition to_upper (c : Z) : Z := if (97 <=? c) && (c <=? 122) then c - 32 else c.

(** [!strcasecmp(a, b)] *)
Fixpoint str_case_eq (a b : list Z) : option bool :=
  match a, b with
  | x :: a, y :: b =>
      if to_upper x =? to_upper y then if x =? 0 then Some true else str_case_eq a b else Some false
  | _, _ => None
  end.

(** ** Buffers and lines *)

(** An array that held [old] after [data] was read into it. *)
Definition fill (old data : list Z) : list Z := data ++ drop (length data) old.
Definition zeros (size : Z) : list Z := replicate (Z.to_nat size) 0.

Fixpoint take_line (n : nat) (f : list Z) : list Z * list Z :=
  match n, f with
  | S n, c :: f => if c =? LF then ([c], f) else let '(l, r) := take_line n f in (c :: l, r)
  | _, _ => ([], f)
  end.

(** The buffer and the rest of the file; [None] at the end of the file. *)
Definition fgets (buf : list Z) (size : nat) (f : list Z) : option (list Z * list Z) :=
  match f with
  | [] => None
  | _ => let '(l, r) := take_line (size - 1) f in Some (fill buf (l ++ [0]), r)
  end.

Lemma take_line_length n : forall f, (length (take_line n f).1 <= n)%nat /\
  (0 < n -> f <> [] -> length (take_line n f).2 < length f)%nat /\ (length (take_line n f).2 <= length f)%nat.
Proof.
  induction n as [|n IH]; intros [|c f]; cbn; try (split_and!; [lia|done|lia]); try (split_and!; lia).
  destruct (c =? LF); cbn; [split_and!; lia|]. specialize (IH f).
  destruct (take_line n f) as [l r]; cbn in *. destruct IH as (? & ? & ?). split_and!; lia.
Qed.

Lemma take_line_line l rest : forall n, Forall (fun c => c <> LF) l -> (length l < n)%nat ->
  take_line n (l ++ LF :: rest) = (l ++ [LF], rest).
Proof.
  induction l as [|c l IH]; intros [|n] Hl Hn; cbn in Hn; try lia; cbn; [done|].
  apply Forall_cons in Hl as [Hc Hl]. rewrite (proj2 (Z.eqb_neq c LF)), IH by (done || lia). done.
Qed.

(** ** Tokens *)

Definition delim (ds : list Z) (c : Z) : bool := existsb (Z.eqb c) ds.

Fixpoint skip (ds l : list Z) : nat :=
  match l with
  | c :: l => if delim ds c then S (skip ds l) else 0
  | [] => 0
  end.

Fixpoint tok_len (ds l : list Z) : option nat :=
  match l with
  | [] => None
  | c :: l => if (c =? 0) || delim ds c then Some 0%nat else S <$> tok_len ds l
  end.

(** One call with the saved position [pos] and the delimiters [ds]: the token
    (NULL is [None]), the buffer and the new position. *)
Definition strtok (buf : list Z) (pos : nat) (ds : list Z) : option (option nat * list Z * nat) :=
  let start := (pos + skip ds (drop pos buf))%nat in
  c ← buf !! start;
  if c =? 0 then Some (None, buf, start)
  else
    n ← tok_len ds (drop start buf);
    e ← buf !! (start + n)%nat;
    if e =? 0 then Some (Some start, buf, (start + n)%nat)
    else Some (Some start, <[(start + n)%nat := 0]> buf, S (start + n)).

(** ** Numbers *)

Definition is_digit (c : Z) : bool := (48 <=? c) && (c <=? 57).
Definition is_space (c : Z) : bool := (c =? 32) || ((9 <=? c) && (c <=? 13)).

Fixpoint digits (l : list Z) (acc : Z) : Z :=
  match l with
  | c :: l => if is_digit c then digits l (10 * acc + (c - 48)) else acc
  | [] => acc
  end.

(** The number at the start of a string: white space, a sign, digits. *)
Fixpoint atoi_value (l : list Z) : Z :=
  match l with
  | c :: l' =>
      if is_space c then atoi_value l'
      else if c =? 45 then - digits l' 0
      else if c =? 43 then digits l' 0
      else digits l 0
  | [] => 0
  end.

(** [atoi]: undefined, [None], for a number that is no [int]. *)
Definition atoi (l : list Z) : option Z :=
  let n := atoi_value l in if bool_decide (is_int n) then Some n else None.

(** [sprintf(s, "%d", n)] of a number that is not negative. *)
Fixpoint decimal_loop (fuel : nat) (n : Z) (acc : list Z) : list Z :=
  match fuel with
  | O => acc
  | S fuel =>
      let acc := n mod 10 + 48 :: acc in
      if n <? 10 then acc else decimal_loop fuel (n / 10) acc
  end.

Definition decimal (n : Z) : list Z := decimal_loop (S (Z.to_nat n)) n [].

(** ** Lemmas *)

Definition nonzero (l : list Z) : Prop := Forall (fun c => c <> 0) l.
Definition token (ds l : list Z) : Prop := Forall (fun c => c <> 0 /\ delim ds c = false) l.

#[export] Instance nonzero_dec l : Decision (nonzero l).
Proof. unfold nonzero. apply _. Defined.
#[export] Instance token_dec ds l : Decision (token ds l).
Proof. unfold token. apply _. Defined.

Lemma token_nonzero ds l : token ds l -> nonzero l.
Proof. intros H. eapply Forall_impl; [exact H|]. cbn. tauto. Qed.

Lemma nonzero_app a b : nonzero (a ++ b) <-> nonzero a /\ nonzero b.
Proof. apply Forall_app. Qed.

Lemma token_app ds a b : token ds (a ++ b) <-> token ds a /\ token ds b.
Proof. apply Forall_app. Qed.

Lemma strlen_text s r : nonzero s -> strlen (s ++ 0 :: r) = Some (Z.of_nat (length s)).
Proof.
  induction 1 as [|c s Hc _ IH]; [done|]. cbn [strlen app]. rewrite (proj2 (Z.eqb_neq c 0)) by done.
  rewrite IH. cbn [fmap option_fmap option_map length]. f_equal. lia.
Qed.

Lemma cstr_text s r : nonzero s -> cstr (s ++ 0 :: r) = Some s.
Proof.
  induction 1 as [|c s Hc _ IH]; [done|]. cbn [cstr app]. rewrite (proj2 (Z.eqb_neq c 0)) by done.
  by rewrite IH.
Qed.

(** A string that is terminated splits at its terminator. *)
Lemma cstr_inv b s : cstr b = Some s -> exists r, b = s ++ 0 :: r /\ nonzero s.
Proof.
  revert s. induction b as [|c b IH]; intros s Hs; [done|]. cbn in Hs.
  destruct (Z.eqb_spec c 0) as [->|Hc].
  - injection Hs as <-. exists b. split; [done|constructor].
  - destruct (cstr b) as [s'|] eqn:E; [|done]. cbn in Hs. injection Hs as <-.
    destruct (IH s' eq_refl) as (r & -> & Hr). exists r. split; [done|]. by constructor.
Qed.

Lemma cstr_total b : 0 ∈ b -> exists s, cstr b = Some s.
Proof.
  induction b as [|c b IH]; intros Hb; [by apply elem_of_nil in Hb|]. cbn.
  destruct (Z.eqb_spec c 0); [by eexists|]. apply elem_of_cons in Hb as [?|Hb]; [congruence|].
  destruct (IH Hb) as [s ->]. by eexists.
Qed.

Lemma strlen_cstr b : strlen b = (fun s => Z.of_nat (length s)) <$> cstr b.
Proof.
  induction b as [|c b IH]; [done|]. cbn [strlen cstr]. destruct (c =? 0); [done|]. rewrite IH.
  destruct (cstr b); cbn [fmap option_fmap option_map length]; [|done]. f_equal. lia.
Qed.

Lemma strcpy_fits dst s r : nonzero s -> (length s < length dst)%nat ->
  strcpy dst (s ++ 0 :: r) = Some (s ++ 0 :: drop (S (length s)) dst).
Proof.
  intros Hs Hl. unfold strcpy. rewrite cstr_text by done. cbn [mbind option_bind]. unfold bcopy.
  rewrite bool_decide_eq_true_2 by (rewrite length_app; cbn [length]; lia).
  change (Z.to_nat 0) with 0%nat. rewrite <- app_assoc, length_app. cbn [app length take firstn].
  by replace (0 + (length s + 1))%nat with (S (length s)) by lia.
Qed.

Lemma strcpy_overflow dst s r : nonzero s -> (length dst <= length s)%nat ->
  strcpy dst (s ++ 0 :: r) = None.
Proof.
  intros Hs Hl. unfold strcpy. rewrite cstr_text by done. cbn [mbind option_bind]. unfold bcopy.
  rewrite bool_decide_eq_false_2; [done|]. rewrite length_app. cbn [length]. lia.
Qed.

Lemma strcat_fits s t r x k : nonzero s -> nonzero t -> (length t <= k)%nat -> length x = k ->
  strcat (s ++ 0 :: x) (t ++ 0 :: r) = Some ((s ++ t) ++ 0 :: drop (length t) x).
Proof.
  intros Hs Ht Hl <-. unfold strcat. rewrite strlen_text, cstr_text by done. cbn [mbind option_bind].
  unfold bcopy. rewrite bool_decide_eq_true_2 by (rewrite !length_app; cbn [length]; lia).
  rewrite Nat2Z.id, take_app_length, <- !app_assoc, length_app. cbn [app length].
  rewrite drop_app_ge by lia.
  by replace (length s + (length t + 1) - length s)%nat with (S (length t)) by lia.
Qed.

Lemma strcat_overflow s t r x : nonzero s -> nonzero t -> (length x < length t)%nat ->
  strcat (s ++ 0 :: x) (t ++ 0 :: r) = None.
Proof.
  intros Hs Ht Hl. unfold strcat. rewrite strlen_text, cstr_text by done. cbn [mbind option_bind].
  unfold bcopy. rewrite bool_decide_eq_false_2; [done|]. rewrite !length_app. cbn [length]. lia.
Qed.

(** Comparison of two terminated strings. *)
Lemma str_eq_text s : forall t r r', nonzero s -> nonzero t ->
  str_eq (s ++ 0 :: r) (t ++ 0 :: r') = Some (bool_decide (s = t)).
Proof.
  induction s as [|x s IH]; intros [|y t] r r' Hs Ht; cbn [app str_eq].
  - done.
  - apply Forall_cons in Ht as [Hy _]. rewrite (proj2 (Z.eqb_neq 0 y)) by done. done.
  - apply Forall_cons in Hs as [Hx _]. rewrite (proj2 (Z.eqb_neq x 0)) by done. done.
  - apply Forall_cons in Hs as [Hx Hs]. apply Forall_cons in Ht as [Hy Ht].
    destruct (Z.eqb_spec x y) as [->|Hne].
    + rewrite (proj2 (Z.eqb_neq y 0)), IH by done. f_equal. apply bool_decide_ext. split; congruence.
    + rewrite bool_decide_eq_false_2; [done|congruence].
Qed.

Lemma str_eq_total a b : 0 ∈ a -> 0 ∈ b -> exists r, str_eq a b = Some r.
Proof.
  intros Ha Hb. destruct (cstr_total a Ha) as [s Hs], (cstr_total b Hb) as [t Ht].
  apply cstr_inv in Hs as (? & -> & Hs), Ht as (? & -> & Ht). rewrite str_eq_text by done. by eexists.
Qed.

(** *** Tokens *)

Lemma tok_len_token ds tok e suf : token ds tok -> (e =? 0) || delim ds e = true ->
  tok_len ds (tok ++ e :: suf) = Some (length tok).
Proof.
  intros Ht He. induction Ht as [|c t [H0 H1] _ IH]; cbn [app tok_len].
  - by rewrite He.
  - rewrite (proj2 (Z.eqb_neq c 0)), H1 by done. cbn. by rewrite IH.
Qed.

Lemma tok_len_zero l r : nonzero l -> tok_len [] (l ++ 0 :: r) = Some (length l).
Proof. intros H. apply tok_len_token; [|done]. eapply Forall_impl; [exact H|]. done. Qed.

(** The call up to the end of the token [tok], which stands behind delimiters. *)
Lemma strtok_at ds pre gap tok e suf :
  delim ds 0 = false -> Forall (fun c => delim ds c = true) gap -> tok <> [] -> token ds tok ->
  (e =? 0) || delim ds e = true ->
  strtok (pre ++ gap ++ tok ++ e :: suf) (length pre) ds =
  Some (Some (length (pre ++ gap)), pre ++ gap ++ tok ++ 0 :: suf,
        if e =? 0 then length (pre ++ gap ++ tok) else length (pre ++ gap ++ tok ++ [0])).
Proof.
  intros Hds Hgap Hne Ht He. unfold strtok. rewrite drop_app_length.
  destruct tok as [|c t]; [done|]. pose proof Ht as Ht'. apply Forall_cons in Ht' as [[Hc Hcd] _].
  assert (skip ds (gap ++ (c :: t) ++ e :: suf) = length gap) as ->.
  { clear - Hgap Hcd. induction Hgap as [|g gap Hg _ IH]; cbn [app skip length]; [by rewrite Hcd|].
    rewrite Hg. f_equal. exact IH. }
  rewrite (app_assoc pre gap), <- (length_app pre gap).
  rewrite lookup_app_r, Nat.sub_diag by lia. cbn [app lookup list_lookup mbind option_bind].
  rewrite (proj2 (Z.eqb_neq c 0)), drop_app_length by done.
  change (c :: t ++ e :: suf) with ((c :: t) ++ e :: suf). rewrite tok_len_token by done.
  cbn [mbind option_bind]. rewrite (app_assoc (pre ++ gap)), <- length_app.
  rewrite list_lookup_middle by done. cbn [mbind option_bind].
  destruct (Z.eqb_spec e 0) as [->|He0].
  - rewrite <- !app_assoc. do 2 f_equal.
  - rewrite insert_app_r_alt, Nat.sub_diag by lia. cbn [insert list_insert].
    do 2 f_equal; [by rewrite <- !app_assoc|]. rewrite !length_app. cbn [length]. rewrite length_app. cbn. lia.
Qed.

(** The call as a step over the buffer: the token and its delimiter, now a
    terminator, join what is behind the position. *)
Lemma strtok_next ds pre tok d suf :
  delim ds 0 = false -> delim ds d = true -> tok <> [] -> token ds tok ->
  strtok (pre ++ tok ++ d :: suf) (length pre) ds =
  Some (Some (length pre), (pre ++ tok ++ [0]) ++ suf, length (pre ++ tok ++ [0])).
Proof.
  intros Hds Hd Hne Ht.
  assert ((d =? 0) = false) as E0.
  { apply Z.eqb_neq. intros ->. by rewrite Hds in Hd. }
  pose proof (strtok_at ds pre [] tok d suf Hds (Forall_nil_2 _) Hne Ht) as E. cbn [app] in E.
  rewrite E, E0, app_nil_r by (by rewrite Hd, orb_true_r). by rewrite <- !app_assoc.
Qed.

(** The last token ends at the terminator of the buffer. *)
Lemma strtok_last ds pre tok suf : delim ds 0 = false -> tok <> [] -> token ds tok ->
  strtok (pre ++ tok ++ 0 :: suf) (length pre) ds =
  Some (Some (length pre), pre ++ tok ++ 0 :: suf, length (pre ++ tok)).
Proof.
  intros Hds Hne Ht. pose proof (strtok_at ds pre [] tok 0 suf Hds (Forall_nil_2 _) Hne Ht eq_refl) as E.
  cbn [app] in E. by rewrite E, app_nil_r.
Qed.

(** Only delimiters are left. *)
Lemma strtok_none ds pre gap suf : delim ds 0 = false -> Forall (fun c => delim ds c = true) gap ->
  strtok (pre ++ gap ++ 0 :: suf) (length pre) ds =
  Some (None, pre ++ gap ++ 0 :: suf, length (pre ++ gap)).
Proof.
  intros Hds Hgap. unfold strtok. rewrite drop_app_length.
  assert (skip ds (gap ++ 0 :: suf) = length gap) as ->.
  { induction Hgap as [|g gap Hg _ IH]; cbn [app skip length]; [by rewrite Hds|].
    rewrite Hg. f_equal. exact IH. }
  by rewrite (app_assoc pre gap), <- length_app, list_lookup_middle by done.
Qed.

Lemma drop_token pre tok suf : drop (length pre) ((pre ++ tok ++ [0]) ++ suf) = tok ++ 0 :: suf.
Proof. by rewrite <- !app_assoc, drop_app_length. Qed.

(** Text is delimiters only, or has a first token. *)
Lemma first_token ds s : nonzero s ->
  Forall (fun c => delim ds c = true) s \/
  exists gap tok rest, s = gap ++ tok ++ rest /\ Forall (fun c => delim ds c = true) gap /\
    tok <> [] /\ token ds tok /\ (rest = [] \/ exists d r, rest = d :: r /\ delim ds d = true).
Proof.
  induction 1 as [|c s Hc Hs IH]; [left; constructor|]. destruct (delim ds c) eqn:E.
  { destruct IH as [?|(gap & tok & rest & -> & Hgap & IH)]; [left; by constructor|].
    right. exists (c :: gap), tok, rest. split; [done|]. split; [by constructor|done]. }
  right. clear IH. assert (exists tok rest, s = tok ++ rest /\ token ds tok /\
    (rest = [] \/ exists d r, rest = d :: r /\ delim ds d = true)) as (tok & rest & -> & Ht & Hr).
  { clear - Hs. induction Hs as [|x s Hx _ (tok & rest & -> & Ht & Hr)].
    - exists [], []. split_and!; [done|constructor|by left].
    - destruct (delim ds x) eqn:Ex.
      + exists [], (x :: tok ++ rest). split_and!; [done|constructor|eauto].
      + exists (x :: tok), rest. split_and!; [done|by constructor|done]. }
  exists [], (c :: tok), rest. split_and!; [done|constructor|done|by constructor|done].
Qed.

(** The call on a text with a first token: the token is terminated in place, and
    the position moves behind it. *)
Lemma strtok_step ds pre gap tok r rest :
  delim ds 0 = false -> Forall (fun c => delim ds c = true) gap -> tok <> [] -> token ds tok ->
  (r = [] \/ exists d r', r = d :: r' /\ delim ds d = true) ->
  exists pre' x,
    strtok (pre ++ (gap ++ tok ++ r) ++ 0 :: rest) (length pre) ds =
      Some (Some (length (pre ++ gap)), pre' ++ drop 1 r ++ 0 :: rest, length pre') /\
    drop (length (pre ++ gap)) (pre' ++ drop 1 r ++ 0 :: rest) = tok ++ 0 :: x.
Proof.
  intros Hds Hgap Hne Ht Hr. rewrite <- !app_assoc. destruct Hr as [->|(d & r' & -> & Hd)].
  - exists (pre ++ gap ++ tok), rest. cbn [app drop skipn]. rewrite strtok_at by done. change (0 =? 0) with true.
    rewrite <- !app_assoc. split; [done|]. by rewrite (app_assoc pre), drop_app_length.
  - exists (pre ++ gap ++ tok ++ [0]), (r' ++ 0 :: rest). cbn [app drop skipn].
    rewrite strtok_at by (try done; by rewrite Hd, orb_true_r).
    assert ((d =? 0) = false) as -> by (apply Z.eqb_neq; intros ->; by rewrite Hds in Hd).
    rewrite <- !app_assoc. split; [done|]. by rewrite (app_assoc pre), drop_app_length.
Qed.

(** On a terminated rest of the buffer a call returns and leaves a terminated
    rest and a terminated token. *)
Lemma strtok_total buf pos ds : delim ds 0 = false -> 0 ∈ drop pos buf ->
  exists p b q, strtok buf pos ds = Some (p, b, q) /\ 0 ∈ drop q b /\
    (forall i, p = Some i -> 0 ∈ drop i b).
Proof.
  intros Hds H0. apply cstr_total in H0 as [s Hs]. apply cstr_inv in Hs as (r & Hb & Hs).
  assert (length (take pos buf) = pos) as Hp.
  { apply length_take_le. apply (f_equal length) in Hb. rewrite length_drop, length_app in Hb.
    cbn in Hb. lia. }
  rewrite <- (take_drop pos buf), Hb. set (pre := take pos buf) in *. rewrite <- Hp.
  destruct (first_token ds s Hs) as [Hgap|(gap & tok & rest & -> & Hgap & Hne & Ht & Hr)].
  - rewrite strtok_none by done. do 3 eexists. split; [done|]. rewrite (app_assoc pre), drop_app_length.
    split; [by left|done].
  - destruct (strtok_step ds pre gap tok rest r) as (pre' & x & -> & Hx); [done..|].
    do 3 eexists. split; [done|]. rewrite drop_app_length. split; [apply elem_of_app; right; by left|].
    intros i [= <-]. rewrite Hx. apply elem_of_app. right. by left.
Qed.

(** The tokens of a text: its longest pieces without delimiters. *)
Fixpoint pieces (ds s cur : list Z) : list (list Z) :=
  match s with
  | [] => if bool_decide (cur = []) then [] else [cur]
  | c :: s =>
      if delim ds c then (if bool_decide (cur = []) then [] else [cur]) ++ pieces ds s []
      else pieces ds s (cur ++ [c])
  end.
Definition tokens (ds s : list Z) : list (list Z) := pieces ds s [].

Lemma tokens_gap ds gap s : Forall (fun c => delim ds c = true) gap -> tokens ds (gap ++ s) = tokens ds s.
Proof. induction 1 as [|c gap Hc _ IH]; [done|]. unfold tokens in *. cbn [app pieces]. by rewrite Hc. Qed.

Lemma pieces_token ds tok s : forall cur, token ds tok -> pieces ds (tok ++ s) cur = pieces ds s (cur ++ tok).
Proof.
  induction tok as [|c tok IH]; intros cur Ht; [by rewrite app_nil_r|].
  apply Forall_cons in Ht as [[_ Hc] Ht]. cbn [app pieces]. by rewrite Hc, IH, <- app_assoc.
Qed.

Lemma tokens_token ds tok rest : tok <> [] -> token ds tok ->
  (rest = [] \/ exists d r, rest = d :: r /\ delim ds d = true) ->
  tokens ds (tok ++ rest) = tok :: tokens ds (drop 1 rest).
Proof.
  intros Hne Ht Hr. unfold tokens. rewrite pieces_token by done. cbn [app].
  destruct Hr as [->|(d & r & -> & Hd)]; cbn [pieces drop skipn].
  - by rewrite bool_decide_eq_false_2.
  - by rewrite Hd, bool_decide_eq_false_2.
Qed.

Lemma tokens_nonzero ds s : nonzero s -> Forall nonzero (tokens ds s).
Proof.
  unfold tokens. intros Hs. cut (forall cur, nonzero cur -> Forall nonzero (pieces ds s cur)).
  { intros Hc. apply Hc. constructor. }
  induction Hs as [|c s Hc _ IH]; intros cur Hcur; cbn [pieces].
  - case_bool_decide; repeat constructor; done.
  - destruct (delim ds c).
    + case_bool_decide; [apply IH; constructor|]. constructor; [done|]. apply IH. constructor.
    + apply IH, nonzero_app. split; [done|]. by repeat constructor.
Qed.

(** *** Numbers *)

Definition all_digits (l : list Z) : Prop := Forall (fun c => 48 <= c <= 57) l.

Lemma is_digit_true c : 48 <= c <= 57 -> is_digit c = true.
Proof. intros. unfold is_digit. by rewrite (proj2 (Z.leb_le 48 c)), (proj2 (Z.leb_le c 57)) by lia. Qed.

Lemma digits_app l r : forall acc, all_digits l -> digits (l ++ r) acc = digits r (digits l acc).
Proof.
  induction l as [|c l IH]; intros acc Hl; [done|]. apply Forall_cons in Hl as [Hc Hl].
  cbn [app digits]. rewrite is_digit_true by done. by apply IH.
Qed.

(** [atoi] on a field followed by a byte that is no digit. *)
Lemma atoi_value_field l c r : all_digits l -> l <> [] -> is_digit c = false ->
  atoi_value (l ++ c :: r) = digits l 0.
Proof.
  intros Hl Hne Hc. transitivity (digits (l ++ c :: r) 0).
  - destruct l as [|e l]; [done|]. apply Forall_cons in Hl as [He _]. cbn [app atoi_value].
    unfold is_space. rewrite (proj2 (Z.eqb_neq e 32)), (proj2 (Z.eqb_neq e 45)), (proj2 (Z.eqb_neq e 43)),
      (proj2 (Z.leb_gt e 13)), andb_false_r by lia. done.
  - rewrite digits_app by done. cbn [digits]. by rewrite Hc.
Qed.

Lemma is_int_small n : 0 <= n < 65536 -> is_int n.
Proof. unfold is_int, int_min, int_max. lia. Qed.

Lemma atoi_field l c r : all_digits l -> l <> [] -> is_digit c = false -> is_int (digits l 0) ->
  atoi (l ++ c :: r) = Some (digits l 0).
Proof. intros. unfold atoi. rewrite atoi_value_field by done. cbv zeta. by rewrite bool_decide_eq_true_2. Qed.

Lemma decimal_loop_spec fuel : forall n acc, 0 <= n -> n < Z.of_nat fuel ->
  exists l, decimal_loop fuel n acc = l ++ acc /\ l <> [] /\ all_digits l /\
    digits l 0 = n /\ forall k, 0 <= k -> n < 10 ^ k -> 0 < k -> Z.of_nat (length l) <= k.
Proof.
  induction fuel as [|fuel IH]; intros n acc Hn Hf; [lia|]. cbn [decimal_loop].
  assert (48 <= n mod 10 + 48 <= 57) as Hd by zdm.
  destruct (Z.ltb_spec n 10) as [Hlt|Hge].
  - exists [n mod 10 + 48]. split; [done|]. split; [done|]. split; [constructor; [done|constructor]|].
    split; [|cbn; lia]. cbn [digits]. rewrite is_digit_true by done. zdm.
  - destruct (IH (n / 10) (n mod 10 + 48 :: acc)) as (l & -> & Hne & Hl & Hv & Hk); [zdm|zdm|].
    exists (l ++ [n mod 10 + 48]). rewrite <- app_assoc. split; [done|]. split; [by destruct l|].
    split; [apply Forall_app; split; [done|constructor; [done|constructor]]|]. split.
    + rewrite digits_app by done. cbn [digits]. rewrite is_digit_true, Hv by done. zdm.
    + intros k Hk0 Hnk Hkp. rewrite length_app. cbn [length].
      assert (k <> 1) by (intros ->; change (10 ^ 1) with 10 in Hnk; lia).
      specialize (Hk (k - 1)). replace (10 ^ k) with (10 * 10 ^ (k - 1)) in Hnk.
      2: { rewrite <- Z.pow_succ_r by lia. f_equal. lia. }
      assert (n / 10 < 10 ^ (k - 1)) by zdm. lia.
Qed.

(** [%d] prints digits that [atoi] reads back, [k] of them for a number below
    [10 ^ k]. *)
Lemma decimal_spec n : 0 <= n -> decimal n <> [] /\ all_digits (decimal n) /\ digits (decimal n) 0 = n /\
  forall k, 0 < k -> n < 10 ^ k -> Z.of_nat (length (decimal n)) <= k.
Proof.
  intros Hn. destruct (decimal_loop_spec (S (Z.to_nat n)) n [] Hn) as (l & E & Hne & Hl & Hv & Hk); [lia|].
  unfold decimal. rewrite E, app_nil_r. repeat split; try done. intros k Hk0 Hnk. apply Hk; lia.
Qed.

Lemma digits_nonzero l : all_digits l -> nonzero l.
Proof. intros H. eapply Forall_impl; [exact H|]. cbn. lia. Qed.

#[global] Arguments strtok : simpl never.
#[global] Arguments strcpy : simpl never.
#[global] Arguments strcat : simpl never.
#[global] Arguments decimal : simpl never.
