(* ===== verification/CFloat.v ===== *)
(** * Double precision: reading decimal numbers, division, conversion to int

    [double] is the binary format with 53 bits of precision and exponents below
    1024, computed with the standard's definitions ([SpecFloat]).  [strtod] reads
    the forms of ISO C: decimal and hexadecimal numbers with an exponent,
    infinity and not-a-number. *)

From Stdlib Require Import SpecFloat.
From S2P Require Import Prelude CStr.

Abbreviation double := spec_float.

Definition ddiv : double -> double -> double := SFdiv 53 1024.
Definition double_of (n : Z) : double := binary_normalize 53 1024 n 0 false.

(** The double nearest to [n / d]. *)
Definition ratio (neg : bool) (n d : Z) : double :=
  if n =? 0 then S754_zero neg
  else let '(m, e, l) := SFdiv_core_binary 53 1024 n 0 d 0 in binary_round_aux 53 1024 neg m e l.

(** ** Reading numbers *)

Definition lower (c : Z) : Z := if (65 <=? c) && (c <=? 90) then c + 32 else c.

Definition hex_digit (c : Z) : option Z :=
  let c := lower c in
  if is_digit c then Some (c - 48) else if (97 <=? c) && (c <=? 102) then Some (c - 87) else None.
Definition dec_digit (c : Z) : option Z := if is_digit c then Some (c - 48) else None.

(** Digits of base [b]: value, how many, what follows. *)
Fixpoint read_digits (dig : Z -> option Z) (b : Z) (l : list Z) (acc n : Z) : Z * Z * list Z :=
  match l with
  | c :: l' => match dig c with Some v => read_digits dig b l' (b * acc + v) (n + 1) | None => (acc, n, l) end
  | [] => (acc, n, [])
  end.

(** Digits with a point: the number without the point, its digits behind the
    point, how many digits in all, what follows. *)
Definition read_fixed (dig : Z -> option Z) (b : Z) (l : list Z) : Z * Z * Z * list Z :=
  let '(i, n, l) := read_digits dig b l 0 0 in
  match l with
  | c :: l' =>
      if c =? 46 then let '(m, k, l') := read_digits dig b l' i 0 in (m, k, n + k, l') else (i, 0, n, l)
  | [] => (i, 0, n, l)
  end.

(** The exponent behind its letter, 0 when it has no digit. *)
Definition read_exp (letter : Z) (l : list Z) : Z :=
  match l with
  | c :: l =>
      if lower c =? letter then
        match l with
        | s :: l' =>
            let '(x, _, _) := read_digits dec_digit 10 (if (s =? 43) || (s =? 45) then l' else l) 0 0 in
            if s =? 45 then - x else x
        | [] => 0
        end
      else 0
  | [] => 0
  end.

Definition starts (s : string) (l : list Z) : bool :=
  bool_decide (take (length (text s)) (map lower l) = text s).

(** A number without sign; [None]: no conversion. *)
Definition read_number (neg : bool) (l : list Z) : option double :=
  if starts "inf" l then Some (S754_infinity neg)
  else if starts "nan" l then Some S754_nan
  else
    let '(hm, hk, hn, hl) := read_fixed hex_digit 16 (drop 2 l) in
    if starts "0x" l && (0 <? hn) then
      let x := read_exp 112 hl - 4 * hk in
      Some (ratio neg (hm * 2 ^ Z.max x 0) (2 ^ Z.max (- x) 0))
    else
      let '(m, k, n, r) := read_fixed dec_digit 10 l in
      if n =? 0 then None
      else let x := read_exp 101 r - k in Some (ratio neg (m * 10 ^ Z.max x 0) (10 ^ Z.max (- x) 0)).

Fixpoint strtod (l : list Z) : option double :=
  match l with
  | c :: l' =>
      if is_space c then strtod l'
      else if c =? 45 then read_number true l'
      else if c =? 43 then read_number false l'
      else read_number false l
  | [] => None
  end.

Definition atof (l : list Z) : double := default (S754_zero false) (strtod l).

(** ** Conversion to [int]: towards zero, undefined outside the range *)

Definition trunc (f : double) : option Z :=
  match f with
  | S754_zero _ => Some 0
  | S754_finite s m e =>
      let v := if 0 <=? e then Z.pos m * 2 ^ e else Z.pos m / 2 ^ (- e) in Some (if s then - v else v)
  | _ => None
  end.

Definition to_int (f : double) : option Z :=
  v ← trunc f; if bool_decide (is_int v) then Some v else None.

(** ** Values, scaled to integers: [2 ^ 1074] times the value *)

Definition scaled (f : double) : Z :=
  match f with S754_finite false m e => Z.pos m * 2 ^ (e + 1074) | _ => 0 end.

Lemma digits2_pos_log2 p : Z.pos (digits2_pos p) = Z.log2 (Z.pos p) + 1.
Proof.
  induction p as [p IH|p IH|]; [| |done]; cbn [digits2_pos]; rewrite Pos2Z.inj_succ, IH.
  - change (Z.pos p~1) with (2 * Z.pos p + 1). rewrite Z.log2_succ_double by lia. lia.
  - change (Z.pos p~0) with (2 * Z.pos p). rewrite Z.log2_double by lia. lia.
Qed.

Lemma Zdigits2_log2 m : 0 < m -> Zdigits2 m = Z.log2 m + 1.
Proof. intros Hm. destruct m as [|p|p]; [lia| |lia]. apply digits2_pos_log2. Qed.

Lemma Zdigits2_is m k : 0 < k -> 2 ^ (k - 1) <= m < 2 ^ k -> Zdigits2 m = k.
Proof.
  intros Hk Hm. assert (0 < m) by (pose proof (Z.pow_pos_nonneg 2 (k - 1)); lia).
  rewrite Zdigits2_log2 by done. rewrite (Z.log2_unique m (k - 1)); [lia|lia|].
  by replace (Z.succ (k - 1)) with k by lia.
Qed.

Lemma fexp_53 d : -1021 <= d -> fexp 53 1024 d = d - 53.
Proof. intros Hd. unfold fexp, emin. lia. Qed.

(** The second half of rounding: a mantissa that became [2 ^ 53] is shifted. *)
Lemma renormalise m e : 2 ^ 52 <= m <= 2 ^ 53 -> -1074 <= e <= 902 ->
  exists m' k, (let '(r, e') := shr_fexp 53 1024 m e loc_Exact in
      match shr_m r with
      | Z0 => S754_zero false
      | Zpos m => if e' <=? 1024 - 53 then S754_finite false m e' else S754_infinity false
      | _ => S754_nan
      end) = S754_finite false m' k /\
    e <= k <= e + 1 /\ 2 ^ 52 <= Z.pos m' < 2 ^ 53 /\ Z.pos m' * 2 ^ (k - e) = m.
Proof.
  intros Hm He. unfold shr_fexp. destruct (Z.eq_dec m (2 ^ 53)) as [->|Hne].
  - rewrite (Zdigits2_is _ 54), fexp_53 by lia. replace (54 + e - 53 - e) with 1 by lia.
    exists 4503599627370496%positive, (e + 1). cbn [shr iter_pos]. vm_compute (shr_m _).
    rewrite (proj2 (Z.leb_le _ _)) by lia. split_and!; [done|lia|lia|lia|lia|].
    by replace (e + 1 - e) with 1 by lia.
  - rewrite (Zdigits2_is _ 53), fexp_53 by lia. replace (53 + e - 53 - e) with 0 by lia.
    destruct m as [|p|p]; [lia| |lia]. exists p, e. cbn [shr shr_record_of_loc shr_m].
    rewrite (proj2 (Z.leb_le _ _)) by lia. split_and!; [done|lia|lia|lia|lia|]. rewrite Z.sub_diag. lia.
Qed.

Lemma round_nearest_even_cases m l : round_nearest_even m l = m \/ round_nearest_even m l = m + 1.
Proof. destruct l as [|[]]; cbn; auto. destruct (Z.even m); auto. Qed.

(** Rounding a number of 53 or 54 digits: within one unit of the last place, and
    without error when the number is exact and fits. *)
Lemma round_value q e l : 2 ^ 52 <= q < 2 ^ 54 -> -1074 <= e <= 900 ->
  exists m k, binary_round_aux 53 1024 false q e l = S754_finite false m k /\
    e <= k <= e + 2 /\ 2 ^ 52 <= Z.pos m < 2 ^ 53 /\
    q - 1 <= Z.pos m * 2 ^ (k - e) <= q + 2 /\
    (l = loc_Exact -> (q < 2 ^ 53 \/ Z.even q = true) -> Z.pos m * 2 ^ (k - e) = q).
Proof.
  intros Hq He. unfold binary_round_aux. unfold shr_fexp at 1.
  destruct (Z.ltb_spec q (2 ^ 53)) as [Hs|Hb].
  - rewrite (Zdigits2_is _ 53), fexp_53 by lia. replace (53 + e - 53 - e) with 0 by lia. cbn [shr].
    assert (shr_m (shr_record_of_loc q l) = q) as -> by (by destruct l as [|[]]).
    assert (loc_of_shr_record (shr_record_of_loc q l) = l) as -> by (by destruct l as [|[]]).
    pose proof (round_nearest_even_cases q l) as Hc. set (r := round_nearest_even q l) in *.
    destruct (renormalise r e) as (m & k & E & Hk & Hm & Hv); [lia|lia|].
    exists m, k. rewrite E. split_and!; [done|lia|lia|lia|lia|lia|lia|].
    intros -> _. by rewrite Hv.
  - rewrite (Zdigits2_is _ 54), fexp_53 by lia. replace (54 + e - 53 - e) with 1 by lia. cbn [shr SpecFloat.iter_pos].
    set (r := shr_1 (shr_record_of_loc q l)).
    assert (shr_m r = q / 2) as Er.
    { unfold r. destruct q as [|p|p]; [lia| |lia]. destruct l as [|[]]; destruct p; cbn; try done;
        rewrite ?(Pos2Z.inj_xI p), ?(Pos2Z.inj_xO p); zdm. }
    assert (l = loc_Exact -> Z.even q = true -> loc_of_shr_record r = loc_Exact) as Hex.
    { intros -> Hev. unfold r. destruct q as [|p|p]; [lia| |lia]. by destruct p. }
    rewrite Er. pose proof (round_nearest_even_cases (q / 2) (loc_of_shr_record r)) as Hc.
    set (t := round_nearest_even (q / 2) (loc_of_shr_record r)) in *.
    assert (2 ^ 52 <= q / 2 < 2 ^ 53) as Hh by (change (2 ^ 54) with (2 * 2 ^ 53) in Hq; change (2 ^ 53) with (2 * 2 ^ 52) in *; zdm).
    destruct (renormalise t (e + 1)) as (m & k & E & Hk & Hm & Hv); [lia|lia|].
    assert (Z.pos m * 2 ^ (k - e) = 2 * t) as Hv'.
    { rewrite <- Hv. replace (k - e) with (Z.succ (k - (e + 1))) by lia. rewrite Z.pow_succ_r by lia. ring. }
    exists m, k. rewrite E, Hv'. split_and!; [done|lia|lia|lia|lia|zdm|zdm|].
    intros Hl [?|Hev]; [lia|]. unfold t. rewrite (Hex Hl Hev). cbn [round_nearest_even].
    apply Z.even_spec in Hev as [c ->]. zdm.
Qed.

Lemma exact_quotient A y n e : A * 2 ^ (e + 1074) = n * y * 2 ^ 1074 ->
  0 < n < 2 ^ 53 -> 0 < y -> 2 ^ 53 * y <= 2 * A -> -1074 <= e ->
  e <= 0 /\ A = y * (n * 2 ^ (- e)).
Proof.
  intros Hx Hn Hy HA He.
  assert (e <= 0) as He0.
  { destruct (Z.le_gt_cases e 0); [done|exfalso].
    replace (e + 1074) with ((e - 1) + 1 + 1074) in Hx by lia. rewrite !Z.pow_add_r in Hx by lia.
    assert (0 < 2 ^ (e - 1)) by (apply Z.pow_pos_nonneg; lia).
    assert (0 < 2 ^ 1074) by (apply Z.pow_pos_nonneg; lia).
    assert (A * (2 * 2 ^ (e - 1)) = n * y) as E.
    { apply (Z.mul_reg_r _ _ (2 ^ 1074)); [lia|]. rewrite <- Hx. change (2 ^ 1) with 2. ring. }
    set (B := 2 ^ (e - 1)) in *. assert (A * 2 <= n * y) by nia. nia. }
  split; [done|].
  assert (2 ^ 1074 = 2 ^ (e + 1074) * 2 ^ (- e)) as Hp by (rewrite <- Z.pow_add_r by lia; f_equal; lia).
  rewrite Hp in Hx.
  assert (0 < 2 ^ (e + 1074)) by (apply Z.pow_pos_nonneg; lia).
  apply (Z.mul_reg_r _ _ (2 ^ (e + 1074))); [lia|]. rewrite Hx. ring.
Qed.

(** Division of a double by an integer [y] written with mantissa [m2] and
    exponent [e2]: the relative error is at most [2 ^ -51], and there is none
    when the quotient is an integer. *)
Lemma div_core_value m1 e1 m2 e2 y :
  0 < m1 < 2 ^ 53 -> 0 < y < 2 ^ 53 -> m2 = y * 2 ^ (- e2) -> -53 <= e2 <= 0 -> -500 <= e1 <= 500 ->
  exists m k, (let '(q, e, l) := SFdiv_core_binary 53 1024 m1 e1 m2 e2 in
      binary_round_aux 53 1024 false q e l) = S754_finite false m k /\
    e1 - 110 <= k <= e1 + 2 /\ 2 ^ 52 <= Z.pos m < 2 ^ 53 /\
    Z.abs (y * scaled (S754_finite false m k) - m1 * 2 ^ (e1 + 1074)) * 2 ^ 51 <= m1 * 2 ^ (e1 + 1074) /\
    (forall n, 0 < n < 2 ^ 53 -> m1 * 2 ^ (e1 + 1074) = n * y * 2 ^ 1074 ->
       scaled (S754_finite false m k) = n * 2 ^ 1074).
Proof.
  intros Hm1 Hy Hm2 He2 He1.
  assert (0 < 2 ^ (- e2)) as Hp2 by (apply Z.pow_pos_nonneg; lia).
  assert (0 < m2) as Hm2p by nia.
  assert (Z.log2 m2 = Z.log2 y - e2) as Hl2 by (rewrite Hm2, Z.log2_mul_pow2; lia).
  pose proof (Z.log2_spec m1) as [Ha1 Hb1]; [lia|]. pose proof (Z.log2_spec y) as [Hay Hby]; [lia|].
  set (d1 := Z.log2 m1) in *. set (dy := Z.log2 y) in *.
  assert (0 <= d1 < 53) as Hd1 by (unfold d1; split; [apply Z.log2_nonneg|apply Z.log2_lt_pow2; lia]).
  assert (0 <= dy < 53) as Hdy by (unfold dy; split; [apply Z.log2_nonneg|apply Z.log2_lt_pow2; lia]).
  unfold SFdiv_core_binary. rewrite !Zdigits2_log2, Hl2 by lia. fold d1 dy.
  rewrite fexp_53 by lia. set (e := d1 + e1 - dy - 53).
  replace (Z.min _ _) with e by lia. set (s := e1 - e2 - e).
  assert (0 < s) as Hs by lia. destruct s as [|ps|ps] eqn:Es; [lia| |lia]. rewrite <- Es in *. clear Es ps.
  rewrite Z.shiftl_mul_pow2 by lia. set (num := m1 * 2 ^ s).
  pose proof (Z_div_mod num m2 ltac:(lia)) as Hdm. destruct (Z.div_eucl num m2) as [q r].
  destruct Hdm as [Hnum Hr]. set (l := new_location m2 r).
  set (t := e1 - e). set (A := m1 * 2 ^ t). set (W := 2 ^ (e + 1074)).
  assert (num = A * 2 ^ (- e2)) as HA.
  { unfold num, A. replace s with (t + - e2) by lia. rewrite Z.pow_add_r by lia. ring. }
  assert (y * q <= A < y * (q + 1)) as HAq by (rewrite HA in Hnum; subst m2; nia).
  assert (2 ^ 53 * 2 ^ dy <= A < 2 ^ 54 * 2 ^ dy) as HAr.
  { unfold A. assert (2 ^ 53 * 2 ^ dy = 2 ^ d1 * 2 ^ t) as -> by (rewrite <- !Z.pow_add_r by lia; f_equal; lia).
    assert (2 ^ 54 * 2 ^ dy = 2 ^ Z.succ d1 * 2 ^ t) as -> by (rewrite <- !Z.pow_add_r by lia; f_equal; lia).
    assert (0 < 2 ^ t) by (apply Z.pow_pos_nonneg; lia). split; [apply Z.mul_le_mono_nonneg_r|apply Z.mul_lt_mono_pos_r]; lia. }
  rewrite Z.pow_succ_r in Hby by lia.
  assert (2 ^ 52 * y <= A /\ A < 2 ^ 54 * y) as HAy by (change (2 ^ 53) with (2 * 2 ^ 52) in HAr; nia).
  assert (2 ^ 52 <= q < 2 ^ 54) as Hq by nia.
  destruct (round_value q e l Hq) as (m & k & E & Hk & Hm & Hv & Hx); [lia|].
  assert (scaled (S754_finite false m k) = Z.pos m * 2 ^ (k - e) * W) as Hsc.
  { unfold W. cbn [scaled]. rewrite <- Z.mul_assoc, <- Z.pow_add_r by lia. do 2 f_equal. lia. }
  assert (m1 * 2 ^ (e1 + 1074) = A * W) as Hx1.
  { unfold A, W. rewrite <- Z.mul_assoc, <- Z.pow_add_r by lia. do 2 f_equal. lia. }
  assert (0 < W) as HW by (apply Z.pow_pos_nonneg; lia).
  exists m, k. rewrite Hsc, Hx1. set (v := Z.pos m * 2 ^ (k - e)) in *. split_and!; [done|lia|lia|lia|lia| |].
  - replace (y * (v * W) - A * W) with ((y * v - A) * W) by ring.
    rewrite Z.abs_mul, (Z.abs_eq W) by lia.
    assert (Z.abs (y * v - A) <= 2 * y) as Hab by nia.
    assert (Z.abs (y * v - A) * 2 ^ 51 <= A) as Hab' by (change (2 ^ 52) with (2 * 2 ^ 51) in HAy; lia).
    rewrite <- Z.mul_assoc, (Z.mul_comm W), Z.mul_assoc. apply Z.mul_le_mono_nonneg_r; lia.
  - intros n Hn Hxn. apply (exact_quotient A y n e) in Hxn as [He HAn]; [|done|lia..].
    assert (q = n * 2 ^ (- e)) as Hqn.
    { rewrite HAn in HAq. clear - HAq Hy. set (u := n * 2 ^ (- e)) in *. nia. }
    assert (r = 0) as Hr0 by (rewrite HA in Hnum; subst m2; nia).
    assert (v = q) as ->.
    { apply Hx; [unfold l; rewrite Hr0; unfold new_location; by destruct (Z.even m2)|].
      destruct (Z.eq_dec e 0) as [->|Hne]; [left; rewrite Hqn; change (2 ^ (- 0)) with 1; lia|].
      right. rewrite Hqn. replace (- e) with (Z.succ (- e - 1)) by lia. rewrite Z.pow_succ_r by lia.
      rewrite Z.even_mul, Z.even_mul. cbn. apply orb_true_r. }
    rewrite Hqn. unfold W. rewrite <- Z.mul_assoc, <- Z.pow_add_r by lia. do 2 f_equal. lia.
Qed.

Abbreviation unit := (2 ^ 1074).

Lemma unit_pos : 0 < unit.
Proof. apply Z.pow_pos_nonneg; lia. Qed.

(** A number that is not negative, of ordinary size. *)
Definition ordinary (b : Z) (f : double) : Prop :=
  match f with
  | S754_zero false => True
  | S754_finite false m e => 2 ^ 52 <= Z.pos m < 2 ^ 53 /\ - b <= e <= b
  | _ => False
  end.

Lemma trunc_scaled b f : b <= 500 -> ordinary b f -> trunc f = Some (scaled f / unit).
Proof.
  intros Hb Hf. pose proof unit_pos. destruct f as [[]|[]| |[] m e]; try done. destruct Hf as [_ He].
  cbn [trunc scaled]. f_equal. destruct (Z.leb_spec 0 e).
  - rewrite Z.pow_add_r, Z.mul_assoc, Z.div_mul by lia. done.
  - assert (0 < 2 ^ (e + 1074)) by (apply Z.pow_pos_nonneg; lia).
    replace (2 ^ 1074) with (2 ^ (- e) * 2 ^ (e + 1074)) by (rewrite <- Z.pow_add_r by lia; f_equal; lia).
    rewrite Z.div_mul_cancel_r; [done|apply Z.pow_nonzero; lia|lia].
Qed.

(** [f] is [n / y], up to a relative error of [2 ^ -51] of the number [x] (scaled)
    it was computed from, and exactly so when that is an integer. *)
Definition close (x y : Z) (f : double) : Prop :=
  Z.abs (y * scaled f - x) * 2 ^ 51 <= x /\
  (forall n, 0 <= n < 2 ^ 53 -> x = n * y * unit -> scaled f = n * unit).

Lemma ratio_close n y : 0 <= n < 2 ^ 53 -> 0 < y < 2 ^ 53 ->
  ordinary 110 (ratio false n y) /\ close (n * unit) y (ratio false n y).
Proof.
  intros Hn Hy. unfold ratio. pose proof unit_pos. destruct (Z.eqb_spec n 0) as [->|Hne].
  { split; [done|]. split; [cbn [scaled]; rewrite Z.mul_0_r; cbn; lia|]. intros n _ Hx. cbn [scaled].
    assert (n = 0) as -> by nia. done. }
  destruct (div_core_value n 0 y 0 y) as (m & k & E & Hk & Hm & Hv & Hx); [lia|lia|change (2 ^ (- 0)) with 1; lia|lia|lia|].
  rewrite E. cbn [ordinary]. change (0 + 1074) with 1074 in *. split; [lia|]. split; [done|].
  intros n' Hn' Hx'. apply Hx; [|done]. assert (n' <> 0) by (intros ->; nia). lia.
Qed.

Lemma ddiv_close f b : ordinary b f -> 0 <= b <= 390 ->
  ordinary (b + 110) (ddiv f (double_of 100)) /\ close (scaled f) 100 (ddiv f (double_of 100)).
Proof.
  intros Hf Hb. pose proof unit_pos. change (double_of 100) with (S754_finite false 7036874417766400 (-46)).
  destruct f as [[]|[]| |[] m e]; try done.
  { split; [done|]. split; [cbn; lia|]. intros n _ Hx. cbn [scaled ddiv] in *.
    assert (n = 0) as -> by nia. done. }
  destruct Hf as [Hm He]. unfold ddiv, SFdiv. cbn [xorb].
  destruct (div_core_value (Z.pos m) e 7036874417766400 (-46) 100) as (m' & k & E & Hk & Hm' & Hv & Hx);
    [lia|lia|reflexivity|lia|lia|].
  rewrite E. split; [cbn; lia|]. split; [exact Hv|].
  intros n Hn Hxn. apply Hx; [|exact Hxn]. assert (n <> 0); [|lia]. intros ->. cbn [scaled] in Hxn.
  assert (0 < 2 ^ (e + 1074)) by (apply Z.pow_pos_nonneg; lia). nia.
Qed.

(** Dividing by one changes nothing. *)
Lemma ddiv_one f b : ordinary b f -> 0 <= b <= 390 -> ddiv f (double_of 1) = f.
Proof.
  intros Hf Hb. change (double_of 1) with (S754_finite false 4503599627370496 (-52)).
  destruct f as [[]|[]| |[] m e]; try done. destruct Hf as [Hm He].
  unfold ddiv, SFdiv. cbn [xorb]. unfold SFdiv_core_binary.
  rewrite (Zdigits2_is (Z.pos m) 53) by lia. change (Zdigits2 4503599627370496) with 53.
  rewrite fexp_53 by lia. replace (Z.min _ _) with (e - 1) by lia. replace (e - -52 - (e - 1)) with 53 by lia.
  rewrite Z.shiftl_mul_pow2 by lia. change (2 ^ 53) with (2 * 4503599627370496).
  pose proof (Z_div_mod (Z.pos m * (2 * 4503599627370496)) 4503599627370496 ltac:(lia)) as Hd.
  destruct (Z.div_eucl _ _) as [q r]. destruct Hd as [Hq Hr].
  assert (q = 2 * Z.pos m) as -> by lia. assert (r = 0) as -> by lia.
  destruct (round_value (2 * Z.pos m) (e - 1) loc_Exact) as (m' & k & E & Hk & Hm' & _ & Hx); [lia|lia|].
  change (new_location 4503599627370496 0) with loc_Exact. rewrite E.
  assert (Z.pos m' * 2 ^ (k - (e - 1)) = 2 * Z.pos m) as Hv by (apply Hx; [done|right; by rewrite Z.even_mul]).
  assert (k = e - 1 \/ k = e \/ k = e + 1) as [->|[->| ->]] by lia.
  - replace (e - 1 - (e - 1)) with 0 in Hv by lia. lia.
  - replace (e - (e - 1)) with 1 in Hv by lia. f_equal. lia.
  - replace (e + 1 - (e - 1)) with 2 in Hv by lia. change (2 ^ 2) with 4 in Hv. lia.
Qed.

(** An approximation by less than a unit of the numerator has the right floor. *)
Lemma floor_near y v t w : 0 < w -> 0 < y -> Z.abs (y * v - t * w) < w ->
  (t mod y = 0 -> v = t / y * w) -> v / w = t / y.
Proof.
  intros Hw Hy Ha Hx. destruct (Z.eq_dec (t mod y) 0) as [E|E].
  { rewrite (Hx E). apply Z.div_mul. lia. }
  pose proof (Z.div_mod t y ltac:(lia)) as Ht. pose proof (Z.mod_pos_bound t y Hy) as Hc.
  set (a := t / y) in *. set (c := t mod y) in *. symmetry. apply Z.div_unique with (v - w * a); [left|ring].
  assert (t * w = y * (a * w) + c * w) as Etw by (rewrite Ht; ring).
  assert (w <= c * w <= y * w - w) by nia. split; [|]; nia.
Qed.

(** Three quotients in a row, each by 100 of the one before. *)
Lemma groups_arith t y w v0 v1 v2 : 0 < w -> 0 <= t < 2 ^ 31 -> 0 < y < 2 ^ 31 ->
  Z.abs (y * v0 - t * w) * 2 ^ 51 <= t * w ->
  Z.abs (100 * v1 - v0) * 2 ^ 51 <= v0 -> Z.abs (100 * v2 - v1) * 2 ^ 51 <= v1 ->
  (forall n, 0 <= n < 2 ^ 53 -> t * w = n * y * w -> v0 = n * w) ->
  (forall n, 0 <= n < 2 ^ 53 -> v0 = n * 100 * w -> v1 = n * w) ->
  (forall n, 0 <= n < 2 ^ 53 -> v1 = n * 100 * w -> v2 = n * w) ->
  v0 / w = t / y /\ v1 / w = t / (100 * y) /\ v2 / w = t / (10000 * y).
Proof.
  intros Hw Ht Hy C0 C1 C2 X0 X1 X2.
  assert (t * w < 2 ^ 31 * w) as Htw by nia.
  assert (Z.abs (y * v0 - t * w) * 2 ^ 20 <= w) as N0 by lia.
  assert (0 <= v0 /\ 0 <= v1) as [P0 P1] by lia.
  assert (y * v0 <= (2 ^ 31 + 1) * w) as Q0 by lia.
  assert (Z.abs (100 * y * v1 - y * v0) * 2 ^ 51 <= y * v0) as N1.
  { replace (100 * y * v1 - y * v0) with (y * (100 * v1 - v0)) by ring. rewrite Z.abs_mul, (Z.abs_eq y) by lia.
    rewrite <- Z.mul_assoc. apply Z.mul_le_mono_nonneg_l; lia. }
  assert (100 * y * v1 <= (2 ^ 31 + 2) * w) as Q1 by lia.
  assert (Z.abs (10000 * y * v2 - 100 * y * v1) * 2 ^ 51 <= 100 * y * v1) as N2.
  { replace (10000 * y * v2 - 100 * y * v1) with (100 * y * (100 * v2 - v1)) by ring.
    rewrite Z.abs_mul, (Z.abs_eq (100 * y)) by lia.
    rewrite <- (Z.mul_assoc (100 * y)). apply Z.mul_le_mono_nonneg_l; lia. }
  assert (forall k, 0 < k -> t mod (k * y) = 0 -> t = t / (k * y) * k * y) as Hdiv.
  { intros k Hk Hz. pose proof (Z.div_mod t (k * y) ltac:(lia)). lia. }
  assert (forall k, 0 < k <= 10000 -> 0 <= t / y /\ 0 <= t / (k * y) * k < 2 ^ 53) as Hrange.
  { clear - Ht Hy. intros k Hk. assert (0 <= t / (k * y)) by (apply Z.div_pos; lia).
    assert (1 * t <= k * y * t) by (apply Z.mul_le_mono_nonneg_r; lia).
    assert (t / (k * y) <= t) by (apply Z.div_le_upper_bound; lia). split; [apply Z.div_pos; lia|].
    assert (t / (k * y) * k <= t * k) by (apply Z.mul_le_mono_nonneg_r; lia).
    assert (t * k <= t * 10000) by (apply Z.mul_le_mono_nonneg_l; lia). split; [apply Z.mul_nonneg_nonneg; lia|lia]. }
  assert (forall k, 0 < k <= 10000 -> t mod (k * y) = 0 -> v0 = t / (k * y) * k * w) as E0.
  { intros k Hk Hz. apply X0; [by apply Hrange|]. rewrite (Hdiv k) at 1 by (done || lia). done. }
  assert (forall k, 0 < k <= 100 -> t mod (k * 100 * y) = 0 -> v1 = t / (k * 100 * y) * k * w) as E1.
  { intros k Hk Hz. apply X1; [specialize (Hrange (k * 100)); lia|]. rewrite (E0 (k * 100)) by (done || lia). ring. }
  split_and!; apply floor_near; try lia.
  - intros Hz. specialize (E0 1 ltac:(lia)). rewrite !Z.mul_1_l, Z.mul_1_r in E0. auto.
  - intros Hz. specialize (E1 1 ltac:(lia)). rewrite !Z.mul_1_l, Z.mul_1_r in E1. auto.
  - intros Hz. apply X2; [specialize (Hrange 10000); lia|]. rewrite (E1 100) by (done || lia). done.
Qed.

(** Reading a number off in groups of two decimal digits: a number [t / y] with
    few digits, and its quotients by 100 and 10000, have the right integer
    parts in spite of the rounding. *)
Lemma digit_groups t y : 0 <= t < 2 ^ 31 -> 0 < y < 2 ^ 31 ->
  let f0 := ratio false t y in
  let f1 := ddiv f0 (double_of 100) in
  let f2 := ddiv f1 (double_of 100) in
  to_int f0 = Some (t / y) /\ to_int f1 = Some (t / (100 * y)) /\ to_int f2 = Some (t / (10000 * y)).
Proof.
  intros Ht Hy f0 f1 f2.
  destruct (ratio_close t y) as [O0 [C0 X0]]; [lia|lia|]. fold f0 in O0, C0, X0.
  destruct (ddiv_close f0 110 O0) as [O1 [C1 X1]]; [lia|]. fold f1 in O1, C1, X1.
  destruct (ddiv_close f1 220 O1) as [O2 [C2 X2]]; [lia|]. fold f2 in O2, C2, X2.
  destruct (groups_arith t y unit (scaled f0) (scaled f1) (scaled f2) unit_pos Ht Hy C0 C1 C2 X0 X1 X2)
    as (E0 & E1 & E2).
  assert (forall k, 0 < k -> is_int (t / k)) as Hint.
  { intros k Hk. assert (0 <= t / k <= t); [|unfold is_int, int_min, int_max; lia].
    split; [apply Z.div_pos; lia|]. clear - Hk Ht. apply Z.div_le_upper_bound; nia. }
  unfold to_int. rewrite (trunc_scaled 110 f0), (trunc_scaled 220 f1), (trunc_scaled 330 f2) by (done || lia).
  cbn [mbind option_bind]. rewrite E0, E1, E2, !bool_decide_eq_true_2 by (apply Hint; lia). done.
Qed.

(** Decimal numbers without sign and exponent. *)
Lemma read_digits_dec l c r : forall acc n, all_digits l -> is_digit c = false ->
  read_digits dec_digit 10 (l ++ c :: r) acc n = (digits l acc, n + Z.of_nat (length l), c :: r).
Proof.
  induction l as [|d l IH]; intros acc n Hl Hc.
  - cbn. unfold dec_digit. rewrite Hc. by rewrite Z.add_0_r.
  - apply Forall_cons in Hl as [Hd Hl]. cbn [app read_digits digits length]. unfold dec_digit at 1.
    rewrite is_digit_true, IH by done. f_equal. f_equal. lia.
Qed.

(** A byte that can follow the digits of a decimal number and end it. *)
Definition ends_number (c : Z) : Prop :=
  is_digit c = false /\ c <> 46 /\ lower c <> 101 /\ lower c <> 120.

Lemma lower_digit d : 48 <= d <= 57 -> lower d = d.
Proof. intros Hd. unfold lower. by rewrite (proj2 (Z.leb_gt 65 d)) by lia. Qed.

Lemma starts_digit d l : 48 <= d <= 57 ->
  starts "inf" (d :: l) = false /\ starts "nan" (d :: l) = false.
Proof.
  intros Hd. unfold starts. cbn [map]. rewrite lower_digit by done.
  split; apply bool_decide_eq_false_2; intros E; apply (f_equal (fun l => l !! 0%nat)) in E;
    cbn in E; injection E as E; vm_compute in E; lia.
Qed.

Lemma no_hex d l c r : all_digits (d :: l) -> lower c <> 120 -> starts "0x" ((d :: l) ++ c :: r) = false.
Proof.
  intros Hl Hc. apply Forall_cons in Hl as [_ Hl]. apply bool_decide_eq_false_2. intros E.
  apply (f_equal (fun l => l !! 1%nat)) in E. destruct l as [|b l]; cbn in E; injection E as E;
    change (Z.of_nat _) with 120 in E; [done|].
  apply Forall_cons in Hl as [Hb _]. rewrite lower_digit in E by done. lia.
Qed.

Lemma read_fixed_int l c r : all_digits l -> ends_number c ->
  read_fixed dec_digit 10 (l ++ c :: r) = (digits l 0, 0, Z.of_nat (length l), c :: r).
Proof.
  intros Hl (Hc & Hp & _). unfold read_fixed. rewrite read_digits_dec by done.
  by rewrite Z.add_0_l, (proj2 (Z.eqb_neq c 46)).
Qed.

Lemma read_fixed_frac l f c r : all_digits l -> all_digits f -> is_digit c = false ->
  read_fixed dec_digit 10 (l ++ 46 :: f ++ c :: r) =
  (digits (l ++ f) 0, Z.of_nat (length f), Z.of_nat (length l) + Z.of_nat (length f), c :: r).
Proof.
  intros Hl Hf Hc. unfold read_fixed. rewrite read_digits_dec by done. rewrite Z.add_0_l.
  change (46 =? 46) with true. rewrite read_digits_dec, digits_app by done. by rewrite Z.add_0_l.
Qed.

Lemma strtod_digit d l : 48 <= d <= 57 -> strtod (d :: l) = read_number false (d :: l).
Proof.
  intros Hd. cbn [strtod]. unfold is_space. rewrite (proj2 (Z.eqb_neq d 32)), (proj2 (Z.leb_gt d 13)),
    (proj2 (Z.eqb_neq d 45)), (proj2 (Z.eqb_neq d 43)), andb_false_r by lia. done.
Qed.

Lemma read_exp_none c r : lower c <> 101 -> read_exp 101 (c :: r) = 0.
Proof. intros Hc. unfold read_exp. by rewrite (proj2 (Z.eqb_neq _ _)). Qed.

(** [atof] gives the double nearest to the decimal number. *)
Lemma atof_int l c r : all_digits l -> l <> [] -> ends_number c ->
  atof (l ++ c :: r) = ratio false (digits l 0) 1.
Proof.
  intros Hl Hne Hc. unfold atof. destruct l as [|d l]; [done|]. pose proof Hl as Hl'. pose proof Hc as (Hc0 & _ & He & Hx).
  apply Forall_cons in Hl' as [Hd _]. change ((d :: l) ++ c :: r) with (d :: (l ++ c :: r)).
  rewrite strtod_digit by done. unfold read_number. destruct (starts_digit d (l ++ c :: r) Hd) as [-> ->].
  destruct (read_fixed hex_digit 16 _) as [[[hm hk] hn] hl].
  change (d :: (l ++ c :: r)) with ((d :: l) ++ c :: r). rewrite no_hex by done. cbn [andb].
  rewrite read_fixed_int, read_exp_none by done.
  rewrite (proj2 (Z.eqb_neq _ 0)) by (cbn [length]; lia). cbn. by rewrite Z.mul_1_r.
Qed.

Lemma strtod_frac l f c r : all_digits l -> l <> [] -> all_digits f -> is_digit c = false -> read_exp 101 (c :: r) = 0 ->
  strtod (l ++ 46 :: f ++ c :: r) = Some (ratio false (digits (l ++ f) 0) (10 ^ Z.of_nat (length f))).
Proof.
  intros Hl Hne Hf Hc He. destruct l as [|d l]; [done|]. pose proof Hl as Hl'.
  apply Forall_cons in Hl' as [Hd _]. change ((d :: l) ++ ?x) with (d :: (l ++ x)) at 1.
  rewrite strtod_digit by done. unfold read_number. destruct (starts_digit d (l ++ 46 :: f ++ c :: r) Hd) as [-> ->].
  destruct (read_fixed hex_digit 16 _) as [[[hm hk] hn] hl].
  change (d :: (l ++ ?x)) with ((d :: l) ++ x). rewrite no_hex by done. cbn [andb].
  rewrite read_fixed_frac, He by done.
  rewrite (proj2 (Z.eqb_neq _ 0)) by (cbn [length]; lia).
  rewrite Z.sub_0_l, Z.opp_involutive, (Z.max_r (- _)), (Z.max_l (Z.of_nat _)) by lia. by rewrite Z.mul_1_r.
Qed.

Lemma atof_frac l f c r : all_digits l -> l <> [] -> all_digits f -> is_digit c = false -> read_exp 101 (c :: r) = 0 ->
  atof (l ++ 46 :: f ++ c :: r) = ratio false (digits (l ++ f) 0) (10 ^ Z.of_nat (length f)).
Proof. intros. unfold atof. by rewrite strtod_frac. Qed.

(** ** Positions

    Receivers report degrees and minutes as one decimal number with a fraction;
    the programs store the double nearest to it, divided by 100. *)

Definition hundred : double := double_of 100.

Definition degrees (i f : list Z) : double :=
  ddiv (ratio false (digits (i ++ f) 0) (10 ^ Z.of_nat (length f))) hundred.

#[global] Arguments ratio : simpl never.
#[global] Arguments ddiv : simpl never.
#[global] Arguments double_of : simpl never.
#[global] Arguments to_int : simpl never.
#[global] Arguments strtod : simpl never.
#[global] Arguments atof : simpl never.
