(* ===== verification/Gps.v ===== *)
(** * GPS receiver (src/board_test/gps.c, include/lib_gps.h)

    Configuration messages in the UBX format with their checksum, the check of
    NMEA sentences, the line splitter, the parsers of the time and position
    sentences and the calendar functions.  The port is opened in [Board]; the
    printing functions are not modelled.

    Buffers are C strings as in [CStr]: a read outside one is the result
    [None]. *)

From S2P Require Import Prelude CStr CFloat.

Definition GPS_EOK : Z := 0.
Definition GPS_ERROR : Z := -1.

(** ** Checksums *)

(** [for(i=0; i<size; i++)] on the two bytes of [retbuf]. *)
Definition gps_ubx_crc (crcbuf : list Z) : list Z :=
  let '(a, b) := fold_left (fun '(a, b) c => let a := u8 (a + c) in (a, u8 (b + a))) crcbuf (0, 0) in
  [a; b].

Definition gps_nmea_crc (crcbuf : list Z) (size : Z) : option Z :=
  n ← strlen crcbuf;
  if Z.of_nat (length crcbuf) <? size then None
  else
    let ck := fold_left Z.lxor (take (Z.to_nat size) crcbuf) 0 in
    let a := ck / 16 + 48 in
    let b := ck mod 16 + 48 in
    let b := if (57 <? b) && (b <? 65) then b + 7 else b in
    x ← bget crcbuf (n - 2);
    y ← bget crcbuf (n - 1);
    if negb (x =? a) || negb (y =? b) then Some GPS_ERROR else Some GPS_EOK.

(** ** Configuration messages: the bytes handed to [lib_serial_send] *)

(** A message whose checksum is computed from byte 2 on. *)
Definition with_crc (b : list Z) : list Z := b ++ gps_ubx_crc (drop 2 b).

Definition gps_set_rate_msg : list Z :=
  take 12 (with_crc
     [0xb5; 0x62; 0x06; 0x08; 0x06; 0x00; 0xff; 0x0f; 0x01; 0x00; 0x00; 0x00]).
Definition gps_gga_off_msg : list Z :=
  [0xb5; 0x62; 0x06; 0x01; 0x08; 0x00; 0xf0; 0x00; 0x00; 0x00; 0x00; 0x00; 0x00; 0x01; 0x00; 0x24].
Definition gps_gga_on_msg : list Z :=
  [0xb5; 0x62; 0x06; 0x01; 0x08; 0x00; 0xf0; 0x00; 0x00; 0x01; 0x00; 0x00; 0x00; 0x01; 0x01; 0x29].
Definition gps_gll_off_msg : list Z :=
  [0xb5; 0x62; 0x06; 0x01; 0x08; 0x00; 0xf0; 0x01; 0x00; 0x00; 0x00; 0x00; 0x00; 0x01; 0x01; 0x2b].
Definition gps_gll_on_msg : list Z :=
  [0xb5; 0x62; 0x06; 0x01; 0x08; 0x00; 0xf0; 0x01; 0x00; 0x01; 0x00; 0x00; 0x00; 0x01; 0x02; 0x30].
Definition gps_gsa_off_msg : list Z :=
  [0xb5; 0x62; 0x06; 0x01; 0x08; 0x00; 0xf0; 0x02; 0x00; 0x00; 0x00; 0x00; 0x00; 0x01; 0x02; 0x32].
Definition gps_gsa_on_msg : list Z :=
  [0xb5; 0x62; 0x06; 0x01; 0x08; 0x00; 0xf0; 0x02; 0x00; 0x00; 0x00; 0x00; 0x00; 0x01; 0x02; 0x32].
Definition gps_gsv_off_msg : list Z :=
  [0xb5; 0x62; 0x06; 0x01; 0x08; 0x00; 0xf0; 0x03; 0x00; 0x00; 0x00; 0x00; 0x00; 0x01; 0x03; 0x39].
Definition gps_gsv_on_msg : list Z :=
  [0xb5; 0x62; 0x06; 0x01; 0x08; 0x00; 0xf0; 0x03; 0x00; 0x01; 0x00; 0x00; 0x00; 0x01; 0x04; 0x3e].
Definition gps_rmc_off_msg : list Z :=
  [0xb5; 0x62; 0x06; 0x01; 0x08; 0x00; 0xf0; 0x04; 0x00; 0x00; 0x00; 0x00; 0x00; 0x01; 0x04; 0x40].
Definition gps_rmc_on_msg : list Z :=
  [0xb5; 0x62; 0x06; 0x01; 0x08; 0x00; 0xf0; 0x04; 0x00; 0x01; 0x00; 0x00; 0x00; 0x01; 0x05; 0x45].
Definition gps_vtg_off_msg : list Z :=
  [0xb5; 0x62; 0x06; 0x01; 0x08; 0x00; 0xf0; 0x05; 0x00; 0x00; 0x00; 0x00; 0x00; 0x01; 0x05; 0x47].
Definition gps_vtg_on_msg : list Z :=
  [0xb5; 0x62; 0x06; 0x01; 0x08; 0x00; 0xf0; 0x05; 0x00; 0x01; 0x00; 0x00; 0x00; 0x01; 0x06; 0x4c].
Definition gps_zda_off_msg : list Z :=
  (with_crc
     [0xb5; 0x62; 0x06; 0x01; 0x08; 0x00; 0xf0; 0x08; 0x00; 0x00; 0x00; 0x00; 0x00; 0x01]).
Definition gps_zda_on_msg : list Z :=
  (with_crc
     [0xb5; 0x62; 0x06; 0x01; 0x08; 0x00; 0xf0; 0x08; 0x00; 0x01; 0x00; 0x00; 0x00; 0x01]).

Section Commands.
Context (lib_serial_send : list Z -> Z).

Definition serial_command (msg : list Z) : Z :=
  let ret := lib_serial_send msg in if ret <? 0 then ret else GPS_EOK.

Definition gps_set_rate : Z := serial_command gps_set_rate_msg.
Definition gps_gga_off : Z := serial_command gps_gga_off_msg.
Definition gps_gga_on : Z := serial_command gps_gga_on_msg.
Definition gps_gll_off : Z := serial_command gps_gll_off_msg.
Definition gps_gll_on : Z := serial_command gps_gll_on_msg.
Definition gps_gsa_off : Z := serial_command gps_gsa_off_msg.
Definition gps_gsa_on : Z := serial_command gps_gsa_on_msg.
Definition gps_gsv_off : Z := serial_command gps_gsv_off_msg.
Definition gps_gsv_on : Z := serial_command gps_gsv_on_msg.
Definition gps_rmc_off : Z := serial_command gps_rmc_off_msg.
Definition gps_rmc_on : Z := serial_command gps_rmc_on_msg.
Definition gps_vtg_off : Z := serial_command gps_vtg_off_msg.
Definition gps_vtg_on : Z := serial_command gps_vtg_on_msg.
Definition gps_zda_off : Z := serial_command gps_zda_off_msg.
Definition gps_zda_on : Z := serial_command gps_zda_on_msg.
End Commands.

(** ** Fields

    [memset(buf, 0, 32); memcpy(buf, p + k, 2); atoi(buf)] *)
Definition atoi2 (buf : list Z) (p k : nat) : option Z :=
  a ← buf !! (p + k)%nat;
  b ← buf !! (p + k + 1)%nat;
  atoi ([a; b] ++ replicate 30 0).

(** ** Splitting into lines *)

(** [times] lines are stored already; [line] is an array of [512]-byte rows, and
    [strcpy] writes a token with its terminator over the start of a row. *)
Fixpoint split_loop (fuel : nat) (buf : list Z) (pos : nat) (line : list (list Z)) (times : nat)
  : option (list (list Z) * nat) :=
  match fuel with
  | O => None
  | S fuel =>
      '(p, buf, pos) ← strtok buf pos [LF];
      match p with
      | None => Some (line, times)
      | Some p =>
          row ← line !! times;
          row ← strcpy row (drop p buf);
          split_loop fuel buf pos (<[times := row]> line) (S times)
      end
  end.

(** The loop makes at most one turn per byte of the buffer. *)
Definition gps_split_info (rxbuf : option (list Z)) (line : list (list Z)) (times : nat)
  : option (Z * list (list Z) * nat) :=
  match rxbuf with
  | None => Some (-1, line, times)
  | Some buf => '(line, times) ← split_loop (S (length buf)) buf 0 line times; Some (0, line, times)
  end.

(** ** Calendar *)

Definition leap (y : Z) : Z :=
  if negb (Z.rem y 4 =? 0) then 0
  else if negb (Z.rem y 100 =? 0) then 1
  else if negb (Z.rem y 400 =? 0) then 0
  else 1.

Definition monthday (m team : Z) : Z :=
  match m with
  | 1 => 31 | 3 => 31 | 5 => 31 | 7 => 31 | 8 => 31 | 10 => 31 | 12 => 31
  | 4 => 30 | 6 => 30 | 9 => 30 | 11 => 30
  | 2 => if team =? 1 then 29 else if team =? 0 then 28 else -1
  | _ => -1
  end.

(** [for(m=1; m<mon; m++) d += monthday(m, team);] *)
Definition get_yday (year mon day : Z) : Z :=
  let team := leap year in
  day + fold_left (fun d m => d + monthday m team) (seqZ 1 (mon - 1)) 0.

(** ** Time sentences *)

Record gps_zda := mk_zda {
  msec : Z; sec : Z; min : Z; hour : Z; day : Z; mon : Z; year : Z }.

Record gps_tm := mk_tm {
  tm_sec : Z; tm_min : Z; tm_hour : Z; tm_mday : Z; tm_mon : Z; tm_year : Z;
  tm_wday : Z; tm_yday : Z }.

(** Conversion to [short]. *)
Definition s16 (x : Z) : Z := (x + 32768) mod 65536 - 32768.

Definition tm_wday_of (y m d : Z) : Z :=
  Z.rem (d + 2 * m + Z.quot (3 * (m + 1)) 5 + y + Z.quot y 4 - Z.quot y 100 + Z.quot y 400) 7 + 1.

(** The sentence check: [gps_nmea_crc(&rxbuf[1], strlen(rxbuf) - 4)]. *)
Definition sentence_check (rxbuf : list Z) : option Z :=
  n ← strlen rxbuf;
  gps_nmea_crc (drop 1 rxbuf) (n - 4).

(** Value returned, structure and buffer left behind.  The structure keeps what
    was stored before an error. *)
Definition gps_get_zda (rxbuf : option (list Z)) (z : gps_zda) : option (Z * gps_zda) :=
  match rxbuf with
  | None => Some (GPS_ERROR, z)
  | Some buf =>
      ret ← sentence_check buf;
      if ret <? 0 then Some (GPS_ERROR, z)
      else
        '(p, buf, pos) ← strtok buf 0 [comma];
        match p with None => Some (GPS_ERROR, z) | Some _ =>
        '(p, buf, pos) ← strtok buf pos [comma];
        match p with None => Some (GPS_ERROR, z) | Some p =>
        h ← atoi2 buf p 0; m ← atoi2 buf p 2; s ← atoi2 buf p 4; ms ← atoi2 buf p 7;
        let z := mk_zda ms s m h (day z) (mon z) (year z) in
        '(p, buf, pos) ← strtok buf pos [comma];
        match p with None => Some (GPS_ERROR, z) | Some p =>
        v ← atoi (drop p buf);
        let z := mk_zda (msec z) (sec z) (min z) (hour z) (s16 v) (mon z) (year z) in
        '(p, buf, pos) ← strtok buf pos [comma];
        match p with None => Some (GPS_ERROR, z) | Some p =>
        v ← atoi (drop p buf);
        let z := mk_zda (msec z) (sec z) (min z) (hour z) (day z) (s16 v) (year z) in
        '(p, buf, pos) ← strtok buf pos [comma];
        match p with None => Some (GPS_ERROR, z) | Some p =>
        v ← atoi (drop p buf);
        let z := mk_zda (msec z) (sec z) (min z) (hour z) (day z) (mon z) (s16 v) in
        '(_, _, _) ← strtok buf pos [comma];
        Some (GPS_EOK, z)
        end end end end end
  end.

(** [latitude] and [longitude] are doubles. *)
Record gps_gga := mk_gga {
  latitude : double; ns_indicator : Z; longitude : double; ew_indicator : Z }.

(** [sscanf(p, "%lf", &db2)]: without a number [db2] keeps its value, at first
    whatever the stack holds. *)
Definition sscanf_lf (s : list Z) (db2 : double) : double := default db2 (strtod s).

(** [strncpy(&c, p, 1)] stores the first byte of the token. *)
Definition gps_get_gga (db2 : double) (rxbuf : option (list Z)) (g : gps_gga) : option (Z * gps_gga) :=
  match rxbuf with
  | None => Some (-1, g)
  | Some buf =>
      ret ← sentence_check buf;
      if ret <? 0 then Some (GPS_ERROR, g)
      else
        '(p, buf, pos) ← strtok buf 0 [comma];
        match p with None => Some (GPS_ERROR, g) | Some _ =>
        '(p, buf, pos) ← strtok buf pos [comma];
        match p with None => Some (GPS_ERROR, g) | Some _ =>
        '(p, buf, pos) ← strtok buf pos [comma];
        match p with None => Some (GPS_ERROR, g) | Some p =>
        let db2 := sscanf_lf (drop p buf) db2 in
        let g := mk_gga (ddiv db2 hundred) (ns_indicator g) (longitude g) (ew_indicator g) in
        '(p, buf, pos) ← strtok buf pos [comma];
        match p with None => Some (GPS_ERROR, g) | Some p =>
        c ← buf !! p;
        let g := mk_gga (latitude g) c (longitude g) (ew_indicator g) in
        '(p, buf, pos) ← strtok buf pos [comma];
        match p with None => Some (GPS_ERROR, g) | Some p =>
        let db2 := sscanf_lf (drop p buf) db2 in
        let g := mk_gga (latitude g) (ns_indicator g) (ddiv db2 hundred) (ew_indicator g) in
        '(p, buf, pos) ← strtok buf pos [comma];
        match p with None => Some (GPS_ERROR, g) | Some p =>
        c ← buf !! p;
        let g := mk_gga (latitude g) (ns_indicator g) (longitude g) c in
        '(_, _, _) ← strtok buf pos [comma];
        Some (GPS_EOK, g)
        end end end end end end
  end.

Definition gps_get_tm (rxbuf : option (list Z)) (t : gps_tm) : option (Z * gps_tm) :=
  match rxbuf with
  | None => Some (GPS_ERROR, t)
  | Some buf =>
      ret ← sentence_check buf;
      if ret <? 0 then Some (GPS_ERROR, t)
      else
        '(p, buf, pos) ← strtok buf 0 [comma];
        match p with None => Some (GPS_ERROR, t) | Some _ =>
        '(p, buf, pos) ← strtok buf pos [comma];
        match p with None => Some (GPS_ERROR, t) | Some p =>
        h ← atoi2 buf p 0; m ← atoi2 buf p 2; s ← atoi2 buf p 4;
        let t := mk_tm s m (h + 8) (tm_mday t) (tm_mon t) (tm_year t) (tm_wday t) (tm_yday t) in
        '(p, buf, pos) ← strtok buf pos [comma];
        match p with None => Some (GPS_ERROR, t) | Some p =>
        v ← atoi (drop p buf);
        let t := mk_tm (tm_sec t) (tm_min t) (tm_hour t) v (tm_mon t) (tm_year t)
                   (tm_wday t) (tm_yday t) in
        '(p, buf, pos) ← strtok buf pos [comma];
        match p with None => Some (GPS_ERROR, t) | Some p =>
        v ← atoi (drop p buf);
        let t := mk_tm (tm_sec t) (tm_min t) (tm_hour t) (tm_mday t) v (tm_year t)
                   (tm_wday t) (tm_yday t) in
        '(p, buf, pos) ← strtok buf pos [comma];
        match p with None => Some (GPS_ERROR, t) | Some p =>
        y ← atoi (drop p buf);
        '(_, _, _) ← strtok buf pos [comma];
        Some (0, mk_tm (tm_sec t) (tm_min t) (tm_hour t) (tm_mday t) (tm_mon t) y
                   (tm_wday_of y (tm_mon t) (tm_mday t)) (get_yday y (tm_mon t) (tm_mday t)))
        end end end end end
  end.

(** ** The calendar

    [civil_days] numbers the days of the Gregorian calendar, 1 for 1 January of
    year 1, a Monday. *)

Definition is_leap (y : Z) : bool :=
  (y mod 4 =? 0) && (negb (y mod 100 =? 0) || (y mod 400 =? 0)).

Definition days_before (m : Z) : Z :=
  aget [0; 31; 59; 90; 120; 151; 181; 212; 243; 273; 304; 334] (m - 1).

Definition month_length (y m : Z) : Z :=
  if (m =? 2) && is_leap y then 29 else aget [31; 28; 31; 30; 31; 30; 31; 31; 30; 31; 30; 31] (m - 1).

Definition civil_days (y m d : Z) : Z :=
  365 * (y - 1) + (y - 1) / 4 - (y - 1) / 100 + (y - 1) / 400 +
  days_before m + (if (2 <? m) && is_leap y then 1 else 0) + d.

(** Monday is 1, Sunday 7. *)
Definition weekday (y m d : Z) : Z := (civil_days y m d - 1) mod 7 + 1.

Definition valid_date (y m d : Z) : Prop := 1 <= y /\ 1 <= m <= 12 /\ 1 <= d <= month_length y m.

Definition next_day (y m d : Z) : Z * Z * Z :=
  if d <? month_length y m then (y, m, d + 1)
  else if m <? 12 then (y, m + 1, 1) else (y + 1, 1, 1).

Lemma month_cases m (P : Z -> Prop) : 1 <= m <= 12 ->
  P 1 -> P 2 -> P 3 -> P 4 -> P 5 -> P 6 -> P 7 -> P 8 -> P 9 -> P 10 -> P 11 -> P 12 -> P m.
Proof.
  intros Hm. intros.
  assert (m = 1 \/ m = 2 \/ m = 3 \/ m = 4 \/ m = 5 \/ m = 6 \/ m = 7 \/ m = 8 \/ m = 9 \/
          m = 10 \/ m = 11 \/ m = 12) as Hc by lia.
  by repeat destruct Hc as [->|Hc]; subst.
Qed.

(** Evaluate the table look-ups of a given month. *)
Ltac eval_month :=
  repeat match goal with
  | |- context [days_before ?m] => let v := eval vm_compute in (days_before m) in
      change (days_before m) with v
  | |- context [aget ?l ?i] => let v := eval vm_compute in (aget l i) in change (aget l i) with v
  | |- context [?a <? ?b] => let v := eval vm_compute in (a <? b) in
      lazymatch v with true => idtac | false => idtac end; change (a <? b) with v
  | |- context [?a =? ?b] => let v := eval vm_compute in (a =? b) in
      lazymatch v with true => idtac | false => idtac end; change (a =? b) with v
  end; cbn [andb].

(** Leap days up to a year. *)
Lemma leap_count y : 1 <= y ->
  y / 4 - y / 100 + y / 400 =
  (y - 1) / 4 - (y - 1) / 100 + (y - 1) / 400 + (if is_leap y then 1 else 0).
Proof.
  intros Hy. unfold is_leap.
  destruct (Z.eqb_spec (y mod 4) 0), (Z.eqb_spec (y mod 100) 0), (Z.eqb_spec (y mod 400) 0);
    cbn [negb andb orb]; zdm.
Qed.

(** The numbering is the calendar's: the next day has the next number. *)
Lemma civil_days_next y m d : valid_date y m d ->
  let '(y', m', d') := next_day y m d in civil_days y' m' d' = civil_days y m d + 1.
Proof.
  intros (Hy & Hm & Hd). unfold next_day. destruct (Z.ltb_spec d (month_length y m)).
  { unfold civil_days. lia. }
  assert (d = month_length y m) as -> by lia. destruct (Z.ltb_spec m 12) as [Hlt|Hge].
  - unfold civil_days, month_length. revert Hlt. pattern m. apply month_cases; [done|..]; intros Hlt;
      try (exfalso; lia); eval_month; destruct (is_leap y); lia.
  - assert (m = 12) as -> by lia. unfold civil_days. pose proof (leap_count y Hy) as HL.
    replace (y + 1 - 1) with y by lia. change ((2 <? 1) && is_leap (y + 1)) with false.
    change (2 <? 12) with true. change (days_before 12) with 334. change (days_before 1) with 0.
    change (month_length y 12) with 31. cbn [andb]. lia.
Qed.

Lemma leap_is_leap y : 0 <= y -> leap y = if is_leap y then 1 else 0.
Proof.
  intros Hy. unfold leap, is_leap. rewrite !Z.rem_mod_nonneg by lia.
  destruct (Z.eqb_spec (y mod 4) 0), (Z.eqb_spec (y mod 100) 0), (Z.eqb_spec (y mod 400) 0);
    cbn [negb andb orb]; done.
Qed.

(** The number of a day in its year. *)
Lemma calendar_day (y m d : Z) : valid_date y m d ->
  get_yday y m d = civil_days y m d - civil_days y 1 1 + 1.
Proof.
  intros (Hy & Hm & Hd). unfold get_yday, civil_days. rewrite leap_is_leap by lia. clear Hd. revert d.
  pattern m. apply month_cases; [done|..]; intros d; eval_month; destruct (is_leap y);
    match goal with |- context [fold_left ?f ?l ?a] =>
      let v := eval vm_compute in (fold_left f l a) in change (fold_left f l a) with v end; lia.
Qed.

(** The calendar functions are right as far as they go: for every date of the
    Gregorian calendar [get_yday] is the number of the day in its year, and the
    weekday formula of [gps_get_tm] gives the true weekday exactly from March
    on; in January and February, which the formula would have to count to the
    year before, it is never right. *)
Theorem gps_calendar (y m d : Z) : valid_date y m d ->
  get_yday y m d = civil_days y m d - civil_days y 1 1 + 1 /\
  (tm_wday_of y m d = weekday y m d <-> 3 <= m).
Proof.
  intros Hv. split; [by apply calendar_day|]. destruct Hv as (Hy & Hm & Hd).
  unfold tm_wday_of, weekday, civil_days. pose proof (leap_count y Hy) as HL.
  rewrite !(Z.quot_div_nonneg y) by lia.
  assert (0 <= y / 4 - y / 100 + y / 400) by zdm.
  rewrite Z.quot_div_nonneg, Z.rem_mod_nonneg by (try lia; zdm).
  clear Hd H. revert HL. generalize (y / 4) (y / 100) (y / 400)
    ((y - 1) / 4) ((y - 1) / 100) ((y - 1) / 400). intros a b c a' b' c' HL.
  pattern m. apply month_cases; [done|..]; eval_month; destruct (is_leap y); zdm.
Qed.

Lemma gps_calendar_witness :
  valid_date 2016 12 22 /\
  get_yday 2016 12 22 = civil_days 2016 12 22 - civil_days 2016 1 1 + 1 /\
  (tm_wday_of 2016 12 22 = weekday 2016 12 22 <-> 3 <= 12).
Proof.
  assert (valid_date 2016 12 22) as H by (repeat split; vm_compute; discriminate).
  split; [exact H|]. exact (gps_calendar 2016 12 22 H).
Defined.

(** 22 December 2016 was a Thursday. *)
Example weekday_sample : weekday 2016 12 22 = 4.
Proof. vm_compute. reflexivity. Qed.

(** ** UBX frames

    A frame is the two sync characters, class, identifier, the length of the
    payload (low byte first), the payload, and the Fletcher checksum of all
    after the sync characters: the sum of the bytes, and the sum of the running
    sums. *)

Fixpoint sum_bytes (l : list Z) : Z := match l with [] => 0 | c :: l => c + sum_bytes l end.
Fixpoint sum_weighted (l : list Z) : Z :=
  match l with [] => 0 | c :: l => c * Z.of_nat (S (length l)) + sum_weighted l end.

Definition fletcher (l : list Z) : list Z := [sum_bytes l mod 256; sum_weighted l mod 256].

Definition ubx_frame (cls id : Z) (payload : list Z) : list Z :=
  let n := Z.of_nat (length payload) in
  let c := [cls; id; n mod 256; n / 256] ++ payload in [0xb5; 0x62] ++ c ++ fletcher c.

(** CFG-MSG: send the NMEA message [id] at rate [r] on the port (UART 1). *)
Definition cfg_msg (id r : Z) : list Z := ubx_frame 0x06 0x01 [0xf0; id; 0; r; 0; 0; 0; 1].

Lemma ubx_crc_fold l : forall a b, 0 <= a < 256 -> 0 <= b < 256 ->
  fold_left (fun '(a, b) c => let a := u8 (a + c) in (a, u8 (b + a))) l (a, b) =
  ((a + sum_bytes l) mod 256,
   (b + Z.of_nat (length l) * a + sum_weighted l) mod 256).
Proof.
  induction l as [|c l IH]; intros a b Ha Hb.
  - cbn. rewrite !Z.add_0_r, !Z.mod_small by lia. done.
  - cbn [fold_left sum_bytes sum_weighted length]. unfold u8, uwrap. change (2 ^ 8) with 256.
    rewrite IH by (apply Z.mod_pos_bound; lia). f_equal.
    + rewrite Zplus_mod_idemp_l. f_equal. lia.
    + rewrite Nat2Z.inj_succ. set (n := Z.of_nat (length l)).
      rewrite <- !Z.add_assoc, Zplus_mod_idemp_l, !Z.add_assoc.
      rewrite (Z.mod_eq (a + c) 256) by lia. set (k := (a + c) / 256).
      replace (b + _ + _ + _) with
        (b + Z.succ n * a + c * Z.succ n + sum_weighted l + (- (k * (n + 1))) * 256) by lia.
      apply Z_mod_plus_full.
Qed.

Lemma ubx_crc_fletcher l : gps_ubx_crc l = fletcher l.
Proof.
  unfold gps_ubx_crc, fletcher. rewrite ubx_crc_fold by lia. by rewrite Z.mul_0_r, !Z.add_0_l.
Qed.

(** The configuration messages are well formed: [gps_ubx_crc] is the Fletcher
    checksum of its input, and each of the fourteen on and off messages, whether
    its checksum is computed or written out in the source, is the UBX frame that
    sets the rate of its NMEA sentence; [gps_gsa_on], however, sends the message
    that switches the sentence off. *)
Theorem gps_messages_framed :
  (forall l, gps_ubx_crc l = fletcher l) /\
  [gps_gga_off_msg; gps_gll_off_msg; gps_gsa_off_msg; gps_gsv_off_msg; gps_rmc_off_msg;
   gps_vtg_off_msg; gps_zda_off_msg] = map (fun id => cfg_msg id 0) [0; 1; 2; 3; 4; 5; 8] /\
  [gps_gga_on_msg; gps_gll_on_msg; gps_gsv_on_msg; gps_rmc_on_msg; gps_vtg_on_msg; gps_zda_on_msg]
    = map (fun id => cfg_msg id 1) [0; 1; 3; 4; 5; 8] /\
  gps_gsa_on_msg = gps_gsa_off_msg.
Proof. split; [apply ubx_crc_fletcher|]. vm_compute. repeat split. Qed.

(** [gps_set_rate] sends its frame without the checksum. *)
Lemma set_rate_unframed : gps_set_rate_msg = take 12 (ubx_frame 0x06 0x08 [0xff; 0x0f; 1; 0; 0; 0]).
Proof. vm_compute. reflexivity. Qed.

(** ** NMEA sentences *)

Definition nmea_hex (n : Z) : Z := if n <? 10 then n + 48 else n + 55.
Definition nmea_sum (body : list Z) : Z := fold_left Z.lxor body 0.
Definition nmea_check (body : list Z) : list Z :=
  [nmea_hex (nmea_sum body / 16); nmea_hex (nmea_sum body mod 16)].

(** Printable text: a terminator never occurs in it. *)
Definition ascii_text (l : list Z) : Prop := Forall (fun c => 0 < c < 128) l.

Lemma nmea_sum_ascii body : ascii_text body -> 0 <= nmea_sum body < 128.
Proof.
  intros Hb. assert (forall l a, ascii_text l -> is_u 7 a -> is_u 7 (fold_left Z.lxor l a)) as H.
  { induction l as [|c l IH]; intros a Hl Ha; [done|]. apply Forall_cons in Hl as [Hc Hl].
    apply IH; [done|]. apply is_u_lxor; [lia|done|]. unfold is_u. change (2 ^ 7) with 128. lia. }
  by apply (H body 0).
Qed.

Lemma ascii_nonzero l : ascii_text l -> nonzero l.
Proof. intros Hl. eapply Forall_impl; [exact Hl|]. cbn. lia. Qed.

(** The check accepts a text exactly with the two digits of its checksum. *)
Lemma nmea_crc_iff body x y r : ascii_text body -> x <> 0 -> y <> 0 ->
  gps_nmea_crc (body ++ [42; x; y] ++ 0 :: r) (Z.of_nat (length body)) =
  Some (if bool_decide ([x; y] = nmea_check body) then GPS_EOK else GPS_ERROR).
Proof.
  intros Hb Hx Hy. unfold gps_nmea_crc.
  rewrite app_assoc, strlen_text by
    (apply Forall_app; split; [by apply ascii_nonzero|by repeat constructor]).
  cbn [mbind option_bind]. rewrite <- app_assoc.
  rewrite (proj2 (Z.ltb_ge _ _)) by (rewrite length_app; lia). rewrite Nat2Z.id, take_app_length.
  fold (nmea_sum body). pose proof (nmea_sum_ascii body Hb) as Hs.
  rewrite length_app. cbn [length].
  replace (Z.of_nat (length body + 3) - 2) with (Z.of_nat (length body) + 1) by lia.
  replace (Z.of_nat (length body + 3) - 1) with (Z.of_nat (length body) + 2) by lia.
  rewrite !bget_app_r by lia. change (Z.to_nat 1) with 1%nat. change (Z.to_nat 2) with 2%nat.
  cbn [lookup list_lookup app mbind option_bind].
  assert (nmea_hex (nmea_sum body / 16) = nmea_sum body / 16 + 48) as E1.
  { unfold nmea_hex. rewrite (proj2 (Z.ltb_lt _ 10)) by zdm. done. }
  set (b := if _ && _ then _ else _).
  assert (nmea_hex (nmea_sum body mod 16) = b) as E2.
  { unfold nmea_hex, b. destruct (Z.ltb_spec (nmea_sum body mod 16) 10).
    - by rewrite (proj2 (Z.ltb_ge 57 _)) by lia.
    - rewrite (proj2 (Z.ltb_lt 57 _)), (proj2 (Z.ltb_lt _ 65)) by zdm. cbn [andb]. lia. }
  unfold nmea_check. rewrite E1, E2.
  destruct (Z.eqb_spec x (nmea_sum body / 16 + 48)) as [->|Hne]; cbn [negb orb].
  - destruct (Z.eqb_spec y b) as [->|Hne]; cbn [negb].
    + by rewrite bool_decide_eq_true_2.
    + rewrite bool_decide_eq_false_2 by (by intros [= ?]). done.
  - rewrite bool_decide_eq_false_2 by (by intros [= ?]). done.
Qed.

(** *** Decimal fields *)

Definition d2 (n : Z) : list Z := [n / 10 + 48; n mod 10 + 48].
Definition d4 (n : Z) : list Z := d2 (n / 100) ++ d2 (n mod 100).

Lemma d2_digits n : 0 <= n < 100 -> all_digits (d2 n).
Proof. intros. unfold d2. repeat constructor; zdm. Qed.

Lemma d4_digits n : 0 <= n < 10000 -> all_digits (d4 n).
Proof. intros. unfold d4. apply Forall_app. split; apply d2_digits; zdm. Qed.

Lemma digits_d2 n acc : 0 <= n < 100 -> digits (d2 n) acc = 100 * acc + n.
Proof.
  intros. unfold d2. cbn [digits].
  rewrite !is_digit_true by zdm. zdm.
Qed.

Lemma digits_d4 n : 0 <= n < 10000 -> digits (d4 n) 0 = n.
Proof. intros. unfold d4. rewrite digits_app, !digits_d2 by (try apply d2_digits; zdm). zdm. Qed.

Lemma atoi_d2 n c r : 0 <= n < 100 -> is_digit c = false -> atoi (d2 n ++ c :: r) = Some n.
Proof.
  intros. assert (digits (d2 n) 0 = n) as E by (rewrite digits_d2 by done; lia).
  rewrite atoi_field; rewrite ?E; try done; [by apply d2_digits|apply is_int_small; lia].
Qed.

Lemma atoi_d4 n c r : 0 <= n < 10000 -> is_digit c = false -> atoi (d4 n ++ c :: r) = Some n.
Proof.
  intros. assert (digits (d4 n) 0 = n) as E by (by apply digits_d4).
  rewrite atoi_field; rewrite ?E; try done; [by apply d4_digits|apply is_int_small; lia].
Qed.

Lemma atoi2_d2 pre a n b suf p k : 0 <= n < 100 -> p = length pre -> k = length a ->
  atoi2 ((pre ++ (a ++ d2 n ++ b) ++ [0]) ++ suf) p k = Some n.
Proof.
  intros Hn -> ->. unfold atoi2. rewrite <- !app_assoc, (app_assoc pre), <- !length_app.
  unfold d2. cbn [app]. rewrite (list_lookup_middle _ _ _ (length (pre ++ a))) by done. cbn [mbind option_bind].
  rewrite lookup_app_r by lia. replace (_ + 1 - _)%nat with 1%nat by lia.
  cbn [lookup list_lookup mbind option_bind].
  change (atoi (d2 n ++ 0 :: replicate 29 0) = Some n). by apply atoi_d2.
Qed.

(** *** Time sentences *)

Definition time_field (z : gps_zda) : list Z := d2 (hour z) ++ d2 (min z) ++ d2 (sec z) ++ 46 :: d2 (msec z).

(** The text between the dollar and the star: the name of the sentence, the time,
    day, month and year, and what follows (the local zone). *)
Definition zda_body (name : list Z) (z : gps_zda) (zone : list Z) : list Z :=
  name ++ comma :: time_field z ++ comma :: d2 (day z) ++ comma :: d2 (mon z) ++
  comma :: d4 (year z) ++ comma :: zone.

Definition zda_fields (z : gps_zda) : Prop :=
  0 <= hour z < 24 /\ 0 <= min z < 60 /\ 0 <= sec z <= 60 /\ 0 <= msec z < 100 /\
  1 <= day z <= 31 /\ 1 <= mon z <= 12 /\ 0 <= year z < 10000.

Definition nmea_sentence (body : list Z) (x y : Z) (rest : list Z) : list Z :=
  36 :: body ++ [42; x; y] ++ 0 :: rest.

(** What [gps_get_tm] makes of the same fields. *)
Definition tm_of (z : gps_zda) : gps_tm :=
  mk_tm (sec z) (min z) (hour z + 8) (day z) (mon z) (year z)
    (tm_wday_of (year z) (mon z) (day z)) (get_yday (year z) (mon z) (day z)).

Lemma not_comma c : c <> comma -> delim [comma] c = false.
Proof. intros H. unfold delim. cbn. by rewrite (proj2 (Z.eqb_neq c comma)). Qed.

Lemma digits_token l : all_digits l -> token [comma] l.
Proof.
  intros H. eapply Forall_impl; [exact H|]. cbn beta. intros c Hc.
  split; [lia|]. apply not_comma. unfold comma. lia.
Qed.

Lemma digits_ascii l : all_digits l -> ascii_text l.
Proof. intros H. eapply Forall_impl; [exact H|]. cbn. lia. Qed.

Lemma time_field_chars z : zda_fields z -> Forall (fun c => 46 <= c <= 57) (time_field z).
Proof.
  intros (? & ? & ? & ? & ?). assert (forall n, 0 <= n < 100 -> Forall (fun c => 46 <= c <= 57) (d2 n)).
  { intros n Hn. eapply Forall_impl; [by apply d2_digits|]. cbn. lia. }
  unfold time_field. repeat (apply Forall_app; split); eauto with lia.
Qed.

Lemma time_field_token z : zda_fields z -> token [comma] (time_field z).
Proof.
  intros H. eapply Forall_impl; [by apply time_field_chars|]. cbn beta. intros c Hc.
  split; [lia|]. apply not_comma. unfold comma. lia.
Qed.

Lemma zda_body_ascii name z zone :
  ascii_text name -> zda_fields z -> ascii_text zone -> ascii_text (zda_body name z zone).
Proof.
  intros Hn Hz Hzone. pose proof Hz as (? & ? & ? & ? & ? & ? & ?). unfold zda_body, ascii_text.
  repeat (apply Forall_app; split; [|apply Forall_cons; split; [unfold comma; lia|]]); try done.
  - eapply Forall_impl; [by apply time_field_chars|]. cbn. lia.
  - apply digits_ascii, d2_digits. lia.
  - apply digits_ascii, d2_digits. lia.
  - by apply digits_ascii, d4_digits.
Qed.

Lemma sentence_check_iff body x y rest : ascii_text body -> x <> 0 -> y <> 0 ->
  sentence_check (nmea_sentence body x y rest) =
  Some (if bool_decide ([x; y] = nmea_check body) then GPS_EOK else GPS_ERROR).
Proof.
  intros Hb Hx Hy. unfold sentence_check, nmea_sentence.
  change (36 :: body ++ [42; x; y] ++ 0 :: rest) with ((36 :: body) ++ [42; x; y] ++ 0 :: rest).
  rewrite app_assoc, strlen_text.
  - cbn [mbind option_bind]. rewrite <- app_assoc, length_app. cbn [length app drop skipn].
    replace (Z.of_nat _ - 4) with (Z.of_nat (length body)) by lia. by apply nmea_crc_iff.
  - apply Forall_app. split; [constructor; [lia|by apply ascii_nonzero]|by repeat constructor].
Qed.

(** The buffer of a sentence as the tokens that the parsers take from it. *)
Lemma sentence_tokens name z zone x y rest :
  nmea_sentence (zda_body name z zone) x y rest =
  [] ++ (36 :: name) ++ comma :: time_field z ++ comma :: d2 (day z) ++ comma :: d2 (mon z) ++
  comma :: d4 (year z) ++ comma :: (zone ++ [42; x; y] ++ 0 :: rest).
Proof. unfold nmea_sentence, zda_body. by repeat rewrite <- ?app_assoc, <- ?app_comm_cons. Qed.

Lemma time_values pre suf z : zda_fields z ->
  let b := (pre ++ time_field z ++ [0]) ++ suf in
  atoi2 b (length pre) 0 = Some (hour z) /\ atoi2 b (length pre) 2 = Some (min z) /\
  atoi2 b (length pre) 4 = Some (sec z) /\ atoi2 b (length pre) 7 = Some (msec z).
Proof.
  intros (? & ? & ? & ? & _) b. subst b. unfold time_field. split_and!.
  - by apply (atoi2_d2 pre [] (hour z)); [lia|..].
  - by apply (atoi2_d2 pre (d2 (hour z)) (min z)); [lia|..].
  - apply (atoi2_d2 pre (d2 (hour z) ++ d2 (min z)) (sec z)); [lia|done|done].
  - replace (d2 (hour z) ++ _) with ((d2 (hour z) ++ d2 (min z) ++ d2 (sec z) ++ [46]) ++ d2 (msec z) ++ [])
      by (by rewrite <- !app_assoc, app_nil_r). apply atoi2_d2; [lia|done|done].
Qed.

Lemma s16_small x : 0 <= x < 32768 -> s16 x = x.
Proof. intros. unfold s16. zdm. Qed.

(** Step the parsers: one token, or one decimal field of the token just taken. *)
Ltac next_token := rewrite strtok_next by
  first [ assumption | done | by apply digits_token, d2_digits; lia
        | by apply digits_token, d4_digits; lia | by apply time_field_token ];
  cbn [mbind option_bind].

(** C26: Time sentences are read back: a sentence that carries the fields of [z]
    in the format of NMEA ZDA (name, time, day, month, year, any further fields)
    with the two digits of its checksum makes [gps_get_zda] store exactly these
    fields, and [gps_get_tm] the same fields with the weekday and day of the year
    of the functions [tm_wday_of] and [get_yday] (see [gps_calendar]).  In the
    latter the hour is moved by the eight hours of the time zone and not carried
    into the date, the month counts from 1 and the year is the full year, which
    is not what the comments of struct gps_tm in lib_gps.h say.  With any other
    two bytes in place of the checksum both report an error and leave the
    structure alone.  The calls always return. *)
Theorem gps_zda_roundtrip (name zone rest : list Z) (z z0 : gps_zda) (t0 : gps_tm) (x y : Z) :
  ascii_text name -> comma ∉ name -> ascii_text zone -> zda_fields z -> x <> 0 -> y <> 0 ->
  let s := nmea_sentence (zda_body name z zone) x y rest in
  let good := bool_decide ([x; y] = nmea_check (zda_body name z zone)) in
  gps_get_zda (Some s) z0 = Some (if good then (GPS_EOK, z) else (GPS_ERROR, z0)) /\
  gps_get_tm (Some s) t0 = Some (if good then (GPS_EOK, tm_of z) else (GPS_ERROR, t0)).
Proof.
  intros Hname Hcomma Hzone Hz Hx Hy s good.
  pose proof Hz as (? & ? & ? & ? & ? & ? & ?).
  assert (sentence_check s = Some (if good then GPS_EOK else GPS_ERROR)) as Hcheck
    by (apply sentence_check_iff; [by apply zda_body_ascii|done|done]).
  unfold gps_get_zda, gps_get_tm. rewrite Hcheck. cbn [mbind option_bind].
  destruct good; [|done]. change (GPS_EOK <? 0) with false. cbn iota.
  assert (token [comma] (36 :: name)) as Hn.
  { constructor; [by split|]. apply Forall_forall. intros c Hc.
    specialize (proj1 (Forall_forall _ _) Hname c Hc) as Hc'. cbn in Hc'. split; [lia|]. apply not_comma. by intros ->. }
  unfold s. rewrite sentence_tokens.
  set (s0 := _ ++ _). change (strtok s0 0 [comma]) with (strtok s0 (length (@nil Z)) [comma]). subst s0.
  assert (forall pre, exists r,
     strtok (pre ++ zone ++ [42; x; y] ++ 0 :: rest) (length pre) [comma] = Some r) as Hlast.
  { intros pre. edestruct (strtok_total (pre ++ zone ++ [42; x; y] ++ 0 :: rest) (length pre) [comma])
      as (p & b & q & E & _); [done| |by eexists].
    rewrite drop_app_length, !elem_of_app, elem_of_cons. by right; right; left. }
  split; do 5 (next_token; rewrite ?drop_token).
  all: destruct (time_values ([] ++ (36 :: name) ++ [0]) (d2 (day z) ++ comma :: d2 (mon z) ++
    comma :: d4 (year z) ++ comma :: zone ++ [42; x; y] ++ 0 :: rest) z Hz) as (Eh & Em & Es & Ems).
  all: rewrite Eh, Em, Es, ?Ems; cbn [mbind option_bind].
  all: do 3 (rewrite ?atoi_d2, ?atoi_d4 by (done || lia); cbn [mbind option_bind]).
  all: match goal with |- context [strtok _ (length ?p) _] => destruct (Hlast p) as [[[] ?] ->] end.
  - rewrite !s16_small by lia. by destruct z.
  - done.
Qed.

Definition sample_zda : gps_zda := mk_zda 20 36 25 3 22 12 2016.
Definition sample_name : list Z := [71; 80; 90; 68; 65].

Lemma gps_zda_roundtrip_witness :
  let s := nmea_sentence (zda_body sample_name sample_zda [48; 48; comma; 48; 48]) 54 51 [] in
  let z0 := mk_zda 0 0 0 0 0 0 0 in
  let t0 := mk_tm 0 0 0 0 0 0 0 0 in
  gps_get_zda (Some s) z0 = Some (GPS_EOK, sample_zda) /\
  gps_get_tm (Some s) t0 = Some (GPS_EOK, mk_tm 36 25 11 22 12 2016 4 357).
Proof.
  apply (gps_zda_roundtrip sample_name [48; 48; comma; 48; 48] [] sample_zda
    (mk_zda 0 0 0 0 0 0 0) (mk_tm 0 0 0 0 0 0 0 0) 54 51).
  - repeat constructor; lia.
  - unfold sample_name, comma. rewrite !not_elem_of_cons. repeat (split; [lia|]). apply not_elem_of_nil.
  - repeat constructor; lia.
  - unfold zda_fields. cbn. lia.
  - discriminate.
  - discriminate.
Defined.

(** *** Position sentences *)

(** A position: integer part and fraction of latitude and longitude, and their
    letters. *)
Record position := mk_position {
  lat_i : list Z; lat_f : list Z; ns : Z; lon_i : list Z; lon_f : list Z; ew : Z }.

Definition position_ok (p : position) : Prop :=
  all_digits (lat_i p) /\ lat_i p <> [] /\ all_digits (lat_f p) /\ 65 <= ns p <= 90 /\
  all_digits (lon_i p) /\ lon_i p <> [] /\ all_digits (lon_f p) /\ 65 <= ew p <= 90.

(** Name, time, latitude, its letter, longitude, its letter, and what follows. *)
Definition gga_body (name time : list Z) (p : position) (more : list Z) : list Z :=
  name ++ comma :: time ++ comma :: (lat_i p ++ 46 :: lat_f p) ++ comma :: [ns p] ++
  comma :: (lon_i p ++ 46 :: lon_f p) ++ comma :: [ew p] ++ comma :: more.

Lemma gga_tokens name time p more x y rest :
  nmea_sentence (gga_body name time p more) x y rest =
  [] ++ (36 :: name) ++ comma :: time ++ comma :: (lat_i p ++ 46 :: lat_f p) ++ comma :: [ns p] ++
  comma :: (lon_i p ++ 46 :: lon_f p) ++ comma :: [ew p] ++ comma :: (more ++ [42; x; y] ++ 0 :: rest).
Proof. unfold nmea_sentence, gga_body. by repeat rewrite <- ?app_assoc, <- ?app_comm_cons. Qed.

Lemma text_token l : ascii_text l -> comma ∉ l -> token [comma] l.
Proof.
  intros Hl Hc. apply Forall_forall. intros c Hin. specialize (proj1 (Forall_forall _ _) Hl c Hin) as H.
  cbn in H. split; [lia|]. apply not_comma. by intros ->.
Qed.

Lemma fraction_token i f : all_digits i -> all_digits f -> token [comma] (i ++ 46 :: f) /\ ascii_text (i ++ 46 :: f).
Proof.
  intros Hi Hf. split; (apply Forall_app; split; [|apply Forall_cons; split]);
    try (by apply digits_token); try (by apply digits_ascii); done.
Qed.

Lemma sscanf_fraction i f rest db2 : all_digits i -> i <> [] -> all_digits f ->
  ddiv (sscanf_lf ((i ++ 46 :: f) ++ 0 :: rest) db2) hundred = degrees i f.
Proof.
  intros Hi Hne Hf. unfold sscanf_lf. rewrite <- app_assoc. cbn [app]. by rewrite strtod_frac.
Qed.

Lemma lookup_token pre c suf : ((pre ++ [c] ++ [0]) ++ suf) !! length pre = Some c.
Proof. rewrite <- !app_assoc. by apply list_lookup_middle. Qed.

(** C28: Position sentences are read back: a sentence in the format of NMEA GGA
    with the two digits of its checksum makes [gps_get_gga] store the latitude and
    longitude of [p], each the double nearest to its decimal number divided by
    100, with their letters; with any other two bytes it reports an error and
    leaves the structure alone.  The call always returns. *)
Theorem gps_gga_roundtrip (name time more rest : list Z) (p : position) (g : gps_gga) (db2 : double) (x y : Z) :
  ascii_text name -> comma ∉ name -> ascii_text time -> comma ∉ time -> time <> [] ->
  position_ok p -> ascii_text more -> x <> 0 -> y <> 0 ->
  let body := gga_body name time p more in
  gps_get_gga db2 (Some (nmea_sentence body x y rest)) g =
  Some (if bool_decide ([x; y] = nmea_check body)
        then (GPS_EOK, mk_gga (degrees (lat_i p) (lat_f p)) (ns p) (degrees (lon_i p) (lon_f p)) (ew p))
        else (GPS_ERROR, g)).
Proof.
  intros Hname Hcn Htime Hct Hte (? & ? & ? & ? & ? & ? & ? & ?) Hmore Hx Hy body.
  destruct (fraction_token (lat_i p) (lat_f p)) as [Hla Ala]; [done..|].
  destruct (fraction_token (lon_i p) (lon_f p)) as [Hlo Alo]; [done..|].
  assert (ascii_text body) as Hbody.
  { unfold body, gga_body, ascii_text.
    repeat first [apply Forall_app; split; [first [exact Ala|exact Alo|done]|]|apply Forall_cons; split]; try done; unfold comma; try lia; apply Forall_nil. }
  unfold gps_get_gga. rewrite sentence_check_iff by done. cbn [mbind option_bind].
  destruct (bool_decide _); [|done]. change (GPS_EOK <? 0) with false. cbn iota.
  assert (token [comma] (36 :: name)) as Hn by (constructor; [by split|by apply text_token]).
  assert (token [comma] time) as Ht by (by apply text_token).
  assert (forall c, 65 <= c <= 90 -> token [comma] [c]) as Hc.
  { intros c Hc. constructor; [|constructor]. split; [lia|]. apply not_comma. unfold comma. lia. }
  assert (forall i f : list Z, i ++ 46 :: f <> []) as Hap by (by intros []).
  unfold body. rewrite gga_tokens. set (s0 := _ ++ _).
  change (strtok s0 0 [comma]) with (strtok s0 (length (@nil Z)) [comma]). subst s0.
  do 3 (rewrite strtok_next by auto; cbn [mbind option_bind]; rewrite ?drop_token).
  rewrite sscanf_fraction by done.
  do 2 (rewrite strtok_next by auto; cbn [mbind option_bind]; rewrite ?lookup_token; cbn [mbind option_bind]; rewrite ?drop_token).
  rewrite sscanf_fraction by done.
  rewrite strtok_next by auto; cbn [mbind option_bind]; rewrite ?lookup_token; cbn [mbind option_bind].
  match goal with |- context [strtok ?b ?q [comma]] =>
    destruct (strtok_total b q [comma]) as (? & ? & ? & -> & _) end; [done| |done].
  rewrite drop_app_length, !elem_of_app, elem_of_cons. by right; right; left.
Qed.

Lemma gps_gga_roundtrip_witness :
  let p := mk_position (text "3150") (text "1234") 78 (text "11711") (text "9292") 69 in
  let body := gga_body (text "GPGGA") (text "080552.00") p (text "1,06,1.0") in
  exists x y, nmea_check body = [x; y] /\
  gps_get_gga (double_of 0) (Some (nmea_sentence body x y [])) (mk_gga (double_of 0) 0 (double_of 0) 0) =
  Some (GPS_EOK, mk_gga (degrees (text "3150") (text "1234")) 78 (degrees (text "11711") (text "9292")) 69).
Proof.
  intros p body. exists (nmea_hex (nmea_sum body / 16)), (nmea_hex (nmea_sum body mod 16)).
  split; [reflexivity|].
  rewrite (gps_gga_roundtrip (text "GPGGA") (text "080552.00") (text "1,06,1.0") [] p
    (mk_gga (double_of 0) 0 (double_of 0) 0) (double_of 0)).
  - rewrite bool_decide_eq_true_2; reflexivity.
  - unfold ascii_text. apply (bool_decide_unpack _). by vm_compute.
  - apply (bool_decide_unpack _). by vm_compute.
  - unfold ascii_text. apply (bool_decide_unpack _). by vm_compute.
  - apply (bool_decide_unpack _). by vm_compute.
  - discriminate.
  - unfold position_ok, all_digits. apply (bool_decide_unpack _). by vm_compute.
  - unfold ascii_text. apply (bool_decide_unpack _). by vm_compute.
  - vm_compute. discriminate.
  - vm_compute. discriminate.
Defined.

(** *** Lines *)

(** A line that fits a row with its terminator. *)
Definition fits_row (l : list Z) : bool := (length l <? 512)%nat.

(** The rows after [strcpy] of the lines [ls] over the rows [rows]. *)
Fixpoint copied (ls rows : list (list Z)) : list (list Z) :=
  match ls, rows with
  | l :: ls, r :: rows => (l ++ 0 :: drop (S (length l)) r) :: copied ls rows
  | _, _ => rows
  end.

Lemma split_loop_lines n : forall s fuel pre rest old rows,
  (length s <= n)%nat -> nonzero s -> (n < fuel)%nat -> Forall (fun r => length r = 512%nat) rows ->
  let ls := tokens [LF] s in
  split_loop fuel (pre ++ s ++ 0 :: rest) (length pre) (old ++ rows) (length old) =
  if forallb fits_row ls && (length ls <=? length rows)%nat
  then Some (old ++ copied ls rows, (length old + length ls)%nat) else None.
Proof.
  induction n as [n IH] using lt_wf_ind. intros s fuel pre rest old rows Hn Hs Hf Hr ls.
  destruct fuel as [|fuel]; [lia|]. cbn [split_loop].
  destruct (first_token [LF] s Hs) as [Hgap|(gap & tok & r & -> & Hgap & Hne & Ht & Hend)].
  { rewrite strtok_none by done. cbn [mbind option_bind].
    assert (ls = []) as -> by (unfold ls; rewrite <- (app_nil_r s); by apply tokens_gap).
    cbn. by rewrite Nat.add_0_r. }
  assert (ls = tok :: tokens [LF] (drop 1 r)) as -> by
    (unfold ls; rewrite tokens_gap by done; by apply tokens_token).
  apply nonzero_app in Hs as [_ Hs]. apply nonzero_app in Hs as [_ Hs].
  assert (nonzero (drop 1 r)) as Hd by (apply Forall_drop, Hs). rewrite !length_app in Hn.
  destruct (strtok_step [LF] pre gap tok r rest) as (pre' & x & -> & Hx); [done..|].
  cbn [mbind option_bind]. rewrite Hx. destruct rows as [|row rows].
  { rewrite lookup_ge_None_2 by (rewrite length_app; cbn; lia). cbn. by rewrite andb_false_r. }
  apply Forall_cons in Hr as [Hrow Hr]. rewrite list_lookup_middle by done. cbn [mbind option_bind].
  cbn [forallb length copied]. unfold fits_row at 1. rewrite <- Hrow.
  apply token_nonzero in Ht as Ht0. destruct (Nat.ltb_spec (length tok) (length row)) as [Hl|Hl].
  2: { by rewrite strcpy_overflow. }
  rewrite strcpy_fits by done. cbn [mbind option_bind andb].
  rewrite insert_app_r_alt, Nat.sub_diag by lia. cbn [insert list_insert].
  set (row' := tok ++ _). rewrite (cons_middle row'), (app_assoc old).
  replace (S (length old)) with (length (old ++ [row'])) by (rewrite length_app; cbn; lia).
  assert (length (drop 1 r) < n)%nat as Hm.
  { rewrite length_drop. destruct tok; [done|]. cbn in Hn. lia. }
  rewrite (IH (length (drop 1 r))) by (done || lia).
  change (S (length ?l) <=? length (row :: rows))%nat with (length l <=? length rows)%nat.
  destruct (_ && _); [|done]. f_equal. rewrite <- app_assoc, length_app. cbn. f_equal. lia.
Qed.

(** C29: Splitting into lines ends on every terminated text: when every line fits
    a row of 512 bytes and there are rows enough, the lines, empty ones left out,
    are stored in order behind the rows already used and counted; otherwise, and
    only then, the copy leaves its array. *)
Theorem gps_split_info_lines (s rest : list Z) (old rows : list (list Z)) :
  nonzero s -> Forall (fun r => length r = 512%nat) rows ->
  let ls := tokens [LF] s in
  gps_split_info (Some (s ++ 0 :: rest)) (old ++ rows) (length old) =
  if forallb fits_row ls && (length ls <=? length rows)%nat
  then Some (0, old ++ copied ls rows, (length old + length ls)%nat) else None.
Proof.
  intros Hs Hr ls. unfold gps_split_info.
  pose proof (split_loop_lines (length s) s (S (length (s ++ 0 :: rest))) [] rest old rows) as E.
  cbn [app length] in E. rewrite E by (done || (rewrite length_app; cbn; lia)).
  fold ls. by destruct (_ && _).
Qed.

Lemma gps_split_info_lines_witness :
  gps_split_info (Some (lit "$GPZDA" ++ [])) ([] ++ [replicate 512 7]) (length (@nil (list Z))) =
  Some (0, [lit "$GPZDA" ++ replicate 505 7], 1%nat).
Proof.
  exact (gps_split_info_lines (text "$GPZDA") [] [] [replicate 512 7]
    ltac:(repeat constructor; discriminate) ltac:(repeat constructor)).
Defined.
