(* ===== verification/Serial.v ===== *)
(** * Serial ports and the shell

    The serial functions of lib_general and the C library's [system] and [popen]
    belong to the outside: class [Serial] holds the calls the programs make on a
    state of the outside world, with no law.  Programs run in a monad that keeps
    the events on the ports in order; a program returns or faults (an access
    outside an array, a NULL dereference), and the events up to a fault are kept
    too. *)

From S2P Require Import Prelude CStr.

(** What a read with a time limit gives: a negative code, or the bytes that
    arrived (none when the time is over). *)
Inductive answer :=
  | Failed (code : positive)
  | Data (bytes : list Z).

Class Serial := {
  port : Type;
  serial_init : port -> list Z -> Z -> (Z * Z) * port;       (* value returned, sfd *)
  serial_send : port -> Z -> list Z -> Z * port;
  serial_readn : port -> Z -> Z -> Z -> answer * port;       (* fd, size, msec *)
  serial_read : port -> Z -> Z -> Z -> answer * port;
  shell : port -> list Z -> list Z * port;                   (* what the command prints *)
  piped : port -> list Z -> option (list Z) * port;          (* [popen]: no pipe, or what it yields *)
  library : port -> string -> list Z -> Z * port;            (* other library calls *)
  library_read : port -> string -> Z -> answer * port        (* and one that fills an array *) }.

Inductive event :=
  | Open (path : list Z) (speed ret fd : Z)
  | Send (fd : Z) (data : list Z) (ret : Z)
  | Recv (fd : Z) (a : answer)
  | Shell (cmd out : list Z)
  | Popen (cmd : list Z) (out : option (list Z))
  | Call (name : string) (args : list Z) (ret : Z)
  | Given (name : string) (a : answer)
  | Close (fd : Z).

Record st `{Serial} := mk_st { world : port; wire : list event }.
Arguments mk_st {_} _ _.

Section Programs.
Context `{Serial}.

Definition M (A : Type) : Type := st -> option A * st.

#[export] Instance M_ret : MRet M := fun A a s => (Some a, s).
#[export] Instance M_bind : MBind M := fun A B f m s =>
  match m s with (Some a, s) => f a s | (None, s) => (None, s) end.

Definition fault {A} : M A := fun s => (None, s).

(** A computation on arrays: [None] is a fault. *)
Definition mem {A} (o : option A) : M A := fun s => (o, s).

Definition record (w : port) (s : st) (e : event) : st := mk_st w (wire s ++ [e]).

Definition lib_serial_init (path : list Z) (speed : Z) : M (Z * Z) := fun s =>
  let '((ret, fd), w) := serial_init (world s) path speed in
  (Some (ret, fd), record w s (Open path speed ret fd)).

Definition lib_serial_close (fd : Z) : M unit := fun s =>
  (Some tt, record (world s) s (Close fd)).

Definition lib_serial_send (fd : Z) (data : list Z) : M Z := fun s =>
  let '(ret, w) := serial_send (world s) fd data in (Some ret, record w s (Send fd data ret)).

(** At most [size] bytes arrive. *)
Definition cut_to (size : Z) (a : answer) : answer :=
  match a with Failed c => Failed c | Data d => Data (take (Z.to_nat size) d) end.

Definition ret_of (a : answer) : Z :=
  match a with Failed c => Zneg c | Data d => Z.of_nat (length d) end.
Definition data_of (a : answer) : list Z := match a with Failed _ => [] | Data d => d end.

Definition lib_serial_readn_select (fd size msec : Z) : M answer := fun s =>
  let '(a, w) := serial_readn (world s) fd size msec in
  let a := cut_to size a in (Some a, record w s (Recv fd a)).

Definition lib_serial_read_select (fd size msec : Z) : M answer := fun s =>
  let '(a, w) := serial_read (world s) fd size msec in
  let a := cut_to size a in (Some a, record w s (Recv fd a)).

(** What the command prints. *)
Definition run_shell (cmd : list Z) : M (list Z) := fun s =>
  let '(out, w) := shell (world s) cmd in (Some out, record w s (Shell cmd out)).

(** [popen] and reading the stream it returns, [None] for NULL, to its end. *)
Definition popen (cmd : list Z) : M (option (list Z)) := fun s =>
  let '(out, w) := piped (world s) cmd in (Some out, record w s (Popen cmd out)).

Definition lib_call (name : string) (args : list Z) : M Z := fun s =>
  let '(ret, w) := library (world s) name args in (Some ret, record w s (Call name args ret)).

Definition lib_read (name : string) (size : Z) : M answer := fun s =>
  let '(a, w) := library_read (world s) name size in
  let a := cut_to size a in (Some a, record w s (Given name a)).

(** ** What a program does on the ports

    [emits m R]: whatever the outside does, [m] adds events to the wire that
    stand in relation [R] to the value it returns, [None] for a fault. *)

Definition emits {A} (m : M A) (R : option A -> list event -> Prop) : Prop :=
  forall s, exists es, wire (snd (m s)) = wire s ++ es /\ R (fst (m s)) es.

Lemma emits_weaken {A} (m : M A) (R R' : option A -> list event -> Prop) :
  emits m R -> (forall a es, R a es -> R' a es) -> emits m R'.
Proof. intros Hm HR s. destruct (Hm s) as (es & ? & ?). exists es. eauto. Qed.

Lemma emits_ret {A} (a : A) (R : option A -> list event -> Prop) :
  R (Some a) [] -> emits (mret a : M A) R.
Proof. intros HR s. exists []. split; [by rewrite app_nil_r|done]. Qed.

Lemma emits_mem {A} (o : option A) (R : option A -> list event -> Prop) : R o [] -> emits (mem o) R.
Proof. intros HR s. exists []. split; [by rewrite app_nil_r|done]. Qed.

Lemma emits_bind {A B} (m : M A) (f : A -> M B) (R1 : option A -> list event -> Prop)
    (R : option B -> list event -> Prop) :
  emits m R1 ->
  (forall es, R1 None es -> R None es) ->
  (forall a es, R1 (Some a) es -> emits (f a) (fun b es' => R b (es ++ es'))) ->
  emits (m ≫= f) R.
Proof.
  intros Hm Hn Hf s. destruct (Hm s) as (es & Hw & Hr). unfold mbind, M_bind.
  destruct (m s) as [[a|] s']; cbn [fst snd] in *; [|exists es; auto].
  destruct (Hf a es Hr s') as (es' & Hw' & Hr'). exists (es ++ es'). rewrite Hw', Hw, app_assoc. done.
Qed.

(** Binds nest to the right. *)
Lemma emits_assoc {A B C} (m : M A) (f : A -> M B) (g : B -> M C) (R : option C -> list event -> Prop) :
  emits (m ≫= fun a => f a ≫= g) R -> emits ((m ≫= f) ≫= g) R.
Proof.
  intros Hm s. specialize (Hm s). unfold mbind, M_bind in *. destruct (m s) as [[a|] s']; exact Hm.
Qed.

Lemma emits_send fd data : emits (lib_serial_send fd data) (fun r es => exists ret, r = Some ret /\ es = [Send fd data ret]).
Proof. intros s. unfold lib_serial_send. destruct (serial_send _ _ _) as [ret w]. eexists. split; [done|]. by exists ret. Qed.

Lemma emits_readn fd size msec : emits (lib_serial_readn_select fd size msec)
  (fun r es => exists a, r = Some (cut_to size a) /\ es = [Recv fd (cut_to size a)]).
Proof. intros s. unfold lib_serial_readn_select. destruct (serial_readn _ _ _ _) as [a w]. eexists. split; [done|]. by exists a. Qed.

Lemma emits_read fd size msec : emits (lib_serial_read_select fd size msec)
  (fun r es => exists a, r = Some (cut_to size a) /\ es = [Recv fd (cut_to size a)]).
Proof. intros s. unfold lib_serial_read_select. destruct (serial_read _ _ _ _) as [a w]. eexists. split; [done|]. by exists a. Qed.

Lemma emits_shell cmd : emits (run_shell cmd) (fun r es => exists out, r = Some out /\ es = [Shell cmd out]).
Proof. intros s. unfold run_shell. destruct (shell _ _) as [out w]. eexists. split; [done|]. by exists out. Qed.

Lemma emits_popen cmd : emits (popen cmd) (fun r es => exists out, r = Some out /\ es = [Popen cmd out]).
Proof. intros s. unfold popen. destruct (piped _ _) as [out w]. eexists. split; [done|]. by exists out. Qed.

Lemma emits_call name args : emits (lib_call name args)
  (fun r es => exists ret, r = Some ret /\ es = [Call name args ret]).
Proof. intros s. unfold lib_call. destruct (library _ _ _) as [ret w]. eexists. split; [done|]. by exists ret. Qed.

Lemma emits_lib_read name size : emits (lib_read name size)
  (fun r es => exists a, r = Some (cut_to size a) /\ es = [Given name (cut_to size a)]).
Proof. intros s. unfold lib_read. destruct (library_read _ _ _) as [a w]. eexists. split; [done|]. by exists a. Qed.

Lemma emits_init path speed : emits (lib_serial_init path speed)
  (fun r es => exists ret fd, r = Some (ret, fd) /\ es = [Open path speed ret fd]).
Proof. intros s. unfold lib_serial_init. destruct (serial_init _ _ _) as [[ret fd] w]. eexists. split; [done|]. by exists ret, fd. Qed.

Lemma emits_close fd : emits (lib_serial_close fd) (fun r es => r = Some tt /\ es = [Close fd]).
Proof. intros s. eexists. by split. Qed.

End Programs.

(** ** Protocols

    A protocol is a deterministic automaton over events.  [follows delta p m Q]:
    from phase [p], every run of [m] makes only events the protocol allows, and
    the phase reached satisfies [Q] when [m] returns. *)

Section Protocols.
Context `{Serial} {P : Type} (delta : P -> event -> option P).

Fixpoint run (p : P) (es : list event) : option P :=
  match es with [] => Some p | e :: es => q ← delta p e; run q es end.

Lemma run_app p es es' : run p (es ++ es') = (q ← run p es; run q es').
Proof.
  revert p. induction es as [|e es IH]; intros p; [done|]. cbn [app run].
  destruct (delta p e); cbn [mbind option_bind]; [apply IH|done].
Qed.

Definition follows {A} (p : P) (m : M A) (Q : A -> P -> Prop) : Prop :=
  emits m (fun a es => exists q, run p es = Some q /\ match a with Some a => Q a q | None => True end).

Lemma follows_weaken {A} p (m : M A) (Q Q' : A -> P -> Prop) :
  follows p m Q -> (forall a q, Q a q -> Q' a q) -> follows p m Q'.
Proof. intros Hm HQ. eapply emits_weaken; [exact Hm|]. intros [a|] es (q & ? & ?); eauto. Qed.

Lemma follows_ret {A} p (a : A) (Q : A -> P -> Prop) : Q a p -> follows p (mret a) Q.
Proof. intros HQ. apply emits_ret. by exists p. Qed.

Lemma follows_mem {A} p (o : option A) (Q : A -> P -> Prop) :
  (forall a, o = Some a -> Q a p) -> follows p (mem o) Q.
Proof. intros HQ. apply emits_mem. exists p. destruct o; eauto. Qed.

Lemma follows_bind {A B} p (m : M A) (f : A -> M B) (Q1 : A -> P -> Prop) (Q : B -> P -> Prop) :
  follows p m Q1 -> (forall a q, Q1 a q -> follows q (f a) Q) -> follows p (m ≫= f) Q.
Proof.
  intros Hm Hf. eapply emits_bind; [exact Hm| |].
  - intros es (q & Hr & _). eauto.
  - intros a es (q & Hr & Hq). eapply emits_weaken; [by apply Hf|].
    intros b es' (q' & Hr' & Hq'). exists q'. rewrite run_app, Hr. done.
Qed.

Lemma follows_send p fd data (Q : Z -> P -> Prop) :
  (forall ret, exists q, delta p (Send fd data ret) = Some q /\ Q ret q) ->
  follows p (lib_serial_send fd data) Q.
Proof.
  intros HQ. eapply emits_weaken; [apply emits_send|]. intros a es (ret & -> & ->).
  destruct (HQ ret) as (q & E & ?). exists q. cbn. by rewrite E.
Qed.

Lemma follows_readn p fd size msec (Q : answer -> P -> Prop) :
  (forall a, let a := cut_to size a in exists q, delta p (Recv fd a) = Some q /\ Q a q) ->
  follows p (lib_serial_readn_select fd size msec) Q.
Proof.
  intros HQ. eapply emits_weaken; [apply emits_readn|]. intros b es (a & -> & ->).
  destruct (HQ a) as (q & E & ?). exists q. cbn. by rewrite E.
Qed.

Lemma follows_shell p cmd (Q : list Z -> P -> Prop) :
  (forall out, exists q, delta p (Shell cmd out) = Some q /\ Q out q) -> follows p (run_shell cmd) Q.
Proof.
  intros HQ. eapply emits_weaken; [apply emits_shell|]. intros b es (out & -> & ->).
  destruct (HQ out) as (q & E & ?). exists q. cbn. by rewrite E.
Qed.

Lemma follows_init p path speed (Q : Z * Z -> P -> Prop) :
  (forall ret fd, exists q, delta p (Open path speed ret fd) = Some q /\ Q (ret, fd) q) ->
  follows p (lib_serial_init path speed) Q.
Proof.
  intros HQ. eapply emits_weaken; [apply emits_init|]. intros b es (ret & fd & -> & ->).
  destruct (HQ ret fd) as (q & E & ?). exists q. cbn. by rewrite E.
Qed.

Lemma follows_close p fd (Q : unit -> P -> Prop) :
  (exists q, delta p (Close fd) = Some q /\ Q tt q) -> follows p (lib_serial_close fd) Q.
Proof.
  intros (q & E & ?). eapply emits_weaken; [apply emits_close|]. intros b es (-> & ->).
  exists q. cbn. by rewrite E.
Qed.

End Protocols.

(** ** A scripted outside

    The list of answers is given out one by one; when it is empty reads time
    out.  Every open and send succeeds. *)

Record script := mk_script { replies : list (list Z); ports : Z; prints : list Z; results : list Z }.

Definition pop (w : script) : answer * script :=
  match replies w with
  | [] => (Data [], w)
  | d :: r => (Data d, mk_script r (ports w) (prints w) (results w))
  end.

Definition Scripted : Serial := {|
  port := script;
  serial_init w _ _ := ((0, ports w), mk_script (replies w) (ports w + 1) (prints w) (results w));
  serial_send w _ d := (Z.of_nat (length d), w);
  serial_readn w _ _ _ := pop w;
  serial_read w _ _ _ := pop w;
  shell w _ := (prints w, w);
  piped w _ := (Some (prints w), w);
  library w _ _ := match results w with
    | [] => (0, w)
    | r :: rs => (r, mk_script (replies w) (ports w) (prints w) rs)
    end;
  library_read w _ _ := pop w |}.
