(* ===== verification/Modem.v ===== *)
(** * The 4G modem (src/4G/4g.c, main.c, include/lib4g.h)

    AT commands over a serial port: the exchange all commands share, the queries
    that read their answer (signal, SIM card, operator), dialing, and [main],
    which brings the modem online.  The buffers of the file are global, but every
    function writes them before it reads them, so that they are values here.

    [lib_4g_zsnt] and [lib_4g_zpas] end without a [return] when they succeed;
    what the caller sees is the argument [undef]. *)

From S2P Require Import Prelude CStr Serial.

Definition ECM_4G_UNCONNECT : Z := 0.
Definition ECM_4G_CONNECT : Z := 1.
Definition ECM_4G_SERIAL_ERROR : Z := 2.
Definition CARD_CMCC : Z := 1.
Definition CARD_CUCC : Z := 2.
Definition CARD_CTCC : Z := 3.
Definition CARD_STATUS_READY : Z := 1.
Definition CARD_STATUS_SIM_PIN : Z := 2.
Definition CARD_STATUS_NO_INSERTED : Z := 3.
Definition CARD_STATUS_NO_INSERTED_AND_ERROR : Z := 4.

(** ** Commands and answers *)

Definition at_cmd (s : string) : list Z := text s ++ crlf.
Definition quoted (s : string) : list Z := quote :: text s ++ [quote].

Definition CMD_ATE0 : list Z := at_cmd "ATE0".
Definition CMD_DISCONNECT : list Z := at_cmd "AT+ZECMCALL=0".
Definition CMD_CONNECT : list Z := at_cmd "AT+ZECMCALL=1".
Definition CMD_STATUS : list Z := at_cmd "AT+ZECMCALL?".
Definition CMD_PIN : list Z := text "AT+CPIN=" ++ quoted "0609" ++ crlf.
Definition CMD_RESTART : list Z := at_cmd "AT+CFUN=1,1".
Definition CMD_SWITCH_X : list Z := at_cmd "AT+ZSWITCH=X".
Definition CMD_SWITCH_L : list Z := at_cmd "AT+ZSWITCH=L".
Definition CMD_CSQ : list Z := at_cmd "AT+CSQ".
Definition CMD_CPIN : list Z := at_cmd "AT+CPIN?".
Definition CMD_COPS : list Z := at_cmd "AT+COPS?".
Definition CMD_ZPAS : list Z := at_cmd "AT+ZPAS?".
Definition CMD_CEREG : list Z := at_cmd "AT+CEREG?".
Definition CMD_CGMR : list Z := at_cmd "AT+CGMR".
Definition CMD_ATI : list Z := at_cmd "ATI".
Definition CMD_ZSNT : list Z := at_cmd "AT+ZSNT=6,0,0".
Definition CMD_APN_CMCC : list Z := text "AT+CGDCONT=1," ++ quoted "IP" ++ comma :: quoted "CMNET" ++ crlf.
Definition CMD_APN : list Z := text "AT+CGDCONT=1," ++ quoted "IP" ++ crlf.
Definition CMD_ZGINIT : list Z := at_cmd "AT+ZGINIT".
Definition CMD_ZGFIXRATE : list Z := at_cmd "AT+ZGFIXRATE=2,5".
Definition CMD_ZGQOS : list Z := at_cmd "AT+ZGQOS=50,255".
Definition CMD_ZGPSR : list Z := at_cmd "AT+ZGPSR=1".
Definition CMD_ZGMODE : list Z := at_cmd "AT+ZGMODE=3".
Definition CMD_ZGRUN : list Z := at_cmd "AT+ZGRUN=1".

Definition ANS_CME_UNKNOWN : list Z := crlf ++ text "+CME ERROR: unknown" ++ crlf.
Definition ANS_READY : list Z := crlf ++ text "+CPIN: READY" ++ crlf ++ crlf ++ text "OK" ++ crlf.
Definition ANS_SIM_PIN : list Z := crlf ++ text "+CPIN: SIM PIN" ++ crlf ++ crlf ++ text "OK" ++ crlf.
Definition ANS_NO_SIM : list Z := crlf ++ text "+CME ERROR: SIM not inserted" ++ crlf.
Definition ANS_ERROR_10 : list Z := crlf ++ text "+CME ERROR: 10" ++ crlf.

Definition DHCP : list Z := text "udhcpc -i usb0".
Definition DEV_NAME : list Z := text "/dev/MC27161".

(** How an exchange ends: the function returns [ret] at once, or goes on with
    the number of bytes that arrived and [rxbuf]. *)
Inductive reply :=
  | Stop (ret : Z)
  | Got (ret : Z) (rxbuf : list Z).

(** The string at a token of [buf]. *)
Definition string_at (buf : list Z) (p : option nat) : option (list Z) := (fun p => drop p buf) <$> p.

(** [strcpy(buf, rxbuf); p = strtok(buf, d1); if (p) p = strtok(NULL, d2);]: the
    string at [p], [None] for NULL. *)
Definition second_token (rxbuf d1 d2 : list Z) : option (option (list Z)) :=
  buf ← strcpy (zeros 1024) rxbuf;
  '(p, buf, pos) ← strtok buf 0 d1;
  match p with
  | None => Some None
  | Some _ => '(p, buf, pos) ← strtok buf pos d2; Some (string_at buf p)
  end.

(** The first string of [cases] that is equal to [s], with its value. *)
Fixpoint str_switch (s : list Z) (cases : list (list Z * Z)) (default : Z) : option Z :=
  match cases with
  | [] => Some default
  | (c, v) :: cases => same ← str_eq s (c ++ [0]); if same : bool then Some v else str_switch s cases default
  end.

Definition cpin_cases : list (list Z * Z) :=
  [(ANS_READY, CARD_STATUS_READY); (ANS_SIM_PIN, CARD_STATUS_SIM_PIN);
   (ANS_NO_SIM, CARD_STATUS_NO_INSERTED); (ANS_ERROR_10, CARD_STATUS_NO_INSERTED_AND_ERROR)].

Definition cops_cases : list (list Z * Z) :=
  [(text "CMCC", CARD_CMCC); (text "????", CARD_CTCC); (text "CHN-UNICOM", CARD_CUCC)].

Section Modem.
Context `{Serial} (undef : Z).

(** [memset(rxbuf, 0, 1024)], the read, and the test of its result. *)
Definition receive (fd msec : Z) : M reply :=
  a ← lib_serial_readn_select fd 1024 msec;
  if 0 <? ret_of a then mret (Got (ret_of a) (fill (zeros 1024) (data_of a)))
  else mret (Stop (ret_of a)).

(** Send a command and read the answer. *)
Definition exchange (fd : Z) (cmd : list Z) (msec : Z) : M reply :=
  ret ← lib_serial_send fd cmd;
  if ret <? 0 then mret (Stop ret) else receive fd msec.

(** A command whose answer is only printed. *)
Definition command (fd : Z) (cmd : list Z) (msec : Z) : M Z :=
  r ← exchange fd cmd msec;
  match r with Stop ret => mret ret | Got _ _ => mret 0 end.

Definition lib_4g_ate0 (fd : Z) : M Z := command fd CMD_ATE0 500.
Definition lib_4g_ecm_disconnect (fd : Z) : M Z := command fd CMD_DISCONNECT 500.
Definition lib_4g_restart (fd : Z) : M Z := command fd CMD_RESTART 500.

Definition lib_4g_ecm_connect (fd : Z) : M Z :=
  r ← exchange fd CMD_CONNECT 8000;
  match r with
  | Stop ret => mret ret
  | Got _ rxbuf =>
      same ← mem (str_eq rxbuf (ANS_CME_UNKNOWN ++ [0]));
      if same : bool then mret (-1) else run_shell DHCP;; mret 0
  end.

Definition lib_4g_ecm_connect_status (fd : Z) : M Z :=
  r ← exchange fd CMD_STATUS 500;
  match r with
  | Stop _ => mret ECM_4G_SERIAL_ERROR
  | Got ret _ => if 20 <? ret then mret ECM_4G_CONNECT else mret ECM_4G_UNCONNECT
  end.

(** The text built from [key] in [command[30]] is only printed. *)
Definition lib_4g_decode (fd : Z) (key : list Z) : M Z :=
  command0 ← mem (strcpy (zeros 30) (text "AT+CPIN=" ++ [quote; 0]));
  command1 ← mem (strcat command0 key);
  mem (strcat command1 (quote :: crlf ++ [0]));;
  command fd CMD_PIN 2000.

Definition switch_and_restart (fd : Z) (cmd : list Z) : M Z :=
  r ← exchange fd cmd 500;
  match r with Stop ret => mret ret | Got _ _ => lib_4g_restart fd;; mret 0 end.

Definition lib_4g_setECMforWindows_and_restart (fd : Z) : M Z := switch_and_restart fd CMD_SWITCH_X.
Definition lib_4g_setECMforLinux_and_restart (fd : Z) : M Z := switch_and_restart fd CMD_SWITCH_L.

(** [atoi] and [strcmp] of NULL fault. *)
Definition lib_4g_get_csq (fd : Z) : M Z :=
  r ← exchange fd CMD_CSQ 500;
  match r with
  | Stop ret => mret ret
  | Got _ rxbuf =>
      p ← mem (second_token rxbuf [32] [comma]);
      match p with None => fault | Some p => mem (atoi p) end
  end.

Definition lib_4g_check_cpin (fd : Z) : M Z :=
  r ← exchange fd CMD_CPIN 500;
  match r with
  | Stop ret => mret ret
  | Got _ rxbuf => mem (str_switch rxbuf cpin_cases 0)
  end.

(** A failed send does not end this function. *)
Definition lib_4g_check_cops (fd : Z) : M Z :=
  lib_serial_send fd CMD_COPS;;
  r ← receive fd 500;
  match r with
  | Stop _ => mret 0
  | Got ret rxbuf =>
      if ret <? 20 then mret ret
      else
        p ← mem (second_token rxbuf [quote] [quote]);
        match p with None => fault | Some p => mem (str_switch p cops_cases 0) end
  end.

(** The value of a function that ends without [return]. *)
Definition no_return (fd : Z) (cmd : list Z) : M Z :=
  r ← exchange fd cmd 500;
  match r with Stop ret => mret ret | Got _ _ => mret undef end.

Definition lib_4g_zpas (fd : Z) : M Z := no_return fd CMD_ZPAS.
Definition lib_4g_zsnt (fd : Z) : M Z := no_return fd CMD_ZSNT.

(** Commands in a row; the first one that fails ends the function. *)
Fixpoint commands (fd : Z) (cmds : list (list Z)) : M Z :=
  match cmds with
  | [] => mret 0
  | c :: cmds => r ← exchange fd c 500; match r with Stop ret => mret ret | Got _ _ => commands fd cmds end
  end.

Definition lib_4g_get_basic_info (fd : Z) : M Z := commands fd [CMD_CEREG; CMD_CGMR; CMD_ATI].
Definition lib_4g_getGPS_init (fd : Z) : M Z :=
  commands fd [CMD_ZGINIT; CMD_ZGFIXRATE; CMD_ZGQOS; CMD_ZGPSR; CMD_ZGMODE].

Definition dialing (fd : Z) (apn : list Z) : M Z :=
  ret ← lib_4g_zsnt fd;
  if ret <? 0 then mret (-1)
  else
    r ← exchange fd apn 500;
    match r with
    | Stop ret => mret ret
    | Got _ _ => ret ← lib_4g_ecm_connect fd; if ret <? 0 then mret (-1) else mret 0
    end.

Definition lib_4g_CMCC_dialing (fd : Z) : M Z := dialing fd CMD_APN_CMCC.
Definition lib_4g_CUCC_CTCC_dialing (fd : Z) : M Z := dialing fd CMD_APN.

(** The caller's [buf] after [memcpy(buf, rxbuf, ret)]. *)
Definition lib_4g_get_gps_info (fd : Z) (buf : list Z) (msec : Z) : M (Z * list Z) :=
  r ← exchange fd CMD_ZGRUN 500;
  match r with
  | Stop ret => mret (ret, buf)
  | Got _ _ =>
      r ← receive fd msec;
      match r with
      | Stop ret => mret (ret, buf)
      | Got ret rxbuf => buf ← mem (bcopy buf 0 (take (Z.to_nat ret) rxbuf)); mret (0, buf)
      end
  end.

(** ** main.c *)

(** What the switch on the card's status does: return from [main], or go on with
    [card_decode_status]. *)
Definition card_switch (ret : Z) : option bool :=
  if ret <? 0 then Some false
  else if ret =? CARD_STATUS_READY then Some false
  else if ret =? CARD_STATUS_SIM_PIN then Some true
  else None.

Definition card_type_of (ret : Z) : Z := if ret <? 0 then 0 else ret.

(** From the signal query on. *)
Definition online (fd : Z) : M Z :=
  lib_4g_get_csq fd;;
  ret ← lib_4g_check_cops fd;
  let card_type := card_type_of ret in
  (if card_type =? CARD_CMCC then lib_4g_CMCC_dialing fd
   else if (card_type =? CARD_CUCC) || (card_type =? CARD_CTCC) then lib_4g_CUCC_CTCC_dialing fd
   else mret 0);;
  lib_serial_close fd;;
  mret 0.

(** [malloc] is taken to succeed; the memory is never freed. *)
Definition main : M Z :=
  '(ret, fd) ← lib_serial_init DEV_NAME 115200;
  if ret <? 0 then mret (-1)
  else
    lib_4g_ate0 fd;;
    ret ← lib_4g_check_cpin fd;
    match card_switch ret with
    | None => mret (-1)
    | Some false => online fd
    | Some true =>
        lib_4g_decode fd (lit "0609");;
        ret ← lib_4g_check_cpin fd;
        match card_switch ret with
        | None => mret (-1)
        | Some _ => online fd
        end
    end.

End Modem.

(** ** Answers as texts *)

(** The text of an answer: what is before the first zero byte. *)
Fixpoint upto0 (d : list Z) : list Z :=
  match d with [] => [] | c :: d => if c =? 0 then [] else c :: upto0 d end.

Lemma upto0_cases d : (exists r, d = upto0 d ++ 0 :: r) \/ upto0 d = d.
Proof.
  induction d as [|c d IH]; [by right|]. cbn. destruct (Z.eqb_spec c 0) as [->|_]; [left; by exists d|].
  destruct IH as [[r E]|E]; [left; exists r; cbn; by rewrite E at 1|right; by rewrite E].
Qed.

Lemma upto0_nonzero d : nonzero (upto0 d).
Proof.
  induction d as [|c d IH]; [constructor|]. cbn. destruct (Z.eqb_spec c 0); constructor; done.
Qed.

Lemma length_upto0 d : (length (upto0 d) <= length d)%nat.
Proof. induction d as [|c d IH]; [done|]. cbn. destruct (c =? 0); cbn; lia. Qed.

(** [rxbuf] after a read is the text and a terminator, unless 1024 bytes without
    a zero arrived. *)
Lemma fill_cases d : (length d <= 1024)%nat ->
  (exists r, fill (zeros 1024) d = upto0 d ++ 0 :: r /\ (length (upto0 d) < 1024)%nat) \/
  (upto0 d = d /\ length d = 1024%nat /\ fill (zeros 1024) d = d).
Proof.
  intros Hd. unfold fill, zeros. change (Z.to_nat 1024) with 1024%nat. rewrite drop_replicate.
  destruct (upto0_cases d) as [[r E]|E].
  - left. exists (r ++ replicate (1024 - length d) 0). split.
    + rewrite E at 1. by rewrite <- app_assoc.
    + apply (f_equal length) in E. rewrite length_app in E. cbn in E. lia.
  - destruct (Nat.eq_dec (length d) 1024) as [->|Hne].
    + right. split_and!; [done..|]. by rewrite app_nil_r.
    + left. exists (replicate (1023 - length d) 0). rewrite E. split; [|lia].
      by replace (1024 - length d)%nat with (S (1023 - length d)) by lia.
Qed.

Lemma str_eq_longer s : forall t, nonzero s -> (length t < length s)%nat -> str_eq s (t ++ [0]) = Some false.
Proof.
  induction s as [|x s IH]; intros [|y t] Hs Hl; cbn in Hl; [lia..| |]; apply Forall_cons in Hs as [Hx Hs]; cbn.
  - by rewrite (proj2 (Z.eqb_neq x 0)).
  - destruct (Z.eqb_spec x y); [|done]. rewrite (proj2 (Z.eqb_neq x 0)) by done. apply IH; [done|lia].
Qed.

(** Comparing [rxbuf] with a literal compares the text. *)
Lemma rxbuf_eq d c : (length d <= 1024)%nat -> nonzero c -> (length c < 1024)%nat ->
  str_eq (fill (zeros 1024) d) (c ++ [0]) = Some (bool_decide (upto0 d = c)).
Proof.
  intros Hd Hc Hl. destruct (fill_cases d Hd) as [(r & -> & _)|(E & Hlen & ->)].
  - by apply str_eq_text; [apply upto0_nonzero|].
  - assert (nonzero d) by (rewrite <- E; apply upto0_nonzero). rewrite str_eq_longer by (done || lia).
    rewrite bool_decide_eq_false_2; [done|]. rewrite E. intros ->. lia.
Qed.

(** What [str_switch] looks up. *)
Fixpoint case_of (t : list Z) (cases : list (list Z * Z)) (default : Z) : Z :=
  match cases with
  | [] => default
  | (c, v) :: cases => if bool_decide (t = c) then v else case_of t cases default
  end.

Lemma rxbuf_switch d cases v : (length d <= 1024)%nat ->
  Forall (fun '(c, _) => nonzero c /\ (length c < 1024)%nat) cases ->
  str_switch (fill (zeros 1024) d) cases v = Some (case_of (upto0 d) cases v).
Proof.
  intros Hd. induction 1 as [|[c w] cases [Hc Hl] _ IH]; [done|]. cbn [str_switch case_of].
  rewrite rxbuf_eq by done. cbn [mbind option_bind]. by destruct (bool_decide _).
Qed.

Lemma text_switch t r cases v : nonzero t -> Forall (fun '(c, _) => nonzero c) cases ->
  str_switch (t ++ 0 :: r) cases v = Some (case_of t cases v).
Proof.
  intros Ht. induction 1 as [|[c w] cases Hc _ IH]; [done|]. cbn [str_switch case_of].
  rewrite str_eq_text by done. cbn [mbind option_bind]. by destruct (bool_decide _).
Qed.

Lemma strcpy_rxbuf t r : nonzero t -> (length t < 1024)%nat ->
  exists x, strcpy (zeros 1024) (t ++ 0 :: r) = Some (t ++ 0 :: x).
Proof. intros Ht Hl. rewrite strcpy_fits by done. by eexists. Qed.

(** With one delimiter set the second token is that of the text. *)
Lemma second_token_tokens ds t r : delim ds 0 = false -> nonzero t -> (length t < 1024)%nat ->
  exists x, second_token (t ++ 0 :: r) ds ds = Some ((fun k => k ++ 0 :: x) <$> tokens ds t !! 1%nat).
Proof.
  intros Hds Ht Hl. unfold second_token. destruct (strcpy_rxbuf t r Ht Hl) as [x ->].
  cbn [mbind option_bind].
  destruct (first_token ds t Ht) as [Hgap|(gap & tok & u & -> & Hgap & Hne & Htok & Hu)].
  { exists []. pose proof (strtok_none ds [] t x Hds Hgap) as E. cbn [app length] in E. rewrite E.
    rewrite <- (app_nil_r t), tokens_gap by done. done. }
  destruct (strtok_step ds [] gap tok u x) as (pre & y & E & _); [done..|]. cbn [app length] in E.
  rewrite E. cbn [mbind option_bind]. rewrite tokens_gap, tokens_token by done.
  cbn [lookup list_lookup]. apply nonzero_app in Ht as [_ Ht]. apply nonzero_app in Ht as [_ Ht].
  assert (nonzero (drop 1 u)) as Hd by (apply Forall_drop, Ht). clear E Ht Hl.
  destruct (first_token ds _ Hd) as [Hg|(g & k & v & -> & Hg & Hk & Htk & Hv)].
  { exists []. rewrite strtok_none by done. cbn [mbind option_bind].
    rewrite <- (app_nil_r (drop 1 u)), tokens_gap by done. done. }
  destruct (strtok_step ds pre g k v x) as (pre' & z & -> & Hz); [done..|]. cbn [mbind option_bind].
  exists z. rewrite tokens_gap, tokens_token by done. cbn. by rewrite Hz.
Qed.
