(* ===== verification/ModemSession.v ===== *)
(** * The session of the 4G modem (src/4G/main.c)

    The protocol [main] keeps to, as an automaton over the events on the port,
    and the theorem that every run keeps to it. *)

From S2P Require Import Prelude CStr Serial Modem.

(** ** The protocol *)

(** What comes next.  [Mode] restricts the modem to 4G, [Apn] names the access
    point, of China Mobile or not. *)
Inductive stage :=
  | Echo | Query | Unlock | Requery | Signal | Operator
  | Mode (cmcc : bool) | Apn (cmcc : bool) | Dial | Address | Hangup.

#[export] Instance stage_eq_dec : EqDecision stage.
Proof. solve_decision. Defined.

Inductive phase :=
  | Off
  | Broken                             (* the port could not be opened *)
  | Next (fd : Z) (s : stage)
  | Wait (fd : Z) (s : stage)          (* for the answer to its command *)
  | Stopped (fd : Z)                   (* no usable card: the port stays open *)
  | Over.

Definition command_of (s : stage) : list Z :=
  match s with
  | Echo => CMD_ATE0
  | Query | Requery => CMD_CPIN
  | Unlock => CMD_PIN
  | Signal => CMD_CSQ
  | Operator => CMD_COPS
  | Mode _ => CMD_ZSNT
  | Apn true => CMD_APN_CMCC
  | Apn false => CMD_APN
  | Dial => CMD_CONNECT
  | Address | Hangup => []
  end.

Definition sends (s : stage) : bool := match s with Address | Hangup => false | _ => true end.

(** After a command that could not be sent. *)
Definition unsent (fd : Z) (s : stage) : phase :=
  match s with
  | Echo => Next fd Query
  | Query | Requery => Next fd Signal
  | Unlock => Next fd Requery
  | Signal => Next fd Operator
  | Operator => Wait fd Operator
  | Mode _ | Apn _ | Dial | Address | Hangup => Next fd Hangup
  end.

(** Something arrived. *)
Definition arrived (a : answer) : bool := 0 <? ret_of a.

Definition operator_of (d : list Z) : Z :=
  if (length d <? 20)%nat then Z.of_nat (length d)
  else match tokens [quote] (upto0 d) !! 1%nat with
       | Some t => case_of t cops_cases 0
       | None => 0
       end.

(** After an answer; [undef] is the value of a function without [return]. *)
Definition answered (undef fd : Z) (s : stage) (a : answer) : phase :=
  let t := upto0 (data_of a) in
  match s with
  | Echo => Next fd Query
  | Query =>
      if negb (arrived a) then if ret_of a <? 0 then Next fd Signal else Stopped fd
      else if bool_decide (t = ANS_READY) then Next fd Signal
      else if bool_decide (t = ANS_SIM_PIN) then Next fd Unlock
      else Stopped fd
  | Unlock => Next fd Requery
  | Requery =>
      if negb (arrived a) then if ret_of a <? 0 then Next fd Signal else Stopped fd
      else if bool_decide (t = ANS_READY) || bool_decide (t = ANS_SIM_PIN) then Next fd Signal
      else Stopped fd
  | Signal => Next fd Operator
  | Operator =>
      let c := if arrived a then operator_of (data_of a) else 0 in
      if c =? CARD_CMCC then Next fd (Mode true)
      else if (c =? CARD_CUCC) || (c =? CARD_CTCC) then Next fd (Mode false)
      else Next fd Hangup
  | Mode b => if (if arrived a then undef else ret_of a) <? 0 then Next fd Hangup else Next fd (Apn b)
  | Apn _ => if arrived a then Next fd Dial else Next fd Hangup
  | Dial =>
      if arrived a && negb (bool_decide (t = ANS_CME_UNKNOWN)) then Next fd Address
      else Next fd Hangup
  | Address | Hangup => Next fd Hangup
  end.

Definition delta (undef : Z) (p : phase) (e : event) : option phase :=
  match p, e with
  | Off, Open path speed ret fd =>
      if bool_decide (path = DEV_NAME /\ speed = 115200)
      then Some (if ret <? 0 then Broken else Next fd Echo) else None
  | Next fd s, Send fd' data ret =>
      if bool_decide (fd' = fd /\ data = command_of s) && sends s
      then Some (if ret <? 0 then unsent fd s else Wait fd s) else None
  | Wait fd s, Recv fd' a => if bool_decide (fd' = fd) then Some (answered undef fd s a) else None
  | Next fd s, Shell cmd _ => if bool_decide (s = Address /\ cmd = DHCP) then Some (Next fd Hangup) else None
  | Next fd s, Close fd' => if bool_decide (s = Hangup /\ fd' = fd) then Some Over else None
  | _, _ => None
  end.

(** ** Every run keeps to the protocol *)

Section Session.
Context `{Serial} (undef : Z).

Abbreviation keeps := (follows (delta undef)).

Lemma length_cut size a : (length (data_of (cut_to size a)) <= Z.to_nat size)%nat.
Proof. destruct a as [c|d]; cbn; [lia|]. rewrite length_take. lia. Qed.

Lemma keeps_receive fd msec s (Q : reply -> phase -> Prop) :
  (forall a, (length (data_of a) <= 1024)%nat ->
    Q (if arrived a then Got (ret_of a) (fill (zeros 1024) (data_of a)) else Stop (ret_of a))
      (answered undef fd s a)) ->
  keeps (Wait fd s) (receive fd msec) Q.
Proof.
  intros HQ. eapply follows_bind with (Q1 := fun a q => (length (data_of a) <= 1024)%nat /\ q = answered undef fd s a).
  - apply follows_readn. intros a. eexists. cbn [delta]. rewrite bool_decide_eq_true_2 by done.
    split; [done|]. split; [apply length_cut|done].
  - intros a q [Ha ->]. specialize (HQ a Ha). unfold arrived in HQ.
    destruct (0 <? ret_of a); by apply follows_ret.
Qed.

(** An exchange: an unsent command and an answer that did not arrive look the
    same to the caller. *)
Lemma keeps_exchange fd s cmd msec (Q : reply -> phase -> Prop) :
  cmd = command_of s -> sends s = true -> s <> Operator ->
  (forall ret, ret < 0 -> Q (Stop ret) (unsent fd s)) ->
  (forall a, (length (data_of a) <= 1024)%nat ->
    Q (if arrived a then Got (ret_of a) (fill (zeros 1024) (data_of a)) else Stop (ret_of a))
      (answered undef fd s a)) ->
  keeps (Next fd s) (exchange fd cmd msec) Q.
Proof.
  intros -> Hs Hne Hu Ha. eapply follows_bind with
    (Q1 := fun ret q => q = if ret <? 0 then unsent fd s else Wait fd s).
  - apply follows_send. intros ret. eexists. cbn [delta].
    rewrite bool_decide_eq_true_2, Hs by done. cbn [andb]. destruct s; done.
  - intros ret q ->. destruct (Z.ltb_spec ret 0); [apply follows_ret; auto|by apply keeps_receive].
Qed.

(** A command whose answer does not matter. *)
Lemma keeps_command fd s s' cmd msec :
  cmd = command_of s -> sends s = true -> s <> Operator ->
  unsent fd s = Next fd s' -> (forall a, answered undef fd s a = Next fd s') ->
  keeps (Next fd s) (command fd cmd msec) (fun _ q => q = Next fd s').
Proof.
  intros Hc Hs Hne Hu Ha. eapply follows_bind with (Q1 := fun _ q => q = Next fd s').
  - apply keeps_exchange; auto.
  - intros [ret|ret rx] q ->; by apply follows_ret.
Qed.

(** The card query, before and after the code was sent. *)
Definition card_phase (fd : Z) (again : bool) (ret : Z) : phase :=
  match card_switch ret with
  | None => Stopped fd
  | Some true => if again then Next fd Signal else Next fd Unlock
  | Some false => Next fd Signal
  end.

Lemma card_switch_neg ret : ret < 0 -> card_switch ret = Some false.
Proof. intros Hr. unfold card_switch. by rewrite (proj2 (Z.ltb_lt ret 0)). Qed.

Lemma cpin_cases_short : Forall (fun '(c, _) => nonzero c /\ (length c < 1024)%nat) cpin_cases.
Proof.
  repeat constructor; try (cbn; lia); cbn; discriminate.
Qed.

Lemma card_switch_case t :
  card_switch (case_of t cpin_cases 0) =
  if bool_decide (t = ANS_READY) then Some false
  else if bool_decide (t = ANS_SIM_PIN) then Some true else None.
Proof. unfold cpin_cases. cbn [case_of]. repeat case_bool_decide; done. Qed.

Lemma keeps_check_cpin (fd : Z) (again : bool) :
  keeps (Next fd (if again then Requery else Query)) (lib_4g_check_cpin fd)
    (fun ret q => q = card_phase fd again ret).
Proof.
  set (s := if again then Requery else Query).
  eapply follows_bind with (Q1 := fun r q =>
    match r with
    | Stop ret => q = card_phase fd again ret
    | Got _ rx => exists t, str_switch rx cpin_cases 0 = Some (case_of t cpin_cases 0) /\
        q = card_phase fd again (case_of t cpin_cases 0)
    end).
  - apply keeps_exchange; [by destruct again|by destruct again|by destruct again| |].
    + intros ret Hr. unfold card_phase. rewrite card_switch_neg by done. by destruct again.
    + intros a Hl. unfold arrived. destruct (Z.ltb_spec 0 (ret_of a)) as [Hp|Hn].
      * exists (upto0 (data_of a)). rewrite rxbuf_switch by (done || apply cpin_cases_short).
        split; [done|]. unfold card_phase. rewrite card_switch_case. unfold s.
        destruct again; cbn [answered]; unfold arrived; rewrite (proj2 (Z.ltb_lt 0 _)) by done;
          cbn [negb]; repeat case_bool_decide; done.
      * unfold card_phase, s. destruct (Z.ltb_spec (ret_of a) 0) as [Hneg|Hz].
        -- rewrite card_switch_neg by done. destruct again; cbn [answered]; unfold arrived;
             rewrite (proj2 (Z.ltb_ge 0 _)), (proj2 (Z.ltb_lt _ 0)) by lia; done.
        -- assert (ret_of a = 0) as E by lia. rewrite E.
           destruct again; cbn [answered]; unfold arrived; by rewrite E.
  - intros [ret|ret rx] q Hq; [by apply follows_ret|]. destruct Hq as (t & E & ->).
    apply follows_mem. rewrite E. by intros ? [= <-].
Qed.

Lemma keeps_csq fd : keeps (Next fd Signal) (lib_4g_get_csq fd) (fun _ q => q = Next fd Operator).
Proof.
  eapply follows_bind with (Q1 := fun _ q => q = Next fd Operator).
  - apply keeps_exchange; done.
  - intros [ret|ret rx] q ->; [by apply follows_ret|].
    eapply follows_bind with (Q1 := fun _ q => q = Next fd Operator); [by apply follows_mem|].
    intros [p|] q ->; by apply follows_mem.
Qed.

Definition dial_stage (c : Z) : stage :=
  if c =? CARD_CMCC then Mode true
  else if (c =? CARD_CUCC) || (c =? CARD_CTCC) then Mode false else Hangup.

Lemma cops_cases_nonzero : Forall (fun '(c, _) => nonzero c) cops_cases.
Proof. repeat constructor; discriminate. Qed.

Lemma operator_token d p : (20 <= length d)%nat -> (length d <= 1024)%nat ->
  second_token (fill (zeros 1024) d) [quote] [quote] = Some (Some p) ->
  str_switch p cops_cases 0 = Some (operator_of d).
Proof.
  intros Hd Hl Hp. unfold operator_of. rewrite (proj2 (Nat.ltb_ge _ _)) by done.
  destruct (fill_cases d Hl) as [(r & E & Hlt)|(E & Hlen & Ef)].
  - rewrite E in Hp. destruct (second_token_tokens [quote] (upto0 d) r eq_refl (upto0_nonzero d) Hlt) as [x Ex].
    rewrite Ex in Hp. destruct (tokens [quote] (upto0 d) !! 1%nat) as [t|] eqn:Et; [|done].
    injection Hp as <-. apply text_switch; [|apply cops_cases_nonzero].
    apply (Forall_lookup_1 nonzero (tokens [quote] (upto0 d)) 1); [|done].
    apply tokens_nonzero, upto0_nonzero.
  - exfalso. rewrite Ef in Hp. unfold second_token, strcpy in Hp.
    assert (cstr d = None) as Ec.
    { destruct (cstr d) as [s|] eqn:Es; [|done]. apply cstr_inv in Es as (r & -> & Hs).
      assert (nonzero (s ++ 0 :: r)) as Hn by (rewrite <- E; apply upto0_nonzero).
      apply nonzero_app in Hn as [_ Hn]. apply Forall_cons in Hn as [? _]. done. }
    by rewrite Ec in Hp.
Qed.

Lemma keeps_cops fd : keeps (Next fd Operator) (lib_4g_check_cops fd)
  (fun ret q => q = Next fd (dial_stage (card_type_of ret))).
Proof.
  eapply follows_bind with (Q1 := fun _ q => q = Wait fd Operator).
  { apply follows_send. intros ret. eexists. cbn [delta]. rewrite bool_decide_eq_true_2 by done.
    cbn [andb sends]. split; [done|]. by destruct (ret <? 0). }
  intros _ q ->. eapply follows_bind with (Q1 := fun r q =>
    match r with
    | Stop _ => q = Next fd (dial_stage 0)
    | Got ret rx => exists d, rx = fill (zeros 1024) d /\ ret = Z.of_nat (length d) /\
        (length d <= 1024)%nat /\ q = Next fd (dial_stage (operator_of d))
    end).
  { apply keeps_receive. intros a Ha. cbn [answered]. unfold arrived.
    destruct (Z.ltb_spec 0 (ret_of a)) as [Hp|Hn].
    - exists (data_of a). destruct a as [c|d]; [cbn in Hp; lia|]. split_and!; try done.
      unfold dial_stage. cbn [data_of]. by repeat case_match.
    - done. }
  intros [ret|ret rx] q Hq; [by apply follows_ret|]. destruct Hq as (d & -> & -> & Hl & ->).
  destruct (Z.ltb_spec (Z.of_nat (length d)) 20) as [Hs|Hb].
  { apply follows_ret. unfold operator_of, card_type_of. rewrite (proj2 (Nat.ltb_lt _ _)) by lia.
    by rewrite (proj2 (Z.ltb_ge _ _)) by lia. }
  eapply follows_bind with (Q1 := fun p q =>
    second_token (fill (zeros 1024) d) [quote] [quote] = Some p /\ q = Next fd (dial_stage (operator_of d))).
  { apply follows_mem. auto. }
  intros [p|] q [Hp ->]; [|by apply follows_mem]. apply follows_mem. intros v Hv.
  rewrite (operator_token d p) in Hv by (done || lia). injection Hv as <-. unfold card_type_of.
  destruct (Z.ltb_spec (operator_of d) 0) as [Hneg|]; [|done]. exfalso. revert Hneg.
  unfold operator_of. rewrite (proj2 (Nat.ltb_ge _ _)) by lia.
  destruct (tokens _ _ !! 1%nat) as [t|]; [|done]. cbn [case_of cops_cases].
  repeat case_bool_decide; done.
Qed.

Lemma keeps_connect fd : keeps (Next fd Dial) (lib_4g_ecm_connect fd) (fun _ q => q = Next fd Hangup).
Proof.
  eapply follows_bind with (Q1 := fun r q =>
    match r with
    | Stop _ => q = Next fd Hangup
    | Got _ rx => exists b : bool, str_eq rx (ANS_CME_UNKNOWN ++ [0]) = Some b /\
        q = Next fd (if b then Hangup else Address)
    end).
  - apply keeps_exchange; [done..|]. intros a Ha. cbn [answered]. unfold arrived.
    destruct (0 <? ret_of a); [|done]. eexists. rewrite rxbuf_eq;
      [|done|repeat constructor; discriminate|cbn; lia].
    split; [done|]. cbn [andb negb]. by case_bool_decide.
  - intros [ret|ret rx] q Hq; [by apply follows_ret|]. destruct Hq as (b & E & ->).
    eapply follows_bind with (Q1 := fun b' q => b' = b /\ q = Next fd (if b then Hangup else Address)).
    { apply follows_mem. rewrite E. by intros ? [= <-]. }
    intros b' q [-> ->]. destruct b; [by apply follows_ret|].
    eapply follows_bind with (Q1 := fun _ q => q = Next fd Hangup).
    { apply follows_shell. intros out. eexists. cbn [delta]. by rewrite bool_decide_eq_true_2. }
    intros _ q ->. by apply follows_ret.
Qed.

Lemma keeps_dialing fd b : keeps (Next fd (Mode b)) (dialing undef fd (command_of (Apn b)))
  (fun _ q => q = Next fd Hangup).
Proof.
  eapply follows_bind with (Q1 := fun ret q => q = Next fd (if ret <? 0 then Hangup else Apn b)).
  { eapply follows_bind with (Q1 := fun r q =>
      let ret := match r with Stop ret => ret | Got _ _ => undef end in
      q = Next fd (if ret <? 0 then Hangup else Apn b)).
    - apply keeps_exchange; [done..| |].
      + intros ret Hr. cbn. by rewrite (proj2 (Z.ltb_lt ret 0)).
      + intros a Ha. cbn [answered]. unfold arrived. destruct (0 <? ret_of a); by destruct (_ <? 0).
    - intros [ret|ret rx] q ->; by apply follows_ret. }
  intros ret q ->. destruct (ret <? 0); [by apply follows_ret|].
  eapply follows_bind with (Q1 := fun r q =>
    q = Next fd (match r with Stop _ => Hangup | Got _ _ => Dial end)).
  { apply keeps_exchange; [by destruct b..| |].
    - done.
    - intros a Ha. cbn [answered]. by destruct (arrived a). }
  intros [r|r rx] q ->; [by apply follows_ret|].
  eapply follows_bind; [apply keeps_connect|]. intros r' q ->. destruct (r' <? 0); by apply follows_ret.
Qed.

Lemma keeps_online fd : keeps (Next fd Signal) (online undef fd) (fun ret q => ret = 0 /\ q = Over).
Proof.
  eapply follows_bind; [apply keeps_csq|]. intros _ q ->.
  eapply follows_bind; [apply keeps_cops|]. intros ret q ->. cbn beta.
  eapply follows_bind with (Q1 := fun _ q => q = Next fd Hangup).
  { unfold dial_stage. destruct (card_type_of ret =? CARD_CMCC); [apply keeps_dialing|].
    destruct (_ || _); [apply (keeps_dialing fd false)|by apply follows_ret]. }
  intros _ q ->. eapply follows_bind with (Q1 := fun _ q => q = Over).
  { apply follows_close. eexists. cbn [delta]. by rewrite bool_decide_eq_true_2. }
  intros _ q ->. by apply follows_ret.
Qed.

(** How [main] ends. *)
Definition ended (ret : Z) (p : phase) : Prop :=
  match p with
  | Over => ret = 0
  | Broken | Stopped _ => ret = -1
  | _ => False
  end.

Lemma keeps_main : keeps Off (main undef) ended.
Proof.
  eapply follows_bind with (Q1 := fun '(ret, fd) q => q = if ret <? 0 then Broken else Next fd Echo).
  { apply follows_init. intros ret fd. eexists. cbn [delta]. by rewrite bool_decide_eq_true_2. }
  intros [ret fd] q ->. destruct (ret <? 0); [by apply follows_ret|].
  assert (forall q, q = Next fd Signal -> keeps q (online undef fd) ended) as Hon.
  { intros q ->. eapply follows_weaken; [apply keeps_online|]. by intros a q [-> ->]. }
  eapply follows_bind; [by apply (keeps_command fd Echo Query)|]. intros _ q ->.
  eapply follows_bind; [apply (keeps_check_cpin fd false)|]. intros c q ->. unfold card_phase.
  destruct (card_switch c) as [[]|]; [|by apply Hon|by apply follows_ret].
  eapply follows_bind with (Q1 := fun _ q => q = Next fd Requery).
  { unfold lib_4g_decode. repeat (eapply follows_bind with (Q1 := fun _ q => q = Next fd Unlock);
      [by apply follows_mem|intros ? ? ->]). by apply (keeps_command fd Unlock Requery). }
  intros _ q ->. eapply follows_bind; [apply (keeps_check_cpin fd true)|]. intros c' q ->. unfold card_phase.
  destruct (card_switch c') as [[]|]; [by apply Hon|by apply Hon|by apply follows_ret].
Qed.

End Session.

(** ** What the protocol says about a trace *)

Definition pin_event (e : event) : Prop := match e with Send _ d _ => d = CMD_PIN | _ => False end.
Definition close_event (e : event) : Prop := match e with Close _ => True | _ => False end.

(** The code was sent, or never will be. *)
Definition late (p : phase) : bool :=
  match p with
  | Off | Next _ (Echo | Query | Unlock) | Wait _ (Echo | Query) => false
  | _ => true
  end.

(** Decide an event step: the guards of [delta]. *)
Ltac delta_inv H :=
  cbn [delta] in H;
  repeat match type of H with
  | context [bool_decide ?P] => let E := fresh "E" in destruct (bool_decide P) eqn:E;
      [apply bool_decide_eq_true in E|apply bool_decide_eq_false in E]; cbn [andb] in H
  end; try discriminate H.

Section Traces.
Context (undef : Z).
Abbreviation step := (delta undef).
Abbreviation path := (run (delta undef)).

(** Which stages an answer leads to. *)
Lemma answered_cases fd s a :
  answered undef fd s a = Stopped fd \/
  exists s', answered undef fd s a = Next fd s' /\ s' <> Echo /\ (s' = Query -> s = Echo) /\
    (s' = Unlock -> s = Query /\ upto0 (data_of a) = ANS_SIM_PIN) /\
    (s' = Address -> s = Dial /\ arrived a = true /\ upto0 (data_of a) <> ANS_CME_UNKNOWN).
Proof.
  destruct s; cbn [answered]; repeat case_match; repeat case_bool_decide;
    try (by left); right; eexists; split; try reflexivity; split_and!; try done.
  all: try (intros _; split_and!; try done).
  all: match goal with H : andb _ _ = true |- _ => apply andb_true_iff in H as [? H] end; done.
Qed.

Lemma delta_late p e q : late p = true -> step p e = Some q -> late q = true /\ ~ pin_event e.
Proof.
  intros Hp Hs. destruct p as [| |fd s|fd s|fd|]; try done; destruct e; try done; delta_inv Hs.
  - destruct E as [-> ->]. destruct (sends s) eqn:Es; [|done]. injection Hs as <-.
    split; [destruct (ret <? 0); destruct s; done|]. cbn. destruct s as [| | | | | |b|b| | |]; try done; destruct b; done.
  - injection Hs as <-. by split; [|intros []].
  - injection Hs as <-. by split; [|intros []].
  - injection Hs as <-. split; [|by intros []].
    destruct (answered_cases fd s a) as [->|(s' & -> & He & Hq & Hu & _)]; [done|].
    destruct s'; try done; [by rewrite Hq in Hp|by rewrite (proj1 (Hu eq_refl)) in Hp].
Qed.

Lemma late_no_pin es : forall p q, late p = true -> path p es = Some q -> Forall (fun e => ~ pin_event e) es.
Proof.
  induction es as [|e es IH]; intros p q Hp Hr; [constructor|]. cbn [run] in Hr.
  destruct (step p e) as [p'|] eqn:E; [|done]. destruct (delta_late p e p' Hp E). constructor; eauto.
Qed.

(** The last event tells how the phase was reached. *)
Definition reached (p : phase) (es : list event) : Prop :=
  match p with
  | Next fd Unlock => exists es0 a, es = es0 ++ [Recv fd a] /\ upto0 (data_of a) = ANS_SIM_PIN
  | Wait fd Dial => exists es0 n, es = es0 ++ [Send fd CMD_CONNECT n]
  | Next fd Address => exists es0 n a, es = es0 ++ [Send fd CMD_CONNECT n; Recv fd a] /\
      arrived a = true /\ upto0 (data_of a) <> ANS_CME_UNKNOWN
  | Over => exists es0 fd, es = es0 ++ [Close fd] /\ Forall (fun e => ~ close_event e) es0
  | _ => True
  end /\ (p <> Over -> Forall (fun e => ~ close_event e) es).

Lemma path_reached es p : path Off es = Some p -> reached p es.
Proof.
  revert p. induction es as [|e es IH] using rev_ind; intros p Hr.
  { injection Hr as <-. split; [done|constructor]. }
  rewrite run_app in Hr. destruct (path Off es) as [p0|] eqn:E0; [|done]. cbn [mbind option_bind run] in Hr.
  destruct (step p0 e) as [p1|] eqn:E1; [|done]. injection Hr as <-.
  specialize (IH p0 eq_refl) as [IH Hnc].
  assert (p0 <> Over) as Hno by (intros ->; by destruct e). specialize (Hnc Hno).
  assert (forall e', ~ close_event e' -> Forall (fun e => ~ close_event e) (es ++ [e'])) as Hsnoc.
  { intros e' He'. apply Forall_app. split; [done|]. by repeat constructor. }
  destruct p0 as [| |fd s|fd s|fd|]; destruct e; try done; delta_inv E1.
  - injection E1 as <-. split; [by destruct (ret <? 0)|]. intros _. apply Hsnoc. by intros [].
  - destruct (sends s) eqn:Es; [|done]. destruct E as [-> ->]. injection E1 as <-.
    split; [|intros _; apply Hsnoc; by intros []].
    destruct (ret <? 0); destruct s; cbn; try done. by exists es, ret.
  - injection E1 as <-. split; [done|]. intros _. apply Hsnoc. by intros [].
  - injection E1 as <-. split; [|done]. by exists es, fd0.
  - subst fd0. injection E1 as <-. split; [|intros _; apply Hsnoc; by intros []].
    destruct (answered_cases fd s a) as [->|(s' & -> & _ & _ & Hu & Ha)]; [done|].
    destruct s'; try done.
    + exists es, a. split; [done|]. by apply Hu.
    + destruct (Ha eq_refl) as (-> & ? & ?). destruct IH as (es0 & n & ->).
      exists es0, n, a. by rewrite <- app_assoc.
Qed.

(** A dial command with another answer than [+CME ERROR: unknown] leaves the
    request for an address as the only way on. *)
Lemma dialled_requests p fd fd' n a es q : path p (Send fd CMD_CONNECT n :: Recv fd' a :: es) = Some q ->
  arrived a = true -> upto0 (data_of a) <> ANS_CME_UNKNOWN -> (exists ret, ended ret q) ->
  exists out es', es = Shell DHCP out :: es'.
Proof.
  intros Hp Ha Hu [ret Hq]. cbn [run] in Hp. destruct p as [| |fd0 s|fd0 s|fd0|]; try done.
  destruct (step (Next fd0 s) _) as [p1|] eqn:E1; [|done]. delta_inv E1. destruct E as [<- Ec].
  assert (s = Dial) as -> by (destruct s as [| | | | | |b|b| | |]; try done; by destruct b).
  injection E1 as <-. cbn [mbind option_bind] in Hp. destruct (n <? 0); [done|].
  destruct (step (Wait fd Dial) _) as [p2|] eqn:E2; [|done]. delta_inv E2. injection E2 as <-.
  cbn [mbind option_bind answered] in Hp. rewrite Ha, bool_decide_eq_false_2 in Hp by done. cbn [andb negb] in Hp.
  destruct es as [|e es]; [by injection Hp as <-|]. cbn [run] in Hp.
  destruct (step (Next fd Address) e) as [p3|] eqn:E3; [|done]. destruct e; try done; delta_inv E3.
  destruct E0 as [_ ->]. eauto.
Qed.

End Traces.

(** C23: Whatever the modem answers and however the port fails, the program keeps
    to the protocol [delta], also when it faults.  So the SIM code is sent at
    most once in a run, and only right after the modem asked for it.  The address
    is requested only right after the dial command was sent and answered with
    anything but exactly [+CME ERROR: unknown], and in a run that returns every
    such answer makes the program request it, be it OK or another error report.
    The program returns 0 after closing the port, its last act, or -1 without
    ever closing it. *)
Theorem modem_session `{Serial} (undef : Z) :
  emits (main undef) (fun r es =>
    (exists p, run (delta undef) Off es = Some p) /\
    (forall es1 fd ret es2, es = es1 ++ Send fd CMD_PIN ret :: es2 ->
      (exists es0 a, es1 = es0 ++ [Recv fd a] /\ upto0 (data_of a) = ANS_SIM_PIN) /\
      Forall (fun e => ~ pin_event e) es2) /\
    (forall es1 cmd out es2, es = es1 ++ Shell cmd out :: es2 ->
      cmd = DHCP /\ exists es0 fd n a, es1 = es0 ++ [Send fd CMD_CONNECT n; Recv fd a] /\
        arrived a = true /\ upto0 (data_of a) <> ANS_CME_UNKNOWN) /\
    (forall ret es1 fd fd' n a es2, r = Some ret ->
      es = es1 ++ Send fd CMD_CONNECT n :: Recv fd' a :: es2 ->
      arrived a = true -> upto0 (data_of a) <> ANS_CME_UNKNOWN ->
      exists out es3, es2 = Shell DHCP out :: es3) /\
    (forall ret, r = Some ret ->
      (ret = 0 /\ exists es0 fd, es = es0 ++ [Close fd] /\ Forall (fun e => ~ close_event e) es0) \/
      (ret = -1 /\ Forall (fun e => ~ close_event e) es))).
Proof.
  eapply emits_weaken; [apply keeps_main|]. intros r es (p & Hp & Hend).
  split; [eauto|]. split; [|split; [|split]].
  - intros es1 fd ret es2 ->. rewrite run_app in Hp. destruct (run _ Off es1) as [p1|] eqn:E1; [|done].
    cbn [mbind option_bind run] in Hp. destruct (delta undef p1 _) as [p2|] eqn:E2; [|done].
    apply path_reached in E1 as [E1 _].
    destruct p1 as [| |fd' s|fd' s|fd'|]; try done. delta_inv E2. destruct E as [-> Ec].
    assert (s = Unlock) as -> by (destruct s as [| | | | | |b|b| | |]; try done; by destruct b).
    split; [done|]. injection E2 as <-. eapply late_no_pin; [|exact Hp]. by destruct (ret <? 0).
  - intros es1 cmd out es2 ->. rewrite run_app in Hp. destruct (run _ Off es1) as [p1|] eqn:E1; [|done].
    cbn [mbind option_bind run] in Hp. destruct (delta undef p1 _) as [p2|] eqn:E2; [|done].
    apply path_reached in E1 as [E1 _].
    destruct p1 as [| |fd' s|fd' s|fd'|]; try done. delta_inv E2. destruct E as [-> ->].
    destruct E1 as (es0 & n & a & E1 & ?). split; [done|]. by exists es0, fd', n, a.
  - intros ret es1 fd fd' n a es2 -> -> Ha Hu. rewrite run_app in Hp.
    destruct (run _ Off es1) as [p1|]; [|done]. eapply dialled_requests; eauto.
  - intros ret ->. apply path_reached in Hp as [Hp Hn].
    destruct p; try done; [right|right|left]; (split; [done|]); auto.
Qed.

(** A modem with a locked China Mobile card: the program unlocks it, dials,
    requests an address and closes the port. *)
Definition sample_answers : list (list Z) :=
  [crlf ++ text "OK" ++ crlf; ANS_SIM_PIN; crlf ++ text "OK" ++ crlf; ANS_READY;
   crlf ++ text "+CSQ: 17,99" ++ crlf ++ crlf ++ text "OK" ++ crlf;
   crlf ++ text "+COPS: 0,0," ++ quoted "CMCC" ++ text ",7" ++ crlf ++ crlf ++ text "OK" ++ crlf;
   crlf ++ text "OK" ++ crlf; crlf ++ text "OK" ++ crlf; crlf ++ text "OK" ++ crlf].

Definition commands_sent (es : list event) : list (list Z) :=
  omap (fun e => match e with Send _ d _ => Some d | Shell d _ => Some d | _ => None end) es.

Example modem_online :
  let '(r, s) := @main Scripted 0 (@mk_st Scripted (mk_script sample_answers 3 [] []) []) in
  r = Some 0 /\
  commands_sent (@wire Scripted s) =
    [CMD_ATE0; CMD_CPIN; CMD_PIN; CMD_CPIN; CMD_CSQ; CMD_COPS; CMD_ZSNT; CMD_APN_CMCC; CMD_CONNECT; DHCP].
Proof. vm_compute. done. Qed.

(** ** Reading the answers *)

Lemma upto0_text t : nonzero t -> upto0 t = t.
Proof. induction 1 as [|c l Hc _ IH]; [done|]. cbn. by rewrite (proj2 (Z.eqb_neq c 0)), IH. Qed.

Section Answers.
Context `{Serial} (s : st) (fd : Z) (t : list Z).
Hypothesis (Ht : nonzero t) (Hne : t <> []) (Hlen : (length t < 1024)%nat).

(** The next command is sent and answered with the text [t]. *)
Definition answers_with (cmd : list Z) : Prop :=
  0 <= fst (serial_send (world s) fd cmd) /\
  fst (serial_readn (snd (serial_send (world s) fd cmd)) fd 1024 500) = Data t.

Lemma receive_text cmd : answers_with cmd ->
  exists s', exchange fd cmd 500 s = (Some (Got (Z.of_nat (length t)) (fill (zeros 1024) t)), s') /\
    (lib_serial_send fd cmd ≫= fun _ => receive fd 500) s =
      (Some (Got (Z.of_nat (length t)) (fill (zeros 1024) t)), s').
Proof using Ht Hne Hlen.
  intros [Hs Hr]. unfold exchange, receive, lib_serial_send, mbind, M_bind.
  destruct (serial_send (world s) fd cmd) as [n w]. cbn [fst snd] in *.
  rewrite (proj2 (Z.ltb_ge n 0)) by done. unfold lib_serial_readn_select, record. cbn [world].
  destruct (serial_readn w fd 1024 500) as [a w']. cbn [fst snd] in *. subst a.
  assert (take (Z.to_nat 1024) t = t) as Et by (apply take_ge; lia). cbn [cut_to]. rewrite Et.
  cbn [ret_of data_of]. rewrite (proj2 (Z.ltb_lt 0 _)) by (destruct t; [done|cbn; lia]). eauto.
Qed.

Lemma rxbuf_text : exists r, fill (zeros 1024) t = t ++ 0 :: r.
Proof using Ht Hne Hlen.
  destruct (fill_cases t) as [(r & E & _)|(_ & E & _)]; [lia| |lia]. exists r. by rewrite upto0_text in E by done.
Qed.

Lemma csq_reads pre num rest : answers_with CMD_CSQ ->
  t = pre ++ 32 :: num ++ comma :: rest -> pre <> [] -> 32 ∉ pre -> all_digits num -> num <> [] -> is_int (digits num 0) ->
  fst (lib_4g_get_csq fd s) = Some (digits num 0).
Proof using Ht Hne Hlen.
  intros Ha Et Hpre Hsp Hnum Hn Hint. unfold lib_4g_get_csq, mbind, M_bind.
  destruct (receive_text CMD_CSQ Ha) as (s' & -> & _). destruct rxbuf_text as [r ->].
  unfold mem, second_token. destruct (strcpy_rxbuf t r Ht Hlen) as [x ->]. cbn [mbind option_bind].
  assert (token [32] pre) as Hp.
  { rewrite Et in Ht. apply nonzero_app in Ht as [Hz _]. apply Forall_forall. intros c Hc.
    split; [by apply (proj1 (Forall_forall _ _) Hz)|]. unfold delim. cbn. rewrite orb_false_r.
    apply Z.eqb_neq. by intros ->. }
  pose proof (strtok_next [32] [] pre 32 (num ++ comma :: rest ++ 0 :: x) eq_refl eq_refl Hpre Hp) as E1.
  assert (t ++ 0 :: x = [] ++ pre ++ 32 :: num ++ comma :: rest ++ 0 :: x) as ->.
  { rewrite Et, <- app_assoc. cbn. by rewrite <- app_assoc. }
  change (length (@nil Z)) with 0%nat in E1. rewrite E1. cbn [mbind option_bind].
  assert (token [comma] num) as Htn.
  { eapply Forall_impl; [exact Hnum|]. intros c Hc. cbn in Hc. split; [lia|]. unfold delim. cbn.
    rewrite orb_false_r. apply Z.eqb_neq. unfold comma. lia. }
  rewrite strtok_next by done. cbn [mbind option_bind fst]. unfold string_at. cbn [fmap option_fmap option_map].
  rewrite drop_token. by rewrite atoi_field.
Qed.

Lemma csq_faults : answers_with CMD_CSQ -> 32 ∉ t -> fst (lib_4g_get_csq fd s) = None.
Proof using Ht Hne Hlen.
  intros Ha Hsp. unfold lib_4g_get_csq, mbind, M_bind.
  destruct (receive_text CMD_CSQ Ha) as (s' & -> & _). destruct rxbuf_text as [r ->].
  unfold mem, second_token. destruct (strcpy_rxbuf t r Ht Hlen) as [x ->]. cbn [mbind option_bind].
  assert (token [32] t) as Hp.
  { apply Forall_forall. intros c Hc. split; [by apply (proj1 (Forall_forall _ _) Ht)|].
    unfold delim. cbn. rewrite orb_false_r. apply Z.eqb_neq. by intros ->. }
  pose proof (strtok_last [32] [] t x eq_refl Hne Hp) as E1. cbn [app length] in E1. rewrite E1.
  cbn [mbind option_bind]. pose proof (strtok_none [comma] t [] x eq_refl (Forall_nil_2 _)) as E2.
  cbn [app] in E2. by rewrite E2.
Qed.

Lemma cops_reads : answers_with CMD_COPS -> (20 <= length t)%nat ->
  fst (lib_4g_check_cops fd s) = (fun k => case_of k cops_cases 0) <$> tokens [quote] t !! 1%nat.
Proof using Ht Hne Hlen.
  intros Ha Hl. destruct (receive_text CMD_COPS Ha) as (s' & _ & E).
  assert (lib_4g_check_cops fd s = (match Got (Z.of_nat (length t)) (fill (zeros 1024) t) with
    | Stop _ => mret 0
    | Got ret rxbuf => if ret <? 20 then mret ret else
        mem (second_token rxbuf [quote] [quote]) ≫= fun p =>
        match p with None => fault | Some p => mem (str_switch p cops_cases 0) end end : M Z) s') as ->.
  { revert E. unfold lib_4g_check_cops, mbind, M_bind. destruct (lib_serial_send fd CMD_COPS s) as [[n|] s1]; [|done].
    by intros ->. }
  rewrite (proj2 (Z.ltb_ge _ 20)) by lia. unfold mem, mbind, M_bind. destruct rxbuf_text as [r ->].
  destruct (second_token_tokens [quote] t r eq_refl Ht Hlen) as [x ->].
  destruct (tokens [quote] t !! 1%nat) as [k|] eqn:Ek; [|done]. cbn [fmap option_fmap option_map].
  rewrite text_switch; [done| |apply cops_cases_nonzero].
  eapply (Forall_lookup_1 nonzero (tokens [quote] t)); [by apply tokens_nonzero|done].
Qed.

End Answers.

(** The signal and operator queries read their answers: the number between
    the first space and the comma after it is returned as the signal strength,
    and the operator is the one whose name stands in the first quotes, of an
    answer of 20 bytes or more.  An answer to the signal query without a space,
    such as an error report, and such an operator answer without quotes make
    the program dereference NULL. *)
Theorem modem_answers `{Serial} (s : st) (fd : Z) (t : list Z) :
  nonzero t -> t <> [] -> (length t < 1024)%nat ->
  (answers_with s fd t CMD_CSQ ->
    (forall pre num rest, t = pre ++ 32 :: num ++ comma :: rest ->
      pre <> [] -> 32 ∉ pre -> all_digits num -> num <> [] -> is_int (digits num 0) ->
      fst (lib_4g_get_csq fd s) = Some (digits num 0)) /\
    (32 ∉ t -> fst (lib_4g_get_csq fd s) = None)) /\
  (answers_with s fd t CMD_COPS -> (20 <= length t)%nat ->
    (forall pre name rest, t = pre ++ quote :: name ++ quote :: rest ->
      pre <> [] -> quote ∉ pre -> name <> [] -> quote ∉ name ->
      fst (lib_4g_check_cops fd s) = Some (case_of name cops_cases 0)) /\
    (quote ∉ t -> fst (lib_4g_check_cops fd s) = None)).
Proof.
  intros Ht Hne Hlen.
  assert (forall l, nonzero l -> quote ∉ l -> token [quote] l) as Htok.
  { intros l Hl Hq. apply Forall_forall. intros c Hc. split; [by apply (proj1 (Forall_forall _ _) Hl)|].
    unfold delim. cbn. rewrite orb_false_r. apply Z.eqb_neq. by intros ->. }
  split.
  - intros Ha. split; [intros; by eapply csq_reads|by apply csq_faults].
  - intros Ha Hl. rewrite (cops_reads s fd t) by done. split.
    + intros pre name rest Et Hpre Hq Hn Hqn. rewrite Et in Ht |- *.
      apply nonzero_app in Ht as [Hp Ht]. apply Forall_cons in Ht as [_ Ht]. apply nonzero_app in Ht as [Hnz _].
      rewrite tokens_token; [|done|by apply Htok|right; by eexists _, _].
      cbn [lookup list_lookup]. change (drop 1 (quote :: ?l)) with l.
      rewrite tokens_token; [done|done|by apply Htok|right; by eexists _, _].
    + intros Hq. rewrite <- (app_nil_r t), tokens_token; [done|done|by apply Htok|by left].
Qed.

Lemma modem_answers_witness :
  let t := crlf ++ text "+CSQ: 17,99" ++ crlf in
  let s := @mk_st Scripted (mk_script [t] 3 [] []) [] in
  fst (@lib_4g_get_csq Scripted 3 s) = Some 17 /\
  let t := crlf ++ text "ERROR" ++ crlf in
  let s := @mk_st Scripted (mk_script [t] 3 [] []) [] in
  fst (@lib_4g_get_csq Scripted 3 s) = None.
Proof.
  assert (forall t, forallb (fun c => negb (c =? 0)) t = true -> nonzero t) as Hz.
  { intros t Hc. apply Forall_forall. intros c Hin. rewrite forallb_forall in Hc.
    apply list_elem_of_In in Hin. specialize (Hc c Hin). by apply negb_true_iff, Z.eqb_neq in Hc. }
  intros t s. split.
  - apply (proj1 (proj1 (@modem_answers Scripted s 3 t (Hz t eq_refl) ltac:(discriminate)
      ltac:(vm_compute; lia)) ltac:(split; [vm_compute; discriminate|reflexivity]))
      (crlf ++ text "+CSQ:") (text "17") (text "99" ++ crlf)); try done.
    + apply (bool_decide_unpack _). by vm_compute.
    + unfold all_digits. apply (bool_decide_unpack _). by vm_compute.
  - intros t' s'. apply (proj2 (proj1 (@modem_answers Scripted s' 3 t' (Hz t' eq_refl) ltac:(discriminate)
      ltac:(vm_compute; lia)) ltac:(split; [vm_compute; discriminate|reflexivity]))).
    apply (bool_decide_unpack _). by vm_compute.
Defined.
