(* ===== verification/ModemGps.v ===== *)
(** * Positions from the modem (src/4G/4g.c, [lib_4g_analytic_zgpsr])

    The parser of the modem's position report, which takes time and date apart
    in double precision, and its calendar.  [monthday] of this file ends without
    a [return] for a month that does not exist; its value is then [undef]. *)

From Stdlib Require Import SpecFloat.
From S2P Require Import Prelude CStr CFloat Gps.

(** ** Calendar *)

Definition monthday (undef m team : Z) : Z :=
  match m with
  | 1 => 31 | 3 => 31 | 5 => 31 | 7 => 31 | 8 => 31 | 10 => 31 | 12 => 31
  | 4 => 30 | 6 => 30 | 9 => 30 | 11 => 30
  | 2 => if team =? 1 then 29 else if team =? 0 then 28 else undef
  | _ => undef
  end.

Definition leap (y : Z) : Z :=
  if negb (Z.rem y 4 =? 0) then 0
  else if negb (Z.rem y 100 =? 0) then 1
  else if negb (Z.rem y 400 =? 0) then 0
  else 1.

Definition get_yday (undef year mon day : Z) : Z :=
  let team := leap year in
  day + fold_left (fun d m => d + monthday undef m team) (seqZ 1 (mon - 1)) 0.

(** The weekday as [lib_4g_analytic_zgpsr] computes it. *)
Definition wday (y m d : Z) : Z :=
  Z.rem (d + 2 * m + Z.quot (3 * (m + 1)) 5 + y + Z.quot y 4 - Z.quot y 100 + Z.quot y 400) 7 + 1.

(** ** The report *)

(** The members of [struct tm] that are stored. *)
Record tm := mk_tm {
  tm_sec : Z; tm_min : Z; tm_hour : Z; tm_mday : Z; tm_mon : Z; tm_year : Z;
  tm_wday : Z; tm_yday : Z }.

Record lib_4g_gga := mk_gga {
  latitude : double; ns_indicator : Z; longitude : double; ew_indicator : Z;
  status : Z; satellite : Z }.

Record gps_attr := mk_attr { attr_gga : Z; attr_tm : Z }.

(** What the caller's structures hold. *)
Record out := mk_out { o_tm : tm; o_gga : lib_4g_gga; o_attr : gps_attr }.

Definition set_status (v : Z) (o : out) : out :=
  let g := o_gga o in
  mk_out (o_tm o)
    (mk_gga (latitude g) (ns_indicator g) (longitude g) (ew_indicator g) v (satellite g)) (o_attr o).
Definition set_time (s m h : Z) (o : out) : out :=
  let t := o_tm o in
  mk_out (mk_tm s m h (tm_mday t) (tm_mon t) (tm_year t) (tm_wday t) (tm_yday t)) (o_gga o) (o_attr o).
Definition set_latitude (x : double) (c : Z) (o : out) : out :=
  let g := o_gga o in
  mk_out (o_tm o) (mk_gga x c (longitude g) (ew_indicator g) (status g) (satellite g)) (o_attr o).
Definition set_longitude (x : double) (c : Z) (o : out) : out :=
  let g := o_gga o in
  mk_out (o_tm o) (mk_gga (latitude g) (ns_indicator g) x c (status g) (satellite g)) (o_attr o).
Definition set_date (y m d wd yd : Z) (o : out) : out :=
  let t := o_tm o in
  mk_out (mk_tm (tm_sec t) (tm_min t) (tm_hour t) d m y wd yd) (o_gga o) (o_attr o).
Definition set_satellite (v : Z) (o : out) : out :=
  let g := o_gga o in
  mk_out (o_tm o)
    (mk_gga (latitude g) (ns_indicator g) (longitude g) (ew_indicator g) (status g) v) (o_attr o).

(** [(int)temp % 100], then [temp / 100], three times. *)
Definition three_groups (temp : double) : option (Z * Z * Z) :=
  a ← to_int temp;
  let temp := ddiv temp hundred in
  b ← to_int temp;
  let temp := ddiv temp hundred in
  c ← to_int temp;
  Some (Z.rem a 100, Z.rem b 100, Z.rem c 100).

(** [strlen(p)], [p[index-1]] *)
Definition last_char (s : list Z) : option Z := n ← strlen s; bget s (n - 1).

Section Report.
Context (undef : Z).

(** The first steps: [p] is the token after [+ZGPSR:]. *)
Definition lib_4g_analytic_zgpsr (rxbuf : list Z) (o : out) : option (Z * out) :=
  '(_, buf, pos) ← strtok rxbuf 0 [LF];
  '(p, buf, pos) ← strtok buf pos [32];
  match p with None => Some (-1, o) | Some p =>
  same ← str_eq (drop p buf) (lit "+ZGPSR:");
  if negb same then Some (-1, set_status 0 o)
  else
  let o := set_status 1 o in
  '(p, buf, pos) ← strtok buf pos [comma];
  match p with None => Some (-1, o) | Some p =>                       (* UTC *)
  '(s, m, h) ← three_groups (ddiv (atof (drop p buf)) (double_of 1));
  let o := set_time s m (h + 8) o in
  '(p, buf, pos) ← strtok buf pos [comma];
  match p with None => Some (-1, o) | Some p =>                       (* latitude *)
  c ← last_char (drop p buf);
  let o := set_latitude (ddiv (atof (drop p buf)) hundred) c o in
  '(p, buf, pos) ← strtok buf pos [comma];
  match p with None => Some (-1, o) | Some p =>                       (* longitude *)
  c ← last_char (drop p buf);
  let o := set_longitude (ddiv (atof (drop p buf)) hundred) c o in
  '(p, buf, pos) ← strtok buf pos [comma];
  match p with None => Some (-1, o) | Some _ =>                       (* precision *)
  '(p, buf, pos) ← strtok buf pos [comma];
  match p with None => Some (-1, o) | Some _ =>                       (* height *)
  '(p, buf, pos) ← strtok buf pos [comma];
  match p with None => Some (-1, o) | Some _ =>                       (* fix *)
  '(p, buf, pos) ← strtok buf pos [comma];
  match p with None => Some (-1, o) | Some _ =>                       (* course *)
  '(p, buf, pos) ← strtok buf pos [comma];
  match p with None => Some (-1, o) | Some _ =>                       (* motion *)
  '(p, buf, pos) ← strtok buf pos [comma];
  match p with None => Some (-1, o) | Some _ =>                       (* motion *)
  '(p, buf, pos) ← strtok buf pos [comma];
  match p with None => Some (-1, o) | Some p =>                       (* date *)
  '(y, m, d) ← three_groups (atof (drop p buf));
  let y := y + 2000 - 1900 in
  let o := set_date y m d (wday y m d) (get_yday undef y m d) o in
  '(p, buf, pos) ← strtok buf pos [comma];
  match p with None => Some (-1, o) | Some p =>                       (* satellites *)
  n ← atoi (drop p buf);
  let o := set_satellite n o in
  '(_, _, _) ← strtok buf pos [comma];
  Some (0, mk_out (o_tm o) (o_gga o) (mk_attr 1 1))
  end end end end end end end end end end end end.
End Report.

(** ** Reports *)

(** The fields of a report: time of day with hundredths, position in digits with
    a fraction, six fields that are not used, date and number of satellites with
    what follows it. *)
Record report := mk_report {
  r_hour : Z; r_min : Z; r_sec : Z; r_csec : Z;
  r_lat : list Z; r_latf : list Z; r_ns : Z;
  r_lon : list Z; r_lonf : list Z; r_ew : Z;
  r_skip : list (list Z);
  r_day : Z; r_mon : Z; r_year : Z;
  r_sats : list Z; r_more : list Z }.

Definition time_text (r : report) : list Z :=
  (d2 (r_hour r) ++ d2 (r_min r) ++ d2 (r_sec r)) ++ 46 :: d2 (r_csec r).
Definition lat_text (r : report) : list Z := r_lat r ++ 46 :: r_latf r ++ [r_ns r].
Definition lon_text (r : report) : list Z := r_lon r ++ 46 :: r_lonf r ++ [r_ew r].
Definition date_text (r : report) : list Z := d2 (r_day r) ++ d2 (r_mon r) ++ d2 (r_year r).

(** The tokens, each before the delimiter that ends it. *)
Definition report_text (first : list Z) (r : report) (rest : list Z) : list Z :=
  first ++ LF :: text "+ZGPSR:" ++ 32 :: time_text r ++ comma :: lat_text r ++ comma :: lon_text r ++
  comma :: concat (map (fun f => f ++ [comma]) (r_skip r)) ++
  date_text r ++ comma :: (r_sats r ++ r_more r) ++ 0 :: rest.

Definition letter (c : Z) : Prop := 65 <= c <= 90.

Definition report_ok (r : report) : Prop :=
  0 <= r_hour r < 24 /\ 0 <= r_min r < 60 /\ 0 <= r_sec r <= 60 /\ 0 <= r_csec r < 100 /\
  all_digits (r_lat r) /\ r_lat r <> [] /\ all_digits (r_latf r) /\ letter (r_ns r) /\
  all_digits (r_lon r) /\ r_lon r <> [] /\ all_digits (r_lonf r) /\ letter (r_ew r) /\
  length (r_skip r) = 6%nat /\ Forall (fun f => f <> [] /\ token [comma] f) (r_skip r) /\
  1 <= r_day r <= 31 /\ 1 <= r_mon r <= 12 /\ 0 <= r_year r < 100 /\
  all_digits (r_sats r) /\ r_sats r <> [] /\ is_int (digits (r_sats r) 0) /\ token [comma] (r_more r) /\
  (forall c l, r_more r = c :: l -> is_digit c = false).

(** What the report should leave in the caller's structures. *)
Definition report_out (undef : Z) (r : report) : out :=
  let y := r_year r + 100 in
  mk_out
    (mk_tm (r_sec r) (r_min r) (r_hour r + 8) (r_day r) (r_mon r) y
       (wday y (r_mon r) (r_day r)) (get_yday undef y (r_mon r) (r_day r)))
    (mk_gga (degrees (r_lat r) (r_latf r)) (r_ns r) (degrees (r_lon r) (r_lonf r)) (r_ew r) 1
       (digits (r_sats r) 0))
    (mk_attr 1 1).

(** *** Numbers of the report *)

Lemma three_groups_digits t y : 0 <= t < 2 ^ 31 -> 0 < y < 2 ^ 31 ->
  three_groups (ratio false t y) =
  Some ((t / y) mod 100, (t / (100 * y)) mod 100, (t / (10000 * y)) mod 100).
Proof.
  intros Ht Hy. unfold three_groups, hundred. destruct (digit_groups t y Ht Hy) as (-> & E1 & E2).
  cbn [mbind option_bind]. rewrite E1. cbn [mbind option_bind]. rewrite E2. cbn [mbind option_bind].
  rewrite !Z.rem_mod_nonneg by (try lia; apply Z.div_pos; lia). done.
Qed.

Lemma time_groups r rest : report_ok r ->
  three_groups (ddiv (atof (time_text r ++ 0 :: rest)) (double_of 1)) = Some (r_sec r, r_min r, r_hour r).
Proof.
  intros (Hh & Hm & Hs & Hc & _). unfold time_text. rewrite <- !app_assoc. cbn [app].
  assert (all_digits (d2 (r_hour r) ++ d2 (r_min r) ++ d2 (r_sec r))) as Hd
    by (repeat (apply Forall_app; split); apply d2_digits; lia).
  pose proof (atof_frac (d2 (r_hour r) ++ d2 (r_min r) ++ d2 (r_sec r)) (d2 (r_csec r)) 0 rest Hd
    ltac:(discriminate) ltac:(apply d2_digits; lia) eq_refl eq_refl) as E.
  rewrite <- !app_assoc in E. rewrite E. clear E. change (10 ^ Z.of_nat (length (d2 (r_csec r)))) with 100.
  rewrite !digits_app, !digits_d2 by (try apply d2_digits; lia).
  set (t := 100 * _ + r_csec r). assert (0 <= t < 2 ^ 31) as Ht by (unfold t; lia).
  destruct (ratio_close t 100) as [O _]; [lia|lia|]. rewrite (ddiv_one _ 110) by (done || lia).
  rewrite three_groups_digits by lia. unfold t. do 2 f_equal; [f_equal|]; zdm.
Qed.

Lemma date_groups r rest : report_ok r ->
  three_groups (atof (date_text r ++ 0 :: rest)) = Some (r_year r, r_mon r, r_day r).
Proof.
  intros (_ & _ & _ & _ & _ & _ & _ & _ & _ & _ & _ & _ & _ & _ & Hd & Hm & Hy & _).
  assert (all_digits (date_text r)) as Hall by (repeat (apply Forall_app; split); apply d2_digits; lia).
  rewrite atof_int by (done || by split). unfold date_text.
  rewrite !digits_app, !digits_d2 by (try apply d2_digits; lia).
  rewrite three_groups_digits by lia. do 2 f_equal; [f_equal|]; zdm.
Qed.

Lemma degrees_text i f c rest : all_digits i -> i <> [] -> all_digits f -> letter c ->
  ddiv (atof ((i ++ 46 :: f ++ [c]) ++ 0 :: rest)) hundred = degrees i f.
Proof.
  intros Hi Hne Hf Hc. unfold letter in Hc. rewrite <- !app_assoc. cbn [app]. rewrite <- app_assoc. cbn [app].
  rewrite atof_frac; try done.
  - unfold is_digit. by rewrite (proj2 (Z.leb_gt c 57)), andb_false_r by lia.
  - unfold read_exp. by destruct (lower c =? 101).
Qed.

Lemma last_char_text l c rest : nonzero (l ++ [c]) -> last_char ((l ++ [c]) ++ 0 :: rest) = Some c.
Proof.
  intros Hl. unfold last_char. rewrite strlen_text by done. cbn [mbind option_bind].
  rewrite <- app_assoc. apply bget_at. rewrite length_app. cbn. lia.
Qed.

(** *** Tokens of the report *)

Lemma chars_token l : Forall (fun c => 45 <= c <= 90) l -> token [comma] l.
Proof.
  intros H. eapply Forall_impl; [exact H|]. cbn beta. intros c Hc.
  split; [lia|]. apply not_comma. unfold comma. lia.
Qed.

Lemma digits_chars l : all_digits l -> Forall (fun c => 45 <= c <= 90) l.
Proof. intros H. eapply Forall_impl; [exact H|]. cbn. lia. Qed.

Lemma report_tokens r : report_ok r ->
  token [comma] (time_text r) /\ token [comma] (lat_text r) /\ token [comma] (lon_text r) /\
  token [comma] (date_text r) /\ token [comma] (r_sats r ++ r_more r).
Proof.
  intros (? & ? & ? & ? & ? & ? & ? & ? & ? & ? & ? & ? & _ & _ & ? & ? & ? & ? & ? & _ & ? & _). unfold letter in *.
  split_and!; [| | | |apply token_app; split; [by apply chars_token, digits_chars|done]]; apply chars_token;
    unfold time_text, lat_text, lon_text, date_text;
    repeat first [apply Forall_app; split|apply Forall_cons; split|apply Forall_nil];
    first [lia|by apply digits_chars|zdm].
Qed.

Lemma app_cons_not_nil {A} (l r : list A) x : l ++ x :: r <> [].
Proof. by destruct l. Qed.

(** Take the next token off the buffer. *)
Ltac take_token := rewrite strtok_next by
  first [assumption | done | apply app_cons_not_nil | apply chars_token; repeat constructor; lia];
  cbn [mbind option_bind]; rewrite ?drop_token.

Lemma position_values i f c rest : all_digits i -> i <> [] -> all_digits f -> letter c ->
  token [comma] (i ++ 46 :: f ++ [c]) ->
  last_char ((i ++ 46 :: f ++ [c]) ++ 0 :: rest) = Some c /\
  ddiv (atof ((i ++ 46 :: f ++ [c]) ++ 0 :: rest)) hundred = degrees i f.
Proof.
  intros Hi Hne Hf Hc Ht. split; [|by apply degrees_text].
  rewrite app_comm_cons, app_assoc in Ht |- *. apply last_char_text. by eapply token_nonzero.
Qed.

Lemma lat_values r rest : report_ok r ->
  last_char (lat_text r ++ 0 :: rest) = Some (r_ns r) /\
  ddiv (atof (lat_text r ++ 0 :: rest)) hundred = degrees (r_lat r) (r_latf r).
Proof.
  intros Hr. pose proof (report_tokens r Hr) as (_ & Ht & _). destruct Hr as (_ & _ & _ & _ & ? & ? & ? & ? & _).
  by apply position_values.
Qed.

Lemma lon_values r rest : report_ok r ->
  last_char (lon_text r ++ 0 :: rest) = Some (r_ew r) /\
  ddiv (atof (lon_text r ++ 0 :: rest)) hundred = degrees (r_lon r) (r_lonf r).
Proof.
  intros Hr. pose proof (report_tokens r Hr) as (_ & _ & Ht & _).
  destruct Hr as (_ & _ & _ & _ & _ & _ & _ & _ & ? & ? & ? & ? & _). by apply position_values.
Qed.

(** C27: The members the parser of position reports sets: a report with the time,
    position, date and satellites of [r] in the modem's format, the number of
    satellites an [int], in a buffer behind one other line, makes the parser
    return 0 with the members of the caller's structures set from [r].  Taking
    time and date apart in double precision gives every digit right; eight hours
    are added to the hour without a carry into the date.  A position
    is stored as the double nearest to the number in the report divided by 100,
    and so not in the form ddmm.mmmmm that the header promises for the members
    (lib4g.h 19, 21).  A line that does not begin with [+ZGPSR:] is refused with
    only the status cleared. *)
Theorem zgpsr_roundtrip (undef : Z) (first rest : list Z) (r : report) (o : out) :
  first <> [] -> token [LF] first -> report_ok r ->
  lib_4g_analytic_zgpsr undef (report_text first r rest) o = Some (0, report_out undef r) /\
  (forall name more, name <> [] -> token [32] name -> name <> text "+ZGPSR:" ->
    lib_4g_analytic_zgpsr undef (first ++ LF :: name ++ 32 :: more) o = Some (-1, set_status 0 o)).
Proof.
  intros Hf Hft Hr. destruct (report_tokens r Hr) as (Ht & Hla & Hlo & Hd & Hs).
  unfold lib_4g_analytic_zgpsr. split.
  - unfold report_text.
    pose proof Hr as (_ & _ & _ & _ & _ & _ & _ & _ & _ & _ & _ & _ & Hsk & Hst & _ & _ & _ & Hsd & Hse & Hsi & _ & Hsm).
    destruct (r_skip r) as [|f1 [|f2 [|f3 [|f4 [|f5 [|f6 []]]]]]]; try discriminate Hsk. clear Hsk.
    repeat (apply Forall_cons in Hst as [[? ?] Hst]).
    cbn [map concat]. rewrite app_nil_r. repeat rewrite <- app_assoc. cbn [app].
    change (first ++ ?l) with ([] ++ first ++ l).
    change (strtok ?b 0 [LF]) with (strtok b (length (@nil Z)) [LF]). take_token.
    rewrite strtok_next by first [done | unfold token; apply (bool_decide_unpack _); by vm_compute].
    cbn [mbind option_bind]. rewrite drop_token. unfold lit.
    rewrite str_eq_text by (unfold nonzero; apply (bool_decide_unpack _); by vm_compute).
    rewrite bool_decide_eq_true_2 by done. cbn [mbind option_bind negb].
    take_token. rewrite time_groups by done. cbn [mbind option_bind].
    take_token. rewrite (proj1 (lat_values r _ Hr)), (proj2 (lat_values r _ Hr)). cbn [mbind option_bind].
    take_token. rewrite (proj1 (lon_values r _ Hr)), (proj2 (lon_values r _ Hr)). cbn [mbind option_bind].
    do 6 take_token. take_token. rewrite date_groups by done. cbn [mbind option_bind].
    rewrite (app_assoc (r_sats r)), strtok_last by (done || by destruct (r_sats r)). cbn [mbind option_bind].
    match goal with |- context [strtok ?b ?p [comma]] =>
      destruct (strtok_total b p [comma]) as (? & ? & ? & -> & _) end; [done| |].
    { rewrite (app_assoc _ (r_sats r ++ r_more r)), drop_app_length. by left. }
    cbn [mbind option_bind]. rewrite drop_app_length, <- app_assoc.
    assert (exists c l, r_more r ++ 0 :: rest = c :: l /\ is_digit c = false) as (c & l & -> & Hc).
    { destruct (r_more r) as [|c l] eqn:E; [by exists 0, rest|]. exists c, (l ++ 0 :: rest). eauto. }
    rewrite atoi_field by done. cbn [mbind option_bind]. unfold report_out.
    by replace (r_year r + 100) with (r_year r + 2000 - 1900) by lia.
  - intros name more Hn Hnt Hne. change (first ++ ?l) with ([] ++ first ++ l).
    change (strtok ?b 0 [LF]) with (strtok b (length (@nil Z)) [LF]). take_token.
    rewrite strtok_next by done. cbn [mbind option_bind]. rewrite drop_token. unfold lit.
    rewrite str_eq_text by first [by eapply token_nonzero
      | unfold nonzero; apply (bool_decide_unpack _); by vm_compute].
    by rewrite bool_decide_eq_false_2.
Qed.

Definition sample_report : report :=
  mk_report 8 5 52 0 (text "3150") (text "1234") 78 (text "11711") (text "9292") 69
    [text "1.0"; text "30.2"; text "3"; text "0.0"; text "0.0"; text "0.0"] 22 12 16
    (text "06") (crlf ++ crlf ++ text "OK" ++ crlf).

Lemma zgpsr_roundtrip_witness :
  let o := mk_out (mk_tm 0 0 0 0 0 0 0 0) (mk_gga (S754_zero false) 0 (S754_zero false) 0 0 0) (mk_attr 0 0) in
  lib_4g_analytic_zgpsr 7 (report_text [CR] sample_report []) o = Some (0, report_out 7 sample_report) /\
  o_tm (report_out 7 sample_report) = mk_tm 52 5 16 22 12 116 2 357.
Proof.
  intros o. split; [|vm_compute; reflexivity].
  apply (zgpsr_roundtrip 7 [CR] [] sample_report o).
  - discriminate.
  - unfold token. apply (bool_decide_unpack _). by vm_compute.
  - unfold report_ok, letter, token, all_digits. split_and!; try (cbn; lia);
      try (apply (bool_decide_unpack _); by vm_compute); try discriminate.
    by intros c l [= <- _].
Defined.

(** ** The calendar of the report *)

Lemma monthday_gps undef m y : 1 <= m <= 12 -> monthday undef m (leap y) = Gps.monthday m (Gps.leap y).
Proof.
  intros Hm. change (leap y) with (Gps.leap y).
  assert (Gps.leap y = 0 \/ Gps.leap y = 1) as Hl by (unfold Gps.leap; repeat case_match; auto).
  pattern m. apply month_cases; [done|..]; try done. cbn. by destruct Hl as [-> | ->].
Qed.

Lemma get_yday_gps undef y m d : 1 <= m <= 12 -> get_yday undef y m d = Gps.get_yday y m d.
Proof.
  intros Hm. unfold get_yday, Gps.get_yday. f_equal. generalize 0.
  assert (Forall (fun k => 1 <= k <= 12) (seqZ 1 (m - 1))) as Hs.
  { apply Forall_forall. intros k Hk%elem_of_seqZ. lia. }
  induction Hs as [|k l Hk _ IH]; intros a; [done|]. cbn [fold_left]. rewrite monthday_gps by done. apply IH.
Qed.

(** Leaving out the century changes no leap year but 2000. *)
Lemma leap_short y : 1 <= y <= 99 -> Gps.leap (y + 100) = Gps.leap (y + 2000).
Proof.
  intros Hy. unfold Gps.leap. rewrite !Z.rem_mod_nonneg by lia.
  replace ((y + 2000) mod 4) with ((y + 100) mod 4) by zdm.
  rewrite (proj2 (Z.eqb_neq ((y + 100) mod 100) 0)), (proj2 (Z.eqb_neq ((y + 2000) mod 100) 0)) by zdm. done.
Qed.

(** The report's dates keep two digits of the year: for every date of the
    years 2001 to 2099 the day of the year is right, but the weekday, computed
    from the year counted from 1900, is never right: two days early from March
    on. *)
Theorem zgpsr_calendar (undef y m d : Z) : 1 <= y <= 99 -> valid_date (2000 + y) m d ->
  get_yday undef (y + 100) m d = civil_days (2000 + y) m d - civil_days (2000 + y) 1 1 + 1 /\
  wday (y + 100) m d <> weekday (2000 + y) m d /\
  (3 <= m -> weekday (2000 + y) m d = (wday (y + 100) m d + 1) mod 7 + 1).
Proof.
  intros Hy Hv. pose proof Hv as (_ & Hm & Hd). split.
  - pose proof (calendar_day (2000 + y) m d Hv) as Ey. rewrite get_yday_gps by done. rewrite <- Ey.
    unfold Gps.get_yday. by rewrite (Z.add_comm 2000 y), leap_short by done.
  - pose proof (leap_count (2000 + y) ltac:(lia)) as HL.
    assert (wday (y + 100) m d = (d + 2 * m + 3 * (m + 1) / 5 + (y + 100) + (y + 100) / 4 - 1) mod 7 + 1) as ->.
    { unfold wday. rewrite !(Z.quot_div_nonneg (y + 100)), Z.quot_div_nonneg by lia.
      replace ((y + 100) / 100) with 1 by zdm. replace ((y + 100) / 400) with 0 by zdm.
      rewrite Z.rem_mod_nonneg, Z.add_0_r; [done|zdm|lia]. }
    unfold weekday, civil_days. replace ((2000 + y) / 100) with 20 in HL by zdm.
    replace ((2000 + y) / 400) with 5 in HL by zdm.
    replace ((2000 + y) / 4) with ((y + 100) / 4 + 475) in HL by zdm.
    clear Hv Hd. revert HL. generalize ((y + 100) / 4) ((2000 + y - 1) / 4) ((2000 + y - 1) / 100)
      ((2000 + y - 1) / 400). intros a a' b' c' HL.
    pattern m. apply month_cases; [done|..]; eval_month; destruct (is_leap (2000 + y)); zdm.
Qed.

Lemma zgpsr_calendar_witness :
  valid_date 2016 12 22 /\
  get_yday 7 (16 + 100) 12 22 = civil_days 2016 12 22 - civil_days 2016 1 1 + 1 /\
  wday (16 + 100) 12 22 <> weekday 2016 12 22.
Proof.
  assert (valid_date 2016 12 22) as H by (repeat split; vm_compute; discriminate).
  destruct (zgpsr_calendar 7 16 12 22 ltac:(lia) H) as (A & B & _). done.
Defined.
