(* ===== verification/Wifi.v ===== *)
(** * The WiFi module (src/board_test/wifi.c, include/lib_wifi.h)

    Settings of the module are read and written with AT commands over a serial
    port.  Structures are arrays of bytes; a copy that does not fit its array is
    a fault.

    The functions that write a setting append their arguments to an array that
    holds exactly the start of the command.  [inet_pton] of the system is a
    parameter. *)

From S2P Require Import Prelude CStr Serial.

Definition WIFI_EOK : Z := 0.
Definition WIFI_ERROR : Z := -1.
Definition WIFI_ETIMEOUT : Z := -2.
Definition WIFI_EEMPTY : Z := -4.

(** ** Structures *)

Record wifi_netp := mk_netp { protocol : list Z; type : list Z; nport : Z; ipaddr : list Z }.
Record wifi_lann := mk_lann { lan_ip : list Z; lan_mask : list Z }.
Record wifi_wakey := mk_wakey { auth : list Z; encry : list Z; key : list Z }.
Record wifi_wap := mk_wap { wifi_mode : list Z; ssid : list Z; channel : list Z }.
Record wifi_wmode := mk_wmode { wmode : list Z }.

(** ** Answers *)

(** [seps] *)
Definition seps : list Z := [61; comma; CR].

(** [p = strtok(buf, d); p = strtok(NULL, d); if (p) p = strtok(NULL, seps);]: the
    answer repeats the command, then comes the status, then the values. *)
Definition first_value (buf d : list Z) : option (option nat * list Z * nat) :=
  '(_, buf, pos) ← strtok buf 0 d;
  '(p, buf, pos) ← strtok buf pos d;
  match p with None => Some (None, buf, pos) | Some _ => strtok buf pos seps end.

Definition parse_lann (buf : list Z) (l : wifi_lann) : option (Z * wifi_lann) :=
  '(p, buf, pos) ← first_value buf seps;
  match p with None => Some (WIFI_ERROR, l) | Some p =>
  ip ← strcpy (lan_ip l) (drop p buf);
  let l := mk_lann ip (lan_mask l) in
  '(p, buf, pos) ← strtok buf pos seps;
  match p with None => Some (WIFI_ERROR, l) | Some p =>
  mask ← strcpy (lan_mask l) (drop p buf);
  let l := mk_lann (lan_ip l) mask in
  '(_, _, _) ← strtok buf pos seps;
  Some (WIFI_EOK, l)
  end end.

Definition parse_netp (buf : list Z) (n : wifi_netp) : option (Z * wifi_netp) :=
  '(p, buf, pos) ← first_value buf seps;
  match p with None => Some (WIFI_ERROR, n) | Some p =>
  v ← strcpy (protocol n) (drop p buf);
  let n := mk_netp v (type n) (nport n) (ipaddr n) in
  '(p, buf, pos) ← strtok buf pos seps;
  match p with None => Some (WIFI_ERROR, n) | Some p =>
  v ← strcpy (type n) (drop p buf);
  let n := mk_netp (protocol n) v (nport n) (ipaddr n) in
  '(p, buf, pos) ← strtok buf pos seps;
  match p with None => Some (WIFI_ERROR, n) | Some p =>
  v ← atoi (drop p buf);
  let n := mk_netp (protocol n) (type n) (u16 v) (ipaddr n) in
  '(p, buf, pos) ← strtok buf pos seps;
  match p with None => Some (WIFI_ERROR, n) | Some p =>
  v ← strcpy (ipaddr n) (drop p buf);
  Some (WIFI_EOK, mk_netp (protocol n) (type n) (nport n) v)
  end end end end.

Definition parse_wakey (buf : list Z) (w : wifi_wakey) : option (Z * wifi_wakey) :=
  '(p, buf, pos) ← first_value buf seps;
  match p with None => Some (WIFI_ERROR, w) | Some p =>
  v ← strcpy (auth w) (drop p buf);
  let w := mk_wakey v (encry w) (key w) in
  '(p, buf, pos) ← strtok buf pos seps;
  match p with None => Some (WIFI_ERROR, w) | Some p =>
  v ← strcpy (encry w) (drop p buf);
  let w := mk_wakey (auth w) v (key w) in
  '(p, buf, pos) ← strtok buf pos seps;
  match p with None => Some (WIFI_ERROR, w) | Some p =>
  v ← strcpy (key w) (drop p buf);
  Some (WIFI_EOK, mk_wakey (auth w) (encry w) v)
  end end end.

Definition parse_wap (buf : list Z) (w : wifi_wap) : option (Z * wifi_wap) :=
  '(p, buf, pos) ← first_value buf seps;
  match p with None => Some (WIFI_ERROR, w) | Some p =>
  v ← strcpy (wifi_mode w) (drop p buf);
  let w := mk_wap v (ssid w) (channel w) in
  '(p, buf, pos) ← strtok buf pos seps;
  match p with None => Some (WIFI_ERROR, w) | Some p =>
  v ← strcpy (ssid w) (drop p buf);
  let w := mk_wap (wifi_mode w) v (channel w) in
  '(p, buf, pos) ← strtok buf pos seps;
  match p with None => Some (WIFI_ERROR, w) | Some p =>
  v ← strcpy (channel w) (drop p buf);
  Some (WIFI_EOK, mk_wap (wifi_mode w) (ssid w) v)
  end end end.

(** The first two tokens of this answer end at a line feed or an equals sign. *)
Definition parse_wmode (buf : list Z) (w : wifi_wmode) : option (Z * wifi_wmode) :=
  '(p, buf, pos) ← first_value buf [61; LF];
  match p with None => Some (WIFI_ERROR, w) | Some p =>
  v ← strcpy (wmode w) (drop p buf);
  Some (WIFI_EOK, mk_wmode v)
  end.

(** One of the strings: [strcmp(s, a) && strcmp(s, b) && ...] is false. *)
Fixpoint one_of (s : list Z) (l : list (list Z)) : option bool :=
  match l with
  | [] => Some false
  | c :: l => same ← str_eq s (c ++ [0]); if same : bool then Some true else one_of s l
  end.

(** [strcat] of several strings. *)
Fixpoint strcats (str : list Z) (l : list (list Z)) : option (list Z) :=
  match l with [] => Some str | s :: l => str ← strcat str s; strcats str l end.

Definition modes : list (list Z) := map text ["11BG"; "11B"; "11G"; "11BGN"; "11N"].
Definition channels : list (list Z) :=
  map text ["CH1"; "AUTO"; "CH2"; "CH3"; "CH4"; "CH5"; "CH6"; "CH7"; "CH8"; "CH9"; "CH10"; "CH11"].
Definition auths : list (list Z) := map text ["OPEN"; "SHARED"; "WPAPSK"].
Definition encrys : list (list Z) := map text ["NONE"; "WEP-H"; "WEP-A"; "TKIP"; "AES"; "TKIPAES"].

Definition at_line (s : string) : list Z := text s ++ [CR; 0].

Section Wifi.
Context `{Serial} `{Arch} (inet_pton : bool -> list Z -> bool).

(** [str == NULL] never occurs: the callers pass arrays. *)
Definition invalid_ipaddr (str : list Z) : option Z :=
  s ← cstr str;
  if bool_decide (s = []) then Some WIFI_ERROR
  else if inet_pton false s then Some WIFI_EOK
  else if inet_pton true s then Some WIFI_EOK
  else Some WIFI_ERROR.

(** [sizeof(rxbuf)] is the size of a pointer. *)
Definition __sendAT (fd : Z) (cmd rxbuf : list Z) : M (Z * list Z) :=
  if fd =? 0 then mret (WIFI_ERROR, rxbuf)
  else
    s ← mem (cstr cmd);
    ret ← lib_serial_send fd s;
    if ret <? 0 then mret (WIFI_ERROR, rxbuf)
    else
      let rxbuf := fill rxbuf (replicate (Z.to_nat (long_bits / 8)) 0) in
      a ← lib_serial_readn_select fd 1024 1500;
      let rxbuf := fill rxbuf (data_of a) in
      if ret_of a <? 0 then mret (ret_of a, rxbuf)
      else if ret_of a =? 0 then mret (WIFI_EEMPTY, rxbuf)
      else mret (WIFI_EOK, rxbuf).

Definition __wifi_resease (fd : Z) : M unit :=
  __sendAT fd (at_line "AT+ENTM") (zeros 1024);;
  lib_serial_close fd.

(** [+++], an [a], an [a] in return, and the module is in command mode. *)
Definition __init_AT_mode (fd : Z) : M Z :=
  ret ← lib_serial_send fd [0x2b];
  if ret <? 0 then mret WIFI_ERROR
  else
    ret ← lib_serial_send fd [0x2b];
    if ret <? 0 then mret WIFI_ERROR
    else
      ret ← lib_serial_send fd [0x2b];
      if ret <? 0 then mret WIFI_ERROR
      else
        a ← lib_serial_read_select fd 1024 1500;
        if ret_of a <? 0 then mret WIFI_ETIMEOUT
        else if negb (aget (fill (zeros 1024) (data_of a)) 0 =? 97) then mret WIFI_ERROR
        else
          ret ← lib_serial_send fd [97];
          if ret <? 0 then mret WIFI_ERROR
          else
            a ← lib_serial_readn_select fd 1024 1000;
            if ret_of a <? 0 then mret WIFI_ETIMEOUT else mret WIFI_EOK.

(** The value returned and [sfd]. *)
Definition __wifi_init (path : list Z) (speed : Z) : M (Z * Z) :=
  '(ret, fd) ← lib_serial_init path speed;
  if ret <? 0 then mret (WIFI_ERROR, fd)
  else
    ret ← __init_AT_mode fd;
    if ret <? 0 then mret (WIFI_ERROR, fd) else mret (WIFI_EOK, fd).

(** A query: NULL is [None]. *)
Definition query {A} (cmd : list Z) (parse : list Z -> A -> option (Z * A)) (fd : Z) (v : option A)
  : M (Z * option A) :=
  match v with
  | None => mret (WIFI_ERROR, None)
  | Some v =>
      '(ret, buf) ← __sendAT fd cmd (zeros 1024);
      if ret <? 0 then mret (WIFI_ERROR, Some v)
      else '(ret, v) ← mem (parse buf v); mret (ret, Some v)
  end.

Definition wifi_get_lann : Z -> option wifi_lann -> M (Z * option wifi_lann) :=
  query (at_line "AT+LANN") parse_lann.
Definition wifi_get_netp : Z -> option wifi_netp -> M (Z * option wifi_netp) :=
  query (at_line "AT+NETP") parse_netp.
Definition wifi_get_wakey : Z -> option wifi_wakey -> M (Z * option wifi_wakey) :=
  query (at_line "AT+WAKEY") parse_wakey.
Definition wifi_get_wap : Z -> option wifi_wap -> M (Z * option wifi_wap) :=
  query (at_line "AT+WAP") parse_wap.
Definition wifi_get_wmode : Z -> option wifi_wmode -> M (Z * option wifi_wmode) :=
  query (at_line "AT+WMODE") parse_wmode.

(** Build the command behind [start] and send it; [rxbuf] is the local buffer. *)
Definition send_setting (fd : Z) (start : string) (parts : list (list Z)) (rxbuf : list Z) : M Z :=
  str ← mem (strcats (lit start) parts);
  '(ret, _) ← __sendAT fd str rxbuf;
  if ret <? 0 then mret WIFI_ERROR else mret WIFI_EOK.

Definition sep : list Z := [comma; 0].
Definition eol : list Z := [CR; 0].

Definition wifi_set_lann (fd : Z) (l : wifi_lann) : M Z :=
  if fd =? 0 then mret WIFI_ERROR
  else
    ret ← mem (invalid_ipaddr (lan_ip l));
    if ret <? 0 then mret WIFI_ERROR
    else
      ret ← mem (invalid_ipaddr (lan_mask l));
      if ret <? 0 then mret WIFI_ERROR
      else send_setting fd "AT+LANN=" [lan_ip l; sep; lan_mask l; eol] (zeros 1024).

(** The second test compares [protocol], not [type], with CLIENT.  [rxbuf] is not
    initialised. *)
Definition wifi_set_netp (rxbuf : list Z) (fd : Z) (n : option wifi_netp) : M Z :=
  match n with
  | None => mret WIFI_ERROR
  | Some n =>
      ok ← mem (one_of (protocol n) [text "TCP"; text "UDP"]);
      if negb ok then mret WIFI_ERROR
      else
        server ← mem (str_eq (type n) (lit "SERVER"));
        client ← mem (if server : bool then Some false else str_eq (protocol n) (lit "CLIENT"));
        if negb server && negb client then mret WIFI_ERROR
        else if (32767 <? nport n) || (nport n <? 100) then mret WIFI_ERROR
        else
          ret ← mem (invalid_ipaddr (ipaddr n));
          if ret <? 0 then mret WIFI_ERROR
          else
            port ← mem (strcpy (zeros 10) (decimal (nport n) ++ [0]));
            send_setting fd "AT+NETP="
              [protocol n; sep; type n; sep; port; sep; ipaddr n; eol] rxbuf
  end.

Definition wifi_set_wakey (fd : Z) (w : option wifi_wakey) : M Z :=
  match w with
  | None => mret WIFI_ERROR
  | Some w =>
      ok ← mem (one_of (auth w) auths);
      if negb ok then mret WIFI_ERROR
      else
        ok ← mem (one_of (encry w) encrys);
        if negb ok then mret WIFI_ERROR
        else
          str ← mem (strcats (lit "AT+WAKEY=") [auth w; sep; encry w]);
          is_open ← mem (str_eq (auth w) (lit "OPEN"));
          str ← mem (strcats str (if is_open : bool then [eol] else [sep; key w; eol]));
          '(ret, _) ← __sendAT fd str (zeros 1024);
          if ret <? 0 then mret WIFI_ERROR else mret WIFI_EOK
  end.

Definition wifi_set_wap (fd : Z) (w : option wifi_wap) : M Z :=
  match w with
  | None => mret WIFI_ERROR
  | Some w =>
      ok ← mem (one_of (wifi_mode w) modes);
      if negb ok then mret WIFI_ERROR
      else
        ok ← mem (one_of (channel w) channels);
        if negb ok then mret WIFI_ERROR
        else send_setting fd "AT+WAP=" [wifi_mode w; sep; ssid w; sep; channel w; eol] (zeros 1024)
  end.

Definition wifi_set_wmode (fd : Z) (w : option wifi_wmode) : M Z :=
  match w with
  | None => mret WIFI_ERROR
  | Some w =>
      sta ← mem (str_case_eq (wmode w) (lit "STA"));
      ap ← mem (if sta : bool then Some true else str_case_eq (wmode w) (lit "AP"));
      if negb ap then mret WIFI_ERROR
      else send_setting fd "AT+WMODE=" [wmode w; eol] (zeros 1024)
  end.

(** ** Single values

    The structures are local and not initialised: [l0], [n0], ... are what the
    stack holds. *)

Definition get_one {A B} (get : Z -> option A -> M (Z * option A)) (v0 : A) (fd : Z)
    (store : A -> option B) (old : B) : M (Z * B) :=
  if fd =? -1 then mret (WIFI_ERROR, old)
  else
    '(ret, v) ← get fd (Some v0);
    if ret <? 0 then mret (WIFI_ERROR, old)
    else b ← mem (v ← v; store v); mret (WIFI_EOK, b).

Definition wifi_get_ip (l0 : wifi_lann) (fd : Z) (ip : list Z) : M (Z * list Z) :=
  get_one wifi_get_lann l0 fd (fun l => strcpy ip (lan_ip l)) ip.
Definition wifi_get_port (n0 : wifi_netp) (fd port : Z) : M (Z * Z) :=
  get_one wifi_get_netp n0 fd (fun n => Some (nport n)) port.
Definition wifi_get_key (w0 : wifi_wakey) (fd : Z) (k : list Z) : M (Z * list Z) :=
  get_one wifi_get_wakey w0 fd (fun w => strcpy k (key w)) k.
Definition wifi_get_ssid (w0 : wifi_wap) (fd : Z) (s : list Z) : M (Z * list Z) :=
  get_one wifi_get_wap w0 fd (fun w => strcpy s (ssid w)) s.

Definition set_one {A} (fd : Z) (v : option A) (set : A -> M Z) : M Z :=
  if fd =? -1 then mret WIFI_ERROR
  else
    v ← mem v;
    ret ← set v;
    if ret <? 0 then mret WIFI_ERROR else mret WIFI_EOK.

Definition wifi_set_ip (l0 : wifi_lann) (fd : Z) (ip : list Z) : M Z :=
  set_one fd (a ← strcpy (lan_ip l0) ip; m ← strcpy (lan_mask l0) (lit "255.255.255.0"); Some (mk_lann a m))
    (wifi_set_lann fd).
Definition wifi_set_port (n0 : wifi_netp) (rxbuf : list Z) (fd port : Z) : M Z :=
  set_one fd
    (p ← strcpy (protocol n0) (lit "TCP"); t ← strcpy (type n0) (lit "SERVER");
     a ← strcpy (ipaddr n0) (lit "10.10.100.100"); Some (mk_netp p t port a))
    (fun n => wifi_set_netp rxbuf fd (Some n)).
Definition wifi_set_key (w0 : wifi_wakey) (fd : Z) (k : list Z) : M Z :=
  set_one fd
    (a ← strcpy (auth w0) (lit "WPAPSK"); e ← strcpy (encry w0) (lit "TKIPAES");
     k ← strcpy (key w0) k; Some (mk_wakey a e k))
    (fun w => wifi_set_wakey fd (Some w)).
Definition wifi_set_ssid (w0 : wifi_wap) (fd : Z) (s : list Z) : M Z :=
  set_one fd
    (m ← strcpy (wifi_mode w0) (lit "11BGN"); s ← strcpy (ssid w0) s;
     c ← strcpy (channel w0) (lit "AUTO"); Some (mk_wap m s c))
    (fun w => wifi_set_wap fd (Some w)).

End Wifi.

(** ** Structures keep their shape *)

Definition lann_wf (l : wifi_lann) : Prop := length (lan_ip l) = 32%nat /\ length (lan_mask l) = 32%nat.
Definition netp_wf (n : wifi_netp) : Prop :=
  length (protocol n) = 4%nat /\ length (type n) = 7%nat /\ is_u 16 (nport n) /\ length (ipaddr n) = 32%nat.
Definition wakey_wf (w : wifi_wakey) : Prop :=
  length (auth w) = 7%nat /\ length (encry w) = 8%nat /\ length (key w) = 64%nat.
Definition wap_wf (w : wifi_wap) : Prop :=
  length (wifi_mode w) = 6%nat /\ length (ssid w) = 128%nat /\ length (channel w) = 5%nat.
Definition wmode_wf (w : wifi_wmode) : Prop := length (wmode w) = 4%nat.

Lemma length_bcopy t off src t' : bcopy t off src = Some t' -> length t' = length t.
Proof.
  unfold bcopy. case_bool_decide as Hb; [|done]. intros [= <-].
  rewrite !length_app, length_take, length_drop. lia.
Qed.

Lemma length_strcpy dst src dst' : strcpy dst src = Some dst' -> length dst' = length dst.
Proof. unfold strcpy. destruct (cstr src); [|done]. apply length_bcopy. Qed.

(** A copied string is terminated in its array. *)
Lemma strcpy_terminated dst src dst' : strcpy dst src = Some dst' -> cstr dst' = cstr src.
Proof.
  unfold strcpy. destruct (cstr src) as [s|] eqn:Es; [|done]. apply cstr_inv in Es as (r & -> & Hs).
  cbn [mbind option_bind]. unfold bcopy. case_bool_decide; [|done]. intros [= <-].
  rewrite <- app_assoc. by apply cstr_text.
Qed.

(** Step through a parser: every way it can go. *)
Ltac parser_cases H :=
  repeat match type of H with
  | (_ ≫= _) = Some _ => apply bind_Some in H as (? & ? & H)
  | context [let '(_, _) := ?x in _] => destruct x
  | context [match ?x with Some _ => _ | None => _ end] => destruct x
  end.

(** The parsers keep the sizes of the arrays. *)
Lemma parsers_keep_types (buf : list Z) (r : Z) :
  (forall l l', lann_wf l -> parse_lann buf l = Some (r, l') -> lann_wf l') /\
  (forall n n', netp_wf n -> parse_netp buf n = Some (r, n') -> netp_wf n') /\
  (forall w w', wakey_wf w -> parse_wakey buf w = Some (r, w') -> wakey_wf w') /\
  (forall w w', wap_wf w -> parse_wap buf w = Some (r, w') -> wap_wf w') /\
  (forall w w', wmode_wf w -> parse_wmode buf w = Some (r, w') -> wmode_wf w').
Proof.
  unfold lann_wf, netp_wf, wakey_wf, wap_wf, wmode_wf.
  split_and!; intros v v' Hv Hp; unfold parse_lann, parse_netp, parse_wakey, parse_wap, parse_wmode in Hp;
    parser_cases Hp; injection Hp as <- <-; cbn in *;
    repeat match goal with H : strcpy _ _ = Some _ |- _ => apply length_strcpy in H end;
    destruct_and?; split_and?; first [congruence | assumption | by apply is_u_uwrap].
Qed.

(** ** Writing a setting *)

(** The string at an array. *)
Definition holds (a t : list Z) : Prop := cstr a = Some t.

Lemma holds_text t r : nonzero t -> holds (t ++ 0 :: r) t.
Proof. intros. by apply cstr_text. Qed.

Lemma holds_inv a t : holds a t -> exists r, a = t ++ 0 :: r /\ nonzero t.
Proof. apply cstr_inv. Qed.

Lemma str_eq_holds a t c : holds a t -> nonzero c -> str_eq a (c ++ [0]) = Some (bool_decide (t = c)).
Proof. intros (r & -> & Ht)%holds_inv Hc. by apply str_eq_text. Qed.

Lemma one_of_true a l b : one_of a l = Some true -> holds a b -> Forall nonzero l -> b ∈ l.
Proof.
  intros Ho Hb Hl. induction Hl as [|c l Hc _ IH]; [done|]. cbn [one_of] in Ho.
  rewrite (str_eq_holds a b) in Ho by done. cbn [mbind option_bind] in Ho.
  case_bool_decide as E; [subst; by left|]. right. auto.
Qed.

(** A string that compares equal to a literal is terminated. *)
Lemma str_eq_true a : forall c, nonzero c -> str_eq a (c ++ [0]) = Some true -> holds a c.
Proof.
  induction a as [|x a IH]; intros [|y c] Hc He; try done; cbn in He; unfold holds.
  - destruct (Z.eqb_spec x 0) as [->|]; [done|done].
  - destruct (Z.eqb_spec x y) as [->|]; [|done]. apply Forall_cons in Hc as [Hy Hc].
    rewrite (proj2 (Z.eqb_neq y 0)) in He by done. cbn. rewrite (proj2 (Z.eqb_neq y 0)) by done.
    by rewrite (IH c Hc He).
Qed.

Lemma one_of_holds a l : one_of a l = Some true -> Forall nonzero l -> exists b, b ∈ l /\ holds a b.
Proof.
  intros Ho Hl. induction Hl as [|c l Hc _ IH]; [done|]. cbn [one_of] in Ho.
  destruct (str_eq a (c ++ [0])) as [[]|] eqn:E; [| |done]; cbn [mbind option_bind] in Ho.
  - exists c. split; [by left|]. by apply str_eq_true.
  - destruct (IH Ho) as (b & ? & ?). exists b. split; [by right|done].
Qed.

(** Appending a string that is not empty to an array that is full. *)
Lemma strcats_full s a t l : nonzero s -> holds a t -> t <> [] -> strcats (s ++ [0]) (a :: l) = None.
Proof.
  intros Hs (r & -> & Ht)%holds_inv Hne. cbn [strcats].
  rewrite strcat_overflow; [done|done|done|]. destruct t; [done|]. cbn. lia.
Qed.

(** A string without a terminator cannot be appended at all. *)
Lemma strcats_unterminated str a l : cstr a = None -> strcats str (a :: l) = None.
Proof. intros Ha. cbn [strcats]. unfold strcat. destruct (strlen str); [|done]. by rewrite Ha. Qed.

(** Appending strings when there is room. *)
Lemma strcats_room parts : forall s ts x, nonzero s -> Forall2 holds parts ts ->
  (length (concat ts) <= length x)%nat ->
  exists x', strcats (s ++ 0 :: x) parts = Some ((s ++ concat ts) ++ 0 :: x') /\
    nonzero (s ++ concat ts) /\ length x = (length (concat ts) + length x')%nat.
Proof.
  induction parts as [|p parts IH]; intros s ts x Hs Hp Hl; apply Forall2_cons_inv_l in Hp || apply Forall2_nil_inv_l in Hp.
  - subst. exists x. cbn. by rewrite app_nil_r.
  - destruct Hp as (t & ts' & (r & -> & Ht)%holds_inv & Hp & ->). cbn [concat] in Hl. rewrite length_app in Hl.
    cbn [strcats]. rewrite (strcat_fits s t r x (length x)) by (done || lia). cbn [mbind option_bind].
    destruct (IH (s ++ t) ts' (drop (length t) x)) as (x' & -> & Hn & Hx);
      [by apply nonzero_app|done|rewrite length_drop; lia|].
    exists x'. cbn [concat]. rewrite app_assoc. split_and!; [done|done|]. rewrite length_app.
    rewrite length_drop in Hx. lia.
Qed.

(** And when there is not. *)
Lemma strcats_overflow parts : forall s ts x, nonzero s -> Forall2 holds parts ts ->
  (length x < length (concat ts))%nat -> strcats (s ++ 0 :: x) parts = None.
Proof.
  induction parts as [|p parts IH]; intros s ts x Hs Hp Hl; apply Forall2_cons_inv_l in Hp || apply Forall2_nil_inv_l in Hp.
  - subst. cbn in Hl. lia.
  - destruct Hp as (t & ts' & (r & -> & Ht)%holds_inv & Hp & ->). cbn [concat] in Hl. rewrite length_app in Hl.
    cbn [strcats]. destruct (Nat.le_gt_cases (length t) (length x)).
    + rewrite (strcat_fits s t r x (length x)) by done. cbn [mbind option_bind].
      apply (IH _ ts'); [by apply nonzero_app|done|rewrite length_drop; lia].
    + by rewrite strcat_overflow.
Qed.

Section Settings.
Context `{Serial} `{Arch} (inet_pton : bool -> list Z -> bool).

(** Nothing is sent; the call reports an error or faults. *)
Definition never (m : M Z) : Prop := emits m (fun r es => es = [] /\ (r = None \/ r = Some WIFI_ERROR)).

Lemma never_error : never (mret WIFI_ERROR).
Proof. apply emits_ret. auto. Qed.

Lemma never_mem {A} (o : option A) (f : A -> M Z) : (forall a, o = Some a -> never (f a)) -> never (mem o ≫= f).
Proof.
  intros Hf. eapply emits_bind with (R1 := fun r es => r = o /\ es = []).
  - by apply emits_mem.
  - intros es [_ ->]. auto.
  - intros a es [E ->]. cbn [app]. by apply Hf.
Qed.

Lemma never_fault {A} (f : A -> M Z) : never (mem None ≫= f).
Proof. by apply never_mem. Qed.

(** The array is full after the start of the command. *)
Lemma never_send fd start a l rxbuf : nonzero (text start) -> (forall t, holds a t -> t <> []) ->
  never (send_setting fd start (a :: l) rxbuf).
Proof.
  intros Hs Ha. unfold send_setting, lit.
  destruct (cstr a) as [t|] eqn:Ea; [rewrite (strcats_full (text start) a t)|rewrite strcats_unterminated];
    try done; [apply never_fault|by apply Ha|apply never_fault].
Qed.

Lemma valid_ipaddr_nonempty a r t : invalid_ipaddr inet_pton a = Some r -> (r <? 0) = false -> holds a t -> t <> [].
Proof. unfold invalid_ipaddr. intros Hi Hr Ht. rewrite Ht in Hi. cbn in Hi. intros ->. injection Hi as <-. done. Qed.

Ltac literal := unfold nonzero; apply (bool_decide_unpack _); by vm_compute.

Lemma never_lann fd l : never (wifi_set_lann inet_pton fd l).
Proof.
  unfold wifi_set_lann. destruct (fd =? 0); [apply never_error|].
  apply never_mem. intros r1 E1. destruct (r1 <? 0) eqn:Hr1; [apply never_error|].
  apply never_mem. intros r2 _. destruct (r2 <? 0); [apply never_error|].
  apply never_send; [literal|]. intros t. by eapply valid_ipaddr_nonempty.
Qed.

Lemma one_of_nonempty a l t : one_of a l = Some true -> Forall (fun c => nonzero c /\ c <> []) l -> holds a t -> t <> [].
Proof.
  intros Ho Hl Ht. assert (t ∈ l) as Hin.
  { eapply one_of_true; [done..|]. eapply Forall_impl; [exact Hl|]. cbn. tauto. }
  by apply (proj1 (Forall_forall _ _) Hl t) in Hin as [_ ?].
Qed.

Ltac choices := repeat (constructor; [split; [literal|discriminate]|]); constructor.

Lemma never_netp rxbuf fd n : never (wifi_set_netp inet_pton rxbuf fd n).
Proof.
  destruct n as [n|]; [|apply never_error]. unfold wifi_set_netp.
  apply never_mem. intros ok E. destruct ok; [|apply never_error].
  apply never_mem. intros server _. apply never_mem. intros client _. cbn [negb].
  destruct (negb server && negb client); [apply never_error|].
  destruct (_ || _); [apply never_error|]. apply never_mem. intros r _. destruct (r <? 0); [apply never_error|].
  apply never_mem. intros port _. apply never_send; [literal|]. intros t.
  eapply one_of_nonempty; [done|choices].
Qed.

Lemma never_wakey fd w : never (wifi_set_wakey fd w).
Proof.
  destruct w as [w|]; [|apply never_error]. unfold wifi_set_wakey.
  apply never_mem. intros ok E. destruct ok; [|apply never_error].
  apply never_mem. intros ok' _. destruct ok'; [|apply never_error].
  destruct (one_of_holds _ _ E) as (t & Hin & Ht); [unfold auths; repeat (constructor; [literal|]); constructor|].
  unfold lit at 1. rewrite (strcats_full (text "AT+WAKEY=") (auth w) t); [apply never_fault|literal|done|].
  by eapply one_of_nonempty; [exact E|unfold auths; choices|].
Qed.

Lemma never_wap fd w : never (wifi_set_wap fd w).
Proof.
  destruct w as [w|]; [|apply never_error]. unfold wifi_set_wap.
  apply never_mem. intros ok E. destruct ok; [|apply never_error].
  apply never_mem. intros ok' _. destruct ok'; [|apply never_error].
  apply never_send; [literal|]. intros t. eapply one_of_nonempty; [exact E|unfold modes; choices].
Qed.

Lemma case_eq_nonempty a c t : str_case_eq a (c ++ [0]) = Some true -> c <> [] -> nonzero c -> holds a t -> t <> [].
Proof.
  intros E Hc Hn (r & -> & _)%holds_inv ->. destruct c as [|x c]; [done|]. cbn [app str_case_eq] in E.
  apply Forall_cons in Hn as [Hx _]. destruct (Z.eqb_spec (to_upper 0) (to_upper x)) as [Eu|]; [|done].
  revert Eu. change (to_upper 0) with 0. unfold to_upper. destruct ((97 <=? x) && (x <=? 122)) eqn:Ex; [|lia].
  apply andb_true_iff in Ex as [?%Z.leb_le ?]. lia.
Qed.

Lemma never_wmode fd w : never (wifi_set_wmode fd w).
Proof.
  destruct w as [w|]; [|apply never_error]. unfold wifi_set_wmode.
  apply never_mem. intros sta E1. apply never_mem. intros ap E2. destruct ap; [|apply never_error].
  apply never_send; [literal|]. intros t. destruct sta.
  - eapply (case_eq_nonempty _ (text "STA")); [exact E1|discriminate|literal].
  - eapply (case_eq_nonempty _ (text "AP")); [exact E2|discriminate|literal].
Qed.

Lemma never_one {A} fd (v : option A) set : (forall a, never (set a)) -> never (set_one fd v set).
Proof.
  intros Hs. unfold set_one. destruct (fd =? -1); [apply never_error|]. apply never_mem. intros a _.
  eapply emits_bind; [apply Hs|intros ? [-> _]; auto|]. intros r es [-> [?|[= ->]]]; [discriminate|].
  apply never_error.
Qed.
End Settings.

(** C25: No setting can be written: the functions append to an array that holds
    exactly the start of the command, so whatever the arguments and the module,
    each of them either refuses the setting or writes outside that array before
    anything is sent. *)
Theorem wifi_set_overflows `{Serial} `{Arch} (inet_pton : bool -> list Z -> bool) (fd : Z) :
  (forall l, never (wifi_set_lann inet_pton fd l)) /\
  (forall rxbuf n, never (wifi_set_netp inet_pton rxbuf fd n)) /\
  (forall w, never (wifi_set_wakey fd w)) /\
  (forall w, never (wifi_set_wap fd w)) /\
  (forall w, never (wifi_set_wmode fd w)) /\
  (forall l0 ip, never (wifi_set_ip inet_pton l0 fd ip)) /\
  (forall n0 rxbuf port, never (wifi_set_port inet_pton n0 rxbuf fd port)) /\
  (forall w0 k, never (wifi_set_key w0 fd k)) /\
  (forall w0 s, never (wifi_set_ssid w0 fd s)).
Proof.
  split_and!; intros; first [apply never_lann | apply never_netp | apply never_wakey | apply never_wap
    | apply never_wmode | apply never_one; intros; first [apply never_lann | apply never_netp
    | apply never_wakey | apply never_wap]].
Qed.

(** ** Reading a setting *)

(** The answer to a query: the command repeated, the status, the values. *)
Definition reply (echo : list Z) (d : Z) (ok values tail : list Z) : list Z :=
  echo ++ d :: ok ++ 61 :: values ++ CR :: tail.

Definition word (ds l : list Z) : Prop := l <> [] /\ token ds l.

Lemma first_value_reply ds echo d ok v e suf :
  delim ds 0 = false -> delim ds d = true -> delim ds 61 = true -> word ds echo -> word ds ok ->
  word seps v -> delim seps e = true ->
  exists pre, first_value (echo ++ d :: ok ++ 61 :: v ++ e :: suf) ds =
    Some (Some (length pre), (pre ++ v ++ [0]) ++ suf, length (pre ++ v ++ [0])).
Proof.
  intros H0 Hd H61 [Hne Ht] [Hne' Ht'] [Hv Htv] He. unfold first_value.
  pose proof (strtok_next ds [] echo d (ok ++ 61 :: v ++ e :: suf) H0 Hd Hne Ht) as E1.
  cbn [app length] in E1. rewrite E1. cbn [mbind option_bind].
  rewrite (strtok_next ds (echo ++ [0]) ok 61) by done. cbn [mbind option_bind].
  eexists. by rewrite (strtok_next seps _ v e suf).
Qed.

(** The next value of an answer. *)
Lemma next_value pre v e suf : word seps v -> delim seps e = true ->
  strtok (pre ++ v ++ e :: suf) (length pre) seps =
  Some (Some (length pre), (pre ++ v ++ [0]) ++ suf, length (pre ++ v ++ [0])).
Proof. intros [? ?] ?. by apply strtok_next. Qed.

Lemma strcpy_word dst v suf : word seps v -> (length v < length dst)%nat ->
  exists dst', strcpy dst (v ++ 0 :: suf) = Some dst' /\ holds dst' v.
Proof.
  intros [_ Hv] Hl. apply token_nonzero in Hv. eexists. rewrite strcpy_fits by done.
  split; [done|]. by apply holds_text.
Qed.

(** Read the next value of an answer into its array. *)
Ltac take_value :=
  match goal with
  | |- context [strtok (?pre ++ ?v ++ ?e :: ?suf) (length ?pre) seps] =>
      rewrite (next_value pre v e suf) by (assumption || reflexivity); cbn [mbind option_bind]
  end.
Ltac store_value :=
  rewrite ?drop_token;
  match goal with
  | |- context [strcpy ?dst (?v ++ 0 :: ?suf)] =>
      let d := fresh "d" in let E := fresh "E" in let Hd := fresh "Hd" in
      destruct (strcpy_word dst v suf) as (d & E & Hd); [assumption|cbn; lia|];
      rewrite E; clear E; cbn [mbind option_bind]
  end.

Lemma parse_lann_reply echo d ok ip mask tail l :
  delim seps d = true -> word seps echo -> word seps ok -> word seps ip -> word seps mask ->
  (length ip < length (lan_ip l))%nat -> (length mask < length (lan_mask l))%nat -> 0 ∈ tail ->
  exists l', parse_lann (reply echo d ok (ip ++ comma :: mask) tail) l = Some (WIFI_EOK, l') /\
    holds (lan_ip l') ip /\ holds (lan_mask l') mask.
Proof.
  intros Hd He Ho Hi Hm Hli Hlm Ht. unfold parse_lann, reply. rewrite <- app_assoc. cbn [app].
  destruct (first_value_reply seps echo d ok ip comma (mask ++ CR :: tail)) as (pre & ->); try done.
  cbn [mbind option_bind]. store_value. cbn [lan_ip lan_mask]. take_value. store_value.
  destruct (strtok_total ((((pre ++ ip ++ [0]) ++ mask ++ [0])) ++ tail)
    (length ((pre ++ ip ++ [0]) ++ mask ++ [0])) seps) as (p & b & q & -> & _);
    [done|by rewrite drop_app_length|]. cbn [mbind option_bind]. eexists. split; [reflexivity|]. done.
Qed.

Ltac first_value_of :=
  unfold reply; repeat (progress (rewrite <- ?app_assoc; cbn [app]));
  match goal with
  | |- context [first_value (?echo ++ ?d :: ?ok ++ 61 :: ?v ++ ?e :: ?suf) ?ds] =>
      let pre := fresh "pre" in
      destruct (first_value_reply ds echo d ok v e suf) as (pre & ->); try done;
      cbn [mbind option_bind]
  end.

Lemma parse_netp_reply echo d ok proto typ port addr tail n :
  delim seps d = true -> word seps echo -> word seps ok -> word seps proto -> word seps typ ->
  is_u 16 port -> word seps addr ->
  (length proto < length (protocol n))%nat -> (length typ < length (type n))%nat ->
  (length addr < length (ipaddr n))%nat ->
  exists n', parse_netp (reply echo d ok (proto ++ comma :: typ ++ comma :: decimal port ++ comma :: addr) tail) n =
      Some (WIFI_EOK, n') /\
    holds (protocol n') proto /\ holds (type n') typ /\ nport n' = port /\ holds (ipaddr n') addr.
Proof.
  intros Hd He Ho Hp Ht [Hu0 Hu1] Ha Hlp Hlt Hla. destruct (decimal_spec port Hu0) as (Hne & Hdig & Hval & _).
  assert (word seps (decimal port)) as Hw.
  { split; [done|]. eapply Forall_impl; [exact Hdig|]. cbn. intros c Hc. unfold delim, seps, comma, CR. cbn.
    rewrite !(proj2 (Z.eqb_neq c _)) by lia. split; [lia|done]. }
  unfold parse_netp. first_value_of. store_value. take_value. store_value. take_value.
  rewrite drop_token, atoi_field, Hval by first [done | rewrite Hval; by apply is_int_small]. cbn [mbind option_bind]. take_value. cbn [ipaddr]. store_value.
  eexists. split; [reflexivity|]. cbn. split_and!; try done. unfold u16. by apply uwrap_small.
Qed.

Lemma parse_wakey_reply echo d ok a e k tail w :
  delim seps d = true -> word seps echo -> word seps ok -> word seps a -> word seps e -> word seps k ->
  (length a < length (auth w))%nat -> (length e < length (encry w))%nat -> (length k < length (key w))%nat ->
  exists w', parse_wakey (reply echo d ok (a ++ comma :: e ++ comma :: k) tail) w = Some (WIFI_EOK, w') /\
    holds (auth w') a /\ holds (encry w') e /\ holds (key w') k.
Proof.
  intros. unfold parse_wakey. first_value_of. store_value. take_value. store_value. take_value.
  cbn [key]. store_value. eexists. split; [reflexivity|]. done.
Qed.

Lemma parse_wap_reply echo d ok m s c tail w :
  delim seps d = true -> word seps echo -> word seps ok -> word seps m -> word seps s -> word seps c ->
  (length m < length (wifi_mode w))%nat -> (length s < length (ssid w))%nat -> (length c < length (channel w))%nat ->
  exists w', parse_wap (reply echo d ok (m ++ comma :: s ++ comma :: c) tail) w = Some (WIFI_EOK, w') /\
    holds (wifi_mode w') m /\ holds (ssid w') s /\ holds (channel w') c.
Proof.
  intros. unfold parse_wap. first_value_of. store_value. take_value. store_value. take_value.
  cbn [channel]. store_value. eexists. split; [reflexivity|]. done.
Qed.

Lemma parse_wmode_reply echo d ok m tail w :
  delim [61; LF] d = true -> word [61; LF] echo -> word [61; LF] ok -> word seps m ->
  (length m < length (wmode w))%nat ->
  exists w', parse_wmode (reply echo d ok m tail) w = Some (WIFI_EOK, w') /\ holds (wmode w') m.
Proof.
  intros. unfold parse_wmode. first_value_of. store_value. eexists. split; [reflexivity|]. done.
Qed.

Section Reading.
Context `{Serial} `{Arch}.

Lemma cleared_rxbuf : fill (zeros 1024) (replicate (Z.to_nat (long_bits / 8)) 0) = zeros 1024.
Proof. destruct long_bits_cases as [-> | ->]; vm_compute; reflexivity. Qed.

(** A command goes out and an answer comes in. *)
Lemma sendAT_asks fd t : fd <> 0 -> nonzero t ->
  emits (__sendAT fd (t ++ [0]) (zeros 1024)) (fun r es => exists ret,
    es = [Send fd t ret] /\ ret < 0 /\ r = Some (WIFI_ERROR, zeros 1024) \/
    exists a e, es = [Send fd t ret; Recv fd a] /\ 0 <= ret /\ (e <? 0) = negb (0 <? ret_of a) /\
      r = Some (e, fill (zeros 1024) (data_of a))).
Proof.
  intros Hfd Ht. unfold __sendAT. rewrite (proj2 (Z.eqb_neq fd 0)), cstr_text by done.
  change (mem (Some ?v) ≫= ?f) with (f v). cbv beta.
  eapply emits_bind; [apply emits_send|by intros ? (? & ? & _)|]. intros ? es (ret & [= ->] & ->).
  destruct (Z.ltb_spec ret 0) as [Hr|Hr]; [apply emits_ret; exists ret; by left|].
  cbv zeta. rewrite cleared_rxbuf.
  eapply emits_bind; [apply emits_readn|by intros ? (? & ? & _)|]. intros ? es (a & [= ->] & ->).
  set (b := cut_to 1024 a).
  destruct (Z.ltb_spec (ret_of b) 0) as [Hb|Hb]; [|destruct (Z.eqb_spec (ret_of b) 0) as [Hz|Hz]];
    apply emits_ret; exists ret; right; exists b; eexists; (split_and!; [done|done| |done]).
  - by rewrite (proj2 (Z.ltb_lt (ret_of b) 0)), (proj2 (Z.ltb_ge 0 (ret_of b))) by lia.
  - by rewrite (proj2 (Z.ltb_ge 0 (ret_of b))) by lia.
  - by rewrite (proj2 (Z.ltb_lt 0 (ret_of b))) by lia.
Qed.

(** What a query promises.  Without a port or a structure it does nothing and
    reports an error.  Otherwise it sends [cmd]; when that fails or nothing
    arrives it reports an error and leaves the structure alone; an answer that
    repeats the command, gives a status and then the [values] of [t] leaves a
    structure of the declared sizes that is the [same] as [t]. *)
Definition reads {A T} (get : Z -> option A -> M (Z * option A)) (cmd ds : list Z) (wf : A -> Prop)
    (fits : T -> Prop) (values : T -> list Z) (same : T -> A -> Prop) : Prop :=
  (forall fd v, fd = 0 \/ v = None -> emits (get fd v) (fun r es => es = [] /\ r = Some (WIFI_ERROR, v))) /\
  forall fd v, fd <> 0 -> wf v -> emits (get fd (Some v)) (fun r es => exists ret,
    es = [Send fd cmd ret] /\ ret < 0 /\ r = Some (WIFI_ERROR, Some v) \/
    exists a, es = [Send fd cmd ret; Recv fd a] /\ 0 <= ret /\
      (ret_of a <= 0 -> r = Some (WIFI_ERROR, Some v)) /\
      (forall t echo d ok more, fits t -> delim ds d = true -> word ds echo -> word ds ok ->
        data_of a = reply echo d ok (values t) more -> (length (data_of a) < 1024)%nat ->
        exists v', r = Some (WIFI_EOK, Some v') /\ wf v' /\ same t v')).

Lemma query_reads {A T} str cmd (parse : list Z -> A -> option (Z * A)) ds (wf : A -> Prop) (fits : T -> Prop) values same :
  str = cmd ++ [0] -> nonzero cmd ->
  (forall buf r v v', wf v -> parse buf v = Some (r, v') -> wf v') ->
  (forall t echo d ok tail v, fits t -> wf v -> delim ds d = true -> word ds echo -> word ds ok -> 0 ∈ tail ->
    exists v', parse (reply echo d ok (values t) tail) v = Some (WIFI_EOK, v') /\ same t v') ->
  reads (query str parse) cmd ds wf fits values same.
Proof.
  intros -> Hc Hwf Hp. split.
  { intros fd v Hv. destruct v as [v|]; [|by apply emits_ret]. destruct Hv as [->|]; [|done].
    cbn [query]. unfold __sendAT. cbn [Z.eqb]. by apply emits_ret. }
  intros fd v Hfd Hv. cbn [query]. eapply emits_bind; [by apply sendAT_asks| |].
  { by intros es (ret & [(_ & _ & ?)|(? & ? & _ & _ & _ & ?)]). }
  intros [e buf] es (ret & [(-> & Hr & [= -> ->])|(a & e' & -> & Hr & He & [= <- ->])]).
  { apply emits_ret. exists ret. by left. }
  rewrite He. destruct (Z.ltb_spec 0 (ret_of a)) as [Ha|Ha]; cbn [negb].
  - assert (forall t echo d ok more, fits t -> delim ds d = true -> word ds echo -> word ds ok ->
      data_of a = reply echo d ok (values t) more -> (length (data_of a) < 1024)%nat ->
      exists v', parse (fill (zeros 1024) (data_of a)) v = Some (WIFI_EOK, v') /\ wf v' /\ same t v') as Hok.
    { intros t echo d ok more Ht Hd H1 H2 Hdat Hlen.
      assert (fill (zeros 1024) (data_of a) =
        reply echo d ok (values t) (more ++ drop (length (data_of a)) (zeros 1024))) as ->.
      { unfold fill, reply. rewrite Hdat at 1. unfold reply. repeat (rewrite <- ?app_assoc; cbn [app]). done. }
      destruct (Hp t echo d ok (more ++ drop (length (data_of a)) (zeros 1024)) v) as (v' & E & Hs); [done..| |eauto].
      apply elem_of_app. right. unfold zeros. rewrite drop_replicate. apply elem_of_replicate. split; [done|lia]. }
    eapply emits_bind; [by apply emits_mem with (R := fun o es => o = parse (fill (zeros 1024) (data_of a)) v /\ es = [])| |].
    + intros es [E ->]. exists ret. right. exists a. split_and!; [done|done|lia|].
      intros t echo d ok more Ht Hd H1 H2 Hdat Hlen.
      destruct (Hok t echo d ok more) as (? & ? & _); [done..|congruence].
    + intros [r v'] es [E ->]. apply emits_ret. exists ret. right. exists a. split_and!; [done|done|lia|].
      intros t echo d ok more Ht Hd H1 H2 Hdat Hlen.
      destruct (Hok t echo d ok more) as (w & E' & ? & ?); [done..|]. exists w.
      rewrite E' in E. by injection E as -> ->.
  - apply emits_ret. exists ret. right. exists a. split_and!; [done|done|done|].
    intros t echo d ok more _ _ [Hne _] _ Hdat _. destruct a as [c|dat]; cbn [data_of ret_of] in *.
    + by destruct echo.
    + subst dat. destruct echo; [done|]. cbn in Ha. lia.
Qed.

End Reading.

(** C24: What the queries store.  Without a port or a structure a query does
    nothing and reports an error.  Otherwise it sends its command; when that
    fails or nothing arrives within the time limit, it reports an error and the
    structure keeps its values.  An answer shorter than the receive buffer that
    repeats the command, gives a status and then the values of the setting, each
    one a word that fits its array and the port a 16-bit number, makes the query
    report success, with each value in its own member and every array of its
    declared size.  This is so for the network, the socket, the key, the access
    point and the mode. *)
Theorem wifi_queries_store `{Serial} `{Arch} :
  reads wifi_get_lann (text "AT+LANN" ++ [CR]) seps lann_wf
    (fun '(ip, mask) => (word seps ip /\ length ip < 32) /\ (word seps mask /\ length mask < 32))%nat
    (fun '(ip, mask) => ip ++ comma :: mask)
    (fun '(ip, mask) l => holds (lan_ip l) ip /\ holds (lan_mask l) mask) /\
  reads wifi_get_netp (text "AT+NETP" ++ [CR]) seps netp_wf
    (fun '(proto, typ, port, addr) => (word seps proto /\ length proto < 4)%nat /\
      (word seps typ /\ length typ < 7)%nat /\ is_u 16 port /\ (word seps addr /\ length addr < 32)%nat)
    (fun '(proto, typ, port, addr) => proto ++ comma :: typ ++ comma :: decimal port ++ comma :: addr)
    (fun '(proto, typ, port, addr) n =>
      holds (protocol n) proto /\ holds (type n) typ /\ nport n = port /\ holds (ipaddr n) addr) /\
  reads wifi_get_wakey (text "AT+WAKEY" ++ [CR]) seps wakey_wf
    (fun '(a, e, k) => (word seps a /\ length a < 7) /\ (word seps e /\ length e < 8) /\
      (word seps k /\ length k < 64))%nat
    (fun '(a, e, k) => a ++ comma :: e ++ comma :: k)
    (fun '(a, e, k) w => holds (auth w) a /\ holds (encry w) e /\ holds (key w) k) /\
  reads wifi_get_wap (text "AT+WAP" ++ [CR]) seps wap_wf
    (fun '(m, s, c) => (word seps m /\ length m < 6) /\ (word seps s /\ length s < 128) /\
      (word seps c /\ length c < 5))%nat
    (fun '(m, s, c) => m ++ comma :: s ++ comma :: c)
    (fun '(m, s, c) w => holds (wifi_mode w) m /\ holds (ssid w) s /\ holds (channel w) c) /\
  reads wifi_get_wmode (text "AT+WMODE" ++ [CR]) [61; LF] wmode_wf
    (fun m => word seps m /\ length m < 4)%nat (fun m => m) (fun m w => holds (wmode w) m).
Proof.
  unfold wifi_get_lann, wifi_get_netp, wifi_get_wakey, wifi_get_wap, wifi_get_wmode.
  split; [|split; [|split; [|split]]]; (apply query_reads; [done|unfold nonzero; apply (bool_decide_unpack _); by vm_compute
    |intros buf r; by apply (parsers_keep_types buf r)|]).
  - intros [ip mask] echo d ok tail l ((? & ?) & ? & ?) [? ?] ? ? ? ?. apply parse_lann_reply; done || lia.
  - intros [[[proto typ] port] addr] echo d ok tail n ((? & ?) & (? & ?) & ? & ? & ?) (? & ? & ? & ?) ? ? ? ?.
    apply parse_netp_reply; done || lia.
  - intros [[a e] k] echo d ok tail w ((? & ?) & (? & ?) & ? & ?) (? & ? & ?) ? ? ? ?. apply parse_wakey_reply; done || lia.
  - intros [[m s] c] echo d ok tail w ((? & ?) & (? & ?) & ? & ?) (? & ? & ?) ? ? ? ?. apply parse_wap_reply; done || lia.
  - intros m echo d ok tail w (? & ?) Hw ? ? ? ?. apply parse_wmode_reply; try done. by rewrite Hw.
Qed.

Definition lann_answer : list Z :=
  reply (text "AT+LANN") CR (LF :: text "+ok") (text "10.10.100.254" ++ comma :: text "255.255.255.0") [LF].

Lemma wifi_queries_store_witness :
  let s := @mk_st Scripted (mk_script [lann_answer] 3 [] []) [] in
  exists l, fst (@wifi_get_lann Scripted lp64 3 (Some (mk_lann (zeros 32) (zeros 32))) s) = Some (WIFI_EOK, Some l) /\
    lann_wf l /\ holds (lan_ip l) (text "10.10.100.254") /\ holds (lan_mask l) (text "255.255.255.0").
Proof.
  intros s. destruct (@wifi_queries_store Scripted lp64) as [[_ Hl] _].
  destruct (Hl 3 (mk_lann (zeros 32) (zeros 32)) ltac:(discriminate) (conj eq_refl eq_refl) s)
    as (es & Hw & ret & [(-> & _ & _)|(a & -> & _ & _ & Hs)]); vm_compute in Hw; [discriminate Hw|].
  injection Hw as _ <-.
  apply (Hs (text "10.10.100.254", text "255.255.255.0") (text "AT+LANN") CR (LF :: text "+ok") [LF]).
  - split; (split; [split; [discriminate|unfold token; apply (bool_decide_unpack _); by vm_compute]|vm_compute; lia]).
  - reflexivity.
  - split; [discriminate|unfold token; apply (bool_decide_unpack _); by vm_compute].
  - split; [discriminate|unfold token; apply (bool_decide_unpack _); by vm_compute].
  - reflexivity.
  - vm_compute. lia.
Defined.

(** A client socket cannot be set: only a type of SERVER passes the checks. *)
Theorem wifi_client_refused `{Serial} `{Arch} (rxbuf : list Z) inet_pton (fd : Z) (n : wifi_netp) (t : list Z) :
  holds (type n) t -> t <> text "SERVER" -> never (wifi_set_netp inet_pton rxbuf fd (Some n)).
Proof.
  intros Ht Hne. unfold wifi_set_netp. apply never_mem. intros ok E. destruct ok; [|apply never_error]. cbn [negb].
  apply never_mem. intros server Es. apply never_mem. intros client Ec.
  assert (server = false) as ->.
  { change (lit "SERVER") with (text "SERVER" ++ [0]) in Es.
    rewrite (str_eq_holds _ t) in Es by (done || (unfold nonzero; apply (bool_decide_unpack _); by vm_compute)).
    injection Es as <-. by rewrite bool_decide_eq_false_2. }
  apply one_of_holds in E as (b & Hb & Hp);
    [|repeat (constructor; [unfold nonzero; apply (bool_decide_unpack _); by vm_compute|]); constructor].
  change (lit "CLIENT") with (text "CLIENT" ++ [0]) in Ec. cbn [negb andb] in *.
  rewrite (str_eq_holds _ b) in Ec by (done || (unfold nonzero; apply (bool_decide_unpack _); by vm_compute)).
  injection Ec as <-. rewrite bool_decide_eq_false_2; [apply never_error|].
  repeat (apply elem_of_cons in Hb as [->|Hb]); [discriminate|discriminate|by apply elem_of_nil in Hb].
Qed.
