(* ===== verification/Board.v ===== *)
(** * The board test (src/board_test/bicycle.c, bicycle_test.c)

    A test bench sends frames of seven bytes over a serial port, each naming a
    device of the board; the program tries the device and answers with a frame
    that says whether it works.  The devices are reached through serial ports
    (GPS, WiFi), the shell ([ping]) and libraries; class [Serial] holds them all.

    [lib_crc16_with_byte] of lib_general is a parameter, and so is what lies on
    the stack: the structures [wmode0] and [lann0] of the WiFi test and [txbuf0]
    of the main program. *)

From S2P Require Import Prelude CStr CFloat Gps Serial Wifi.

Abbreviation unit := Datatypes.unit.

Definition GPS_DEV_NAME : list Z := text "/dev/ttyO4".
Definition WIFI_DEV_NAME : list Z := text "/dev/CH340G".
Definition DEV_NAME : list Z := text "/dev/ttyO1".
Definition LIB_EV_OK : Z := 1.

(** ** Frames *)

Fixpoint crc16_loop (n : nat) (buf : list Z) (i : nat) (a : Z) : option Z :=
  match n with
  | O => Some a
  | S n => b ← buf !! i; crc16_loop n buf (S i) (Z.lxor a b)
  end.

(** The exclusive or of all bytes but the last two. *)
Definition crc16 (buf : list Z) (len : Z) : option Z := crc16_loop (Z.to_nat (len - 2)) buf 0 0.

(** The guards of [analysts]. *)
Definition check_frame (rxbuf : list Z) : option bool :=
  if negb (aget rxbuf 0 =? 0x55) || negb (aget rxbuf 1 =? 0xaa) then Some false
  else if negb (aget rxbuf 2 =? 0x07) then Some false
  else
    check ← crc16 rxbuf (aget rxbuf 2);
    if negb (aget rxbuf 5 =? check) then Some false
    else if negb (aget rxbuf 6 =? 0x00) then Some false
    else Some true.

Section Board.
Context `{Serial} `{Arch} (inet_pton : bool -> list Z -> bool)
  (lib_crc16_with_byte : list Z -> Z) (wmode0 : wifi_wmode) (lann0 : wifi_lann).

(** The value returned and [sfd] (src/board_test/gps.c). *)
Definition __gps_init (path : list Z) (speed : Z) : M (Z * Z) :=
  '(ret, fd) ← lib_serial_init path speed;
  if ret <? 0 then mret (GPS_ERROR, fd) else mret (GPS_EOK, fd).

(** [None]: the process exits. *)
Definition __gps_resease (fd : Z) : M (option Z) := lib_serial_close fd;; mret None.

(** [dst] is an array.  [recvBuf] takes 15 bytes of what is printed.  The stream
    is not tested: [fread] from NULL faults. *)
Definition checkConnect (dst : list Z) (cnt : Z) : M Z :=
  if cnt <=? 0 then mret (-1)
  else
    s ← mem (cstr dst);
    cmd ← mem (strcpy (zeros 256)
      (text "ping " ++ s ++ text " -c " ++ decimal cnt ++ text " | grep time= | wc -l" ++ [0]));
    cmd ← mem (cstr cmd);
    stream ← popen cmd;
    match stream with
    | None => fault
    | Some out =>
        n ← mem (atoi (fill (zeros 16) (take 15 out)));
        if 0 <? n then mret 0 else mret (-1)
    end.

(** A CAN message with the text [ab00&]; numbers are little endian. *)
Definition le16 (x : Z) : list Z := [u8 x; u8 (x ≫ 8)].

Definition package_make (data : list Z) (d_addr s_addr cmd : Z) : Z * list Z :=
  let frame := [0x55; 0xaa; s_addr; d_addr; cmd; 0] ++ le16 5 ++ text "ab00&" in
  let frame := frame ++ le16 (u16 (lib_crc16_with_byte frame)) in
  (Z.of_nat (length frame), fill data frame).

(** [txbuf\[5\] = crc16(txbuf, txbuf\[2\]); txbuf\[6\] = 0;] and the frame is sent. *)
Definition send_status (fd cmd status : Z) : M unit :=
  let txbuf := [0x55; 0xaa; 0x07; cmd; status] in
  check ← mem (crc16 txbuf (aget txbuf 2));
  lib_serial_send fd (txbuf ++ [check; 0x00]);;
  mret tt.

(** ** Devices: 0x02 is good, 0x04 is bad *)

(** [if(rret=0)] is an assignment, and false: the port stays open. *)
Definition gps_test (fd : Z) : M unit :=
  '(rret, gfd) ← __gps_init GPS_DEV_NAME 9600;
  status ←
    (if rret <? 0 then mret 0x04
     else
       ret ← lib_serial_send gfd gps_gga_on_msg;
       if gps_gga_on (fun _ => ret) <? 0 then mret 0x04
       else
         a ← lib_serial_readn_select gfd 7 1000;
         if ret_of a <? 0 then mret 0x04 else mret 0x02);
  send_status fd 0x01 status.

Definition wifi_test (fd : Z) : M unit :=
  '(ret, wfd) ← __wifi_init WIFI_DEV_NAME 57600;
  status ←
    (if ret <? 0 then mret 0x04
     else
       m ← mem (strcpy (wmode wmode0) (lit "AP"));
       wifi_set_wmode wfd (Some (mk_wmode m));;
       ip ← mem (strcpy (lan_ip lann0) (lit "192.168.100.254"));
       mask ← mem (strcpy (lan_mask lann0) (lit "255.255.255.0"));
       wifi_set_lann inet_pton wfd (mk_lann ip mask);;
       __wifi_resease wfd;;
       run_shell (text "ifconfig eth0 192.168.100.1");;
       ret ← checkConnect (lit "192.168.100.254") 4;
       if ret =? 0 then mret 0x02 else mret 0x04);
  send_status fd 0x02 status.

(** [lib_wl_destroy] is called with NULL when there is none. *)
Definition thrg_test (fd : Z) : M unit :=
  wl ← lib_call "lib_wl_new" [];
  status ←
    (if wl =? 0 then mret 0x04
     else
       ret ← lib_call "lib_wl_hwver_get" [wl; 2000];
       if ret <? 0 then mret 0x04 else mret 0x02);
  send_status fd 0x04 status;;
  lib_call "lib_wl_destroy" [wl];;
  mret tt.

(** The check byte is taken from [txbuf], the CAN message, not from the frame
    [txbuf2] that is sent; what was created is destroyed only when it is NULL,
    and [assert(ctos)] of [lib_ctos_destroy] ends the program. *)
Definition can_test (fd : Z) : M unit :=
  let txbuf := zeros 512 in
  ctos ← lib_call "lib_ctos_create" [1; 0; 2; 32; 4 * 1024];
  '(status, txbuf) ←
    (if ctos =? 0 then mret (0x04, txbuf)
     else
       let '(len, txbuf) := package_make txbuf 0x7f 0x00 0x81 in
       (if 0 <? len then lib_call "lib_ctos_put" ([ctos; 0x7f] ++ take (Z.to_nat len) txbuf)
        else mret (-1));;
       lib_call "lib_msleep" [12000];;
       a ← lib_read "lib_ctos_get" 512;
       let rxbuf := fill (zeros 512) (data_of a) in
       if (0 <? ret_of a) && ((aget rxbuf 8 =? 97) && (aget rxbuf 9 =? 97))
       then mret (0x02, txbuf) else mret (0x04, txbuf));
  check ← mem (crc16 txbuf (aget txbuf 2));
  lib_serial_send fd ([0x55; 0xaa; 0x07; 0x08; status] ++ [check; 0x00]);;
  if ctos =? 0 then fault else mret tt.

(** The address to try comes over the port, after the request. *)
Definition rj45_test (fd : Z) : M unit :=
  a ← lib_serial_readn_select fd 32 1500;
  if ret_of a <? 0 then mret tt
  else
    ret ← checkConnect (fill (zeros 32) (data_of a)) 4;
    send_status fd 0x10 (if ret =? 0 then 0x02 else 0x04).

Definition ftdi_test (fd : Z) : M unit :=
  ftdi ← lib_call "ftdi_new" [];
  status ←
    (if ftdi =? 0 then mret 0x04
     else
       lib_call "ftdi_set_interface" [ftdi; 1];;
       f ← lib_call "ftdi_usb_open" [ftdi; 0x0403; 0x6001];
       status ←
         (if f <? 0 then mret 0x04
          else
            lib_call "lib_msleep" [200];;
            lib_call "ftdi_usb_close" [ftdi];;
            mret 0x02);
       lib_call "ftdi_free" [ftdi];;
       mret status);
  send_status fd 0x11 status.

Definition i2c_test (fd : Z) : M unit :=
  ret ← lib_call "lib_SN_consume_read32" [1];
  send_status fd 0x12 (if ret =? 0 then 0x02 else 0x04).

Definition encryption_test (fd : Z) : M unit :=
  ret ← lib_call "LIB_Encry_Verify" [];
  send_status fd 0x14 (if ret =? LIB_EV_OK then 0x02 else 0x04).

Definition ttyO2_test (fd : Z) : M unit := mret tt.

(** ** Requests *)

(** The [switch] on the command; [go] is the next byte. *)
Definition dispatch (cmd go fd : Z) : M unit :=
  let go := go =? 0x1 in
  if cmd =? 0x01 then (if go then gps_test fd else mret tt)
  else if cmd =? 0x02 then (if go then wifi_test fd else mret tt)
  else if cmd =? 0x04 then (if go then thrg_test fd else mret tt)
  else if cmd =? 0x08 then (if go then can_test fd else mret tt)
  else if cmd =? 0x10 then (if go then rj45_test fd else mret tt)
  else if cmd =? 0x11 then (if go then ftdi_test fd else mret tt)
  else if cmd =? 0x12 then (if go then i2c_test fd else mret tt)
  else if cmd =? 0x14 then (if go then encryption_test fd else mret tt)
  else if cmd =? 0x18 then (if go then ttyO2_test fd else mret tt)
  else mret tt.

Definition analysts (rxbuf : list Z) (fd : Z) : M Z :=
  ok ← mem (check_frame rxbuf);
  if negb ok then mret (-1)
  else dispatch (aget rxbuf 3) (aget rxbuf 4) fd;; mret 0.

(** One turn of the loop of [main]. *)
Definition turn (txbuf : list Z) (fd : Z) : M unit :=
  a ← lib_serial_readn_select fd 7 1500;
  if ret_of a <=? 0 then mret tt
  else
    ret ← analysts (fill (zeros 1024) (data_of a)) fd;
    if ret <? 0 then lib_serial_send fd (take 7 txbuf);; mret tt else mret tt.

Fixpoint turns (n : nat) (txbuf : list Z) (fd : Z) : M unit :=
  match n with O => mret tt | S n => turn txbuf fd;; turns n txbuf fd end.

(** [n] turns of the endless loop.  [memset(txbuf, 0, sizeof(1024))] clears four
    bytes, the size of an [int]. *)
Definition main (n : nat) (txbuf0 : list Z) : M unit :=
  '(ret, fd) ← lib_serial_init DEV_NAME 115200;
  if ret <? 0 then mret tt else turns n (fill txbuf0 [0; 0; 0; 0]) fd.

End Board.

(** ** Frames and their check *)

Lemma crc16_loop_xor n : forall buf i a, (i + n <= length buf)%nat ->
  crc16_loop n buf i a = Some (fold_left Z.lxor (take n (drop i buf)) a).
Proof.
  induction n as [|n IH]; intros buf i a Hl; [done|]. cbn [crc16_loop].
  destruct (lookup_lt_is_Some_2 buf i) as [b Hb]; [lia|]. rewrite Hb. cbn [mbind option_bind].
  rewrite IH by lia. by rewrite (drop_S buf b i Hb).
Qed.

(** The frames the guards accept. *)
Definition frame_of (cmd go : Z) : list Z :=
  [0x55; 0xaa; 0x07; cmd; go; fold_left Z.lxor [0x55; 0xaa; 0x07; cmd; go] 0; 0].

Lemma check_frame_spec f rest : length f = 7%nat ->
  check_frame (f ++ rest) = Some (bool_decide (f = frame_of (f !!! 3%nat) (f !!! 4%nat))).
Proof.
  intros Hl. do 7 (destruct f as [|? f]; [done|]). destruct f; [|done]. clear Hl.
  unfold check_frame. set (l := _ ++ rest).
  change (aget l 0) with z. change (aget l 1) with z0. change (aget l 2) with z1.
  change (aget l 5) with z4. change (aget l 6) with z5. subst l.
  change ([z; z0; z1; z2; z3; z4; z5] !!! 3%nat) with z2. change ([z; z0; z1; z2; z3; z4; z5] !!! 4%nat) with z3.
  destruct (Z.eqb_spec z 0x55) as [->|]; cbn [negb orb]; [|by rewrite bool_decide_eq_false_2 by (unfold frame_of; congruence)].
  destruct (Z.eqb_spec z0 0xaa) as [->|]; cbn [negb orb]; [|by rewrite bool_decide_eq_false_2 by (unfold frame_of; congruence)].
  destruct (Z.eqb_spec z1 0x07) as [->|]; cbn [negb orb]; [|by rewrite bool_decide_eq_false_2 by (unfold frame_of; congruence)].
  unfold crc16. rewrite crc16_loop_xor by (cbn; lia). cbn [mbind option_bind].
  change (take _ _) with [0x55; 0xaa; 0x07; z2; z3].
  destruct (Z.eqb_spec z4 (fold_left Z.lxor [0x55; 0xaa; 0x07; z2; z3] 0)) as [->|]; cbn [negb];
    [|by rewrite bool_decide_eq_false_2 by (unfold frame_of; congruence)].
  destruct (Z.eqb_spec z5 0) as [->|]; cbn [negb]; [by rewrite bool_decide_eq_true_2|].
  by rewrite bool_decide_eq_false_2 by (unfold frame_of; congruence).
Qed.

Lemma lxor_cancel_r x y z : Z.lxor x z = Z.lxor y z -> x = y.
Proof.
  intros E. apply (f_equal (fun a => Z.lxor a z)) in E.
  by rewrite !Z.lxor_assoc, Z.lxor_nilpotent, !Z.lxor_0_r in E.
Qed.

Lemma lxor_cancel_l x y z : Z.lxor z x = Z.lxor z y -> x = y.
Proof. rewrite !(Z.lxor_comm z). apply lxor_cancel_r. Qed.

(** C30: The check catches every single wrong byte: when a frame is accepted, no
    frame that differs from it in exactly one of the seven bytes is. *)
Theorem board_check_detects (f rest : list Z) (i : nat) (b : Z) :
  length f = 7%nat -> (i < 7)%nat -> f !! i <> Some b ->
  check_frame (f ++ rest) = Some true -> check_frame (<[i := b]> f ++ rest) = Some false.
Proof.
  intros Hl Hi Hb. rewrite !check_frame_spec by (by rewrite ?length_insert). intros [= Hf%bool_decide_eq_true].
  f_equal. apply bool_decide_eq_false_2. intros Hf'. revert Hb. rewrite Hf in Hf'. rewrite Hf.
  set (c := f !!! 3%nat) in *. set (g := f !!! 4%nat) in *. unfold frame_of in *. clearbody c g. clear Hf.
  destruct i as [|[|[|[|[|[|[|i]]]]]]]; cbn -[Z.lxor] in *; try injection Hf'; intros; try congruence; try lia.
  - apply Hb. f_equal. eapply lxor_cancel_l, lxor_cancel_r. eassumption.
  - apply Hb. f_equal. eapply lxor_cancel_l. eassumption.
Qed.

Lemma board_check_detects_witness :
  check_frame (frame_of 0x12 1 ++ [0; 0]) = Some true /\
  check_frame (<[3%nat := 0x14]> (frame_of 0x12 1) ++ [0; 0]) = Some false.
Proof.
  split; [reflexivity|].
  apply (board_check_detects (frame_of 0x12 1) [0; 0] 3 0x14); [reflexivity|lia|discriminate|reflexivity].
Defined.

(** ** Sessions

    What one turn of the loop does on the ports, as a specification: the request,
    the attempt on the device, the verdict sent back. *)

(** [checkConnect]'s command and its verdict on what was printed. *)
Definition ping_of (dst : list Z) : list Z :=
  text "ping " ++ dst ++ text " -c 4 | grep time= | wc -l".
Definition pinged (out : list Z) : option bool :=
  (fun n => 0 <? n) <$> atoi (fill (zeros 16) (take 15 out)).

(** The CAN message, and the two bytes that must come back. *)
Definition can_message (crc : list Z -> Z) : list Z :=
  let frame := [0x55; 0xaa; 0x00; 0x7f; 0x81; 0; 5; 0] ++ text "ab00&" in frame ++ le16 (u16 (crc frame)).
Definition can_good (a : answer) : bool :=
  bool_decide (data_of a !! 8%nat = Some 97 /\ data_of a !! 9%nat = Some 97).

Definition on_port (p : Z) (e : event) : Prop :=
  match e with Send q _ _ | Recv q _ => q = p | _ => False end.

(** The request in the bytes that arrived: six are enough, the last is zero. *)
Definition request (a : answer) (cmd go : Z) : Prop :=
  take 7 (fill (zeros 1024) (data_of a)) = frame_of cmd go.

(** The verdict; the check byte of the CAN test is zero. *)
Definition verdict (cmd : Z) (pass : bool) : list Z :=
  let status := if pass then 0x02 else 0x04 in
  if cmd =? 0x08 then [0x55; 0xaa; 0x07; cmd; status; 0; 0] else frame_of cmd status.

Definition devices : list Z := [0x01; 0x02; 0x04; 0x08; 0x10; 0x11; 0x12; 0x14].

Section Sessions.
Context (crc : list Z -> Z) (fd : Z) (txbuf : list Z).

(** [tried cmd es pass late]: the events [es] on the device of [cmd] mean that it
    works ([pass]) or not; [late] follow after the answer. *)
Inductive tried : Z -> list event -> bool -> list event -> Prop :=
  | tried_gps_port ret gfd : ret < 0 -> tried 0x01 [Open GPS_DEV_NAME 9600 ret gfd] false []
  | tried_gps_send ret gfd n : 0 <= ret -> n < 0 ->
      tried 0x01 [Open GPS_DEV_NAME 9600 ret gfd; Send gfd gps_gga_on_msg n] false []
  | tried_gps ret gfd n a : 0 <= ret -> 0 <= n ->
      tried 0x01 [Open GPS_DEV_NAME 9600 ret gfd; Send gfd gps_gga_on_msg n; Recv gfd a] (0 <=? ret_of a) []
  | tried_wifi ret wfd es : Forall (on_port wfd) es ->
      tried 0x02 (Open WIFI_DEV_NAME 57600 ret wfd :: es) false []
  | tried_wl_none n : tried 0x04 [Call "lib_wl_new" [] 0] false [Call "lib_wl_destroy" [0] n]
  | tried_wl wl ret n : wl <> 0 ->
      tried 0x04 [Call "lib_wl_new" [] wl; Call "lib_wl_hwver_get" [wl; 2000] ret] (0 <=? ret)
        [Call "lib_wl_destroy" [wl] n]
  | tried_can ctos n n' a : ctos <> 0 ->
      tried 0x08 [Call "lib_ctos_create" [1; 0; 2; 32; 4096] ctos;
                  Call "lib_ctos_put" ([ctos; 0x7f] ++ can_message crc) n;
                  Call "lib_msleep" [12000] n'; Given "lib_ctos_get" a] (can_good a) []
  | tried_rj45 a dst out pass : 0 <= ret_of a -> cstr (fill (zeros 32) (data_of a)) = Some dst ->
      pinged out = Some pass -> tried 0x10 [Recv fd a; Popen (ping_of dst) (Some out)] pass []
  | tried_ftdi_none : tried 0x11 [Call "ftdi_new" [] 0] false []
  | tried_ftdi_closed ftdi n u n' : ftdi <> 0 -> u < 0 ->
      tried 0x11 [Call "ftdi_new" [] ftdi; Call "ftdi_set_interface" [ftdi; 1] n;
                  Call "ftdi_usb_open" [ftdi; 0x0403; 0x6001] u; Call "ftdi_free" [ftdi] n'] false []
  | tried_ftdi ftdi n u n' n'' m : ftdi <> 0 -> 0 <= u ->
      tried 0x11 [Call "ftdi_new" [] ftdi; Call "ftdi_set_interface" [ftdi; 1] n;
                  Call "ftdi_usb_open" [ftdi; 0x0403; 0x6001] u; Call "lib_msleep" [200] n';
                  Call "ftdi_usb_close" [ftdi] n''; Call "ftdi_free" [ftdi] m] true []
  | tried_i2c ret : tried 0x12 [Call "lib_SN_consume_read32" [1] ret] (ret =? 0) []
  | tried_encryption ret : tried 0x14 [Call "LIB_Encry_Verify" [] ret] (ret =? 1) [].

(** A turn that returns. *)
Inductive session : list event -> Prop :=
  | session_idle a : ret_of a <= 0 -> session [Recv fd a]
  | session_refused a n : 0 < ret_of a -> (forall cmd go, ~ request a cmd go) ->
      session [Recv fd a; Send fd (take 7 txbuf) n]
  | session_ignored a cmd go : 0 < ret_of a -> request a cmd go -> go <> 1 \/ cmd ∉ devices ->
      session [Recv fd a]
  | session_tried a cmd es pass n late : 0 < ret_of a -> request a cmd 1 -> tried cmd es pass late ->
      session (Recv fd a :: es ++ Send fd (verdict cmd pass) n :: late)
  | session_unanswered a c : 0 < ret_of a -> request a 0x10 1 -> session [Recv fd a; Recv fd (Failed c)].

(** A turn that ends the program: the WiFi module is in command mode, no CAN object
    could be created, an address of 32 bytes has no terminator, [popen] failed,
    or what the command printed begins with a number that is no [int]. *)
Inductive crash : list event -> Prop :=
  | crash_wifi a ret wfd es : 0 < ret_of a -> request a 0x02 1 -> Forall (on_port wfd) es ->
      crash (Recv fd a :: Open WIFI_DEV_NAME 57600 ret wfd :: es)
  | crash_can a n : 0 < ret_of a -> request a 0x08 1 ->
      crash [Recv fd a; Call "lib_ctos_create" [1; 0; 2; 32; 4096] 0; Send fd (verdict 0x08 false) n]
  | crash_rj45 a b : 0 < ret_of a -> request a 0x10 1 -> cstr (fill (zeros 32) (data_of b)) = None ->
      crash [Recv fd a; Recv fd b]
  | crash_ping a b dst out : 0 < ret_of a -> request a 0x10 1 ->
      cstr (fill (zeros 32) (data_of b)) = Some dst -> out ≫= pinged = None ->
      crash [Recv fd a; Recv fd b; Popen (ping_of dst) out].

End Sessions.

(** ** Every turn is a session *)

Ltac step :=
  match goal with
  | |- emits ((_ ≫= _) ≫= _) _ => apply emits_assoc
  | |- emits (mret ?a ≫= ?f) ?R => change (emits (f a) R); cbv beta iota
  | |- emits (mem (Some ?a) ≫= ?f) ?R => change (emits (f a) R); cbv beta iota
  | |- emits (lib_call _ _ ≫= _) _ =>
      let n := fresh "n" in
      eapply emits_bind; [apply emits_call|by intros ? (? & [=] & _)|intros ? ? (n & [= ->] & ->); cbn [app]]
  | |- emits (lib_serial_send _ _ ≫= _) _ =>
      let n := fresh "n" in
      eapply emits_bind; [apply emits_send|by intros ? (? & [=] & _)|intros ? ? (n & [= ->] & ->); cbn [app]]
  | |- emits (lib_serial_readn_select _ _ _ ≫= _) _ =>
      let a := fresh "a" in
      eapply emits_bind; [apply emits_readn|by intros ? (? & [=] & _)|intros ? ? (a & [= ->] & ->); cbn [app]]
  | |- emits (lib_serial_read_select _ _ _ ≫= _) _ =>
      let a := fresh "a" in
      eapply emits_bind; [apply emits_read|by intros ? (? & [=] & _)|intros ? ? (a & [= ->] & ->); cbn [app]]
  | |- emits (lib_read _ _ ≫= _) _ =>
      let a := fresh "a" in
      eapply emits_bind; [apply emits_lib_read|by intros ? (? & [=] & _)|intros ? ? (a & [= ->] & ->); cbn [app]]
  | |- emits (run_shell _ ≫= _) _ =>
      let out := fresh "out" in
      eapply emits_bind; [apply emits_shell|by intros ? (? & [=] & _)|intros ? ? (out & [= ->] & ->); cbn [app]]
  | |- emits (popen _ ≫= _) _ =>
      let out := fresh "out" in
      eapply emits_bind; [apply emits_popen|by intros ? (? & [=] & _)|intros ? ? (out & [= ->] & ->); cbn [app]]
  | |- emits (lib_serial_init _ _ ≫= _) _ =>
      let r := fresh "ret" in let p := fresh "p" in
      eapply emits_bind; [apply emits_init|by intros ? (? & ? & [=] & _)
        |intros ? ? (r & p & [= ->] & ->); cbn [app]; cbv beta iota]
  end.

Section Turns.
Context `{Serial} `{Arch} (inet_pton : bool -> list Z -> bool) (crc : list Z -> Z)
  (wmode0 : wifi_wmode) (lann0 : wifi_lann) (fd : Z) (txbuf : list Z).

Lemma emits_status cmd status : (cmd =? 0x08) = false ->
  emits (send_status fd cmd status)
    (fun r es => r = Some tt /\ exists n, es = [Send fd (frame_of cmd status) n]).
Proof.
  intros _. unfold send_status. change (crc16 _ _) with (Some (fold_left Z.lxor [0x55; 0xaa; 0x07; cmd; status] 0)).
  repeat step. apply emits_ret. split; [done|]. by exists n.
Qed.

(** The test [m] of the device [cmd] gives a verdict on what it tried. *)
Definition judges (cmd : Z) (m : M unit) : Prop :=
  emits m (fun r es => r = Some tt /\ exists es' pass n late,
    tried crc fd cmd es' pass late /\ es = es' ++ Send fd (verdict cmd pass) n :: late).

Lemma tried_as cmd es p b late : tried crc fd cmd es p late -> p = b -> tried crc fd cmd es b late.
Proof. by intros ? <-. Qed.

(** The answer is sent: [T] says what was tried and [b] is the verdict. *)
Ltac verdict_is T b :=
  let k := fresh "k" in
  eapply emits_weaken; [by apply emits_status|]; intros ? ? [-> (k & ->)]; split; [done|];
  eexists _, b, k, []; split; [apply (tried_as _ _ _ _ _ T); try done|reflexivity].

Lemma gps_judges : judges 0x01 (gps_test fd).
Proof.
  unfold judges, gps_test, __gps_init. repeat step. destruct (Z.ltb_spec ret 0) as [Hr|Hr].
  { step. cbn [GPS_ERROR Z.ltb Z.compare]. step. verdict_is (tried_gps_port crc fd ret p Hr) false. }
  step. cbn [GPS_EOK Z.ltb Z.compare]. repeat step. unfold gps_gga_on, serial_command. destruct (Z.ltb_spec n 0) as [Hn|Hn].
  { rewrite (proj2 (Z.ltb_lt n 0)) by done. repeat step. verdict_is (tried_gps_send crc fd ret p n Hr Hn) false. }
  cbn [GPS_EOK Z.ltb Z.compare]. repeat step. destruct (Z.ltb_spec (ret_of (cut_to 7 a)) 0); repeat step.
  - verdict_is (tried_gps crc fd ret p n (cut_to 7 a) Hr Hn) false. by apply Z.leb_gt.
  - verdict_is (tried_gps crc fd ret p n (cut_to 7 a) Hr Hn) true. by apply Z.leb_le.
Qed.

Lemma wl_judges : judges 0x04 (thrg_test fd).
Proof.
  unfold judges, thrg_test. step. destruct (Z.eqb_spec n 0) as [->|Hn].
  { step. eapply emits_bind; [by apply emits_status|by intros ? [[=] _]|]. intros ? ? [_ (k & ->)]. repeat step.
    apply emits_ret. split; [done|]. eexists _, false, k, _. split; [apply (tried_wl_none _ _ n)|reflexivity]. }
  repeat step. pose proof (fun m => tried_wl crc fd n n0 m Hn) as T.
  destruct (Z.ltb_spec n0 0); [rewrite (proj2 (Z.leb_gt 0 n0)) in T by done|rewrite (proj2 (Z.leb_le 0 n0)) in T by done];
    (step; eapply emits_bind; [by apply emits_status|by intros ? [[=] _]|]; intros ? ? [_ (k & ->)]; repeat step;
     apply emits_ret; split; [done|]; eexists _, _, k, _; split; [apply T|reflexivity]).
Qed.

Lemma ftdi_judges : judges 0x11 (ftdi_test fd).
Proof.
  unfold judges, ftdi_test. step. destruct (Z.eqb_spec n 0) as [->|Hn].
  { step. verdict_is (tried_ftdi_none crc fd) false. }
  do 3 step. repeat step. destruct (Z.ltb_spec n1 0) as [Hu|Hu].
  - repeat step. verdict_is (tried_ftdi_closed crc fd n n0 n1 n2 Hn Hu) false.
  - repeat step. verdict_is (tried_ftdi crc fd n n0 n1 n2 n3 n4 Hn Hu) true.
Qed.

Lemma i2c_judges : judges 0x12 (i2c_test fd).
Proof.
  unfold judges, i2c_test. step. pose proof (tried_i2c crc fd n) as T.
  destruct (n =? 0); [verdict_is T true|verdict_is T false].
Qed.

Lemma encryption_judges : judges 0x14 (encryption_test fd).
Proof.
  unfold judges, encryption_test. step. pose proof (tried_encryption crc fd n) as T.
  unfold LIB_EV_OK. destruct (n =? 1); [verdict_is T true|verdict_is T false].
Qed.

Lemma aget_fill size d i : (i < Z.to_nat size)%nat -> aget (fill (zeros size) d) (Z.of_nat i) = default 0 (d !! i).
Proof.
  intros Hi. unfold aget, fill, zeros. rewrite Nat2Z.id, list_lookup_total_alt, lookup_app.
  destruct (d !! i) as [c|] eqn:E; [done|]. apply lookup_ge_None in E.
  by rewrite lookup_drop, lookup_replicate_2 by lia.
Qed.

Lemma can_good_spec a :
  (0 <? ret_of a) && ((aget (fill (zeros 512) (data_of a)) 8 =? 97) && (aget (fill (zeros 512) (data_of a)) 9 =? 97)) =
  can_good a.
Proof.
  rewrite (aget_fill 512 _ 8), (aget_fill 512 _ 9) by lia. unfold can_good.
  destruct a as [c|d]; [done|]. cbn [ret_of data_of].
  destruct (d !! 8%nat) as [x|] eqn:E8; cbn [default id].
  - rewrite (proj2 (Z.ltb_lt 0 _)) by (apply lookup_lt_Some in E8; lia). cbn [andb].
    destruct (d !! 9%nat) as [y|] eqn:E9; cbn [default id].
    + apply eq_bool_prop_intro. rewrite bool_decide_spec, andb_True, !Is_true_true, !Z.eqb_eq.
      split; [by intros [-> ->]|by intros [[=] [=]]].
    + rewrite andb_false_r, bool_decide_eq_false_2; [done|]. by intros [_ [=]].
  - rewrite andb_false_r, bool_decide_eq_false_2; [done|]. by intros [[=] _].
Qed.

Lemma can_outcomes : emits (can_test crc fd) (fun r es =>
  (r = Some tt /\ exists es' pass n late, tried crc fd 0x08 es' pass late /\
     es = es' ++ Send fd (verdict 0x08 pass) n :: late) \/
  (r = None /\ exists n, es = [Call "lib_ctos_create" [1; 0; 2; 32; 4096] 0; Send fd (verdict 0x08 false) n])).
Proof.
  unfold can_test. step. destruct (Z.eqb_spec n 0) as [->|Hn].
  { step. change (crc16 _ _) with (Some 0). repeat step. intros s. exists []. split; [by rewrite app_nil_r|].
    right. split; [done|]. by exists n. }
  change (package_make crc (zeros 512) 0x7f 0x00 0x81) with (15, fill (zeros 512) (can_message crc)).
  cbv beta iota. change (0 <? 15) with true. cbv iota.
  change (take (Z.to_nat 15) _) with (can_message crc).
  repeat step. rewrite can_good_spec. pose proof (tried_can crc fd n n0 n1 (cut_to 512 a) Hn) as T.
  destruct (can_good (cut_to 512 a)); step; change (crc16 _ _) with (Some 0); repeat step; apply emits_ret;
    left; (split; [done|]); eexists _, _, n2, []; (split; [apply T|reflexivity]).
Qed.

Lemma emits_checkConnect dst s : cstr dst = Some s -> (length s < 200)%nat ->
  emits (checkConnect dst 4) (fun r es => exists out, es = [Popen (ping_of s) out] /\
    r = (fun pass : bool => if pass then 0 else -1) <$> (out ≫= pinged)).
Proof.
  intros Hs Hl. unfold checkConnect. cbn [Z.leb Z.compare]. rewrite Hs. step.
  apply cstr_inv in Hs as (r & _ & Hs).
  assert (nonzero (ping_of s)) as Hn.
  { unfold ping_of. rewrite !nonzero_app. split_and!; [|done|]; unfold nonzero; apply (bool_decide_unpack _); by vm_compute. }
  replace (text "ping " ++ s ++ text " -c " ++ decimal 4 ++ text " | grep time= | wc -l" ++ [0])
    with (ping_of s ++ [0]) by (unfold ping_of; by rewrite <- !app_assoc).
  rewrite strcpy_fits; [|done|]. 2:{ unfold ping_of. rewrite !length_app.
    change (length (zeros 256)) with 256%nat. change (length (text "ping ")) with 5%nat.
    change (length (text " -c 4 | grep time= | wc -l")) with 26%nat. lia. }
  step. rewrite cstr_text by done. repeat step.
  destruct out as [out|]; [|intros st; exists []; split; [by rewrite app_nil_r|by exists None]].
  destruct (atoi (fill (zeros 16) (take 15 out))) as [n|] eqn:E.
  - step. destruct (0 <? n) eqn:En; apply emits_ret; exists (Some out); (split; [done|]);
      unfold pinged; cbn [mbind option_bind]; rewrite E; cbn [fmap option_fmap option_map]; by rewrite En.
  - intros st. exists []. split; [by rewrite app_nil_r|]. exists (Some out). split; [done|].
    unfold pinged. cbn [mbind option_bind]. by rewrite E.
Qed.

(** The port test can also end without an answer, or with a fault. *)
Lemma rj45_outcomes : emits (rj45_test fd) (fun r es =>
  (r = Some tt /\ exists es' pass n late, tried crc fd 0x10 es' pass late /\
     es = es' ++ Send fd (verdict 0x10 pass) n :: late) \/
  (r = Some tt /\ exists c, es = [Recv fd (Failed c)]) \/
  (r = None /\ exists b, es = [Recv fd b] /\ cstr (fill (zeros 32) (data_of b)) = None) \/
  (r = None /\ exists b dst out, es = [Recv fd b; Popen (ping_of dst) out] /\
     cstr (fill (zeros 32) (data_of b)) = Some dst /\ out ≫= pinged = None)).
Proof.
  unfold rj45_test. step. set (b := cut_to 32 a). destruct (Z.ltb_spec (ret_of b) 0) as [Hr|Hr].
  { apply emits_ret. right. left. split; [done|]. destruct b as [c|d]; [by exists c|cbn in Hr; lia]. }
  destruct (cstr (fill (zeros 32) (data_of b))) as [dst|] eqn:E.
  2:{ intros s. exists []. split; [unfold checkConnect; rewrite E; by rewrite app_nil_r|].
      right. right. left. unfold checkConnect. rewrite E. split; [done|]. by exists b. }
  eapply emits_bind; [apply (emits_checkConnect _ _ E)| |].
  - pose proof (cstr_inv _ _ E) as (z & Ez & _). apply (f_equal length) in Ez. rewrite length_app in Ez.
    unfold fill, zeros in Ez. rewrite length_app, length_drop, length_replicate in Ez. cbn [length] in Ez.
    assert (length (data_of b) <= 32)%nat; [|lia]. subst b. destruct a; cbn; [lia|]. rewrite length_take. lia.
  - intros es (out & -> & Hno). do 3 right. split; [done|]. exists b, dst, out. split_and!; [done..|].
    by destruct (out ≫= pinged).
  - intros ? ? (out & -> & Hr'). destruct out as [out|]; [|done]. cbn in Hr'.
    destruct (pinged out) as [pass|] eqn:Ep; [|done]. injection Hr' as ->.
    pose proof (tried_rj45 crc fd b dst out pass Hr E Ep) as T.
    destruct pass; cbn [Z.eqb]; (eapply emits_weaken; [by apply emits_status|]); intros ? ? [-> (k & ->)];
      left; (split; [done|]); eexists _, _, k, []; (split; [apply T|reflexivity]).
Qed.
(** Command mode is reached, or not, on the port alone. *)
Lemma emits_AT_mode p : emits (__init_AT_mode p) (fun r es => is_Some r /\ Forall (on_port p) es).
Proof.
  unfold __init_AT_mode.
  repeat (try step; match goal with |- emits (if ?c then _ else _) _ => destruct c end;
    [apply emits_ret; split; [by eexists|by repeat constructor]|]).
  apply emits_ret; split; [by eexists|by repeat constructor].
Qed.

(** The mode is set first, and that is a fault. *)
Lemma set_ap_faults p m : strcpy (wmode wmode0) (lit "AP") = Some m ->
  forall s, wifi_set_wmode p (Some (mk_wmode m)) s = (None, s).
Proof.
  intros Hm s. pose proof (strcpy_terminated _ _ _ Hm) as E. cbn [cstr lit] in E.
  change (cstr (lit "AP")) with (Some (text "AP")) in E. apply holds_inv in E as (r & -> & _).
  reflexivity.
Qed.

Lemma wifi_outcomes : emits (wifi_test inet_pton wmode0 lann0 fd) (fun r es =>
  exists ret p es', Forall (on_port p) es' /\
    ((r = Some tt /\ exists n, es = Open WIFI_DEV_NAME 57600 ret p :: es' ++ [Send fd (verdict 0x02 false) n]) \/
     (r = None /\ es = Open WIFI_DEV_NAME 57600 ret p :: es'))).
Proof.
  unfold wifi_test, __wifi_init. repeat step. destruct (ret <? 0).
  { step. cbn [WIFI_ERROR Z.ltb Z.compare]. step. eapply emits_weaken; [by apply emits_status|].
    intros ? ? [-> (n & ->)]. exists ret, p, []. split; [done|]. left. split; [done|]. by exists n. }
  step. eapply emits_bind; [apply emits_AT_mode|by intros ? [[? ?] _]|]. intros r es [_ Hes].
  destruct (r <? 0); step; [cbn [WIFI_ERROR Z.ltb Z.compare]|cbn [WIFI_EOK Z.ltb Z.compare]].
  { step. eapply emits_weaken; [by apply emits_status|].
    intros ? ? [-> (n & ->)]. exists ret, p, es. split; [done|]. left. split; [done|]. exists n. done. }
  intros s. exists []. unfold mbind, M_bind, mem. destruct (strcpy (wmode wmode0) (lit "AP")) as [m|] eqn:E;
    [rewrite (set_ap_faults p m E)|]; cbn; rewrite !app_nil_r; (split; [done|]);
    exists ret, p, es; (split; [done|]); by right.
Qed.
(** What a request can lead to: nothing, a verdict, silence, a fault. *)
Definition served (cmd go : Z) (r : option unit) (es : list event) : Prop :=
  (r = Some tt /\ es = [] /\ (go <> 1 \/ cmd ∉ devices)) \/
  (r = Some tt /\ go = 1 /\ exists es' pass n late, tried crc fd cmd es' pass late /\
    es = es' ++ Send fd (verdict cmd pass) n :: late) \/
  (r = Some tt /\ go = 1 /\ cmd = 0x10 /\ exists c, es = [Recv fd (Failed c)]) \/
  (r = None /\ go = 1 /\ cmd = 0x02 /\ exists ret p es', es = Open WIFI_DEV_NAME 57600 ret p :: es' /\
    Forall (on_port p) es') \/
  (r = None /\ go = 1 /\ cmd = 0x08 /\
    exists n, es = [Call "lib_ctos_create" [1; 0; 2; 32; 4096] 0; Send fd (verdict 0x08 false) n]) \/
  (r = None /\ go = 1 /\ cmd = 0x10 /\ exists b, es = [Recv fd b] /\ cstr (fill (zeros 32) (data_of b)) = None) \/
  (r = None /\ go = 1 /\ cmd = 0x10 /\ exists b dst out, es = [Recv fd b; Popen (ping_of dst) out] /\
     cstr (fill (zeros 32) (data_of b)) = Some dst /\ out ≫= pinged = None).

Lemma judges_served cmd m : judges cmd m -> emits m (served cmd 1).
Proof. intros Hm. eapply emits_weaken; [exact Hm|]. intros r es [? ?]. right. left. done. Qed.

Lemma dispatch_served cmd go : emits (dispatch inet_pton crc wmode0 lann0 cmd go fd) (served cmd go).
Proof.
  assert (go <> 1 \/ cmd ∉ devices -> emits (mret tt) (served cmd go)) as Hnone.
  { intros Hn. apply emits_ret. by left. }
  unfold dispatch. cbv zeta. destruct (Z.eqb_spec go 1) as [->|Hgo].
  2:{ repeat match goal with |- context [if ?c then _ else _] => destruct c; [by apply Hnone; left|] end.
      apply Hnone. by left. }
  repeat match goal with
  | |- context [if cmd =? ?k then _ else _] =>
      let E := fresh "E" in destruct (Z.eqb_spec cmd k) as [->|E]
  end; try (apply judges_served; first [apply gps_judges | apply wl_judges
    | apply ftdi_judges | apply i2c_judges | apply encryption_judges]).
  - eapply emits_weaken; [apply wifi_outcomes|]. intros r es (ret & p & es' & Hp & [[-> (n & ->)]|[-> ->]]).
    + right. left. split_and!; [done|done|]. exists (Open WIFI_DEV_NAME 57600 ret p :: es'), false, n, [].
      split; [by constructor|done].
    + do 3 right. left. split_and!; [done..|]. by exists ret, p, es'.
  - eapply emits_weaken; [apply can_outcomes|]. intros r es [[-> ?]|[-> ?]]; [right; by left|].
    do 4 right. by left.
  - eapply emits_weaken; [apply rj45_outcomes|]. intros r es [[-> ?]|[[-> ?]|[[-> ?]|[-> ?]]]].
    + right. by left.
    + do 2 right. by left.
    + do 5 right. by left.
    + do 6 right. done.
  - apply Hnone. right. apply (bool_decide_unpack _). by vm_compute.
  - apply Hnone. right. unfold devices. rewrite !not_elem_of_cons. split_and!; [done..|]. apply not_elem_of_nil.
Qed.

Lemma frame_of_inj c g c' g' : frame_of c g = frame_of c' g' -> c = c' /\ g = g'.
Proof. unfold frame_of. by intros [= -> ->]. Qed.

Lemma turn_session : emits (turn inet_pton crc wmode0 lann0 txbuf fd) (fun r es =>
  (r = Some tt /\ session crc fd txbuf es) \/ (r = None /\ crash fd es)).
Proof.
  unfold turn. step. set (b := cut_to 7 a). destruct (Z.leb_spec (ret_of b) 0) as [Hr|Hr].
  { apply emits_ret. left. split; [done|]. by constructor. }
  assert (length (data_of b) <= 7)%nat as Hl by (subst b; destruct a; cbn; [lia|rewrite length_take; lia]).
  clearbody b. set (B := fill (zeros 1024) (data_of b)).
  assert (length (take 7 B) = 7%nat) as H7.
  { rewrite length_take. subst B. unfold fill, zeros. rewrite length_app, length_drop, length_replicate. lia. }
  unfold analysts. rewrite <- (take_drop 7 B) at 1. rewrite check_frame_spec by done. do 2 step.
  assert (take 7 B !!! 3%nat = aget B 3 /\ take 7 B !!! 4%nat = aget B 4) as [E3 E4].
  { split; unfold aget; rewrite !list_lookup_total_alt; by rewrite lookup_take_lt by (change (Z.to_nat 3) with 3%nat; lia). }
  rewrite E3, E4. case_bool_decide as Hf; cbn [negb].
  - step. eapply emits_bind; [apply dispatch_served|..].
    + intros es [[[=] _]|[[[=] _]|[[[=] _]|[(_ & Hgo & Hc & ret & p & es' & -> & Hp)|[(_ & Hgo & Hc & n & ->)
        |[(_ & Hgo & Hc & b' & -> & Hb)|(_ & Hgo & Hc & b' & dst & out & -> & Hb & Ho)]]]]]];
        right; (split; [done|]); rewrite Hgo, Hc in Hf; by constructor.
    + intros ? es Hs. step. change (0 <? 0) with false. cbv iota. apply emits_ret. rewrite app_nil_r.
      left. split; [done|].
      destruct Hs as [(_ & -> & Hno)|[(_ & Hgo & es' & pass & n & late & Ht & ->)|[(_ & Hgo & Hc & c & ->)
        |[([=] & _)|[([=] & _)|[([=] & _)|([=] & _)]]]]]].
      * by eapply session_ignored.
      * eapply session_tried; [done| |done]. by rewrite Hgo in Hf.
      * apply session_unanswered; [done|]. by rewrite Hgo, Hc in Hf.
  - step. change (-1 <? 0) with true. cbv iota. repeat step. apply emits_ret. left. split; [done|].
    constructor; [done|]. intros cmd go Hreq. apply Hf. unfold request in Hreq. fold B in Hreq.
    rewrite <- E3, <- E4, Hreq. done.
Qed.

Lemma turns_sessions n : emits (turns inet_pton crc wmode0 lann0 n txbuf fd) (fun r es =>
  (r = Some tt /\ exists ss, es = concat ss /\ length ss = n /\ Forall (session crc fd txbuf) ss) \/
  (r = None /\ exists ss last, es = concat ss ++ last /\ (length ss < n)%nat /\ Forall (session crc fd txbuf) ss /\
    crash fd last)).
Proof.
  induction n as [|n IH]; cbn [turns].
  - apply emits_ret. left. split; [done|]. by exists [].
  - eapply emits_bind; [apply turn_session|..].
    + intros es [[[=] _]|[_ Hc]]. right. split; [done|]. exists [], es. split_and!; [done|cbn; lia|constructor|done].
    + intros ? es [[_ Hs]|[[=] _]]. eapply emits_weaken; [exact IH|].
      intros r es' [[-> (ss & -> & Hn & Hss)]|[-> (ss & last & -> & Hn & Hss & Hc)]].
      * left. split; [done|]. exists (es :: ss). split_and!; [done|cbn; lia|by constructor].
      * right. split; [done|]. exists (es :: ss), last. cbn [concat].
        rewrite <- app_assoc. split_and!; [done|cbn; lia|by constructor|done].
Qed.

End Turns.


(** The verdict on a device is a frame that names the device and passes the
    program's own check, except that of the CAN test, whose check byte is taken
    from the wrong buffer and never right.  Only the network test may stay
    silent. *)
Theorem board_verdict_frames `{Serial} `{Arch} (inet_pton : bool -> list Z -> bool) (crc : list Z -> Z)
    (wmode0 : wifi_wmode) (lann0 : wifi_lann) (cmd fd : Z) :
  cmd ∈ devices ->
  emits (dispatch inet_pton crc wmode0 lann0 cmd 1 fd) (fun r es => r = Some tt ->
    (exists pre f n post, es = pre ++ Send fd f n :: post /\ length f = 7%nat /\ f !! 3%nat = Some cmd /\
       (f !! 4%nat = Some 0x02 \/ f !! 4%nat = Some 0x04) /\
       check_frame f = Some (negb (cmd =? 0x08))) \/
    (cmd = 0x10 /\ exists c, es = [Recv fd (Failed c)])).
Proof.
  intros Hd. eapply emits_weaken; [apply dispatch_served|].
  intros r es [(_ & _ & [?|?])|[(_ & _ & es' & pass & n & late & _ & ->)|[(_ & _ & ? & ?)
    |[([=] & _)|[([=] & _)|[([=] & _)|([=] & _)]]]]]] Hr; [done|done| |by right|subst; done..].
  left. exists es', (verdict cmd pass), n, late. split; [done|]. unfold verdict.
  destruct (Z.eqb_spec cmd 8) as [->|Hc]; cbn [negb].
  - destruct pass; (split_and!; [done|done|auto|reflexivity]).
  - assert (forall go, check_frame (frame_of cmd go) = Some true) as Hok.
    { intros go. rewrite <- (app_nil_r (frame_of cmd go)), check_frame_spec by done. by rewrite bool_decide_eq_true_2. }
    destruct pass; (split_and!; [done|done|auto|apply Hok]).
Qed.

Lemma board_verdict_frames_witness :
  let s := @mk_st Scripted (mk_script [] 5 [] [0]) [] in
  let es := wire (snd (@dispatch Scripted lp64 (fun _ _ => true) (fun _ => 0) (mk_wmode (zeros 4))
    (mk_lann (zeros 32) (zeros 32)) 0x12 1 3 s)) in
  es = [Call "lib_SN_consume_read32" [1] 0; Send 3 (frame_of 0x12 0x02) 7] /\
  exists pre f n post, es = pre ++ Send 3 f n :: post /\ check_frame f = Some true.
Proof.
  intros s es. split; [vm_compute; reflexivity|].
  destruct (@board_verdict_frames Scripted lp64 (fun _ _ => true) (fun _ => 0) (mk_wmode (zeros 4))
    (mk_lann (zeros 32) (zeros 32)) 0x12 3 ltac:(apply (bool_decide_unpack _); vm_compute; exact I) s) as (es' & Hw & Hs).
  change (es = es') in Hw. rewrite Hw.
  destruct (Hs ltac:(vm_compute; reflexivity)) as [(pre & f & n & post & E & _ & _ & _ & Hf)|[[=] _]].
  exists pre, f, n, post. split; [exact E|exact Hf].
Defined.

(** What a run leaves open: no port is ever closed and no CAN object destroyed. *)
Definition left_open (e : event) : Prop :=
  match e with
  | Close _ => False
  | Call name _ _ => name <> "lib_ctos_destroy"%string
  | _ => True
  end.

Lemma session_left_open crc fd txbuf es : session crc fd txbuf es -> Forall left_open es.
Proof.
  assert (forall p es, Forall (on_port p) es -> Forall left_open es) as Hp.
  { intros p es' Hes. eapply Forall_impl; [exact Hes|]. by intros []. }
  destruct 1 as [| | |a cmd es pass n late _ _ Ht|]; [by repeat constructor..| |by repeat constructor].
  constructor; [done|]. apply Forall_app. destruct Ht; (split; [|repeat constructor]); repeat constructor;
    try by apply (Hp wfd). all: try done.
Qed.

Theorem board_leaks `{Serial} `{Arch} inet_pton crc wmode0 lann0 n txbuf0 :
  emits (main inet_pton crc wmode0 lann0 n txbuf0) (fun r es => Forall left_open es).
Proof.
  unfold main. step. destruct (ret <? 0); [apply emits_ret; by repeat constructor|].
  eapply emits_weaken; [apply turns_sessions|]. intros r es Hs. constructor; [done|].
  assert (forall ss, Forall (session crc p (fill txbuf0 [0; 0; 0; 0])) ss -> Forall left_open (concat ss)) as Hss.
  { intros ss. induction 1; [done|]. cbn. apply Forall_app. split; [by eapply session_left_open|done]. }
  destruct Hs as [[_ (ss & -> & _ & ?)]|[_ (ss & last & -> & _ & ? & Hc)]]; [auto|].
  apply Forall_app. split; [auto|]. destruct Hc as [? ? ? ? _ _ Ho| | |]; repeat constructor; try done.
  eapply Forall_impl; [exact Ho|]. by intros [].
Qed.
