(* ===== verification/Sim900.v ===== *)
(** * The GPRS modem (src/sim900_test/test.c)

    A TCP connection through a SIM900: the commands go out one after the other,
    whatever the modem answers.  The command that names the server is put
    together in an array of 128 bytes, which is all of [cmd] here. *)

From S2P Require Import Prelude CStr Serial Wifi.

Definition SIM900_UART : list Z := text "/dev/ttyUSB3".
Definition READ_SLEEP : Z := 100.

Definition cr (s : list Z) : list Z := s ++ [CR].
Definition in_quotes (s : list Z) : list Z := quote :: s ++ [quote].

(** The commands of the first round: text and time to wait for the answer. *)
Definition setup_cmds : list (list Z * Z) :=
  [(cr (text "AT+CGCLASS=" ++ in_quotes (text "B")), READ_SLEEP);
   (cr (text "AT+CGDCONT=1," ++ in_quotes (text "IP") ++ comma :: in_quotes (text "CMNET")), READ_SLEEP);
   (cr (text "AT+CGATT=1"), READ_SLEEP);
   (cr (text "AT+CIPCSGP=1," ++ in_quotes (text "CMNET")), READ_SLEEP);
   (cr (text "AT+CLPORT=" ++ in_quotes (text "TCP") ++ comma :: in_quotes (text "2000")), READ_SLEEP + 300)].

(** The commands behind the one that connects. *)
Definition data_cmds : list (list Z * Z) :=
  [(cr (text "AT+CIPSEND"), READ_SLEEP + 100); (text "hello world", READ_SLEEP); ([0x1A], READ_SLEEP);
   (cr (text "AT+CIPCLOSE=1"), READ_SLEEP + 100); (cr (text "AT+CIPSHUT"), READ_SLEEP + 100)].

Section Sim900.
Context `{Serial}.

(** [lib_serial_send], [lib_serial_readn_select]: neither result is looked at. *)
Definition say (sfd : Z) (cmd : list Z) (msec : Z) : M unit :=
  lib_serial_send sfd cmd;;
  lib_serial_readn_select sfd 128 msec;;
  mret tt.

Fixpoint say_all (sfd : Z) (cmds : list (list Z * Z)) : M unit :=
  match cmds with [] => mret tt | (c, msec) :: cmds => say sfd c msec;; say_all sfd cmds end.

(** [strcpy] and [strcat] into [cmd], which holds [cmd0]. *)
Definition start_cmd (cmd0 ip port : list Z) : option (list Z) :=
  cmd ← strcpy cmd0 (text "AT+CIPSTART=" ++ in_quotes (text "TCP") ++ [comma; 0]);
  strcats cmd [[quote; 0]; ip; [quote; 0]; [comma; 0]; [quote; 0]; port; [quote; CR; 0]].

(** One pass of the loop; [cmd0] is the array before it. *)
Definition round (sfd : Z) (first : bool) (cmd0 ip port : list Z) : M unit :=
  (if first then say_all sfd setup_cmds else mret tt);;
  cmd ← mem (start_cmd cmd0 ip port);
  s ← mem (cstr cmd);
  say sfd s (READ_SLEEP + 3000);;
  say_all sfd data_cmds;;
  lib_call "lib_sleep" [2];;
  mret tt.

(** The array is cleared but after the last command of a pass. *)
Definition lib_tcp_connect_setup (sfd : Z) (ip port : list Z) : M Z :=
  round sfd true (zeros 128) ip port;;
  round sfd false (fill (zeros 128) (cr (text "AT+CIPSHUT"))) ip port;;
  mret 0.

(** A failed [lib_serial_init] is printed. *)
Definition main : M Z :=
  '(_, sfd) ← lib_serial_init SIM900_UART 9600;
  lib_tcp_connect_setup sfd (lit "112.74.97.250") (lit "60000");;
  lib_serial_close sfd;;
  mret 0.

End Sim900.

(** ** The script *)

Definition connect_cmd (ip port : list Z) : list Z :=
  text "AT+CIPSTART=" ++ in_quotes (text "TCP") ++ comma :: in_quotes ip ++ comma :: in_quotes port ++ [CR].

(** The commands of both passes. *)
Definition script_of (ip port : list Z) : list (list Z) :=
  map fst setup_cmds ++ (connect_cmd ip port :: map fst data_cmds) ++ (connect_cmd ip port :: map fst data_cmds).

(** What was sent on the port. *)
Definition sent (es : list event) : list (list Z) :=
  omap (fun e => match e with Send _ d _ => Some d | _ => None end) es.

Section Script.
Context `{Serial}.

Lemma sent_app a b : sent (a ++ b) = sent a ++ sent b.
Proof. apply omap_app. Qed.

Lemma emits_say sfd c msec : emits (say sfd c msec) (fun r es => r = Some tt /\ sent es = [c]).
Proof.
  unfold say. eapply emits_bind; [apply emits_send|by intros ? (? & [=] & _)|]. intros ? es (n & [= ->] & ->).
  eapply emits_bind; [apply emits_readn|by intros ? (? & [=] & _)|]. intros ? es (a & [= ->] & ->).
  by apply emits_ret.
Qed.

Lemma emits_say_all sfd cmds : emits (say_all sfd cmds) (fun r es => r = Some tt /\ sent es = map fst cmds).
Proof.
  induction cmds as [|[c msec] cmds IH]; cbn [say_all]; [by apply emits_ret|].
  eapply emits_bind; [apply emits_say|by intros ? [[=] _]|]. intros _ es [_ Hc].
  eapply emits_weaken; [exact IH|]. intros r es' [-> Hs]. split; [done|]. by rewrite sent_app, Hc, Hs.
Qed.

(** The command fits its array exactly when the names are short enough. *)
Lemma start_cmd_spec cmd0 ip port s t : length cmd0 = 128%nat -> holds ip s -> holds port t ->
  if bool_decide (length s + length t < 104)%nat
  then exists cmd, start_cmd cmd0 ip port = Some cmd /\ cstr cmd = Some (connect_cmd s t)
  else start_cmd cmd0 ip port = None.
Proof.
  intros Hl Hs Ht. unfold start_cmd. set (st := text "AT+CIPSTART=" ++ in_quotes (text "TCP") ++ [comma]).
  change (text "AT+CIPSTART=" ++ in_quotes (text "TCP") ++ [comma; 0]) with (st ++ [0]).
  assert (length st = 18%nat) as Hst by done.
  assert (nonzero st) as Hnz by (unfold nonzero; apply (bool_decide_unpack _); by vm_compute).
  rewrite strcpy_fits by (done || lia). cbn [mbind option_bind].
  set (parts := [_; ip; _; _; _; port; _]). set (ts := [[quote]; s; [quote]; [comma]; [quote]; t; [quote; CR]]).
  assert (Forall2 holds parts ts) as Hp.
  { repeat (apply Forall2_cons; split; [first [assumption | reflexivity]|]). by apply Forall2_nil. }
  assert (length (concat ts) = length s + length t + 6)%nat as Hc.
  { subst ts. cbn [concat]. repeat (progress (rewrite ?length_app; cbn [length])). lia. }
  case_bool_decide as Hlen.
  - destruct (strcats_room parts st ts (drop (S (length st)) cmd0) Hnz Hp) as (x & -> & Hn & _);
      [rewrite length_drop; lia|].
    eexists. split; [done|]. rewrite cstr_text by done. f_equal.
    unfold connect_cmd, in_quotes. subst st ts. cbn [concat]. repeat (progress (rewrite <- ?app_assoc; cbn [app])). done.
  - apply (strcats_overflow parts st ts); [done|done|]. rewrite length_drop. lia.
Qed.

Lemma emits_round sfd first cmd0 ip port s t : length cmd0 = 128%nat -> holds ip s -> holds port t ->
  emits (round sfd first cmd0 ip port) (fun r es =>
    let start := if first then map fst setup_cmds else [] in
    if bool_decide (length s + length t < 104)%nat
    then r = Some tt /\ sent es = start ++ connect_cmd s t :: map fst data_cmds
    else r = None /\ sent es = start).
Proof.
  intros Hl Hs Ht. pose proof (start_cmd_spec cmd0 ip port s t Hl Hs Ht) as Hcmd. unfold round.
  eapply emits_bind with (R1 := fun r es => r = Some tt /\ sent es = if first then map fst setup_cmds else []).
  { destruct first; [apply emits_say_all|by apply emits_ret]. }
  { by intros es [[=] _]. }
  intros _ es [_ He]. case_bool_decide as E.
  - destruct Hcmd as (cmd & -> & Hc). change (mem (Some ?v) ≫= ?f) with (f v). cbv beta. rewrite Hc.
    change (mem (Some ?v) ≫= ?f) with (f v). cbv beta.
    eapply emits_bind; [apply emits_say|by intros ? [[=] _]|]. intros _ es1 [_ H1].
    eapply emits_bind; [apply emits_say_all|by intros ? [[=] _]|]. intros _ es2 [_ H2].
    eapply emits_bind; [apply emits_call|by intros ? (? & [=] & _)|]. intros ? es3 (n & [= ->] & ->).
    apply emits_ret. split; [done|]. rewrite !sent_app, He, H1, H2. cbn. done.
  - rewrite Hcmd. apply emits_mem. split; [done|]. by rewrite app_nil_r.
Qed.
End Script.

(** The dialogue is a fixed script, whatever the modem answers, when the names of
    host and port fit the command; otherwise the program faults after the
    set-up. *)
Theorem sim900_script `{Serial} (sfd : Z) (ip port s t : list Z) :
  holds ip s -> holds port t ->
  emits (lib_tcp_connect_setup sfd ip port) (fun r es =>
    if bool_decide (length s + length t < 104)%nat
    then r = Some 0 /\ sent es = script_of s t
    else r = None /\ sent es = map fst setup_cmds).
Proof.
  intros Hs Ht. unfold lib_tcp_connect_setup. case_bool_decide as E.
  - eapply emits_bind; [by apply emits_round| |]; rewrite bool_decide_eq_true_2 by done; [by intros ? [[=] _]|].
    intros _ es1 [_ H1]. eapply emits_bind; [by apply emits_round| |]; rewrite bool_decide_eq_true_2 by done; [by intros ? [[=] _]|].
    intros _ es2 [_ H2]. apply emits_ret. split; [done|]. rewrite !sent_app, H1, H2. cbn [sent omap list_omap].
    unfold script_of. by rewrite app_nil_r, <- app_assoc.
  - eapply emits_bind; [by apply emits_round| |]; rewrite bool_decide_eq_false_2 by done; [by intros ? [_ ?]|by intros ? ? [[=] _]].
Qed.
