(* ===== verification/YctCard.v ===== *)
(** * The card reader (src/yct_card/yct_test.c)

    Commands of a ticket card module over a serial port: a header, the number of
    bytes that follow, the command, its data and the exclusive or of all that.

    The check starts from a variable that is not initialised: [check0] is what
    it holds.  [slack] is what lies behind a local array.  A pointer the caller
    did not initialise is an argument: the array it happens to point at, or
    [None]. *)

From S2P Require Import Prelude CStr Serial.

Definition DEVNAME : list Z := text "/dev/ttyO1".

Section Card.
Context `{Serial} (check0 : Z) (slack : list Z) (sfd : Z).

Fixpoint check_loop (n i : nat) (data : list Z) (check : Z) : option Z :=
  match n with
  | O => Some check
  | S n => b ← data !! i; check_loop n (S i) data (u8 (Z.lxor check b))
  end.

Definition CheckSum (data : list Z) (len : Z) : option Z := check_loop (Z.to_nat (u8 len)) 0 data check0.

(** Send the frame, wait, read into [rbuf]: the value returned and the array. *)
Definition transfer (tbuf : list Z) (size : Z) : M (Z * list Z) :=
  lib_serial_send sfd tbuf;;
  lib_call "lib_msleep" [300];;
  a ← lib_read "lib_serial_recv" size;
  mret (ret_of a, fill (zeros size) (data_of a)).

(** The first [n] bytes of an array. *)
Definition first_bytes (n : nat) (l : list Z) : option (list Z) :=
  if bool_decide (n <= length l)%nat then Some (take n l) else None.

(** [memcpy] of [n] bytes of [rbuf] into an array of the caller. *)
Definition give (dst : option (list Z)) (rbuf : list Z) (off n : nat) : option (list Z) :=
  dst ← dst; bcopy dst 0 (take n (drop off rbuf)).

Definition GetVersion (szVer : option (list Z)) : M (list Z) :=
  check ← mem (CheckSum [0xBA; 0x02; 0x60; 0] 3);
  '(_, rbuf) ← transfer [0xBA; 0x02; 0x60; check] 128;
  mem (give szVer rbuf 4 24).

(** The check runs over seven bytes of an array of six. *)
Definition Module_Init (pSPno pSamID : list Z) : M (list Z) :=
  sp ← mem (first_bytes 2 pSPno);
  tbuf ← mem (bcopy [0xBA; 0x04; 0xD2; 0; 0; 0] 3 sp);
  check ← mem (CheckSum (tbuf ++ slack) 7);
  '(_, rbuf) ← transfer (take 5 tbuf ++ [check]) 128;
  mem (give (Some pSamID) rbuf 4 4).

(** [memcpy(&pData, ...)] changes the parameter, not what it points at. *)
Definition QuerTicketInfo : M unit :=
  check ← mem (CheckSum [0xBA; 0x02; 0xD3; 0] 3);
  transfer [0xBA; 0x02; 0xD3; check] 128;;
  mret tt.

Definition QuerRentInfo (bID : Z) : M unit :=
  check ← mem (CheckSum [0xBA; 0x03; 0xD9; bID; 0] 4);
  transfer [0xBA; 0x03; 0xD9; bID; check] 128;;
  mret tt.

(** The array has three bytes, the writes go to places 3, 4 and 5; three bytes
    are sent. *)
Definition SetRentInfo (bID : Z) (pData : list Z) : M unit :=
  let tbuf := [0xBA; 0x04; 0xDA] ++ slack in
  tbuf ← mem (bput tbuf 3 bID);
  d ← mem (bget pData 0);
  tbuf ← mem (bput tbuf 4 d);
  check ← mem (CheckSum tbuf 5);
  tbuf ← mem (bput tbuf 5 check);
  transfer (take 3 tbuf) 128;;
  mret tt.

Definition consume_data (lAmount lFee : Z) (pTime bPHysicalID : list Z) (bAddtionalType : Z) : list Z :=
  [0xBA; 0x19; 0xD4] ++ PUT_UINT32_LE lAmount ++ PUT_UINT32_LE lFee ++ pTime ++ bPHysicalID ++ [bAddtionalType].

Definition Consume (lAmount lFee : Z) (pTime bPHysicalID : list Z) (bAddtionalType : Z) : M unit :=
  t ← mem (first_bytes 6 pTime);
  i ← mem (first_bytes 8 bPHysicalID);
  let tbuf := consume_data lAmount lFee t i bAddtionalType in
  check ← mem (CheckSum (tbuf ++ [0]) 26);
  transfer (tbuf ++ [check]) 128;;
  mret tt.

(** The sixteen bytes of data are not sent. *)
Definition SetBlackFlag (pData : list Z) : M unit :=
  check ← mem (CheckSum [0xBA; 0x02; 0xD5; 0] 3);
  transfer [0xBA; 0x02; 0xD5; check] 128;;
  mret tt.

(** [memcpy(pData, &rbuf\[5\], ret - 6)]: a negative count is a huge one. *)
Definition GetHisRecord (pType pData : list Z) : M (list Z * list Z) :=
  check ← mem (CheckSum [0xBA; 0x02; 0xD6; 0] 3);
  '(ret, rbuf) ← transfer [0xBA; 0x02; 0xD6; check] 128;
  pType ← mem (give (Some pType) rbuf 4 1);
  if ret - 6 <? 0 then fault
  else
    pData ← mem (bcopy pData 0 (take (Z.to_nat (ret - 6)) (drop 5 rbuf)));
    mret (pType, pData).

Definition GetTrans (bTrans : list Z) : M (list Z) :=
  check ← mem (CheckSum [0xBA; 0x02; 0xD8; 0] 3);
  '(_, rbuf) ← transfer [0xBA; 0x02; 0xD8; check] 128;
  mem (give (Some bTrans) rbuf 4 90).

(** The check runs over six bytes of an array of four; [arg] is not sent. *)
Definition Set_parameter (arg : list Z) : M unit :=
  check ← mem (CheckSum ([0xBA; 0x05; 0xD7; 0] ++ slack) 6);
  transfer [0xBA; 0x05; 0xD7; check] 5;;
  mret tt.

End Card.

(** A failed [lib_serial_init] is printed and ignored. *)
Definition main `{Serial} (check0 : Z) (slack : list Z) (szVer : option (list Z)) : M unit :=
  '(_, sfd) ← lib_serial_init DEVNAME 115200;
  Module_Init check0 slack sfd [0; 0] (zeros 4);;
  GetVersion check0 sfd szVer;;
  QuerTicketInfo check0 sfd.

(** ** Frames *)

Definition xor_all (l : list Z) : Z := fold_left Z.lxor l 0.

Lemma fold_xor l : forall a, fold_left Z.lxor l a = Z.lxor a (xor_all l).
Proof.
  unfold xor_all. induction l as [|b l IH]; intros a; cbn; [by rewrite Z.lxor_0_r|].
  rewrite IH, (IH (Z.lxor 0 b)). by rewrite Z.lxor_0_l, Z.lxor_assoc.
Qed.

Lemma xor_all_app a b : xor_all (a ++ b) = Z.lxor (xor_all a) (xor_all b).
Proof. unfold xor_all at 1. by rewrite fold_left_app, fold_xor. Qed.

Lemma xor_all_byte l : bytes l -> is_byte (xor_all l).
Proof.
  unfold xor_all. cut (forall a, is_byte a -> bytes l -> is_byte (fold_left Z.lxor l a)); [intros Hc; by apply Hc|].
  induction l as [|b l IH]; intros a Ha Hl; [done|]. apply Forall_cons in Hl as [Hb Hl].
  apply IH; [by apply is_u_lxor|done].
Qed.

Lemma check_loop_xor n : forall i data check, (i + n <= length data)%nat -> is_byte check -> bytes data ->
  check_loop n i data check = Some (Z.lxor check (xor_all (take n (drop i data)))).
Proof.
  induction n as [|n IH]; intros i data check Hl Hc Hb; cbn [check_loop take]; [by rewrite Z.lxor_0_r|].
  destruct (lookup_lt_is_Some_2 data i) as [b Hd]; [lia|]. rewrite Hd. cbn [mbind option_bind].
  assert (is_byte b) as Hbb by (by eapply Forall_lookup_1). assert (is_byte (Z.lxor check b)) by (by apply is_u_lxor).
  unfold u8. rewrite uwrap_small, IH by (done || lia). rewrite (drop_S data b i Hd). cbn [take].
  change (b :: take n (drop (S i) data)) with ([b] ++ take n (drop (S i) data)).
  rewrite xor_all_app, Z.lxor_assoc. unfold xor_all at 2. cbn. by rewrite Z.lxor_0_l.
Qed.

Section Frames.
Context `{Serial} (check0 : Z) (sfd : Z).

(** A frame of the command [cmd]; the exclusive or of all its bytes is [x]. *)
Definition framed (cmd x : Z) (f : list Z) : Prop :=
  f !! 0%nat = Some 0xBA /\ f !! 1%nat = Some (Z.of_nat (length f) - 2) /\ f !! 2%nat = Some cmd /\ xor_all f = x.

(** The check over everything before its place. *)
Lemma CheckSum_frame body rest : is_byte check0 -> bytes (body ++ rest) -> (length body < 256)%nat ->
  exists c, CheckSum check0 (body ++ rest) (Z.of_nat (length body)) = Some c /\
    xor_all (body ++ [c]) = check0.
Proof.
  intros Hc Hb Hl. unfold CheckSum. unfold u8. rewrite uwrap_small by (unfold is_u; lia). rewrite Nat2Z.id.
  rewrite check_loop_xor; [|rewrite length_app; lia|done|done]. rewrite drop_0, take_app_length.
  eexists. split; [done|]. rewrite xor_all_app. unfold xor_all at 2. cbn.
  rewrite Z.lxor_0_l, (Z.lxor_comm check0), <- Z.lxor_assoc, Z.lxor_nilpotent. apply Z.lxor_0_l.
Qed.

(** The first thing a command does on the port. *)
Definition sends_frame {A} (m : M A) (P : list Z -> Prop) : Prop :=
  emits m (fun _ es => exists f n es', es = Send sfd f n :: es' /\ P f).

(** A program that only adds events. *)
Definition grows {A} (m : M A) : Prop := emits m (fun _ _ => True).

Lemma grows_bind {A B} (m : M A) (k : A -> M B) : grows m -> (forall a, grows (k a)) -> grows (m ≫= k).
Proof. intros Hm Hk. eapply emits_bind; [exact Hm|done|]. intros a es _. apply Hk. Qed.

Lemma grows_mem {A} (o : option A) : grows (mem o).
Proof. by apply emits_mem. Qed.

Lemma transfer_sends {A} tbuf size (k : Z * list Z -> M A) (P : list Z -> Prop) :
  P tbuf -> (forall a, grows (k a)) -> sends_frame (transfer sfd tbuf size ≫= k) P.
Proof.
  intros HP Hk. unfold sends_frame, transfer. apply emits_assoc.
  eapply emits_bind; [apply emits_send|by intros ? (? & [=] & _)|]. intros ? es (n & [= ->] & ->).
  eapply emits_weaken with (R := fun _ _ => True); [|intros a es _; by exists tbuf, n, es].
  apply grows_bind; [|exact Hk]. apply grows_bind; [eapply emits_weaken; [apply emits_call|done]|]. intros _.
  apply grows_bind; [eapply emits_weaken; [apply emits_lib_read|done]|]. intros a. by apply emits_ret.
Qed.

(** A command whose check covers all that precedes it. *)
Lemma checked_sends {A} body rest cmd size (k : Z * list Z -> M A) (P : list Z -> Prop) :
  is_byte check0 -> bytes (body ++ rest) -> (length body < 256)%nat -> (forall a, grows (k a)) ->
  (forall c, xor_all (body ++ [c]) = check0 -> P (body ++ [c])) ->
  cmd = Z.of_nat (length body) ->
  sends_frame (c ← mem (CheckSum check0 (body ++ rest) cmd); transfer sfd (body ++ [c]) size ≫= k) P.
Proof.
  intros Hc Hb Hl Hk HP ->. destruct (CheckSum_frame body rest Hc Hb Hl) as (c & -> & Hx).
  change (sends_frame (transfer sfd (body ++ [c]) size ≫= k) P). apply transfer_sends; auto.
Qed.
End Frames.

Ltac bytes_literal := apply (bool_decide_unpack _); by vm_compute.

(** What a reader of the module finds in the data of a purchase. *)
Definition purchase (f : list Z) : Z * Z * list Z * list Z * option Z :=
  (GET_UINT32_LE f 3, GET_UINT32_LE f 7, take 6 (drop 11 f), take 8 (drop 17 f), f !! 25%nat).

Lemma purchase_data amount fee time id type c : is_u32 amount -> is_u32 fee -> length time = 6%nat -> length id = 8%nat ->
  purchase (consume_data amount fee time id type ++ [c]) = (amount, fee, time, id, Some type).
Proof.
  intros Ha Hf Ht Hi. unfold purchase, consume_data. rewrite <- !app_assoc. set (r := time ++ id ++ [type] ++ [c]).
  change (GET_UINT32_LE ([0xBA; 0x19; 0xD4] ++ ?l) 3) with (GET_UINT32_LE l 0).
  change (GET_UINT32_LE ([0xBA; 0x19; 0xD4] ++ PUT_UINT32_LE amount ++ ?l) 7) with (GET_UINT32_LE l 0).
  rewrite !GET_PUT_LE by done.
  change (drop 11 ([0xBA; 0x19; 0xD4] ++ PUT_UINT32_LE amount ++ PUT_UINT32_LE fee ++ r)) with r.
  change (drop 17 ([0xBA; 0x19; 0xD4] ++ PUT_UINT32_LE amount ++ PUT_UINT32_LE fee ++ r)) with (drop 6 r).
  change (([0xBA; 0x19; 0xD4] ++ PUT_UINT32_LE amount ++ PUT_UINT32_LE fee ++ r) !! 25%nat) with (r !! 14%nat).
  subst r. rewrite take_app_length', drop_app_length', take_app_length' by done.
  rewrite lookup_app_r, lookup_app_r by lia. by rewrite Ht, Hi.
Qed.

(** C33: The commands are frames: header, number of bytes that follow, command,
    and the exclusive or of all bytes is the value the check variable happened to
    hold, so that the module accepts them exactly when that was zero.  A purchase
    carries amount, fee, time, card and type in their places. *)
Theorem yct_frames `{Serial} (check0 sfd : Z) :
  is_byte check0 ->
  (forall v, sends_frame sfd (GetVersion check0 sfd v) (framed 0x60 check0)) /\
  sends_frame sfd (QuerTicketInfo check0 sfd) (framed 0xD3 check0) /\
  (forall id, is_byte id -> sends_frame sfd (QuerRentInfo check0 sfd id) (framed 0xD9 check0)) /\
  (forall d, sends_frame sfd (SetBlackFlag check0 sfd d) (framed 0xD5 check0)) /\
  (forall t d, sends_frame sfd (GetHisRecord check0 sfd t d) (framed 0xD6 check0)) /\
  (forall d, sends_frame sfd (GetTrans check0 sfd d) (framed 0xD8 check0)) /\
  (forall amount fee time id type, is_u32 amount -> is_u32 fee -> length time = 6%nat -> bytes time ->
    length id = 8%nat -> bytes id -> is_byte type ->
    sends_frame sfd (Consume check0 sfd amount fee time id type)
      (fun f => framed 0xD4 check0 f /\ purchase f = (amount, fee, time, id, Some type))).
Proof.
  intros Hc. split_and!; [| | |intros d|intros t d|intros d|].
  - intros v. apply (checked_sends check0 sfd [0xBA; 0x02; 0x60] [0]); try done; [bytes_literal|cbn; lia|].
    intros [? ?]. apply grows_mem.
  - apply (checked_sends check0 sfd [0xBA; 0x02; 0xD3] [0]); try done; [bytes_literal|cbn; lia|].
    intros a. by apply emits_ret.
  - intros id Hid. apply (checked_sends check0 sfd [0xBA; 0x03; 0xD9; id] [0]); try done; [|cbn; lia|].
    + repeat constructor; try done; apply Hid.
    + intros a. by apply emits_ret.
  - apply (checked_sends check0 sfd [0xBA; 0x02; 0xD5] [0]); try done; [bytes_literal|cbn; lia|].
    intros a. by apply emits_ret.
  - apply (checked_sends check0 sfd [0xBA; 0x02; 0xD6] [0]); try done; [bytes_literal|cbn; lia|].
    intros [ret rbuf]. apply grows_bind; [apply grows_mem|]. intros ?. destruct (ret - 6 <? 0); [by apply emits_mem|].
    apply grows_bind; [apply grows_mem|]. intros ?. by apply emits_ret.
  - apply (checked_sends check0 sfd [0xBA; 0x02; 0xD8] [0]); try done; [bytes_literal|cbn; lia|].
    intros [? ?]. apply grows_mem.
  - intros amount fee time id type Ham Hfee Hlt Hbt Hli Hbi Hty. unfold Consume, first_bytes.
    rewrite !bool_decide_eq_true_2, !take_ge by lia. change (mem (Some ?v) ≫= ?f) with (f v). cbv beta zeta.
    set (body := consume_data amount fee time id type).
    assert (length body = 26%nat) as Hb by (subst body; unfold consume_data; rewrite !length_app; cbn; lia).
    apply (checked_sends check0 sfd body [0]); [done| |lia| | |by rewrite Hb].
    + subst body. unfold consume_data. repeat apply Forall_app_2; try done; try apply bytes_PUT_UINT32_LE; bytes_literal || idtac.
      by repeat constructor; apply Hty.
    + intros a. by apply emits_ret.
    + intros c Hx. split; [split_and!; [done|rewrite length_app, Hb; done|done|done]|].
      by apply purchase_data.
Qed.

Lemma yct_frames_witness :
  exists f n es', @wire Scripted (snd (@Consume Scripted 0 3 500 10 (zeros 6) (zeros 8) 1
      (@mk_st Scripted (mk_script [] 3 [] []) []))) = Send 3 f n :: es' /\
    framed 0xD4 0 f /\ purchase f = (500, 10, zeros 6, zeros 8, Some 1).
Proof.
  destruct (@yct_frames Scripted 0 3 ltac:(done)) as (_ & _ & _ & _ & _ & _ & Hp).
  destruct (Hp 500 10 (zeros 6) (zeros 8) 1 ltac:(done) ltac:(done) eq_refl ltac:(bytes_literal) eq_refl
    ltac:(bytes_literal) ltac:(done) (@mk_st Scripted (mk_script [] 3 [] []) [])) as (es & Hw & f & n & es' & -> & Hf & Hd).
  exists f, n, es'. split; [exact Hw|]. split; [exact Hf|exact Hd].
Defined.

(** The overruns: in an array with nothing behind it the initialisation, the
    setting of rental data and of parameters read or write outside before they
    send anything, and the program sends no command at all. *)
Theorem yct_overruns `{Serial} (check0 sfd : Z) :
  (forall sp sam, emits (Module_Init check0 [] sfd sp sam) (fun r es => r = None /\ es = [])) /\
  (forall id d, emits (SetRentInfo check0 [] sfd id d) (fun r es => r = None /\ es = [])) /\
  (forall arg, emits (Set_parameter check0 [] sfd arg) (fun r es => r = None /\ es = [])) /\
  (forall v, emits (main check0 [] v) (fun r es => r = None /\ exists ret fd, es = [Open DEVNAME 115200 ret fd])).
Proof.
  assert (forall c fd sp sam, emits (Module_Init c [] fd sp sam) (fun r es => r = None /\ es = [])) as Hi.
  { intros c fd sp sam. unfold Module_Init, first_bytes. case_bool_decide as E; [|by apply emits_mem].
    destruct sp as [|x [|y sp]]; cbn in E; try lia. by apply emits_mem. }
  split_and!; [apply Hi| | |].
  - intros id d. by apply emits_mem.
  - intros arg. by apply emits_mem.
  - intros v. unfold main. eapply emits_bind; [apply emits_init|by intros ? (? & ? & [=] & _)|].
    intros ? es (ret & fd & [= ->] & ->). eapply emits_bind; [apply Hi| |].
    + intros es [_ ->]. split; [done|]. by exists ret, fd.
    + by intros a es [[=] _].
Qed.
