(* ===== verification/FnHash.v ===== *)
(** * The function table (src/others/test/hash_list/fn_hash.c, lib_list.h)

    Handlers of stake commands in a hash table: a bucket is a list of nodes
    linked through [next], which live on the heap.  A pointer is an address or
    NULL ([None]); an access to memory that is not allocated is a fault.

    [lib_hlist_add_head] of lib_list is a parameter (class [HList]) with the
    behaviour its header gives it (class [HListLaws]); the back pointers, which
    nothing here reads, are left out.  The addresses [malloc] returns are
    arguments, and so is what a handler does with the value it is given. *)

From stdpp Require Import gmap.
From S2P Require Import Prelude CStr.

Definition FN_HASH_EOK : Z := 0.
Definition FN_HASH_ERROR : Z := -1.

(** ** Data *)

Record hash_gw := mk_gw { key : list Z; fn : Z; next : option Z }.
Record fn_hash := mk_fn { hlist : list (option Z); nr_hash : Z }.

(** [struct fn_hash_val], without [var_ptr], which nothing reads. *)
Record fn_hash_val_t := mk_val { vkey : list Z; vdata : list Z; d_size : Z; sel : Z; s_addr : Z; ack : Z }.

Abbreviation heap := (gmap Z hash_gw).

Class HList := lib_hlist_add_head : heap -> list (option Z) -> Z -> nat -> heap * list (option Z).

(** The node becomes the first of its list. *)
Class HListLaws `{HList} := {
  add_head_law m hs p i n first : m !! p = Some n -> hs !! i = Some first ->
    lib_hlist_add_head m hs p i = (<[p := mk_gw (key n) (fn n) first]> m, <[i := Some p]> hs) }.

(** ** Hash values *)

Definition GOLDEN_RATIO_PRIME_32 : Z := 0x9e370001.
Definition hash_32 (val bits : Z) : Z := u32 (val * GOLDEN_RATIO_PRIME_32) ≫ (32 - bits).
Definition lib_hashfn_shift (nr ns shift : Z) : Z := hash_32 (u32 (nr + ns)) shift.

Definition fn_key_val (k : list Z) : option Z :=
  k1 ← k !! 1%nat;
  k0 ← k !! 0%nat;
  Some (u16 (u16 k1 .| (k0 ≪ 8))).

Definition fn_hash_val (k : list Z) : option Z :=
  n ← fn_key_val k;
  Some (lib_hashfn_shift n 5 6).

(** ** Operations *)

(** The results of the two calls of [malloc]; the loop sets every head to NULL.
    [nr] is an [unsigned int] that an [int] can count to and whose list heads fit
    [size_t]. *)
Definition fn_hash_create (m1 m2 : bool) (nr : Z) : option fn_hash :=
  if negb m1 then None
  else if negb m2 then None
  else Some (mk_fn (replicate (Z.to_nat nr) None) nr).

(** [strncmp(a, b, n) == 0] *)
Fixpoint strncmp_eq (n : nat) (a b : list Z) : option bool :=
  match n with
  | O => Some true
  | S n =>
      match a, b with
      | x :: a, y :: b => if x =? y then if x =? 0 then Some true else strncmp_eq n a b else Some false
      | _, _ => None
      end
  end.

Section Table.
Context `{HList} (call : Z -> fn_hash_val_t -> fn_hash_val_t).

(** [p] is the address [malloc] returns and [junk] the node it holds. *)
Definition fn_hash_register (p : option Z) (junk : hash_gw) (t : fn_hash) (k : list Z) (func : Z) (m : heap)
  : option (Z * fn_hash * heap) :=
  h ← fn_hash_val k;
  match p with
  | None => Some (FN_HASH_ERROR, t, m)
  | Some p =>
      s ← strcpy (key junk) k;
      hlist t !! Z.to_nat h;;
      let '(m, hs) := lib_hlist_add_head (<[p := mk_gw s func (next junk)]> m) (hlist t) p (Z.to_nat h) in
      Some (FN_HASH_EOK, mk_fn hs (nr_hash t), m)
  end.

(** The loop over a bucket: the value and the handlers called, each with the
    value it was given. *)
Fixpoint run_loop (fuel : nat) (m : heap) (pos : option Z) (val : fn_hash_val_t) (log : list (Z * fn_hash_val_t))
  : option (fn_hash_val_t * list (Z * fn_hash_val_t)) :=
  match pos, fuel with
  | None, _ => Some (val, log)
  | Some _, O => None
  | Some p, S fuel =>
      n ← m !! p;
      same ← strncmp_eq 2 (key n) (vkey val);
      if same : bool then run_loop fuel m (next n) (call (fn n) val) (log ++ [(fn n, val)])
      else run_loop fuel m (next n) val log
  end.

Definition fn_hash_run (t : fn_hash) (m : heap) (val : fn_hash_val_t)
  : option (Z * fn_hash_val_t * list (Z * fn_hash_val_t)) :=
  h ← fn_hash_val (vkey val);
  first ← hlist t !! Z.to_nat h;
  '(val, log) ← run_loop (size m) m first val [];
  Some (FN_HASH_EOK, val, log).

(** [free(tpos)], then [pos = pos->next] reads the block again. *)
Fixpoint free_loop (fuel : nat) (m : heap) (pos : option Z) : option heap :=
  match pos, fuel with
  | None, _ => Some m
  | Some _, O => None
  | Some p, S fuel =>
      m !! p;;
      let m := delete p m in
      n ← m !! p;
      free_loop fuel m (next n)
  end.

Fixpoint free_buckets (m : heap) (hs : list (option Z)) : option heap :=
  match hs with
  | [] => Some m
  | first :: hs => m ← free_loop (size m) m first; free_buckets m hs
  end.

Definition fn_hash_destroy (t : option fn_hash) (m : heap) : option heap :=
  match t with
  | None => Some m
  | Some t => free_buckets m (take (Z.to_nat (nr_hash t)) (hlist t))
  end.

(** ** test.c

    The handlers print the value.  [p1] and [p2] are the addresses of the nodes;
    the result is [None] for a fault. *)

Definition main (values m1 m2 : bool) (p1 p2 : option Z) (junk : hash_gw) (v0 : fn_hash_val_t) : option Z :=
  if negb values then Some (-1)
  else
    k0 ← strcpy (vkey v0) (lit "AB");
    k1 ← strcpy (vkey v0) (lit "BD");
    let val k d := mk_val k (<[0%nat := d]> (vdata v0)) (d_size v0) (sel v0) (s_addr v0) (ack v0) in
    match fn_hash_create m1 m2 2 with
    | None => Some (-2)
    | Some t =>
        '(_, t, m) ← fn_hash_register p1 junk t (lit "AB") 0 ∅;
        '(_, t, m) ← fn_hash_register p2 junk t (lit "BD") 1 m;
        '(_, _, _) ← fn_hash_run t m (val k0 88);
        '(_, _, _) ← fn_hash_run t m (val k1 99);
        fn_hash_destroy (Some t) m;;
        Some 0
    end.

End Table.

(** ** The list the interface promises *)

#[export] Instance StdHList : HList := fun m hs p i =>
  match m !! p, hs !! i with
  | Some n, Some first => (<[p := mk_gw (key n) (fn n) first]> m, <[i := Some p]> hs)
  | _, _ => (m, hs)
  end.

#[export] Instance StdHListLaws : HListLaws.
Proof. split. intros m hs p i n first Hp Hi. unfold lib_hlist_add_head, StdHList. by rewrite Hp, Hi. Qed.

(** ** Keys and hash values *)

(** A key is a string of two characters. *)
Definition key_of (a : list Z) (k : list Z) : Prop :=
  exists c d r, k = [c; d] /\ a = c :: d :: 0 :: r /\ 0 < c < 256 /\ 0 < d < 256.

Definition hash_of (k : list Z) : nat := Z.to_nat (default 0 (fn_hash_val k)).

Lemma hash_32_range x : 0 <= hash_32 x 6 < 64.
Proof.
  unfold hash_32. change (32 - 6) with 26. rewrite Z.shiftr_div_pow2 by done.
  pose proof (is_u_u32 (x * GOLDEN_RATIO_PRIME_32)) as [? ?]. change (2 ^ 32) with (64 * 2 ^ 26) in *.
  split; [apply Z.div_pos; lia|]. apply Z.div_lt_upper_bound; lia.
Qed.

Lemma hash_val_key a k : key_of a k -> fn_hash_val a = Some (Z.of_nat (hash_of k)) /\ (hash_of k < 64)%nat.
Proof.
  intros (c & d & r & -> & -> & _ & _). unfold hash_of, fn_hash_val, fn_key_val. cbn [lookup list_lookup mbind option_bind default id].
  unfold lib_hashfn_shift. pose proof (hash_32_range (u32 (u16 (u16 d .| c ≪ 8) + 5))).
  split; [f_equal|]; lia.
Qed.

Lemma strncmp_keys a b k k' : key_of a k -> key_of b k' -> strncmp_eq 2 a b = Some (bool_decide (k = k')).
Proof.
  intros (c & d & r & -> & -> & Hc & Hd) (c' & d' & r' & -> & -> & Hc' & Hd'). cbn [strncmp_eq].
  destruct (Z.eqb_spec c c') as [<-|Hne]; [|by rewrite bool_decide_eq_false_2 by congruence].
  rewrite (proj2 (Z.eqb_neq c 0)) by lia.
  destruct (Z.eqb_spec d d') as [<-|Hne]; [|by rewrite bool_decide_eq_false_2 by congruence].
  rewrite (proj2 (Z.eqb_neq d 0)) by lia. by rewrite bool_decide_eq_true_2.
Qed.

(** ** What a table holds

    The registrations, the newest first; a bucket lists those with its hash
    value. *)

Abbreviation regs := (list (list Z * Z)).

Fixpoint chain (m : heap) (pos : option Z) (es : regs) : Prop :=
  match es with
  | [] => pos = None
  | (k, f) :: es => exists p n, pos = Some p /\ m !! p = Some n /\ key_of (key n) k /\ fn n = f /\ chain m (next n) es
  end.

Definition in_bucket (i : nat) (e : list Z * Z) : Prop := hash_of e.1 = i.
#[export] Instance in_bucket_dec i e : Decision (in_bucket i e).
Proof. unfold in_bucket. apply _. Defined.

Record table_of (t : fn_hash) (m : heap) (es : regs) : Prop := {
  t_heads : (64 <= length (hlist t))%nat;
  t_nr : nr_hash t = Z.of_nat (length (hlist t));
  t_size : size m = length es;
  t_chain i first : hlist t !! i = Some first -> chain m first (filter (in_bucket i) es) }.

Lemma chain_fresh m p n es : forall pos, m !! p = None -> chain m pos es -> chain (<[p := n]> m) pos es.
Proof.
  induction es as [|[k f] es IH]; intros pos Hp; [done|]. cbn. intros (q & n' & -> & Hq & Hk & Hf & Hc).
  exists q, n'. split_and!; try done; [|by apply IH]. by rewrite lookup_insert_ne by congruence.
Qed.

Lemma table_create nr : 64 <= nr -> exists t, fn_hash_create true true nr = Some t /\ table_of t ∅ [].
Proof.
  intros Hn. eexists. split; [done|]. split; cbn.
  - rewrite length_replicate. lia.
  - rewrite length_replicate. lia.
  - done.
  - intros i first [-> _]%lookup_replicate. done.
Qed.

Section Laws.
Context `{HListLaws} (call : Z -> fn_hash_val_t -> fn_hash_val_t).

Lemma table_register p junk t k a f m es :
  table_of t m es -> m !! p = None -> key_of a k -> length (key junk) = 3%nat ->
  exists t' m', fn_hash_register (Some p) junk t a f m = Some (FN_HASH_EOK, t', m') /\
    table_of t' m' ((k, f) :: es) /\ m' !! p <> None /\ (forall q, q <> p -> m' !! q = m !! q).
Proof using Type*.
  intros [Hh Hnr Hs Hc] Hp Hk Hj. destruct (hash_val_key a k Hk) as [Ev Hlt].
  destruct Hk as (c & d & r & -> & -> & Hbc & Hbd). unfold fn_hash_register. rewrite Ev.
  cbn [mbind option_bind]. change (c :: d :: 0 :: r) with ([c; d] ++ 0 :: r). rewrite (strcpy_fits (key junk) [c; d] r);
    [|by repeat constructor; lia|cbn; lia]. cbn [mbind option_bind].
  rewrite Nat2Z.id. set (i := hash_of [c; d]) in *. set (a' := [c; d] ++ 0 :: _).
  destruct (lookup_lt_is_Some_2 (hlist t) i) as [first Hf]; [lia|]. rewrite Hf. cbn [mbind option_bind].
  rewrite (add_head_law _ _ _ _ (mk_gw a' f (next junk)) first) by (done || by rewrite lookup_insert_eq).
  cbn [key fn]. rewrite insert_insert_eq. eexists _, _. split; [done|]. split_and!.
  2:{ by rewrite lookup_insert_eq. }
  2:{ intros q Hq. by rewrite lookup_insert_ne. }
  assert (key_of a' [c; d]) as Ha' by (by eexists c, d, _).
  split; cbn [hlist nr_hash].
  - by rewrite length_insert.
  - by rewrite length_insert.
  - rewrite map_size_insert_None by done. cbn. by rewrite Hs.
  - intros j first' Hj'. rewrite filter_cons. destruct (decide (j = i)) as [->|Hne].
    + rewrite list_lookup_insert_eq in Hj' by lia. injection Hj' as <-. rewrite decide_True by done.
      exists p. eexists. split_and!; [done|by rewrite lookup_insert_eq|done|done|].
      apply chain_fresh; [done|]. by apply Hc.
    + rewrite list_lookup_insert_ne in Hj' by done. rewrite decide_False by (intros E; apply Hne; symmetry; exact E).
      apply chain_fresh; [done|]. by apply Hc.
Qed.

(** The handlers a value is given to, one after the other. *)
Fixpoint called (fs : list Z) (val : fn_hash_val_t) : list (Z * fn_hash_val_t) :=
  match fs with [] => [] | f :: fs => (f, val) :: called fs (call f val) end.
Definition after (fs : list Z) (val : fn_hash_val_t) : fn_hash_val_t := fold_left (fun v f => call f v) fs val.

Definition has_key (k : list Z) (e : list Z * Z) : Prop := e.1 = k.
#[export] Instance has_key_dec k e : Decision (has_key k e).
Proof. unfold has_key. apply _. Defined.

Lemma run_loop_chain k m es : (forall f v, vkey (call f v) = vkey v) ->
  forall fuel pos val log, (length es <= fuel)%nat -> chain m pos es -> key_of (vkey val) k ->
  let fs := map snd (filter (has_key k) es) in
  run_loop call fuel m pos val log = Some (after fs val, log ++ called fs val).
Proof.
  intros Hcall. induction es as [|[k' f] es IH]; intros fuel pos val log Hl Hc Hk.
  - cbn in Hc. subst. destruct fuel; cbn; by rewrite app_nil_r.
  - destruct Hc as (p & n & -> & Hp & Hkn & <- & Hc). destruct fuel as [|fuel]; cbn in Hl; [lia|].
    cbn [run_loop]. rewrite Hp. cbn [mbind option_bind]. rewrite (strncmp_keys _ _ k' k) by done.
    cbn [mbind option_bind]. rewrite filter_cons. case_bool_decide as E.
    + rewrite decide_True by done. rewrite IH; [|lia|done|by rewrite Hcall]. cbn. by rewrite <- app_assoc.
    + rewrite decide_False by done. apply IH; [lia|done|done].
Qed.

Lemma filter_bucket k (es : regs) : filter (has_key k) (filter (in_bucket (hash_of k)) es) = filter (has_key k) es.
Proof.
  induction es as [|e es IH]; [done|]. rewrite !filter_cons.
  destruct (decide (has_key k e)) as [Hk|Hk].
  - rewrite (decide_True (P := in_bucket _ _)) by (unfold has_key, in_bucket in *; by rewrite Hk).
    by rewrite filter_cons, decide_True, IH.
  - destruct (decide (in_bucket (hash_of k) e)); [by rewrite filter_cons, decide_False|done].
Qed.

Lemma table_run t m es val k : (forall f v, vkey (call f v) = vkey v) -> table_of t m es -> key_of (vkey val) k ->
  let fs := map snd (filter (has_key k) es) in
  fn_hash_run call t m val = Some (FN_HASH_EOK, after fs val, called fs val).
Proof.
  intros Hcall [Hh _ Hs Hc] Hk. destruct (hash_val_key _ k Hk) as [Ev Hlt]. unfold fn_hash_run. rewrite Ev.
  cbn [mbind option_bind]. rewrite Nat2Z.id.
  destruct (lookup_lt_is_Some_2 (hlist t) (hash_of k)) as [first Hf]; [lia|]. rewrite Hf. cbn [mbind option_bind].
  rewrite (run_loop_chain k m (filter (in_bucket (hash_of k)) es)); [|done| |by apply Hc|done].
  - cbn [mbind option_bind app]. by rewrite filter_bucket.
  - rewrite Hs. apply length_filter.
Qed.

End Laws.

(** Registrations in a row: the addresses and keys. *)
Fixpoint register_all `{HList} (junk : hash_gw) (rs : list (Z * list Z * Z)) (t : fn_hash) (m : heap)
  : option (fn_hash * heap) :=
  match rs with
  | [] => Some (t, m)
  | (p, a, f) :: rs => '(ret, t, m) ← fn_hash_register (Some p) junk t a f m; register_all junk rs t m
  end.

Definition entry (r : Z * list Z * Z) : list Z * Z := (take 2 r.1.2, r.2).
Definition good_key (a : list Z) : Prop := key_of a (take 2 a).

Lemma register_all_table `{HListLaws} junk rs : forall t m es,
  length (key junk) = 3%nat -> table_of t m es -> Forall (fun r => good_key r.1.2) rs ->
  NoDup (map (fun r => r.1.1) rs) -> (forall r, r ∈ rs -> m !! r.1.1 = None) ->
  exists t' m', register_all junk rs t m = Some (t', m') /\ table_of t' m' (reverse (map entry rs) ++ es).
Proof.
  induction rs as [|[[p a] f] rs IH]; intros t m es Hj Ht Hk Hnd Hfr; [by exists t, m|].
  apply Forall_cons in Hk as [Hk Hks]. apply NoDup_cons in Hnd as [Hp Hnd]. cbn [register_all].
  destruct (table_register p junk t (take 2 a) a f m es) as (t1 & m1 & -> & Ht1 & _ & Ho);
    [done|by apply (Hfr (p, a, f)); left|done|done|]. cbn [mbind option_bind].
  destruct (IH t1 m1 ((take 2 a, f) :: es)) as (t' & m' & -> & Ht'); try done.
  - intros r Hr. rewrite Ho; [by apply Hfr; right|]. intros E. apply Hp. cbn. rewrite <- E.
    apply list_elem_of_fmap. by exists r.
  - exists t', m'. split; [done|]. cbn [map]. by rewrite reverse_cons, <- app_assoc.
Qed.

(** C31: The table delivers: when it has 64 lists, after any number of
    registrations a value is given to exactly the handlers registered under its
    key, the newest first, each once, for every handler that leaves the key
    alone. *)
Theorem fn_hash_delivers `{HListLaws} (call : Z -> fn_hash_val_t -> fn_hash_val_t) (nr : Z)
    (junk : hash_gw) (rs : list (Z * list Z * Z)) (val : fn_hash_val_t) :
  64 <= nr -> length (key junk) = 3%nat -> (forall f v, vkey (call f v) = vkey v) ->
  Forall (fun r => good_key r.1.2) rs -> NoDup (map (fun r => r.1.1) rs) -> good_key (vkey val) ->
  exists t0 t m, fn_hash_create true true nr = Some t0 /\ register_all junk rs t0 ∅ = Some (t, m) /\
    let fs := map snd (filter (has_key (take 2 (vkey val))) (reverse (map entry rs))) in
    fn_hash_run call t m val = Some (FN_HASH_EOK, after call fs val, called call fs val).
Proof.
  intros Hn Hj Hc Hk Hnd Hv. destruct (table_create nr Hn) as (t0 & E0 & Ht0).
  destruct (register_all_table junk rs t0 ∅ []) as (t & m & E & Ht); try done.
  exists t0, t, m. split_and!; [done|done|]. rewrite app_nil_r in Ht.
  by apply table_run.
Qed.

Lemma fn_hash_delivers_witness :
  let junk := mk_gw [0; 0; 0] 0 None in
  let val := mk_val (text "AB" ++ [0]) (replicate 64 0) 0 0 0 0 in
  exists t m, register_all junk [(16, text "AB" ++ [0], 1); (32, text "BD" ++ [0], 2); (48, text "AB" ++ [0], 3)]
      (mk_fn (replicate 64 None) 64) ∅ = Some (t, m) /\
    fn_hash_run (fun _ v => v) t m val = Some (FN_HASH_EOK, val, [(3, val); (1, val)]).
Proof.
  intros junk val.
  destruct (fn_hash_delivers (fun _ v => v) 64 junk
    [(16, text "AB" ++ [0], 1); (32, text "BD" ++ [0], 2); (48, text "AB" ++ [0], 3)] val)
    as (t0 & t & m & [= <-] & E & Er); [lia|reflexivity|reflexivity| | | |].
  - repeat (constructor; [eexists _, _, []; (split; [reflexivity|]); (split; [reflexivity|]); vm_compute; done|]); constructor.
  - apply (bool_decide_unpack _). vm_compute. exact I.
  - eexists _, _, []; (split; [reflexivity|]); (split; [reflexivity|]); vm_compute; done.
  - exists t, m. split; [exact E|exact Er].
Defined.

Lemma free_loop_faults fuel m p : free_loop fuel m (Some p) = None.
Proof. destruct fuel; cbn; [done|]. destruct (m !! p); [|done]. cbn. by rewrite lookup_delete_eq. Qed.

Lemma free_buckets_faults hs : forall m, (exists p, Some p ∈ hs) -> free_buckets m hs = None.
Proof.
  induction hs as [|[q|] hs IH]; intros m [p Hp]; [by apply elem_of_nil in Hp|..]; cbn [free_buckets].
  - by rewrite free_loop_faults.
  - apply elem_of_cons in Hp as [[=]|Hp]. replace (free_loop (size m) m None) with (Some m) by (by destruct (size m)).
    cbn [mbind option_bind]. eauto.
Qed.

Lemma destroy_table t m e es : table_of t m (e :: es) -> (hash_of e.1 < 64)%nat -> fn_hash_destroy (Some t) m = None.
Proof.
  intros [Hh Hnr _ Hc] He. cbn. rewrite Hnr, Nat2Z.id, take_ge by lia. apply free_buckets_faults.
  destruct (lookup_lt_is_Some_2 (hlist t) (hash_of e.1)) as [first Hf]; [lia|].
  specialize (Hc _ _ Hf). rewrite filter_cons, decide_True in Hc by done. destruct e as [k f].
  destruct Hc as (p & _ & -> & _). exists p. by eapply list_elem_of_lookup_2.
Qed.

(** The table is never released: as soon as one handler is registered,
    destruction reads a node it has freed.  And the test program does not get
    that far: its table has two lists, and the key of its first handler belongs
    to list 54. *)
Theorem fn_hash_destroy_faults `{HListLaws} (junk : hash_gw) :
  length (key junk) = 3%nat ->
  (forall nr rs, 64 <= nr -> rs <> [] -> Forall (fun r => good_key r.1.2) rs -> NoDup (map (fun r => r.1.1) rs) ->
    exists t0 t m, fn_hash_create true true nr = Some t0 /\ register_all junk rs t0 ∅ = Some (t, m) /\
      fn_hash_destroy (Some t) m = None) /\
  (forall call p1 p2 v0, main call true true true (Some p1) p2 junk v0 = None).
Proof.
  intros Hj. split.
  - intros nr rs Hn Hne Hk Hnd. destruct (table_create nr Hn) as (t0 & E0 & Ht0).
    destruct (register_all_table junk rs t0 ∅ []) as (t & m & E & Ht); try done.
    exists t0, t, m. split_and!; [done|done|]. rewrite app_nil_r in Ht.
    destruct rs as [|r rs _] using rev_ind; [done|]. rewrite map_app, reverse_app in Ht.
    apply Forall_app in Hk as [_ [Hr _]%Forall_cons]. eapply destroy_table; [exact Ht|].
    by apply (hash_val_key r.1.2).
  - intros call p1 p2 v0. unfold main. cbn [negb].
    destruct (strcpy (vkey v0) (lit "AB")); [|done]. destruct (strcpy (vkey v0) (lit "BD")); [|done].
    cbn [mbind option_bind]. cbv zeta. cbn [fn_hash_create negb].
    unfold fn_hash_register. replace (fn_hash_val (lit "AB")) with (Some 54) by (by vm_compute).
    cbn [mbind option_bind]. by destruct (strcpy (key junk) (lit "AB")).
Qed.

Lemma fn_hash_destroy_faults_witness :
  let junk := mk_gw [0; 0; 0] 0 None in
  main (fun _ v => v) true true true (Some 16) (Some 32) junk (mk_val [0; 0; 0] (replicate 64 0) 0 0 0 0) = None.
Proof. intros junk. apply (proj2 (fn_hash_destroy_faults junk eq_refl)). Defined.
