(* ===== verification/Blacklist.v ===== *)
(** * The black list (src/blacklist_test/main.c)

    The program reads a text file with one card on a line, physical number,
    logical number and type between tabs, and inserts the cards into the black
    list of lib_blacklist.  The line buffer is one array that every [fgets]
    overwrites from its start, and [pid], [lid] and [type] point into it and
    keep their values from line to line: they are positions in the array here.

    lib_blacklist is a parameter: [created] tells whether the list could be
    opened and [answer] gives what the last of a series of insertions returns.
    The file is the bytes it holds, [None] if it cannot be opened. *)

From S2P Require Import Prelude CStr Serial.

Definition TAB : Z := 9.
Definition LINE : nat := 64.

(** ** The program *)

(** A row is what the library is called with; NULL is [None]. *)
Abbreviation row := (option (list Z) * option (list Z) * option (list Z))%type.

Record state := mk_state {
  line_buf : list Z;
  pid : option nat; lid : option nat; type : option nat;
  rows : list row }.

Section Blacklist.
Context (answer : list row -> Z).

(** The string at a pointer into the buffer. *)
Definition string_at (buf : list Z) (p : option nat) : option (option (list Z)) :=
  match p with None => Some None | Some p => Some <$> cstr (drop p buf) end.

(** The tokens of a line: a token that is missing leaves its pointer alone. *)
Definition split_line (buf : list Z) (pid lid type : option nat)
  : option (bool * list Z * option nat * option nat * option nat) :=
  '(p, buf, pos) ← strtok buf 0 [TAB];
  match p with
  | None => Some (false, buf, pid, lid, type)
  | Some _ =>
      let pid := p in
      '(p, buf, pos) ← strtok buf pos [TAB];
      match p with
      | None => Some (true, buf, pid, lid, type)
      | Some _ =>
          let lid := p in
          '(p, buf, pos) ← strtok buf pos [TAB];
          match p with
          | None => Some (true, buf, pid, lid, type)
          | Some _ => Some (true, buf, pid, lid, p)
          end
      end
  end.

(** One line: the state and whether the loop goes on. *)
Definition do_line (s : state) : option (state * bool) :=
  '(found, buf, pid, lid, type) ← split_line (line_buf s) (pid s) (lid s) (type s);
  if negb found then Some (mk_state buf pid lid type (rows s), true)
  else
    a ← string_at buf pid;
    b ← string_at buf lid;
    c ← string_at buf type;
    let rows := rows s ++ [(a, b, c)] in
    Some (mk_state buf pid lid type rows, answer rows =? 0).

Fixpoint read_loop (fuel : nat) (f : list Z) (s : state) : option state :=
  match fuel with
  | O => None
  | S fuel =>
      match fgets (line_buf s) LINE f with
      | None => Some s
      | Some (buf, f) =>
          '(s, more) ← do_line (mk_state buf (pid s) (lid s) (type s) (rows s));
          if more : bool then read_loop fuel f s else Some s
      end
  end.

(** The rows that were inserted; the value returned is always 0. *)
Definition main (created : bool) (file : option (list Z)) : option (list row) :=
  if negb created then Some []
  else match file with
  | None => None
  | Some f => rows <$> read_loop (S (length f)) f (mk_state (zeros 64) None None None [])
  end.

End Blacklist.

(** ** The program ends on every file *)

(** The array keeps a zero in its last place, so that every pointer into it is a
    string. *)
Definition buf_ok (b : list Z) : Prop := length b = 64%nat /\ b !! 63%nat = Some 0.
Definition ptr_ok (p : option nat) : Prop := forall i, p = Some i -> (i < 64)%nat.
Definition state_ok (s : state) : Prop := buf_ok (line_buf s) /\ ptr_ok (pid s) /\ ptr_ok (lid s) /\ ptr_ok (type s).

Lemma buf_ok_zero b i : buf_ok b -> (i < 64)%nat -> 0 ∈ drop i b.
Proof.
  intros [_ H0] Hi. apply list_elem_of_lookup. exists (63 - i)%nat. rewrite lookup_drop.
  by replace (i + (63 - i))%nat with 63%nat by lia.
Qed.

Lemma buf_ok_insert b i : buf_ok b -> buf_ok (<[i := 0]> b).
Proof.
  intros [Hl H0]. split; [by rewrite length_insert|]. destruct (decide (i = 63%nat)) as [->|Hne].
  - apply list_lookup_insert_eq. lia.
  - by rewrite list_lookup_insert_ne.
Qed.

Lemma fgets_ok b f b' f' : buf_ok b -> fgets b LINE f = Some (b', f') -> buf_ok b' /\ (length f' < length f)%nat.
Proof.
  intros [Hl H0]. unfold fgets. destruct f as [|c f]; [done|]. pose proof (take_line_length (LINE - 1) (c :: f)) as Ht.
  destruct (take_line (LINE - 1) (c :: f)) as [l r]. unfold LINE in Ht. cbn [fst snd] in Ht. intros [= <- <-].
  destruct Ht as (Hlen & Hr & _). split; [|apply Hr; [lia|done]]. unfold fill. split.
  - rewrite !length_app, length_drop. cbn. lia.
  - destruct (decide (length l = 63%nat)) as [E|E].
    + rewrite <- app_assoc, lookup_app_r by lia. by rewrite E.
    + rewrite lookup_app_r by (rewrite length_app; cbn; lia). rewrite lookup_drop.
      set (k := length (l ++ [0])). assert (k <= 63)%nat by (subst k; rewrite length_app; cbn; lia).
      by replace (k + (63 - k))%nat with 63%nat by lia.
Qed.

(** [strtok] on such an array. *)
Lemma strtok_ok b pos : buf_ok b -> 0 ∈ drop pos b ->
  exists p b' q, strtok b pos [TAB] = Some (p, b', q) /\ buf_ok b' /\ ptr_ok p /\ 0 ∈ drop q b'.
Proof.
  intros Hb H0. destruct (strtok_total b pos [TAB] eq_refl H0) as (p & b' & q & E & Hq & _).
  exists p, b', q. split_and!; [done| | |done].
  - unfold strtok in E. destruct (b !! _) as [c|]; [|done]. cbn [mbind option_bind] in E.
    destruct (c =? 0); [by injection E as <- <- <-|]. destruct (tok_len _ _) as [n|]; [|done]. cbn [mbind option_bind] in E.
    destruct (b !! _) as [e|]; [|done]. cbn [mbind option_bind] in E.
    destruct (e =? 0); injection E as <- <- <-; [done|by apply buf_ok_insert].
  - unfold strtok in E. destruct (b !! _) as [c|] eqn:Ec; [|done]. apply lookup_lt_Some in Ec. destruct Hb as [Hl _].
    cbn [mbind option_bind] in E. destruct (c =? 0); [by injection E as <- <- <-|].
    destruct (tok_len _ _) as [n|]; [|done]. cbn [mbind option_bind] in E.
    destruct (b !! _) as [e|]; [|done]. cbn [mbind option_bind] in E.
    destruct (e =? 0); injection E as <- <- <-; intros i [= <-]; lia.
Qed.

Lemma string_at_ok b p : buf_ok b -> ptr_ok p -> exists t, string_at b p = Some t.
Proof.
  intros Hb Hp. destruct p as [p|]; [|by eexists]. cbn.
  destruct (cstr_total (drop p b)) as [t ->]; [apply buf_ok_zero; [done|by apply Hp]|]. by eexists.
Qed.

Lemma split_line_ok b p1 p2 p3 : buf_ok b -> ptr_ok p1 -> ptr_ok p2 -> ptr_ok p3 ->
  exists found b' q1 q2 q3, split_line b p1 p2 p3 = Some (found, b', q1, q2, q3) /\
    buf_ok b' /\ ptr_ok q1 /\ ptr_ok q2 /\ ptr_ok q3.
Proof.
  intros Hb H1 H2 H3. unfold split_line.
  destruct (strtok_ok b 0 Hb (buf_ok_zero b 0 Hb ltac:(lia))) as (p & b1 & q1 & -> & Hb1 & Hp1 & Hq1).
  cbn [mbind option_bind]. destruct p as [p|]; [|by eexists _, _, _, _, _].
  destruct (strtok_ok b1 q1 Hb1 Hq1) as (p' & b2 & q2 & -> & Hb2 & Hp2 & Hq2).
  cbn [mbind option_bind]. destruct p' as [p'|]; [|by eexists _, _, _, _, _].
  destruct (strtok_ok b2 q2 Hb2 Hq2) as (p'' & b3 & q3 & -> & Hb3 & Hp3 & Hq3).
  cbn [mbind option_bind]. destruct p'' as [p''|]; by eexists _, _, _, _, _.
Qed.

Lemma do_line_ok answer s : state_ok s -> exists s' more, do_line answer s = Some (s', more) /\ state_ok s'.
Proof.
  intros (Hb & H1 & H2 & H3). unfold do_line.
  destruct (split_line_ok _ _ _ _ Hb H1 H2 H3) as (found & b & q1 & q2 & q3 & -> & Hb' & Hq1 & Hq2 & Hq3).
  cbn [mbind option_bind]. destruct found; cbn [negb].
  - destruct (string_at_ok b q1 Hb' Hq1) as [t1 ->], (string_at_ok b q2 Hb' Hq2) as [t2 ->],
      (string_at_ok b q3 Hb' Hq3) as [t3 ->]. cbn [mbind option_bind]. by eexists _, _.
  - by eexists _, _.
Qed.

Lemma read_loop_total answer fuel : forall f s, state_ok s -> (length f < fuel)%nat ->
  exists s', read_loop answer fuel f s = Some s'.
Proof.
  induction fuel as [|fuel IH]; intros f s Hs Hf; [lia|]. cbn [read_loop].
  destruct (fgets (line_buf s) LINE f) as [[b f']|] eqn:E; [|by eexists].
  destruct Hs as (Hb & H1 & H2 & H3). destruct (fgets_ok _ _ _ _ Hb E) as [Hb' Hl].
  destruct (do_line_ok answer (mk_state b (pid s) (lid s) (type s) (rows s))) as (s' & more & -> & Hs'); [done|].
  cbn [mbind option_bind]. destruct more; [apply IH; [done|lia]|by eexists].
Qed.

(** The import ends on every file, whatever its bytes and whatever the
    library answers, and stays inside its line buffer. *)
Theorem blacklist_import_ends (answer : list row -> Z) (f : list Z) :
  exists rows, main answer true (Some f) = Some rows.
Proof.
  unfold main. cbn [negb].
  destruct (read_loop_total answer (S (length f)) f (mk_state (zeros 64) None None None [])) as [s ->];
    [|lia|by eexists]. split_and!; try done.
Qed.

(** ** What is inserted *)

Record card := mk_card { c_pid : list Z; c_lid : list Z; c_type : list Z }.

Definition field (l : list Z) : Prop := l <> [] /\ Forall (fun c => c <> 0 /\ c <> TAB /\ c <> LF) l.
Definition line_of (c : card) : list Z := c_pid c ++ TAB :: c_lid c ++ TAB :: c_type c ++ [LF].
Definition card_ok (c : card) : Prop :=
  field (c_pid c) /\ field (c_lid c) /\ field (c_type c) /\ (length (line_of c) < LINE)%nat.

(** The type keeps the end of its line. *)
Definition row_of (c : card) : row := (Some (c_pid c), Some (c_lid c), Some (c_type c ++ [LF])).

(** The rows in order, up to the first one that is refused. *)
Fixpoint imported (answer : list row -> Z) (done : list row) (cs : list card) : list row :=
  match cs with
  | [] => done
  | c :: cs => let rows := done ++ [row_of c] in if answer rows =? 0 then imported answer rows cs else rows
  end.

Lemma fgets_line b l rest : Forall (fun c => c <> LF) l -> (length l < 63)%nat ->
  fgets b LINE (l ++ LF :: rest) = Some (l ++ LF :: 0 :: drop (length l + 2) b, rest).
Proof.
  intros Hl Hn. unfold fgets, LINE. rewrite take_line_line by (done || lia).
  unfold fill. rewrite <- !app_assoc, !length_app. cbn [app length].
  replace (length l + (1 + 1))%nat with (length l + 2)%nat by lia. by destruct l.
Qed.

Lemma field_token l : field l -> token [TAB] l /\ nonzero l.
Proof.
  intros [_ Hl]. split; (eapply Forall_impl; [exact Hl|]); cbn; [|tauto]. intros c (H0 & Ht & _).
  split; [done|]. unfold delim. cbn. rewrite orb_false_r. by apply Z.eqb_neq.
Qed.

Lemma last_field_token l : field l -> token [TAB] (l ++ [LF]).
Proof. intros Hl. apply token_app. split; [by apply field_token|]. by repeat constructor. Qed.

Lemma card_no_LF c : card_ok c -> exists l, line_of c = l ++ [LF] /\ Forall (fun c => c <> LF) l /\ (length l < 63)%nat.
Proof.
  intros ((_ & Hp) & (_ & Hl) & (_ & Ht) & Hlen). exists (c_pid c ++ TAB :: c_lid c ++ TAB :: c_type c).
  assert (line_of c = (c_pid c ++ TAB :: c_lid c ++ TAB :: c_type c) ++ [LF]) as E.
  { unfold line_of. repeat (rewrite <- ?app_assoc; cbn [app]). done. }
  split_and!; [done| |rewrite E, length_app in Hlen; unfold LINE in Hlen; cbn in Hlen; lia].
  repeat (apply Forall_app; split); try (apply Forall_cons; split; [done|]; apply Forall_app; split);
    try (apply Forall_cons; split; [done|]); (eapply Forall_impl; [eassumption|]); cbn; tauto.
Qed.

(** The buffer after a card: terminators behind the first two fields. *)
Definition after_card (c : card) (x : list Z) : list Z :=
  c_pid c ++ 0 :: c_lid c ++ 0 :: c_type c ++ LF :: 0 :: x.

Lemma split_card c x p1 p2 p3 : card_ok c ->
  split_line (line_of c ++ 0 :: x) p1 p2 p3 =
  Some (true, after_card c x, Some 0%nat, Some (S (length (c_pid c))),
        Some (S (S (length (c_pid c) + length (c_lid c))))).
Proof.
  intros (Hp & Hl & Ht & _). unfold split_line, line_of. repeat (rewrite <- ?app_assoc; cbn [app]).
  pose proof (strtok_next [TAB] [] (c_pid c) TAB (c_lid c ++ TAB :: c_type c ++ LF :: 0 :: x) eq_refl eq_refl
    (proj1 Hp) (proj1 (field_token _ Hp))) as E1. cbn [app length] in E1. rewrite E1. cbn [mbind option_bind].
  rewrite (strtok_next [TAB] (c_pid c ++ [0]) (c_lid c) TAB) by
    (done || apply Hl || by apply field_token). cbn [mbind option_bind].
  pose proof (strtok_last [TAB] ((c_pid c ++ [0]) ++ c_lid c ++ [0]) (c_type c ++ [LF]) x eq_refl
    ltac:(by destruct (c_type c)) (last_field_token _ Ht)) as E3.
  rewrite <- (app_assoc (c_type c)) in E3. cbn [app] in E3. rewrite E3. cbn [mbind option_bind].
  unfold after_card. repeat (rewrite <- ?app_assoc; cbn [app]). rewrite !length_app. cbn [length]. rewrite length_app. cbn [length].
  by replace (length (c_pid c) + S (length (c_lid c) + 1))%nat with (S (S (length (c_pid c) + length (c_lid c)))) by lia;
    replace (length (c_pid c) + 1)%nat with (S (length (c_pid c))) by lia.
Qed.

Lemma drop_past (a r : list Z) (b : Z) n : drop (S (length a) + n) (a ++ b :: r) = drop n r.
Proof. rewrite drop_app_ge by lia. by replace (S (length a) + n - length a)%nat with (S n) by lia. Qed.

(** The strings in the buffer. *)
Lemma strings_of_card c x : card_ok c ->
  string_at (after_card c x) (Some 0%nat) = Some (Some (c_pid c)) /\
  string_at (after_card c x) (Some (S (length (c_pid c)))) = Some (Some (c_lid c)) /\
  string_at (after_card c x) (Some (S (S (length (c_pid c) + length (c_lid c))))) = Some (Some (c_type c ++ [LF])).
Proof.
  intros (Hp & Hl & Ht & _). apply field_token in Hp as [_ Hp], Hl as [_ Hl], Ht as [_ Ht]. unfold string_at, after_card.
  split_and!.
  - by rewrite drop_0, cstr_text.
  - by rewrite <- (Nat.add_0_r (S _)), drop_past, drop_0, cstr_text.
  - change (S (S (length (c_pid c) + length (c_lid c)))) with (S (S (length (c_pid c)) + length (c_lid c))).
    rewrite <- Nat.add_succ_r, drop_past, <- (Nat.add_0_r (S (length (c_lid c)))), drop_past, drop_0.
    change (LF :: 0 :: x) with ([LF] ++ 0 :: x). rewrite app_assoc, cstr_text; [done|].
    apply nonzero_app. split; [done|]. by repeat constructor.
Qed.

Lemma do_line_card answer c x p1 p2 p3 done : card_ok c ->
  do_line answer (mk_state (line_of c ++ 0 :: x) p1 p2 p3 done) =
  Some (mk_state (after_card c x) (Some 0%nat) (Some (S (length (c_pid c))))
          (Some (S (S (length (c_pid c) + length (c_lid c))))) (done ++ [row_of c]),
        answer (done ++ [row_of c]) =? 0).
Proof.
  intros Hc. unfold do_line. cbn [line_buf pid lid type rows]. rewrite split_card by done. cbn [mbind option_bind negb].
  destruct (strings_of_card c x Hc) as (-> & -> & ->). done.
Qed.

(** One card: the line is read, split and inserted. *)
Lemma read_card answer fuel c rest s : card_ok c ->
  exists x, read_loop answer (S fuel) (line_of c ++ rest) s =
    (if answer (rows s ++ [row_of c]) =? 0 then read_loop answer fuel rest
       (mk_state (after_card c x) (Some 0%nat) (Some (S (length (c_pid c))))
          (Some (S (S (length (c_pid c) + length (c_lid c))))) (rows s ++ [row_of c]))
     else Some (mk_state (after_card c x) (Some 0%nat) (Some (S (length (c_pid c))))
          (Some (S (S (length (c_pid c) + length (c_lid c))))) (rows s ++ [row_of c]))) /\
    x = drop (length (line_of c) + 1) (line_buf s).
Proof.
  intros Hc. destruct (card_no_LF c Hc) as (l & El & Hl & Hlen). eexists. split; [|reflexivity]. cbn [read_loop].
  replace (fgets (line_buf s) LINE (line_of c ++ rest))
    with (Some (line_of c ++ 0 :: drop (length (line_of c) + 1) (line_buf s), rest)).
  2:{ rewrite El, <- !app_assoc. cbn [app]. rewrite fgets_line by done. rewrite length_app. cbn [length].
      by replace (length l + 1 + 1)%nat with (length l + 2)%nat by lia. }
  rewrite do_line_card by done. cbn [mbind option_bind]. by destruct (answer _ =? 0).
Qed.

Lemma length_line c : (0 < length (line_of c))%nat.
Proof. unfold line_of. rewrite length_app. cbn. lia. Qed.

Lemma read_cards answer cs : forall fuel s, Forall card_ok cs -> (length (concat (map line_of cs)) < fuel)%nat ->
  exists s', read_loop answer fuel (concat (map line_of cs)) s = Some s' /\ rows s' = imported answer (rows s) cs.
Proof.
  induction cs as [|c cs IH]; intros [|fuel] s Hcs Hf; try (cbn in Hf; lia); [by exists s|].
  apply Forall_cons in Hcs as [Hc Hcs]. cbn [map concat] in *. rewrite length_app in Hf. pose proof (length_line c).
  destruct (read_card answer fuel c (concat (map line_of cs)) s Hc) as (x & -> & _). cbn [imported].
  destruct (answer _ =? 0); [|by eexists].
  destruct (IH fuel (mk_state (after_card c x) (Some 0%nat) (Some (S (length (c_pid c))))
          (Some (S (S (length (c_pid c) + length (c_lid c))))) (rows s ++ [row_of c])) Hcs ltac:(lia)) as (s' & -> & E).
  by exists s'.
Qed.

(** C32: A file of cards is inserted card by card, in order, up to the first card
    the library refuses; each row has the two numbers of its line, and the type
    with the end of the line behind it. *)
Theorem blacklist_import_rows (answer : list row -> Z) (cs : list card) :
  Forall card_ok cs -> main answer true (Some (concat (map line_of cs))) = Some (imported answer [] cs).
Proof.
  intros Hcs. unfold main. cbn [negb].
  destruct (read_cards answer cs (S (length (concat (map line_of cs)))) (mk_state (zeros 64) None None None []) Hcs)
    as (s & -> & E); [lia|]. cbn. by rewrite E.
Qed.

Lemma blacklist_import_rows_witness :
  let c := mk_card (text "0011223344556677") (text "5100001000002541") (text "A") in
  let d := mk_card (text "8899AABBCCDDEEFF") (text "5100000641192374") (text "B") in
  main (fun rows => if (length rows =? 2)%nat then 1 else 0) true (Some (line_of c ++ line_of d ++ line_of c)) =
    Some [row_of c; row_of d].
Proof.
  intros c d.
  assert (card_ok c /\ card_ok d) as [Hc Hd].
  { split; (split_and!; [..|vm_compute; lia]); (split; [discriminate|]); apply (bool_decide_unpack _); vm_compute; exact I. }
  change (line_of c ++ line_of d ++ line_of c) with (concat (map line_of [c; d; c])).
  rewrite (blacklist_import_rows (fun rows => if (length rows =? 2)%nat then 1 else 0) [c; d; c]); [reflexivity|].
  by repeat (apply Forall_cons; split; [assumption|]).
Defined.

(** A line that is too short: the fields it lacks are taken from the card before
    it, as long as they still stand in the buffer. *)
Theorem blacklist_short_line (answer : list row -> Z) (c : card) (x : list Z) :
  card_ok c -> field x -> (length x < length (c_pid c))%nat -> answer [row_of c] = 0 ->
  main answer true (Some (line_of c ++ x ++ [LF])) =
    Some [row_of c; (Some (x ++ [LF]), Some (c_lid c), Some (c_type c ++ [LF]))].
Proof.
  intros Hc Hx Hlen Ha. unfold main. cbn [negb].
  destruct (read_card answer (length (line_of c ++ x ++ [LF])) c (x ++ [LF]) (mk_state (zeros 64) None None None []) Hc)
    as (y & -> & _). cbn [rows app]. rewrite Ha. change (0 =? 0) with true. cbv iota.
  pose proof (length_line c). destruct (length (line_of c ++ x ++ [LF])) as [|fuel] eqn:Ef;
    [rewrite !length_app in Ef; lia|].
  assert (exists w, length w = length (drop (length x + 2) (c_pid c ++ [0])) /\
    drop (length x + 2) (after_card c y) = w ++ c_lid c ++ 0 :: c_type c ++ LF :: 0 :: y) as (w & Hw & Ew).
  { exists (drop (length x + 2) (c_pid c ++ [0])). split; [done|]. unfold after_card.
    change (0 :: c_lid c ++ ?r) with ([0] ++ c_lid c ++ r). rewrite app_assoc, drop_app_le; [done|].
    rewrite length_app. cbn. lia. }
  rewrite length_drop, length_app in Hw. cbn [length] in Hw.
  cbn [read_loop line_buf pid lid type rows]. destruct (field_token x Hx) as [_ Hnz].
  rewrite (fgets_line _ x []); [| |].
  2:{ destruct Hx as [_ Hx]. eapply Forall_impl; [exact Hx|]. cbn. tauto. }
  2:{ destruct Hc as (_ & _ & _ & Hl). unfold line_of, LINE in Hl. rewrite length_app in Hl. cbn in Hl. lia. }
  rewrite Ew. unfold do_line. cbn [line_buf pid lid type rows]. unfold split_line.
  pose proof (strtok_last [TAB] [] (x ++ [LF]) (w ++ c_lid c ++ 0 :: c_type c ++ LF :: 0 :: y) eq_refl
    ltac:(by destruct x) (last_field_token x Hx)) as E1.
  rewrite <- (app_assoc x) in E1. cbn [app length] in E1. rewrite E1. cbn [mbind option_bind].
  pose proof (strtok_none [TAB] (x ++ [LF]) [] (w ++ c_lid c ++ 0 :: c_type c ++ LF :: 0 :: y) eq_refl (Forall_nil_2 _)) as E2.
  rewrite <- (app_assoc x) in E2. cbn [app] in E2. rewrite E2. cbn [mbind option_bind negb]. clear E1 E2.
  destruct (strings_of_card c y Hc) as (_ & Hl & Ht). unfold string_at, after_card in *.
  set (r := c_lid c ++ 0 :: c_type c ++ LF :: 0 :: y) in *.
  assert (drop (S (length (c_pid c))) (x ++ LF :: 0 :: w ++ r) = r) as Hd.
  { change (LF :: 0 :: w ++ r) with ([LF; 0] ++ w ++ r). rewrite !app_assoc. apply drop_app_length'.
    rewrite !length_app. cbn [length]. lia. }
  replace (S (S (length (c_pid c) + length (c_lid c)))) with (S (length (c_pid c)) + S (length (c_lid c)))%nat in * by lia.
  rewrite <- (Nat.add_0_r (S (length (c_pid c)))), drop_past, drop_0 in Hl. rewrite drop_past in Ht.
  rewrite <- drop_drop, Hd, Hl, Ht. cbn [mbind option_bind].
  change (x ++ LF :: 0 :: w ++ r) with (x ++ [LF] ++ 0 :: w ++ r).
  rewrite drop_0, app_assoc, cstr_text by (apply nonzero_app; split; [done|by repeat constructor]).
  cbn [fmap option_fmap option_map mbind option_bind]. destruct fuel as [|fuel];
    [rewrite !length_app in Ef; cbn in Ef; lia|]. by destruct (answer _ =? 0).
Qed.
