(* ===== verification/CtosLink.v ===== *)
(** * The test programs of the CAN adapter (src/cantoserial/main.c, src/can_test/can_test.c)

    Two copies of the program of src/cantoserial share a bus: one sends a
    package of 106 bytes in every turn, the other reads 106 bytes in every turn
    and shows them.  Here are both programs over the adapter of [Ctos] and
    [CtosThreads], and the theorem on the pair: what the reader shows is the
    stream of the packages, each followed by six zeros, because the adapter hands
    over whole frames; so a reader that falls behind shows pieces of two
    packages.

    The endless loops run for as many turns as their argument says, then the
    signal arrives that clears [g_qbl].  A turn of the reader comes with the
    frames that the threads of its adapter have explained before it. *)

From S2P Require Import Prelude CStr Ctos CtosProofs CtosThreads.

(** ** Packages *)

Definition STAKE_HD_H : Z := 0x55.
Definition STAKE_HD_L : Z := 0xaa.

(** The number of the package and the new value of [g_sn]. *)
Definition get_sn (g_sn : Z) : Z * Z :=
  let g_sn := if 255 <? g_sn then 0 else g_sn in (g_sn, u8 (g_sn + 1)).

(** The bytes of an [unsigned short]. *)
Definition short_bytes (x : Z) : list Z := [u8 x; u8 (x ≫ 8)].

(** [package_make] of either program: its length, the array and [g_sn]; the
    programs differ in [buf], the data. *)
Definition package (crc : list Z -> Z) (buf : list Z) (g_sn : Z) (data : list Z) (d_addr s_addr cmd : Z)
  : option (Z * list Z * Z) :=
  let DATA_LEN := Z.of_nat (length buf) in
  let len := 0 in
  data ← bput data len STAKE_HD_H; let len := len + 1 in
  data ← bput data len STAKE_HD_L; let len := len + 1 in
  data ← bput data len s_addr; let len := len + 1 in
  data ← bput data len d_addr; let len := len + 1 in
  data ← bput data len cmd; let len := len + 1 in
  let '(sn, g_sn) := get_sn g_sn in
  data ← bput data len sn; let len := len + 1 in
  data ← bcopy data len (short_bytes DATA_LEN); let len := len + 2 in
  data ← bcopy data len buf; let len := len + DATA_LEN in
  let crc16 := u16 (crc (take (Z.to_nat len) data)) in
  data ← bcopy data len (short_bytes crc16);
  Some (len + 2, data, g_sn).

(** The data of the sender: [buf[i] = i]. *)
Definition counters : list Z := map u8 (seqZ 0 96).
Definition ctos_package_make (crc : list Z -> Z) := package crc counters.

(** The data of the CAN test: [ac0&] and zeros. *)
Definition request_data : list Z := [0x61; 0x63; 0x30; 0x26; 0; 0; 0; 0].
Definition can_package_make (crc : list Z -> Z) := package crc request_data.

(** ** The loops *)

Section Programs.
Context `{LibGeneral} (crc : list Z -> Z).

(** Sending; [send_err_cnt] is unsigned. *)
Fixpoint send_turns (n : nat) (ct : ctos) (data : list Z) (g_sn d_addr s_addr send_err_cnt : Z)
  : option (ctos * Z * Z) :=
  match n with
  | O => Some (ct, g_sn, send_err_cnt)
  | S n =>
      '(len, data, g_sn) ← ctos_package_make crc g_sn data d_addr s_addr 0x80;
      if 0 <? len then
        '(ret, ct) ← lib_ctos_put ct d_addr data len;
        send_turns n ct data g_sn d_addr s_addr (if ret <? 0 then u32 (send_err_cnt + 1) else send_err_cnt)
      else send_turns n ct data g_sn d_addr s_addr send_err_cnt
  end.

(** Receiving: what is shown, and how often nothing was there. *)
Fixpoint recv_turns (turns : list (list (list Z))) (ct : ctos) (buf : list Z) (shown : list (list Z))
    (recv_sleep_cnt : Z) : option (ctos * list (list Z) * Z) :=
  match turns with
  | [] => Some (ct, shown, recv_sleep_cnt)
  | fs :: turns =>
      ct ← explain ct fs;
      let '(ret, d, ct) := lib_ctos_get ct 106 in
      buf ← bcopy buf 0 d;
      if 0 <? ret then recv_turns turns ct buf (shown ++ [take (Z.to_nat ret) buf]) recv_sleep_cnt
      else recv_turns turns ct buf shown (u32 (recv_sleep_cnt + 1))
  end.

(** ** [main] of src/cantoserial *)

(** What a run leaves: a failed assertion, or the adapter at the end, what was
    shown, the two counters and the resources still held. *)
Inductive ended :=
  | Aborted
  | Quit (ct : option ctos) (shown : list (list Z)) (recv_sleep_cnt send_err_cnt : Z) (live : list resource).

(** What the system gives to [lib_ctos_create]. *)
Record system := mk_system { sys_answers : answers; sys_frame : stake_frame; sys_ring : ring; sys_net : net }.

Definition start (w : system) (bus id rate : Z) : created :=
  lib_ctos_create (sys_answers w) bus id rate (sys_frame w) (sys_ring w) (sys_net w).

(** The end of [main]: [lib_ctos_destroy] asserts that there is an adapter. *)
Definition ERR (w : system) (ct : option ctos) (shown : list (list Z)) (recv_sleep_cnt send_err_cnt : Z)
    (live : list resource) : ended :=
  match ct with
  | None => Aborted
  | Some c => Quit ct shown recv_sleep_cnt send_err_cnt (snd (lib_ctos_destroy (a_fd (sys_answers w)) live))
  end.

(** [atoi] of the arguments, which have to be numbers of an [int]. *)
Definition main (w : system) (argv : list (list Z)) (n : nat) (turns : list (list (list Z))) : option ended :=
  if negb (length argv =? 5)%nat then Some (Quit None [] 0 0 [])
  else
    let arg i := argv !!! i in
    let data := replicate 512 0 in
    let buf := replicate 512 0 in
    s ← str_eq (arg 1%nat) (lit "s");
    if (s : bool) then
      match start w 0 (u8 (atoi_value (arg 2%nat))) BAUD_RATE_500kbps with
      | Crash => None
      | Null live => Some (ERR w None [] 0 0 live)
      | Created ct live =>
          '(ct, shown, cnt) ← recv_turns turns ct buf [] 0;
          Some (ERR w (Some ct) shown cnt 0 live)
      end
    else
      c ← str_eq (arg 1%nat) (lit "c");
      if (c : bool) then
        match start w 0 (u8 (atoi_value (arg 2%nat))) BAUD_RATE_500kbps with
        | Crash => None
        | Null live => Some (ERR w None [] 0 0 live)
        | Created ct live =>
            '(ct, _, errs) ← send_turns n ct data 0 (u8 (atoi_value (arg 3%nat))) (u8 (atoi_value (arg 2%nat))) 0;
            Some (ERR w (Some ct) [] 0 errs live)
        end
      else Some (Quit None [] 0 0 []).

(** ** [main] of src/can_test

    One turn: a package to stake 0x7f, then up to 512 bytes into [buf], shown
    as bytes and, from the ninth on, as a string. *)
Definition can_turn (ct : ctos) (data buf : list Z) (g_sn : Z) (fs : list (list Z))
  : option (ctos * list Z * list Z * Z * option (list Z * list Z)) :=
  '(len, data, g_sn) ← can_package_make crc g_sn data 0x7f 0x00 0x82;
  '(_, ct) ← (if 0 <? len then lib_ctos_put ct 0x7f data len else Some (0, ct));
  ct ← explain ct fs;
  let '(ret, d, ct) := lib_ctos_get ct 512 in
  buf ← bcopy buf 0 d;
  if 0 <? ret then
    s ← cstr (drop 8 buf);
    Some (ct, data, buf, g_sn, Some (take (Z.to_nat ret) buf, s))
  else Some (ct, data, buf, g_sn, None).

Fixpoint can_turns (turns : list (list (list Z))) (ct : ctos) (data buf : list Z) (g_sn : Z)
  : option (list (option (list Z * list Z))) :=
  match turns with
  | [] => Some []
  | fs :: turns =>
      '(ct, data, buf, g_sn, out) ← can_turn ct data buf g_sn fs;
      cons out <$> can_turns turns ct data buf g_sn
  end.

(** [None]: an assertion fails or an array is left. *)
Definition can_main (w : system) (turns : list (list (list Z))) : option (list (option (list Z * list Z))) :=
  match start w 1 0 BAUD_RATE_125kbps with
  | Created ct _ => can_turns turns ct (replicate 512 0) (replicate 512 0) 0
  | _ => None
  end.

End Programs.

(** ** What a package holds *)

(** Bytes written one behind the other over the array [data]. *)
Abbreviation over pre data := (fill data pre).

Lemma over_put pre data i v : i = Z.of_nat (length pre) -> (length pre < length data)%nat ->
  bput (over pre data) i v = Some (over (pre ++ [v]) data).
Proof.
  intros -> Hl. unfold bput, fill. rewrite !length_app, length_drop, bool_decide_eq_true_2 by lia.
  rewrite Nat2Z.id, insert_app_r_alt, Nat.sub_diag by lia.
  destruct (drop (length pre) data) as [|x r] eqn:E; [apply (f_equal length) in E; rewrite length_drop in E; cbn in E; lia|].
  cbn [length]. rewrite (drop_add _ _ _ 1 E), <- app_assoc. done.
Qed.

Lemma over_copy pre data i src : i = Z.of_nat (length pre) -> (length pre + length src <= length data)%nat ->
  bcopy (over pre data) i src = Some (over (pre ++ src) data).
Proof.
  intros -> Hl. unfold bcopy, fill. rewrite !length_app, length_drop, bool_decide_eq_true_2 by lia.
  rewrite Nat2Z.id, take_app_length, drop_app_ge, drop_drop by lia. rewrite <- app_assoc.
  do 4 f_equal. lia.
Qed.

Definition package_head (buf : list Z) (sn d_addr s_addr cmd : Z) : list Z :=
  [STAKE_HD_H; STAKE_HD_L; s_addr; d_addr; cmd; sn] ++ short_bytes (Z.of_nat (length buf)) ++ buf.

Definition package_of (crc : list Z -> Z) (buf : list Z) (sn d_addr s_addr cmd : Z) : list Z :=
  let head := package_head buf sn d_addr s_addr cmd in head ++ short_bytes (u16 (crc head)).

Lemma length_package_of crc buf sn d s cmd : length (package_of crc buf sn d s cmd) = (10 + length buf)%nat.
Proof. unfold package_of, package_head, short_bytes. rewrite !length_app. cbn. lia. Qed.

(** [package_make] writes the package over the array and counts on. *)
Lemma package_spec crc buf g_sn data d s cmd : is_byte g_sn -> (10 + length buf <= length data)%nat ->
  package crc buf g_sn data d s cmd =
  Some (10 + Z.of_nat (length buf), over (package_of crc buf g_sn d s cmd) data, u8 (g_sn + 1)).
Proof.
  intros Hg Hl. unfold package, get_sn. rewrite (proj2 (Z.ltb_ge 255 g_sn)) by (unfold is_u in Hg; lia).
  change data with (over [] data) at 1.
  repeat (rewrite over_put by (cbn; lia); cbn [mbind option_bind app]).
  rewrite over_copy by (cbn; lia). cbn [mbind option_bind app].
  rewrite over_copy by (cbn; lia). cbn [mbind option_bind].
  match goal with |- context [over ?p data] => change p with (package_head buf g_sn d s cmd) end.
  assert (length (package_head buf g_sn d s cmd) = (8 + length buf)%nat) as Hh by done.
  assert (0 + 1 + 1 + 1 + 1 + 1 + 1 + 2 + Z.of_nat (length buf) = Z.of_nat (length (package_head buf g_sn d s cmd)))
    as -> by lia.
  unfold fill at 2. rewrite Nat2Z.id, take_app_length, over_copy by (cbn [short_bytes length]; lia).
  cbn [mbind option_bind]. fold (package_of crc buf g_sn d s cmd). do 3 f_equal. lia.
Qed.

(** ** The sender *)

Section Sending.
Context `{LibGeneral} (crc : list Z -> Z) (Hw : writes_all).

(** The adapter reads no more of the array than the message. *)
Lemma meta_copy_over msg data off n : 0 <= off -> off + n <= Z.of_nat (length msg) ->
  meta_copy (over msg data) off n = meta_copy msg off n.
Proof.
  intros Ho Hn. unfold meta_copy, fill. rewrite length_app.
  destruct (Z.leb_spec 0 n); [|done]. destruct (n <=? 8); [|done]. cbn [andb].
  rewrite (proj2 (Z.leb_le (off + n) (Z.of_nat (length msg)))) by lia.
  rewrite (proj2 (Z.leb_le (off + n) _)) by lia. do 2 f_equal.
  rewrite drop_app_le by lia. rewrite take_app_le by (rewrite length_drop; lia). done.
Qed.

Lemma put_loop_over msg data dest prio rnd n k : 2 <= n ->
  8 * (n - 1) < Z.of_nat (length msg) <= 8 * n -> forall (ct : ctos) i, 0 <= i -> i + Z.of_nat k = n ->
  put_loop k ct dest prio rnd (over msg data) (Z.of_nat (length msg)) n i (8 * Z.min i (n - 1)) =
  put_loop k ct dest prio rnd msg (Z.of_nat (length msg)) n i (8 * Z.min i (n - 1)).
Proof.
  intros Hn Hl. induction k as [|k IH]; intros ct i Hi Hk; [done|]. cbn [put_loop].
  destruct (Z.eqb_spec i 0); [|destruct (Z.eqb_spec i (n - 1))]; (rewrite meta_copy_over by lia);
    match goal with |- context [meta_copy ?b ?o ?c] => destruct (meta_copy b o c) as [d|]; [|done] end;
    cbn [mbind option_bind]; destruct (lib_writen _ _) as [ret s]; (destruct (ret =? 16); [|done]).
  - replace (8 * Z.min i (n - 1) + 8) with (8 * Z.min (i + 1) (n - 1)) by lia. apply IH; lia.
  - replace (8 * Z.min i (n - 1)) with (8 * Z.min (i + 1) (n - 1)) by lia. apply IH; lia.
  - replace (8 * Z.min i (n - 1) + 8) with (8 * Z.min (i + 1) (n - 1)) by lia. apply IH; lia.
Qed.

(** The number of the frames and the adapter after a message. *)
Definition next_sn (ct : ctos) : Z := fst (frame_sn_get ct).
Definition sent (ct : ctos) (dest : Z) (msg : list Z) : list (list Z) :=
  let n := frame_count (Z.of_nat (length msg)) in
  message_frames dest CAN_PRIORITY_LOW msg n ct (next_sn ct) 0 (Z.to_nat n).
Definition after (ct : ctos) (dest : Z) (msg : list Z) : ctos :=
  set_net (set_sn ct (next_sn ct)) (send_all (sockfd ct) (sent ct dest msg)).

Lemma put_over ct dest msg data : 9 <= Z.of_nat (length msg) ->
  lib_ctos_put ct dest (over msg data) (Z.of_nat (length msg)) = Some (LIB_CTOS_EOK, after ct dest msg).
Proof using Hw.
  intros Hl. unfold lib_ctos_put, lib_ctos_put_priority. fold (frame_count (Z.of_nat (length msg))).
  pose proof (frame_count_bounds (Z.of_nat (length msg))) as Hb.
  unfold after, sent, next_sn. set (n := frame_count _) in *.
  destruct (frame_sn_get ct) as [rnd ct1] eqn:E. injection E as Ernd Ect.
  rewrite (proj2 (Z.eqb_neq n 1)) by lia. cbn [fst].
  pose proof (put_loop_over msg data dest CAN_PRIORITY_LOW rnd n (Z.to_nat n) ltac:(lia) Hb ct1 0) as H0.
  pose proof (put_loop_sends dest CAN_PRIORITY_LOW msg n (Z.to_nat n) 0 ct1 rnd Hw) as H1.
  rewrite Z.min_l, Z.mul_0_r in H0, H1 by lia. rewrite H0, H1 by lia. subst ct1. by rewrite Ernd.
Qed.

(** The packages of [n] turns, and the frames they make. *)
Definition numbered (d_addr s_addr g_sn : Z) : list Z := package_of crc counters g_sn d_addr s_addr 0x80.

Fixpoint stream (n : nat) (d_addr s_addr g_sn : Z) : list (list Z) :=
  match n with
  | O => []
  | S n => numbered d_addr s_addr g_sn :: stream n d_addr s_addr (u8 (g_sn + 1))
  end.

Fixpoint sent_all (ct : ctos) (dest : Z) (msgs : list (list Z)) : list (list (list Z)) :=
  match msgs with
  | [] => []
  | msg :: msgs => sent ct dest msg :: sent_all (after ct dest msg) dest msgs
  end.

Lemma send_all_app s xs ys : send_all s (xs ++ ys) = send_all (send_all s xs) ys.
Proof. apply fold_left_app. Qed.

Lemma sent_after ct dest msg : can_id (after ct dest msg) = can_id ct.
Proof. done. Qed.

Lemma length_numbered d s g : length (numbered d s g) = 106%nat.
Proof. by unfold numbered; rewrite length_package_of. Qed.

(** Every turn puts its package on the bus and counts no error. *)
Lemma send_turns_spec n : forall (ct : ctos) data g d s errs, is_byte g -> length data = 512%nat ->
  exists ct' g', send_turns crc n ct data g d s errs = Some (ct', g', errs) /\
    sockfd ct' = send_all (sockfd ct) (concat (sent_all ct d (stream n d s g))).
Proof using Hw.
  induction n as [|n IH]; intros ct data g d s errs Hg Hd; [by eexists _, _|].
  cbn [send_turns]. unfold ctos_package_make.
  rewrite package_spec by (done || (rewrite Hd; vm_compute; lia)). cbn [mbind option_bind].
  change (10 + Z.of_nat (length counters)) with 106. cbn [Z.ltb Z.compare].
  fold (numbered d s g).
  pose proof (put_over ct d (numbered d s g) data) as Hput. rewrite length_numbered in Hput.
  change (Z.of_nat 106) with 106 in Hput. rewrite Hput by lia. cbn [mbind option_bind].
  change (LIB_CTOS_EOK <? 0) with false. cbv iota.
  edestruct (IH (after ct d (numbered d s g))) as (ct' & g' & E & Es); [apply (is_u_u8 (g + 1))| |rewrite E].
  { unfold fill. rewrite length_app, length_drop, length_numbered, Hd. done. }
  exists ct', g'. split; [done|]. rewrite Es. cbn [stream sent_all concat]. by rewrite send_all_app.
Qed.

End Sending.

(** ** The receiver

    How the bytes of a message reach the ring buffer does not depend on what is
    in it: the same adapter with a ring buffer that records the blocks put. *)

Definition Recorder (L : LibGeneral) : LibGeneral := {|
  ring := list (list Z);
  lib_ringbuffer_putforce := fun r d => (0, r ++ [d]);
  lib_ringbuffer_getforce := fun r _ => (0, [], r);
  lib_ringbuffer_getchar := fun r => (0, [], r);
  net := @net L;
  lib_writen := @lib_writen L |}.

(** The recorder of adapter [ct], with the blocks [bs]. *)
Definition recording {L : LibGeneral} (ct : ctos) (bs : list (list Z)) : @ctos (Recorder L) :=
  @mk_ctos (Recorder L) (can_bus ct) (can_id ct) (baud_rate ct) (sn ct) (send_delay ct) (pack_ptr ct)
    (Some bs) (sockfd ct).

Section Recording.
Context {L : LibGeneral}.

Definition same_collected (a : @collected L) (b : @collected (Recorder L)) (r : option ring)
    (bs : list (list Z)) : Prop :=
  match a, b with
  | Done _ ct, Done _ ct' => ct' = recording ct bs /\ ringbuffer ct = r
  | Emit x now fin, Emit x' now' fin' => x = x' /\ now = now' /\ fin = fin'
  | _, _ => False
  end.

Definition same_option {A B} (R : A -> B -> Prop) (a : option A) (b : option B) : Prop :=
  match a, b with Some a, Some b => R a b | None, None => True | _, _ => False end.

Lemma collect_recording (ct : ctos) bs m : is_Some (ringbuffer ct) ->
  same_option (fun a b => same_collected a b (ringbuffer ct) bs)
    (collect ct m) (@collect (Recorder L) (recording ct bs) m).
Proof.
  intros [r Er]. unfold collect. cbn [recording pack_ptr ringbuffer can_id]. rewrite Er.
  destruct (pack_ptr ct) as [f|] eqn:Ep; [|by cbn; rewrite Er].
  destruct (err m =? 1); [by cbn; rewrite Er|]. destruct (_ || _); [by cbn; rewrite Er|].
  destruct (frame_buf f !! _) as [b|]; [|done]. cbn [mbind option_bind].
  destruct (_ =? CAN_FRAME_MARK_HEAD); [by destruct (head_frame m); cbn; rewrite ?Er|].
  destruct (_ =? CAN_FRAME_MARK_MIDDLE); [by destruct (middle_frame b m); cbn; rewrite ?Er|].
  destruct (_ =? CAN_FRAME_MARK_TAIL); [|done].
  unfold tail_collect. destruct (bcopy _ _ _); [|done]. cbn [mbind option_bind].
  destruct (_ || _); [by cbn; rewrite Er|]. destruct (bput _ _ _); [|done]. cbn [mbind option_bind].
  destruct (_ =? 0); [done|by cbn; rewrite Er].
Qed.

End Recording.

(** The ring buffer of lib_general: the bytes it holds and its size. *)
Class ByteRing `{LibGeneral} := { ring_bytes : ring -> list Z; ring_size : ring -> Z }.

(** What fits is appended; a reading takes the oldest bytes, as many as asked
    for or as there are, and says how many. *)
Class ByteRingLaws `{ByteRing} : Prop := {
  ring_put_law r d : Z.of_nat (length (ring_bytes r)) + Z.of_nat (length d) <= ring_size r ->
    ring_bytes (lib_ringbuffer_putforce r d).2 = ring_bytes r ++ d /\
    ring_size (lib_ringbuffer_putforce r d).2 = ring_size r;
  ring_get_law r n : 0 <= n ->
    let '(ret, d, r') := lib_ringbuffer_getforce r n in
    d = take (Z.to_nat n) (ring_bytes r) /\ ring_bytes r' = drop (Z.to_nat n) (ring_bytes r) /\
    ring_size r' = ring_size r /\
    match d with [] => ret <= 0 | _ => ret = Z.of_nat (length d) end }.

Section Reading.
Context {L : LibGeneral} {B : ByteRing} {Laws : ByteRingLaws}.

(** [ct] in step with its recorder: the blocks [bs] came into the ring buffer. *)
Definition in_step (ct : ctos) (r r' : ring) (bs : list (list Z)) : Prop :=
  ringbuffer ct = Some r' /\ ring_bytes r' = ring_bytes r ++ concat bs /\ ring_size r' = ring_size r.

Definition room (r : ring) (bs : list (list Z)) : Prop :=
  Z.of_nat (length (ring_bytes r)) + Z.of_nat (length (concat bs)) <= ring_size r.

Lemma put_recording (ct : ctos) bs m ret ctR : is_Some (ringbuffer ct) ->
  @stake_cmd_buf_put (Recorder L) (recording ct bs) m = Some (ret, ctR) ->
  exists bs2 ret' ct', ctR = recording ct' (bs ++ bs2) /\ stake_cmd_buf_put ct m = Some (ret', ct') /\
    is_Some (ringbuffer ct') /\
    forall r, ringbuffer ct = Some r -> room r bs2 -> exists r', in_step ct' r r' bs2.
Proof using Laws.
  intros Hr. rewrite !put_by_collect. pose proof (collect_recording ct bs m Hr) as Hs.
  destruct (collect ct m) as [[ret1 ct1|x now fin]|], (collect (recording ct bs) m) as [[ret2 ct2|x' now' fin']|];
    try done; cbn [mbind option_bind].
  - destruct Hs as [-> Hring]. intros [= <- <-]. exists [], ret1, ct1. rewrite app_nil_r.
    split_and!; [done..|by rewrite Hring|].
    intros r Er _. exists r. unfold in_step. cbn [concat]. by rewrite Hring, app_nil_r.
  - destruct Hs as (<- & <- & <-). cbn [recording ringbuffer mbind option_bind lib_ringbuffer_putforce Recorder].
    intros [= <- <-]. destruct Hr as [r Er]. rewrite Er. cbn [mbind option_bind].
    pose proof (ring_put_law r x) as Hp. destruct (lib_ringbuffer_putforce r x) as [ret1 r1]. cbn [snd] in Hp.
    exists [x], ret1, (set_ring (set_pack ct fin) r1). split_and!; [done..|by eexists|].
    intros ? [= <-] Hroom. exists r1. unfold room in Hroom. unfold in_step. cbn [concat] in *.
    rewrite app_nil_r in *. by destruct (Hp Hroom).
Qed.

Lemma room_app r r' bs1 bs2 : room r (bs1 ++ bs2) -> ring_bytes r' = ring_bytes r ++ concat bs1 ->
  ring_size r' = ring_size r -> room r' bs2.
Proof. unfold room. rewrite concat_app, length_app. intros ? -> ->. rewrite length_app. lia. Qed.

Lemma room_prefix r bs1 bs2 : room r (bs1 ++ bs2) -> room r bs1.
Proof. unfold room. rewrite concat_app, length_app. lia. Qed.

(** Frames that the recorder takes, the adapter takes, with the same bytes. *)
Lemma explain_recording fs : forall (ct : ctos) bs ctR, is_Some (ringbuffer ct) ->
  @explain (Recorder L) (recording ct bs) fs = Some ctR ->
  exists bs2 ct', ctR = recording ct' (bs ++ bs2) /\ explain ct fs = Some ct' /\ is_Some (ringbuffer ct') /\
    forall r, ringbuffer ct = Some r -> room r bs2 -> exists r', in_step ct' r r' bs2.
Proof using Laws.
  induction fs as [|f fs IH]; intros ct bs ctR Hr E; cbn [explain] in *.
  - injection E as <-. exists [], ct. rewrite app_nil_r. split_and!; [done..|]. intros r Er _. exists r.
    unfold in_step. cbn [concat]. by rewrite app_nil_r.
  - destruct (stake_cmd_buf_put (recording ct bs) (decode_meta f)) as [[ret ct1]|] eqn:E1; [|done].
    cbn [mbind option_bind] in E.
    apply put_recording in E1 as (bs1 & ret1 & ct2 & -> & -> & Hr2 & Hs1); [|done].
    apply IH in E as (bs2 & ct3 & -> & E3 & Hr3 & Hs2); [|done].
    exists (bs1 ++ bs2), ct3. rewrite app_assoc. split_and!; [done..|].
    intros r Er Hroom. destruct (Hs1 r Er (room_prefix _ _ _ Hroom)) as (r1 & Er1 & Hb1 & Hz1).
    destruct (Hs2 r1 Er1 (room_app _ _ _ _ Hroom Hb1 Hz1)) as (r2 & Er2 & Hb2 & Hz2).
    exists r2. unfold in_step. rewrite Hb2, Hb1, Hz2, Hz1, concat_app, app_assoc. done.
Qed.

(** One reading: [d] is taken off the front, at most 106 bytes and all there is if fewer. *)
Lemma get_spec (ct : ctos) r buf : ringbuffer ct = Some r -> length buf = 512%nat ->
  exists ret d r', lib_ctos_get ct 106 = (ret, d, set_ring ct r') /\
    bcopy buf 0 d = Some (d ++ drop (length d) buf) /\
    d = take 106 (ring_bytes r) /\ ring_bytes r' = drop 106 (ring_bytes r) /\ ring_size r' = ring_size r /\
    (0 <? ret) = (0 <? Z.of_nat (length d)) /\ (0 < ret -> ret = Z.of_nat (length d)).
Proof using Laws.
  intros Er Hbuf. unfold lib_ctos_get. rewrite Er. pose proof (ring_get_law r 106 ltac:(lia)) as Hg.
  destruct (lib_ringbuffer_getforce r 106) as [[ret d] r']. destruct Hg as (Hd & Hb & Hz & Hret).
  exists ret, d, r'. change (Z.to_nat 106) with 106%nat in *.
  assert (length d <= 106)%nat as Hdl by (rewrite Hd, length_take; lia).
  split; [done|]. split; [unfold bcopy; by rewrite bool_decide_eq_true_2 by lia|].
  split_and!; [done..| |]; destruct d as [|x d]; cbn [length] in *.
  - destruct (Z.ltb_spec 0 ret); [lia|done].
  - by subst ret.
  - lia.
  - done.
Qed.

Lemma shown_bytes (d rest : list Z) ret : ret = Z.of_nat (length d) -> take (Z.to_nat ret) (d ++ rest) = d.
Proof. intros ->. by rewrite Nat2Z.id, take_app_length. Qed.

(** The reading loop shows what comes, in order, in pieces of at most 106 bytes. *)
Lemma recv_turns_spec turns : forall (ct : ctos) bs ctR r buf shown cnt bs2,
  @explain (Recorder L) (recording ct bs) (concat turns) = Some ctR -> ringbuffer ctR = Some (bs ++ bs2) ->
  ringbuffer ct = Some r -> room r bs2 -> length buf = 512%nat ->
  exists ct' shown' cnt' r', recv_turns turns ct buf shown cnt = Some (ct', shown ++ shown', cnt') /\
    ringbuffer ct' = Some r' /\ concat shown' ++ ring_bytes r' = ring_bytes r ++ concat bs2 /\
    Forall (fun d => 1 <= Z.of_nat (length d) <= 106) shown'.
Proof using Laws.
  induction turns as [|fs turns IH]; intros ct bs ctR r buf shown cnt bs2 E Eb Er Hroom Hbuf;
    cbn [concat recv_turns] in *.
  - injection E as <-. exists ct, [], cnt, r. rewrite app_nil_r. split_and!; try done.
    cbn [recording ringbuffer] in Eb. injection Eb as Eb. rewrite <- (app_nil_r bs) in Eb at 1.
    apply app_inv_head in Eb as <-. by rewrite app_nil_r.
  - rewrite explain_app in E. destruct (explain (recording ct bs) fs) as [ct1|] eqn:E1; [|done].
    cbn [mbind option_bind] in E.
    apply explain_recording in E1 as (bs1 & ct2 & -> & -> & Hr2 & Hs); [|by rewrite Er].
    cbn [mbind option_bind].
    pose proof E as E'. apply explain_recording in E' as (bs3 & ct3 & -> & _ & _ & _); [|done].
    cbn [recording ringbuffer] in Eb. injection Eb as Eb. rewrite <- app_assoc in Eb.
    apply app_inv_head in Eb as <-.
    destruct (Hs r Er (room_prefix _ _ _ Hroom)) as (r2 & Er2 & Hb2 & Hz2).
    pose proof (room_app _ _ _ _ Hroom Hb2 Hz2) as Hroom2.
    destruct (get_spec ct2 r2 buf Er2 Hbuf) as (ret & d & r3 & -> & -> & Hd & Hb3 & Hz3 & Hpos & Hret).
    cbn [mbind option_bind]. rewrite Hpos.
    assert (room r3 bs3) as Hroom3 by (unfold room in *; rewrite Hb3, Hz3, length_drop; lia).
    assert (length d <= 106)%nat as Hdl by (rewrite Hd, length_take; lia).
    assert (length (d ++ drop (length d) buf) = 512%nat) as Hbuf' by (rewrite length_app, length_drop; lia).
    assert (d ++ ring_bytes r3 = ring_bytes r ++ concat bs1) as Hsum by (by rewrite Hb3, Hd, take_drop).
    rewrite concat_app, app_assoc, <- Hsum.
    destruct (Z.ltb_spec 0 (Z.of_nat (length d))) as [Hnon|Hnil].
    + rewrite shown_bytes by (by apply Hret, Z.ltb_lt).
      destruct (IH (set_ring ct2 r3) _ _ r3 _ (shown ++ [d]) cnt bs3 E eq_refl eq_refl Hroom3 Hbuf')
        as (ct' & shown' & cnt' & r' & E2 & Er' & Hcat & Hall).
      exists ct', (d :: shown'), cnt', r'. rewrite E2, <- app_assoc. split_and!; [done..| |].
      * cbn [concat]. by rewrite <- !app_assoc, Hcat.
      * constructor; [lia|done].
    + destruct (IH (set_ring ct2 r3) _ _ r3 _ shown (u32 (cnt + 1)) bs3 E eq_refl eq_refl Hroom3 Hbuf')
        as (ct' & shown' & cnt' & r' & E2 & Er' & Hcat & Hall).
      exists ct', shown', cnt', r'. split_and!; [done..| |done].
      destruct d; [done|]. cbn in Hnil. lia.
Qed.

End Reading.

(** ** The link *)

Section Link.
Context {L : LibGeneral} (Hw : @writes_all L).

(** A whole message at the recorder. *)
Lemma record_message (snd : @ctos L) (rcv : @ctos (Recorder L)) f bs dest msg :
  pack_ptr rcv = Some f -> ringbuffer rcv = Some bs -> length (frame_buf f) = 128%nat ->
  uwrap 7 (can_id snd) <> can_id rcv -> 9 <= Z.of_nat (length msg) <= 248 ->
  exists rcv' f', explain rcv (sent snd dest msg) = Some rcv' /\ can_id rcv' = can_id rcv /\
    pack_ptr rcv' = Some f' /\ length (frame_buf f') = 128%nat /\
    ringbuffer rcv' = Some (bs ++ [padded msg (frame_count (Z.of_nat (length msg)))]).
Proof using Type.
  intros Hp Hr Hf Hself Hl. pose proof (frame_count_bounds (Z.of_nat (length msg))) as Hb.
  pose proof (explain_message (H := Recorder L) (recording snd []) rcv f bs dest CAN_PRIORITY_LOW msg
    (frame_count (Z.of_nat (length msg))) Hp Hr Hf Hself Hb (next_sn snd) ltac:(lia)) as E.
  rewrite whole_message in E by done.
  eexists _, _. split; [exact E|]. cbn [set_ring holding set_pack set_buf can_id pack_ptr ringbuffer frame_buf].
  split_and!; [done..|by cbn [set_buf frame_buf]; rewrite length_insert|done].
Qed.

Lemma record_all msgs : forall (snd : @ctos L) (rcv : @ctos (Recorder L)) f bs dest,
  pack_ptr rcv = Some f -> ringbuffer rcv = Some bs -> length (frame_buf f) = 128%nat ->
  uwrap 7 (can_id snd) <> can_id rcv -> Forall (fun m => 9 <= Z.of_nat (length m) <= 248) msgs ->
  exists rcv', explain rcv (concat (sent_all snd dest msgs)) = Some rcv' /\
    ringbuffer rcv' = Some (bs ++ map (fun m => padded m (frame_count (Z.of_nat (length m)))) msgs).
Proof using Type.
  induction msgs as [|m msgs IH]; intros snd rcv f bs dest Hp Hr Hf Hself Hall; cbn [sent_all concat map].
  - exists rcv. by rewrite app_nil_r.
  - apply Forall_cons in Hall as [Hm Hall].
    destruct (record_message snd rcv f bs dest m Hp Hr Hf Hself Hm) as (rcv1 & f1 & E1 & Hid & Hp1 & Hf1 & Hr1).
    destruct (IH (after snd dest m) rcv1 f1 _ dest Hp1 Hr1 Hf1) as (rcv2 & E2 & Hr2); [by rewrite Hid|done|].
    exists rcv2. rewrite explain_app, E1. cbn [mbind option_bind]. rewrite E2. split; [done|].
    by rewrite Hr2, <- app_assoc.
Qed.
End Link.

(** ** The two programs *)

(** Every call of [lib_ctos_create] succeeds. *)
Definition works (e : answers) : Prop :=
  a_malloc e = true /\ 0 <= a_fd e /\ a_ioctl e = true /\ a_bind e = true /\ a_loopback e = true /\
  a_own_msgs e = true /\ a_filter e = true /\ a_queue e = true /\ a_pack e = true /\ a_mutex e = true /\
  a_ring e = true /\ a_recv_thread e = true /\ a_explain_thread e = true.

Section Pair.
Context {L : LibGeneral} {B : ByteRing} {Laws : ByteRingLaws} (crc : list Z -> Z).

Lemma start_works (w : system) id : works (sys_answers w) -> exists ct live,
  start w 0 id BAUD_RATE_500kbps = Created ct live /\ can_id ct = id /\
  pack_ptr ct = Some (sys_frame w) /\ ringbuffer ct = Some (sys_ring w) /\ sockfd ct = sys_net w.
Proof.
  unfold works, start, lib_ctos_create, can_socket_init. destruct (sys_answers w). cbn.
  intros (-> & Hfd & -> & -> & -> & -> & -> & -> & -> & -> & -> & -> & ->).
  rewrite (proj2 (Z.ltb_ge a_fd 0)) by done. cbn. by eexists _, _.
Qed.

(** The two branches of [main]. *)
Lemma main_c (w : system) src dst sec n turns :
  main crc w [lit "./ctos"; lit "c"; src; dst; sec] n turns =
  match start w 0 (u8 (atoi_value src)) BAUD_RATE_500kbps with
  | Crash => None
  | Null live => Some (ERR w None [] 0 0 live)
  | Created ct live =>
      '(ct, _, errs) ← send_turns crc n ct (replicate 512 0) 0 (u8 (atoi_value dst)) (u8 (atoi_value src)) 0;
      Some (ERR w (Some ct) [] 0 errs live)
  end.
Proof. reflexivity. Qed.

Lemma main_s (w : system) me s3 s4 n turns :
  main crc w [lit "./ctos"; lit "s"; me; s3; s4] n turns =
  match start w 0 (u8 (atoi_value me)) BAUD_RATE_500kbps with
  | Crash => None
  | Null live => Some (ERR w None [] 0 0 live)
  | Created ct live =>
      '(ct, shown, cnt) ← recv_turns turns ct (replicate 512 0) [] 0;
      Some (ERR w (Some ct) shown cnt 0 live)
  end.
Proof. reflexivity. Qed.

(** The bytes of the link: every package and the six zeros that fill its last frame. *)
Definition link_bytes (n : nat) (d_addr s_addr : Z) : list Z :=
  concat (map (fun p => p ++ replicate 6 0) (stream crc n d_addr s_addr 0)).

Lemma stream_lengths n d s : forall g, Forall (fun m => length m = 106%nat) (stream crc n d s g).
Proof. induction n as [|n IH]; intros g; cbn [stream]; constructor; [apply length_numbered|apply IH]. Qed.

Lemma padded_package m : length m = 106%nat -> padded m (frame_count (Z.of_nat (length m))) = m ++ replicate 6 0.
Proof. intros Hm. unfold padded. by rewrite Hm. Qed.

Lemma map_padded msgs : Forall (fun m => length m = 106%nat) msgs ->
  map (fun m => padded m (frame_count (Z.of_nat (length m)))) msgs = map (fun p => p ++ replicate 6 0) msgs.
Proof. induction 1 as [|m msgs Hm _ IH]; [done|]. cbn [map]. by rewrite IH, padded_package. Qed.

Lemma length_link_bytes n d s g : Z.of_nat (length (concat (map (fun p => p ++ replicate 6 0) (stream crc n d s g)))) =
  112 * Z.of_nat n.
Proof.
  revert g. induction n as [|n IH]; intros g; [done|]. cbn [stream map concat]. rewrite length_app, Nat2Z.inj_add, IH.
  rewrite length_app, length_numbered. cbn [length replicate]. lia.
Qed.

End Pair.

(** ** A reader that falls behind

    When all packages are there before the first reading, the readings cut the
    stream every 106 bytes, while a package and its zeros take 112: the second
    piece begins with the zeros of the first package. *)

Section Behind.
Context {L : LibGeneral} {B : ByteRing} {Laws : ByteRingLaws}.

Fixpoint pieces_of (k : nat) (l : list Z) : list (list Z) :=
  match k with
  | O => []
  | S k => match l with [] => [] | _ => take 106 l :: pieces_of k (drop 106 l) end
  end.

Lemma readings k : forall (ct : ctos) r buf shown cnt, ringbuffer ct = Some r -> length buf = 512%nat ->
  exists ct' cnt', recv_turns (replicate k []) ct buf shown cnt =
    Some (ct', shown ++ pieces_of k (ring_bytes r), cnt').
Proof using Laws.
  induction k as [|k IH]; intros ct r buf shown cnt Er Hbuf; cbn [replicate recv_turns explain pieces_of].
  - exists ct, cnt. by rewrite app_nil_r.
  - cbn [mbind option_bind].
    destruct (get_spec ct r buf Er Hbuf) as (ret & d & r' & -> & -> & Hd & Hb & _ & Hpos & Hret).
    cbn [mbind option_bind]. rewrite Hpos.
    assert (length d <= 106)%nat as Hdl by (rewrite Hd, length_take; lia).
    assert (length (d ++ drop (length d) buf) = 512%nat) as Hbuf' by (rewrite length_app, length_drop; lia).
    destruct (ring_bytes r) as [|x l] eqn:El.
    + rewrite Hd, drop_nil in *. cbn [Z.ltb Z.compare length Z.of_nat] in *.
      destruct (IH (set_ring ct r') r' _ shown (u32 (cnt + 1)) eq_refl Hbuf') as (ct' & cnt' & E).
      exists ct', cnt'. rewrite E, Hb. by destruct k.
    + assert (0 < Z.of_nat (length d)) as Hnon by (rewrite Hd; cbn [take length]; lia).
      rewrite (proj2 (Z.ltb_lt 0 _)) in * by done. rewrite shown_bytes by (by apply Hret, Z.ltb_lt).
      destruct (IH (set_ring ct r') r' _ (shown ++ [d]) cnt eq_refl Hbuf') as (ct' & cnt' & E).
      exists ct', cnt'. rewrite E, Hb, <- app_assoc, Hd. done.
Qed.

(** The second piece of two packages or more: six zeros and 100 bytes of the second package. *)
Lemma behind_second crc n d s : (2 <= n)%nat ->
  pieces_of 2 (link_bytes crc n d s) =
  [numbered crc d s 0; replicate 6 0 ++ take 100 (numbered crc d s 1)].
Proof.
  intros Hn. do 2 (destruct n as [|n]; [lia|]). unfold link_bytes. cbn [stream map concat].
  change (u8 (0 + 1)) with 1. pose proof (length_numbered crc d s 0) as H0. pose proof (length_numbered crc d s 1) as H1.
  set (p := numbered crc d s 0) in *. set (q := numbered crc d s 1) in *. clearbody p q. rewrite <- !app_assoc.
  assert (forall k r, pieces_of (S k) (p ++ r) = p :: pieces_of k r) as ->.
  { intros k r. cbn [pieces_of]. destruct (p ++ r) eqn:E; [by destruct p|].
    by rewrite <- E, take_app_length', drop_app_length' by done. }
  f_equal. cbn [pieces_of replicate app take]. by rewrite take_app_le by lia.
Qed.

End Behind.

(** The adapter that cannot be created: [main] destroys it all the same, and the
    assertion of [lib_ctos_destroy] stops the program. *)
Lemma main_create_failed `{LibGeneral} crc (w : system) (mode me s3 s4 : list Z) n turns live :
  mode = lit "s" \/ mode = lit "c" ->
  start w 0 (u8 (atoi_value me)) BAUD_RATE_500kbps = Null live ->
  main crc w [lit "./ctos"; mode; me; s3; s4] n turns = Some Aborted.
Proof. by intros [->| ->] E; rewrite ?main_s, ?main_c, E. Qed.

(** [if(g_sn > 255)] is never true; the numbers wrap around by themselves. *)
Lemma get_sn_wraps g : is_byte g -> get_sn g = (g, (g + 1) mod 256).
Proof. intros [? ?]. unfold get_sn. by rewrite (proj2 (Z.ltb_ge 255 g)) by lia. Qed.

(** The CAN test shows its buffer as a string from the ninth byte on: when the
    ring buffer gives 512 bytes without a zero behind the eighth, it reads on
    behind the array. *)
Lemma can_turn_unterminated `{LibGeneral} crc (ct ct1 ct2 ct3 : ctos) data buf g fs ret d :
  is_byte g -> length data = 512%nat -> length buf = 512%nat ->
  lib_ctos_put ct 0x7f (over (package_of crc request_data g 0x7f 0 0x82) data) 18 = Some (ret, ct1) ->
  explain ct1 fs = Some ct2 -> lib_ctos_get ct2 512 = (512, d, ct3) -> length d = 512%nat ->
  0 ∉ drop 8 d -> can_turn crc ct data buf g fs = None.
Proof.
  intros Hg Hdata Hbuf Hput Hex Hget Hd Hz. unfold can_turn, can_package_make.
  rewrite package_spec by (done || (rewrite Hdata; cbn; lia)). cbn [mbind option_bind].
  change (10 + Z.of_nat (length request_data)) with 18. cbn [Z.ltb Z.compare]. rewrite Hput.
  cbn [mbind option_bind]. rewrite Hex. cbn [mbind option_bind]. rewrite Hget.
  unfold bcopy. rewrite bool_decide_eq_true_2 by lia. cbn [mbind option_bind].
  change (Z.to_nat 0) with 0%nat. cbn [take app Nat.add Z.ltb Z.compare].
  rewrite take_0, (drop_ge buf), app_nil_r by lia. cbn [app].
  destruct (cstr (drop 8 d)) as [t|] eqn:Et; [|done]. apply cstr_inv in Et as (r & Et & _).
  exfalso. apply Hz. rewrite Et. apply elem_of_app. right. by apply elem_of_cons; left.
Qed.

(** ** A run of the pair *)

(** A ring buffer of 10240 bytes that refuses what does not fit. *)
Definition Wire : LibGeneral := {|
  ring := list Z;
  lib_ringbuffer_putforce := fun r d =>
    if Z.of_nat (length r) + Z.of_nat (length d) <=? 10240 then (Z.of_nat (length d), r ++ d) else (-3, r);
  lib_ringbuffer_getforce := fun r n =>
    match r with [] => (-4, [], []) | _ => (Z.of_nat (length (take (Z.to_nat n) r)), take (Z.to_nat n) r, drop (Z.to_nat n) r) end;
  lib_ringbuffer_getchar := fun r => match r with c :: r => (1, [c], r) | [] => (0, [], []) end;
  net := list (list Z);
  lib_writen := fun s d => (Z.of_nat (length d), s ++ [d]) |}.

Definition WireRing : @ByteRing Wire := {| ring_bytes := fun r : @ring Wire => r; ring_size := fun _ => 10240 |}.

Lemma WireRing_laws : @ByteRingLaws Wire WireRing.
Proof.
  split; cbn.
  - intros r d Hl. by rewrite (proj2 (Z.leb_le _ _)) by done.
  - intros [|x r] n Hn; [by rewrite take_nil, drop_nil|]. split_and!; [done..|].
    by destruct (take (Z.to_nat n) (x :: r)).
Qed.

Definition all_well : answers := mk_answers true 5 true true true true true true true true true true true true.
Definition station_with (f : stake_frame) : @system Wire := @mk_system Wire all_well f [] [].

(** The sender 3 for two turns, and the reader 9. *)
Definition sample_turns (crc : list Z -> Z) : list (list (list Z)) :=
  match main crc (station_with empty_frame) [lit "./ctos"; lit "c"; lit "3"; lit "9"; lit "100"] 2 [] with
  | Some (Quit (Some ct) _ _ _ _) => [take 5 (sockfd ct); drop 5 (sockfd ct); []; []]
  | _ => []
  end.

Lemma send_all_wire (fs : list (list Z)) : forall s, @send_all Wire s fs = s ++ fs.
Proof.
  induction fs as [|f fs IH]; intros s; [by rewrite app_nil_r|].
  change (@send_all Wire (s ++ [f]) fs = s ++ f :: fs). by rewrite IH, <- app_assoc.
Qed.

(** Two packages in time for three readings: a package, six zeros with 100 bytes of the
    next, and the rest. *)
Example sample_shown :
  (fun e => match e with Quit _ shown cnt errs _ => (map (@length Z) shown, cnt, errs) | Aborted => ([], 0, 0) end) <$>
  main (H := Wire) (fun _ => 0x1234) (station_with empty_frame) [lit "./ctos"; lit "s"; lit "9"; lit "3"; lit "0"] 0
    (sample_turns (fun _ => 0x1234)) = Some ([106; 106; 12]%nat, 1, 0).
Proof. vm_compute. reflexivity. Qed.

