(* ===== verification/Ftp.v ===== *)
(** * Descriptors of the file transfer programs (src/others/ftp)

    What [server.c] and [client.c] use of the system: a connected socket, one
    file opened for reading or writing, the files of the machine.  A socket or
    file delivers its bytes in pieces that the system chooses ([rcuts], one
    entry for a call of [read]; the empty list means as much as asked for) and
    can fail; [write] may take fewer bytes than it is given, or fail ([wcuts]).
    [incoming] is all that arrives until the other side closes.

    The programs are functions on the state of their machine that return,
    exit or leave an array ([Fault]). *)

From stdpp Require Import gmap.
From S2P Require Import Prelude CStr.

(** ** Streams *)

Record stream := mk_stream {
  incoming : list Z; rcuts : list (option nat);
  outgoing : list Z; wcuts : list (option nat);
  closed : bool }.

(** [read(fd, buf, n)]: the result and the bytes; at least one byte if there is one. *)
Definition read (n : nat) (s : stream) : Z * list Z * stream :=
  let go k cs :=
    let d := take k (incoming s) in
    (Z.of_nat (length d), d, mk_stream (drop k (incoming s)) cs (outgoing s) (wcuts s) (closed s)) in
  match rcuts s with
  | None :: cs => (-1, [], mk_stream (incoming s) cs (outgoing s) (wcuts s) (closed s))
  | Some k :: cs => go (Nat.min n (Nat.max 1 k)) cs
  | [] => go n []
  end.

(** [write(fd, d, length d)] *)
Definition write (d : list Z) (s : stream) : Z * stream :=
  let go k cs :=
    (Z.of_nat (length (take k d)), mk_stream (incoming s) (rcuts s) (outgoing s ++ take k d) cs (closed s)) in
  match wcuts s with
  | None :: cs => (-1, mk_stream (incoming s) (rcuts s) (outgoing s) cs (closed s))
  | Some k :: cs => go k cs
  | [] => go (length d) []
  end.

Definition close (s : stream) : stream :=
  mk_stream (incoming s) (rcuts s) (outgoing s) (wcuts s) true.

(** ** A machine *)

Record host := mk_host {
  files : gmap (list Z) (list Z);
  sock : stream;                      (* the connection *)
  disk : stream;                      (* the open file *)
  screen : list (list Z) }.           (* what was printed of the data *)

Inductive result (A : Type) :=
  | Val (a : A)
  | Exit (code : Z)
  | Fault.
Arguments Val {_} _.
Arguments Exit {_} _.
Arguments Fault {_}.

Definition M (A : Type) : Type := host -> result A * host.
#[export] Instance M_ret : MRet M := fun A a h => (Val a, h).
#[export] Instance M_bind : MBind M := fun A B f m h =>
  match m h with
  | (Val a, h) => f a h
  | (Exit c, h) => (Exit c, h)
  | (Fault, h) => (Fault, h)
  end.

Definition exit {A} (code : Z) : M A := fun h => (Exit code, h).

(** A value read from memory. *)
Definition mem {A} (o : option A) : M A := fun h => (match o with Some a => Val a | None => Fault end, h).

Definition set_sock (h : host) (s : stream) : host := mk_host (files h) s (disk h) (screen h).
Definition set_disk (h : host) (s : stream) : host := mk_host (files h) (sock h) s (screen h).

Definition read_sock (n : nat) : M (Z * list Z) := fun h =>
  let '(ret, d, s) := read n (sock h) in (Val (ret, d), set_sock h s).
Definition write_sock (d : list Z) : M Z := fun h =>
  let '(ret, s) := write d (sock h) in (Val ret, set_sock h s).
Definition close_sock : M unit := fun h => (Val tt, set_sock h (close (sock h))).

Definition print (s : list Z) : M unit := fun h =>
  (Val tt, mk_host (files h) (sock h) (disk h) (screen h ++ [s])).

Section Files.
(** The files that cannot be opened for writing, and those that cannot be opened
    for reading although they exist. *)
Context (denied : list Z -> bool).

(** [open(name, O_RDONLY)]: the content becomes what the descriptor delivers. *)
Definition open_read (name : list Z) : M Z := fun h =>
  match files h !! name with
  | Some c =>
      if denied name then (Val (-1), h)
      else (Val 3, set_disk h (mk_stream c (rcuts (disk h)) [] (wcuts (disk h)) false))
  | None => (Val (-1), h)
  end.

(** [open(name, O_WRONLY|O_CREAT|O_TRUNC, 0644)] *)
Definition open_write (name : list Z) : M Z := fun h =>
  if denied name then (Val (-1), h)
  else (Val 3, mk_host (<[name := []]> (files h)) (sock h)
    (mk_stream [] (rcuts (disk h)) [] (wcuts (disk h)) false) (screen h)).
End Files.

Definition read_disk (n : nat) : M (Z * list Z) := fun h =>
  let '(ret, d, s) := read n (disk h) in (Val (ret, d), set_disk h s).

(** What is written is in the file at once. *)
Definition write_disk (name d : list Z) : M Z := fun h =>
  let '(ret, s) := write d (disk h) in
  (Val ret, mk_host (<[name := outgoing s]> (files h)) (sock h) s (screen h)).

Definition close_disk : M unit := fun h => (Val tt, set_disk h (close (disk h))).

(** The most [read] calls a loop can make on the connection or the file. *)
Definition sock_fuel (h : host) : nat := S (length (incoming (sock h))).
Definition disk_fuel (h : host) : nat := S (length (incoming (disk h))).
