(* ===== verification/FtpServer.v ===== *)
(** * The file server (src/others/ftp/server.c)

    One command for a connection: [ls], [get] or [put].  The array [commd] of
    [main] is cleared once and keeps the bytes of earlier commands. *)

From stdpp Require Import gmap.
From S2P Require Import Prelude CStr Ftp.

Definition N : nat := 256.

Section Server.
(** [behind]: what the stack holds behind an array; [convert]: what [sprintf]
    makes of a name with conversions in it; [entries]: the names [readdir]
    gives, [None] if the directory cannot be opened. *)
Context (denied : list Z -> bool) (behind : list Z) (convert : list Z -> option (list Z)).
Context (entries : gmap (list Z) (list Z) -> option (list (list Z))).

(** The string that [%s] prints from an array. *)
Definition string_of (buf : list Z) : M (list Z) := mem (cstr (buf ++ behind)).

(** ** ls *)

(** [sprintf(commd, d_name, N)]: the name is the format. *)
Definition sprintf (commd name : list Z) : option (list Z) :=
  text ← (if decide (37 ∈ name) then convert name else Some name);
  if (length text <? N)%nat then Some (fill commd (text ++ [0])) else None.

Fixpoint ls_loop (names : list (list Z)) (commd : list Z) : M unit :=
  match names with
  | [] => mret tt
  | name :: names =>
      commd ← mem (sprintf commd name);
      ret ← write_sock commd;
      if ret <? 0 then exit 1 else ls_loop names commd
  end.

Definition commd_ls : M unit :=
  names ← (fun h => (Val (entries (files h)), h));
  match names with
  | None => exit 1
  | Some names => ls_loop names (zeros 256);; close_sock
  end.

(** ** get *)

Fixpoint get_loop (fuel : nat) (buffer : list Z) : M (list Z) :=
  match fuel with
  | O => fun h => (Fault, h)
  | S fuel =>
      '(nbytes, d) ← read_disk N;
      let buffer := fill buffer d in
      if 0 <? nbytes then
        ret ← write_sock (take (Z.to_nat nbytes) buffer);
        if ret <? 0 then close_disk;; exit 1 else get_loop fuel buffer
      else mret buffer
  end.

Definition commd_get (filename : list Z) : M unit :=
  let buffer := zeros 256 in
  name ← string_of filename;
  fd ← open_read denied name;
  if fd <? 0 then
    ret ← write_sock (<[0%nat := 78]> buffer);
    if ret <? 0 then exit 1 else mret tt
  else
    let buffer := <[0%nat := 89]> buffer in
    ret ← write_sock buffer;
    if ret <? 0 then close_disk;; exit 1
    else
      fuel ← (fun h => (Val (disk_fuel h), h));
      buffer ← get_loop fuel buffer;
      string_of buffer;;
      close_disk;; close_sock.

(** ** put *)

Fixpoint put_loop (fuel : nat) (name buffer : list Z) : M unit :=
  match fuel with
  | O => fun h => (Fault, h)
  | S fuel =>
      '(nbytes, d) ← read_sock N;
      let buffer := fill buffer d in
      if 0 <? nbytes then
        ret ← write_disk name (take (Z.to_nat nbytes) buffer);
        if ret <? 0 then close_disk;; exit 1
        else string_of buffer;; put_loop fuel name buffer
      else mret tt
  end.

Definition commd_put (filename : list Z) : M unit :=
  name ← string_of filename;
  fd ← open_write denied name;
  if fd <? 0 then mret tt
  else
    fuel ← (fun h => (Val (sock_fuel h), h));
    put_loop fuel name (zeros 256);;
    close_disk;; close_sock.

(** ** One connection *)

(** [strncmp(commd, s, strlen(s)) == 0] *)
Definition command_is (commd : list Z) (s : string) : bool :=
  bool_decide (take (String.length s) commd = text s).

Definition turn (commd : list Z) : M (list Z) :=
  '(ret, d) ← read_sock N;
  let commd := fill commd d in
  if ret <? 0 then exit 1
  else
    string_of commd;;
    (if command_is commd "ls" then commd_ls
     else if command_is commd "get" then commd_get (drop 4 commd)
     else if command_is commd "put" then commd_put (drop 4 commd)
     else mret tt);;
    mret commd.

(** The loop of [main] on the connections [accept] gives, [None] being its
    failure; the state after each of them. *)
Fixpoint serve (conns : list (option stream)) (commd : list Z) (h : host) : list (result (list Z) * host) :=
  match conns with
  | [] => []
  | None :: _ => [(Exit 1, h)]
  | Some c :: conns =>
      let r := turn commd (set_sock h c) in
      r :: match r.1 with Val commd => serve conns commd r.2 | _ => [] end
  end.

(** [main]: the socket can be made, bound and listened on, or -1 is returned. *)
Definition main (made bound listening : bool) (conns : list (option stream)) (h : host)
  : list (result (list Z) * host) :=
  if negb made then [] else if negb bound then [] else if negb listening then []
  else serve conns (zeros 256) h.

End Server.
