(* ===== verification/FtpClient.v ===== *)
(** * The file transfer client (src/others/ftp/client.c)

    [main] reads commands from its input and makes a connection for each of
    [ls], [get] and [put]. *)

From stdpp Require Import gmap.
From S2P Require Import Prelude CStr Ftp.

Definition N : nat := 256.

Section Client.
(** [stack]: what [buffer] holds when a function starts; [behind]: what lies
    behind an array. *)
Context (denied : list Z -> bool) (stack behind : list Z).

(** ** The commands, on a connection that was made *)

(** [printf(" %s ", commd)] *)
Definition show (commd : list Z) : M unit :=
  s ← mem (cstr (commd ++ behind)); print s.

Fixpoint ls_loop (fuel : nat) (commd : list Z) : M (list Z) :=
  match fuel with
  | O => fun h => (Fault, h)
  | S fuel =>
      '(nbytes, d) ← read_sock N;
      let commd := fill commd d in
      if 0 <? nbytes then show commd;; ls_loop fuel commd else mret commd
  end.

Definition commd_ls (commd : list Z) : M (list Z) :=
  ret ← write_sock commd;
  if ret <? 0 then exit 1
  else
    fuel ← (fun h => (Val (sock_fuel h), h));
    commd ← ls_loop fuel commd;
    close_sock;; mret commd.

(** A failed [write] to the file is reported and the loop goes on. *)
Fixpoint get_loop (fuel : nat) (name buffer : list Z) : M unit :=
  match fuel with
  | O => fun h => (Fault, h)
  | S fuel =>
      '(nbytes, d) ← read_sock N;
      let buffer := fill buffer d in
      if 0 <? nbytes then
        write_disk name (take (Z.to_nat nbytes) buffer);; get_loop fuel name buffer
      else mret tt
  end.

Definition commd_get (commd : list Z) : M unit :=
  let buffer := stack in
  ret ← write_sock commd;
  if ret <? 0 then exit 1
  else
    '(ret, d) ← read_sock N;
    let buffer := fill buffer d in
    if ret <? 0 then exit 1
    else
      c ← mem (buffer !! 0%nat);
      if c =? 78 then close_sock
      else
        name ← mem (cstr (drop 4 commd ++ behind));
        fd ← open_write denied name;
        if fd <? 0 then exit 1
        else
          fuel ← (fun h => (Val (sock_fuel h), h));
          get_loop fuel name buffer;;
          close_disk;; close_sock.

Fixpoint put_loop (fuel : nat) (buffer : list Z) : M unit :=
  match fuel with
  | O => fun h => (Fault, h)
  | S fuel =>
      '(nbytes, d) ← read_disk N;
      let buffer := fill buffer d in
      if 0 <? nbytes then
        write_sock (take (Z.to_nat nbytes) buffer);; put_loop fuel buffer
      else mret tt
  end.

Definition commd_put (commd : list Z) : M unit :=
  ret ← write_sock commd;
  if ret <? 0 then exit 1
  else
    name ← mem (cstr (drop 4 commd ++ behind));
    fd ← open_read denied name;
    if fd <? 0 then exit 1
    else
      fuel ← (fun h => (Val (disk_fuel h), h));
      put_loop fuel stack;;
      close_disk;; close_sock.

(** ** The commands typed in *)

(** [strncmp(commd, s, strlen(s)) == 0] *)
Definition command_is (commd : list Z) (s : string) : bool :=
  bool_decide (take (String.length s) commd = text s).

(** The array after [fgets] and the removal of the last character; [None]: the
    input has ended. *)
Definition prompt (input : list Z) : option (option (list Z) * list Z) :=
  '(commd, input) ← fgets (zeros 256) N input;
  Some (n ← strlen commd; bput commd (n - 1) 0, input).

(** What a typed command does: nothing on the network, the end, or a connection. *)
Inductive typed := Help | Leave | Ls | Get | Put | Unknown.

Definition command (commd : list Z) : typed :=
  if command_is commd "help" then Help
  else if command_is commd "exit" then Leave
  else if command_is commd "ls" then Ls
  else if command_is commd "get" then Get
  else if command_is commd "put" then Put
  else Unknown.

(** The loop of [main]; [conns] are the answers to [socket] and [connect], which
    fail when there are no more.  The end of the input makes [main] return -1. *)
Fixpoint main_loop (fuel : nat) (input : list Z) (conns : list (option stream)) (h : host) : result Z * host :=
  match fuel with
  | O => (Fault, h)
  | S fuel =>
      match prompt input with
      | None => (Val (-1), h)
      | Some (None, _) => (Fault, h)
      | Some (Some commd, input) =>
          let connected (run : M unit) :=
            match conns with
            | Some c :: conns =>
                match run (set_sock h c) with
                | (Val _, h) => main_loop fuel input conns h
                | (Exit code, h) => (Exit code, h)
                | (Fault, h) => (Fault, h)
                end
            | _ => (Exit 1, h)
            end in
          match command commd with
          | Help | Unknown => main_loop fuel input conns h
          | Leave => (Exit 0, h)
          | Ls => connected (commd_ls commd;; mret tt)
          | Get => connected (commd_get commd)
          | Put => connected (commd_put commd)
          end
      end
  end.

(** Every turn takes a character of the input at least. *)
Definition main (input : list Z) (conns : list (option stream)) (h : host) : result Z * host :=
  main_loop (S (length input)) input conns h.

End Client.
