(* ===== verification/FtpTransfer.v ===== *)
(** * File transfer from end to end

    The server and the client of src/others/ftp on the two ends of a connection
    that cuts the streams into any pieces.  Both sides take the first block of
    256 bytes (the command, the status) with a single [read]: when that piece is
    short, the rest of the block lands in the file. *)

From stdpp Require Import gmap.
From S2P Require Import Prelude CStr Ftp FtpServer FtpClient.

(** ** Streams without failures *)

Definition whole (cuts : list (option nat)) : Prop := Forall is_Some cuts.

(** The size of the first piece. *)
Definition first_cut (cuts : list (option nat)) : nat :=
  match cuts with Some k :: _ => Nat.min 256 (Nat.max 1 k) | _ => 256 end.

Lemma read_whole n s : (0 < n)%nat -> whole (rcuts s) -> exists d s',
  read n s = (Z.of_nat (length d), d, s') /\ incoming s = d ++ incoming s' /\
  (d = [] -> incoming s = []) /\ whole (rcuts s') /\
  outgoing s' = outgoing s /\ wcuts s' = wcuts s /\ closed s' = closed s.
Proof.
  intros Hn Hw. unfold read. destruct (rcuts s) as [|[k|] cs].
  - exists (take n (incoming s)), (mk_stream (drop n (incoming s)) [] (outgoing s) (wcuts s) (closed s)).
    split_and!; try done; cbn; [by rewrite take_drop|]. destruct n; [lia|]. by destruct (incoming s).
  - apply Forall_cons in Hw as [_ Hw]. set (m := Nat.min n (Nat.max 1 k)).
    exists (take m (incoming s)), (mk_stream (drop m (incoming s)) cs (outgoing s) (wcuts s) (closed s)).
    split_and!; try done; cbn; [by rewrite take_drop|]. destruct m eqn:Em; [lia|]. by destruct (incoming s).
  - apply Forall_cons in Hw as [[? [=]] _].
Qed.

Lemma write_whole d s : wcuts s = [] ->
  write d s = (Z.of_nat (length d), mk_stream (incoming s) (rcuts s) (outgoing s ++ d) [] (closed s)).
Proof. intros Hw. unfold write. by rewrite Hw, take_ge by lia. Qed.

Lemma take_fill (buffer d : list Z) : take (Z.to_nat (Z.of_nat (length d))) (fill buffer d) = d.
Proof. unfold fill. by rewrite Nat2Z.id, take_app_length. Qed.

(** ** Steps of a program *)

Lemma bind_val {A B} (m : M A) (f : A -> M B) h a h' : m h = (Val a, h') -> (m ≫= f) h = f a h'.
Proof. intros E. unfold mbind, M_bind. by rewrite E. Qed.

Definition sent_on (h : host) (d : list Z) : host :=
  set_sock h (mk_stream (incoming (sock h)) (rcuts (sock h)) (outgoing (sock h) ++ d) [] (closed (sock h))).

Lemma write_sock_whole d h : wcuts (sock h) = [] -> write_sock d h = (Val (Z.of_nat (length d)), sent_on h d).
Proof. intros Hw. unfold write_sock. by rewrite write_whole. Qed.

Lemma open_read_ok denied name h content : files h !! name = Some content -> denied name = false ->
  open_read denied name h = (Val 3, set_disk h (mk_stream content (rcuts (disk h)) [] (wcuts (disk h)) false)).
Proof. intros Hf Hd. unfold open_read. by rewrite Hf, Hd. Qed.

Lemma open_write_ok denied name h : denied name = false ->
  open_write denied name h = (Val 3, mk_host (<[name := []]> (files h)) (sock h)
    (mk_stream [] (rcuts (disk h)) [] (wcuts (disk h)) false) (screen h)).
Proof. intros Hd. unfold open_write. by rewrite Hd. Qed.

Lemma not_negative {A} (n : nat) (a b : A) : (if Z.of_nat n <? 0 then a else b) = b.
Proof. by rewrite (proj2 (Z.ltb_ge _ 0)) by lia. Qed.

(** The fields of a machine that a step has replaced. *)
Ltac host_simpl := cbn [sent_on files sock disk screen set_sock set_disk incoming rcuts outgoing wcuts closed close] in *.

Section Loops.
Context (behind : list Z) (Hbehind : 0 ∈ behind).

Lemma string_of_val buf h : exists s, FtpServer.string_of behind buf h = (Val s, h).
Proof using Hbehind.
  destruct (cstr_total (buf ++ behind)) as [s E]; [by apply elem_of_app; right|].
  exists s. unfold FtpServer.string_of, mem. by rewrite E.
Qed.

(** The server sends the rest of the file. *)
Lemma server_get_loop fuel : forall buffer h, whole (rcuts (disk h)) -> wcuts (sock h) = [] ->
  (length (incoming (disk h)) < fuel)%nat -> exists b h',
  FtpServer.get_loop fuel buffer h = (Val b, h') /\ files h' = files h /\
  outgoing (sock h') = outgoing (sock h) ++ incoming (disk h).
Proof using Type.
  induction fuel as [|fuel IH]; intros buffer h Hr Hw Hf; [lia|].
  destruct (read_whole FtpServer.N (disk h) ltac:(unfold FtpServer.N; lia) Hr) as (d & s' & E & Hin & Hnil & Hr' & Ho & Hwc & Hc).
  cbn [FtpServer.get_loop]. unfold mbind, M_bind, read_disk. rewrite E. cbn match. host_simpl.
  destruct (Z.ltb_spec 0 (Z.of_nat (length d))) as [Hd|Hd].
  - unfold write_sock. rewrite take_fill. host_simpl. rewrite (write_whole d) by done.
    rewrite (proj2 (Z.ltb_ge _ 0)) by lia.
    destruct (IH (fill buffer d) (mk_host (files h)
      (mk_stream (incoming (sock h)) (rcuts (sock h)) (outgoing (sock h) ++ d) [] (closed (sock h))) s' (screen h)))
      as (b & h' & E' & Hfi & Hout); [done|done| |].
    { host_simpl. rewrite Hin, length_app in Hf. lia. }
    exists b, h'. split; [exact E'|]. split; [done|]. rewrite Hout. host_simpl. by rewrite Hin, app_assoc.
  - destruct d; [|cbn in Hd; lia]. eexists _, _. split; [done|]. split; [done|].
    rewrite (Hnil eq_refl), app_nil_r. done.
Qed.

(** The client stores what comes. *)
Lemma client_get_loop fuel name : forall buffer h, whole (rcuts (sock h)) -> wcuts (disk h) = [] ->
  (length (incoming (sock h)) < fuel)%nat -> files h !! name = Some (outgoing (disk h)) -> exists h',
  FtpClient.get_loop fuel name buffer h = (Val tt, h') /\ outgoing (sock h') = outgoing (sock h) /\
  files h' = <[name := outgoing (disk h) ++ incoming (sock h)]> (files h).
Proof using Type.
  induction fuel as [|fuel IH]; intros buffer h Hr Hw Hf Hn; [lia|].
  destruct (read_whole FtpClient.N (sock h) ltac:(unfold FtpClient.N; lia) Hr) as (d & s' & E & Hin & Hnil & Hr' & Ho & Hwc & Hc).
  cbn [FtpClient.get_loop]. unfold mbind, M_bind, read_sock. rewrite E. cbn match. host_simpl.
  destruct (Z.ltb_spec 0 (Z.of_nat (length d))) as [Hd|Hd].
  - unfold write_disk. rewrite take_fill. host_simpl. rewrite (write_whole d) by done. host_simpl.
    edestruct (IH (fill buffer d)) as (h' & E' & Hout & Hfi); [| | | |exists h'; split; [exact E'|]]; host_simpl;
      [done|done| |by rewrite lookup_insert_eq|].
    { rewrite Hin, length_app in Hf. lia. }
    split; [by rewrite Hout|]. by rewrite Hfi, insert_insert_eq, Hin, app_assoc.
  - destruct d; [|cbn in Hd; lia]. eexists. split; [done|]. split; [done|]. host_simpl.
    by rewrite (Hnil eq_refl), app_nil_r, insert_id.
Qed.

(** The client sends the rest of its file. *)
Lemma client_put_loop fuel : forall buffer h, whole (rcuts (disk h)) -> wcuts (sock h) = [] ->
  (length (incoming (disk h)) < fuel)%nat -> exists h',
  FtpClient.put_loop fuel buffer h = (Val tt, h') /\ files h' = files h /\
  outgoing (sock h') = outgoing (sock h) ++ incoming (disk h).
Proof using Type.
  induction fuel as [|fuel IH]; intros buffer h Hr Hw Hf; [lia|].
  destruct (read_whole FtpClient.N (disk h) ltac:(unfold FtpClient.N; lia) Hr) as (d & s' & E & Hin & Hnil & Hr' & Ho & Hwc & Hc).
  cbn [FtpClient.put_loop]. unfold mbind, M_bind, read_disk. rewrite E. cbn match. host_simpl.
  destruct (Z.ltb_spec 0 (Z.of_nat (length d))) as [Hd|Hd].
  - unfold write_sock. rewrite take_fill. host_simpl. rewrite (write_whole d) by done.
    edestruct (IH (fill buffer d)) as (h' & E' & Hfi & Hout); [| | |exists h'; split; [exact E'|]]; host_simpl;
      [done|done| |].
    { rewrite Hin, length_app in Hf. lia. }
    split; [done|]. by rewrite Hout, Hin, app_assoc.
  - destruct d; [|cbn in Hd; lia]. eexists. split; [done|]. split; [done|].
    by rewrite (Hnil eq_refl), app_nil_r.
Qed.

(** The server stores what comes. *)
Lemma server_put_loop fuel name : forall buffer h, whole (rcuts (sock h)) -> wcuts (disk h) = [] ->
  (length (incoming (sock h)) < fuel)%nat -> files h !! name = Some (outgoing (disk h)) -> exists h',
  FtpServer.put_loop behind fuel name buffer h = (Val tt, h') /\ outgoing (sock h') = outgoing (sock h) /\
  files h' = <[name := outgoing (disk h) ++ incoming (sock h)]> (files h).
Proof using Hbehind.
  induction fuel as [|fuel IH]; intros buffer h Hr Hw Hf Hn; [lia|].
  destruct (read_whole FtpServer.N (sock h) ltac:(unfold FtpServer.N; lia) Hr) as (d & s' & E & Hin & Hnil & Hr' & Ho & Hwc & Hc).
  cbn [FtpServer.put_loop]. unfold mbind, M_bind, read_sock. rewrite E. cbn match. host_simpl.
  destruct (Z.ltb_spec 0 (Z.of_nat (length d))) as [Hd|Hd].
  - unfold write_disk. rewrite take_fill. host_simpl. rewrite (write_whole d) by done. host_simpl.
    rewrite (proj2 (Z.ltb_ge _ 0)) by lia.
    match goal with |- context [FtpServer.string_of behind ?b ?h'] => destruct (string_of_val b h') as [txt ->] end.
    edestruct (IH (fill buffer d)) as (h' & E' & Hout & Hfi); [| | | |exists h'; split; [exact E'|]]; host_simpl;
      [done|done| |by rewrite lookup_insert_eq|].
    { rewrite Hin, length_app in Hf. lia. }
    split; [by rewrite Hout|]. by rewrite Hfi, insert_insert_eq, Hin, app_assoc.
  - destruct d; [|cbn in Hd; lia]. eexists. split; [done|]. split; [done|]. host_simpl.
    by rewrite (Hnil eq_refl), app_nil_r, insert_id.
Qed.
End Loops.

(** The first piece of a stream. *)
Lemma read_first s : whole (rcuts s) ->
  let d := take (first_cut (rcuts s)) (incoming s) in
  read 256 s = (Z.of_nat (length d), d, mk_stream (drop (first_cut (rcuts s)) (incoming s)) (tail (rcuts s))
    (outgoing s) (wcuts s) (closed s)).
Proof.
  intros Hw. unfold read, first_cut. destruct (rcuts s) as [|[k|] cs]; [done..|].
  apply Forall_cons in Hw as [[? [=]] _].
Qed.

Lemma whole_tail cuts : whole cuts -> whole (tail cuts).
Proof. intros []; [constructor|done]. Qed.

Lemma first_cut_range cuts : (1 <= first_cut cuts <= 256)%nat.
Proof. unfold first_cut. repeat case_match; lia. Qed.

(** ** The commands *)

(** The array a client sends for the command [cmd] and file [name]. *)
Definition request (cmd : string) (name : list Z) : list Z := fill (zeros 256) (text cmd ++ name).

Definition status : list Z := 89 :: replicate 255 0.

Section Transfer.
Context (denied : list Z -> bool) (stack behind : list Z) (convert : list Z -> option (list Z)).
Context (entries : gmap (list Z) (list Z) -> option (list (list Z))).
Context (Hbehind : 0 ∈ behind).
Context (name : list Z) (Hname : nonzero name) (Hlen : (length name <= 250)%nat) (Hopen : denied name = false).

(** The server's answer to [get]. *)
Lemma server_get h filename content : cstr (filename ++ behind) = Some name -> files h !! name = Some content ->
  whole (rcuts (disk h)) -> wcuts (sock h) = [] -> exists h',
  FtpServer.commd_get denied behind filename h = (Val tt, h') /\ files h' = files h /\
  outgoing (sock h') = outgoing (sock h) ++ status ++ content /\ closed (sock h') = true.
Proof using Hbehind Hopen.
  intros Hc Hf Hr Hw. unfold FtpServer.commd_get.
  rewrite (bind_val _ _ _ name h) by (unfold FtpServer.string_of, mem; by rewrite Hc).
  rewrite (bind_val _ _ _ _ _ (open_read_ok denied name h content Hf Hopen)). cbn [Z.ltb Z.compare].
  erewrite bind_val by (apply write_sock_whole; done). rewrite not_negative.
  erewrite bind_val by reflexivity.
  edestruct server_get_loop as (b & h' & E & Hfi & Hout); [..|rewrite (bind_val _ _ _ _ _ E)]; [done|done|exact (Nat.lt_succ_diag_r _)|].
  destruct (string_of_val behind Hbehind b h') as [txt Es]. rewrite (bind_val _ _ _ _ _ Es).
  eexists. split; [reflexivity|]. split; [done|]. split; [|done].
  host_simpl. rewrite Hout, <- app_assoc. done.
Qed.

(** The server takes an upload. *)
Lemma server_put h filename : cstr (filename ++ behind) = Some name ->
  whole (rcuts (sock h)) -> wcuts (disk h) = [] -> exists h',
  FtpServer.commd_put denied behind filename h = (Val tt, h') /\
  files h' = <[name := incoming (sock h)]> (files h) /\ closed (sock h') = true.
Proof using Hbehind Hopen.
  intros Hc Hr Hw. unfold FtpServer.commd_put.
  rewrite (bind_val _ _ _ name h) by (unfold FtpServer.string_of, mem; by rewrite Hc).
  rewrite (bind_val _ _ _ _ _ (open_write_ok denied name h Hopen)). cbn [Z.ltb Z.compare].
  erewrite bind_val by reflexivity.
  edestruct (server_put_loop behind Hbehind) as (h' & E & _ & Hfi); [..|rewrite (bind_val _ _ _ _ _ E)];
    [done|done|exact (Nat.lt_succ_diag_r _)|by host_simpl; rewrite lookup_insert_eq|].
  eexists. split; [reflexivity|]. split; [|done]. host_simpl. by rewrite Hfi, insert_insert_eq.
Qed.

(** The client uploads. *)
Lemma client_put h commd content : cstr (drop 4 commd ++ behind) = Some name -> files h !! name = Some content ->
  whole (rcuts (disk h)) -> wcuts (sock h) = [] -> exists h',
  FtpClient.commd_put denied stack behind commd h = (Val tt, h') /\ files h' = files h /\
  outgoing (sock h') = outgoing (sock h) ++ commd ++ content /\ closed (sock h') = true.
Proof using Hopen.
  intros Hc Hf Hr Hw. unfold FtpClient.commd_put.
  rewrite (bind_val _ _ _ _ _ (write_sock_whole commd h Hw)), not_negative.
  rewrite (bind_val _ _ _ name (sent_on h commd)) by (unfold mem; by rewrite Hc).
  rewrite (bind_val _ _ _ _ _ (open_read_ok denied name (sent_on h commd) content Hf Hopen)). cbn [Z.ltb Z.compare].
  erewrite bind_val by reflexivity.
  edestruct client_put_loop as (h' & E & Hfi & Hout); [..|rewrite (bind_val _ _ _ _ _ E)];
    [done|done|exact (Nat.lt_succ_diag_r _)|].
  eexists. split; [reflexivity|]. split; [done|]. split; [|done]. host_simpl. by rewrite Hout, app_assoc.
Qed.

(** The client downloads: what follows the first piece of the answer is the file. *)
Lemma client_get h commd content : cstr (drop 4 commd ++ behind) = Some name ->
  incoming (sock h) = status ++ content -> whole (rcuts (sock h)) -> wcuts (sock h) = [] -> wcuts (disk h) = [] ->
  exists h', FtpClient.commd_get denied stack behind commd h = (Val tt, h') /\
  files h' = <[name := replicate (256 - first_cut (rcuts (sock h))) 0 ++ content]> (files h) /\
  outgoing (sock h') = outgoing (sock h) ++ commd /\ closed (sock h') = true.
Proof using Hopen.
  clear Hlen.
  intros Hc Hin Hr Hws Hwd. unfold FtpClient.commd_get.
  rewrite (bind_val _ _ _ _ _ (write_sock_whole commd h Hws)), not_negative.
  pose proof (first_cut_range (rcuts (sock h))) as Hk.
  set (k := first_cut (rcuts (sock h))) in *.
  erewrite bind_val by (unfold read_sock, FtpClient.N; rewrite read_first by done; reflexivity).
  host_simpl. fold k. rewrite not_negative.
  assert (fill stack (take k (incoming (sock h))) !! 0%nat = Some 89) as H0.
  { unfold fill. rewrite Hin. destruct k as [|k]; [lia|]. done. }
  rewrite (bind_val _ _ _ 89 _) by (unfold mem; by rewrite H0). cbn [Z.eqb Pos.eqb].
  erewrite bind_val by (unfold mem; by rewrite Hc).
  erewrite bind_val by (by apply open_write_ok). cbn [Z.ltb Z.compare]. erewrite bind_val by reflexivity.
  edestruct client_get_loop as (h' & E & Hout & Hfi); [..|rewrite (bind_val _ _ _ _ _ E)];
    [by apply whole_tail|done|exact (Nat.lt_succ_diag_r _)|by host_simpl; rewrite lookup_insert_eq|].
  eexists. split; [reflexivity|]. host_simpl. rewrite Hfi, insert_insert_eq, Hin. cbn [app].
  split; [|done]. f_equal. rewrite drop_app_le by (change (length status) with 256%nat; lia). f_equal.
  unfold status. destruct k as [|k]; [lia|]. cbn [drop]. by rewrite drop_replicate.
Qed.

(** The array of the server once the first piece has come with the whole name. *)
Lemma request_piece cmd old rest k : length (text cmd) = 4%nat -> (5 + length name <= k <= 256)%nat ->
  exists r, fill old (take k (request cmd name ++ rest)) = text cmd ++ name ++ 0 :: r.
Proof using Hlen.
  intros H4 Hk. unfold request, fill at 2.
  assert (drop (length (text cmd ++ name)) (zeros 256) = 0 :: replicate (251 - length name) 0) as ->.
  { unfold zeros. rewrite drop_replicate, length_app, H4.
    by replace (Z.to_nat 256 - (4 + length name))%nat with (S (251 - length name)) by lia. }
  unfold fill. rewrite <- !app_assoc.
  rewrite (take_app_ge (text cmd)), (take_app_ge name) by lia.
  destruct (k - length (text cmd) - length name)%nat as [|m] eqn:Em; [lia|]. cbn [app take].
  rewrite <- !app_assoc. by eexists.
Qed.

(** The first piece of a request of 256 bytes leaves the rest of its zeros. *)
Lemma request_rest cmd rest k : length (text cmd) = 4%nat -> (5 + length name <= k <= 256)%nat ->
  drop k (request cmd name ++ rest) = replicate (256 - k) 0 ++ rest.
Proof using Hlen.
  intros H4 Hk. unfold request, fill, zeros. rewrite drop_replicate.
  rewrite drop_app_le by (rewrite !length_app, length_replicate, H4; lia). f_equal.
  rewrite drop_app_ge by (rewrite length_app, H4; lia). rewrite drop_replicate. f_equal.
  rewrite length_app, H4. lia.
Qed.

Lemma cstr_name cmd r : length (text cmd) = 4%nat -> cstr (drop 4 (text cmd ++ name ++ 0 :: r) ++ behind) = Some name.
Proof using Hname.
  intros H4. rewrite <- H4, drop_app_length, <- app_assoc. by apply cstr_text.
Qed.

Lemma cstr_request cmd : length (text cmd) = 4%nat -> cstr (drop 4 (request cmd name) ++ behind) = Some name.
Proof using Hname Hlen.
  intros H4. destruct (request_piece cmd [] [] 256 H4) as [r E]; [lia|].
  rewrite app_nil_r, take_ge in E.
  - unfold fill in E. rewrite drop_nil, app_nil_r in E. rewrite E. by apply cstr_name.
  - unfold request, fill, zeros. rewrite length_app, length_drop, length_replicate, length_app, H4. lia.
Qed.

(** The start of a connection: the first piece is read, the command is chosen. *)
Definition rest_of (h : host) : host :=
  let s := sock h in
  set_sock h (mk_stream (drop (first_cut (rcuts s)) (incoming s)) (tail (rcuts s)) (outgoing s) (wcuts s) (closed s)).

Lemma server_turn_starts h old cmd rest : length (text cmd) = 4%nat ->
  incoming (sock h) = request cmd name ++ rest ->
  (5 + length name <= first_cut (rcuts (sock h)))%nat -> whole (rcuts (sock h)) ->
  exists r, let commd := text cmd ++ name ++ 0 :: r in
  FtpServer.turn denied behind convert entries old h =
  ((if FtpServer.command_is commd "ls" then FtpServer.commd_ls convert entries
    else if FtpServer.command_is commd "get" then FtpServer.commd_get denied behind (drop 4 commd)
    else if FtpServer.command_is commd "put" then FtpServer.commd_put denied behind (drop 4 commd)
    else mret tt) ≫= (fun _ => mret commd)) (rest_of h).
Proof using Hbehind Hlen.
  intros H4 Hin Hk Hrs. pose proof (first_cut_range (rcuts (sock h))) as Hk2. unfold FtpServer.turn.
  destruct (request_piece cmd old rest (first_cut (rcuts (sock h))) H4) as [r E]; [lia|]. exists r.
  erewrite bind_val by (unfold read_sock, FtpServer.N; rewrite read_first by done; reflexivity).
  cbn beta iota. rewrite not_negative, Hin, E.
  match goal with |- context [FtpServer.string_of behind ?b] =>
    destruct (string_of_val behind Hbehind b (rest_of h)) as [txt Es] end.
  rewrite <- Hin. fold (rest_of h). by rewrite (bind_val _ _ _ _ _ Es).
Qed.

Lemma server_turn_get h old content : incoming (sock h) = request "get " name ->
  (5 + length name <= first_cut (rcuts (sock h)))%nat -> files h !! name = Some content ->
  whole (rcuts (sock h)) -> whole (rcuts (disk h)) -> wcuts (sock h) = [] -> exists commd h',
  FtpServer.turn denied behind convert entries old h = (Val commd, h') /\ files h' = files h /\
  outgoing (sock h') = outgoing (sock h) ++ status ++ content /\ closed (sock h') = true.
Proof using Hbehind Hopen Hname Hlen.
  intros Hin Hk Hf Hrs Hrd Hw. rewrite <- (app_nil_r (request _ _)) in Hin.
  destruct (server_turn_starts h old "get " [] eq_refl Hin Hk Hrs) as (r & ->).
  change (FtpServer.command_is (text "get " ++ name ++ 0 :: r) "ls") with false.
  change (FtpServer.command_is (text "get " ++ name ++ 0 :: r) "get") with true.
  cbn match.
  destruct (server_get (rest_of h) (drop 4 (text "get " ++ name ++ 0 :: r)) content
    (cstr_name "get " r eq_refl) Hf Hrd Hw) as (h' & E & Hfi & Hout & Hcl).
  eexists _, h'. split; [by rewrite (bind_val _ _ _ _ _ E)|]. split; [exact Hfi|]. split; [exact Hout|exact Hcl].
Qed.

Lemma server_turn_put h old content : incoming (sock h) = request "put " name ++ content ->
  (5 + length name <= first_cut (rcuts (sock h)))%nat -> whole (rcuts (sock h)) -> wcuts (disk h) = [] ->
  exists commd h', FtpServer.turn denied behind convert entries old h = (Val commd, h') /\
  files h' = <[name := replicate (256 - first_cut (rcuts (sock h))) 0 ++ content]> (files h) /\
  closed (sock h') = true.
Proof using Hbehind Hopen Hname Hlen.
  intros Hin Hk Hrs Hw.
  destruct (server_turn_starts h old "put " content eq_refl Hin Hk Hrs) as (r & ->).
  change (FtpServer.command_is (text "put " ++ name ++ 0 :: r) "ls") with false.
  change (FtpServer.command_is (text "put " ++ name ++ 0 :: r) "get") with false.
  change (FtpServer.command_is (text "put " ++ name ++ 0 :: r) "put") with true.
  cbn match.
  destruct (server_put (rest_of h) (drop 4 (text "put " ++ name ++ 0 :: r)) (cstr_name "put " r eq_refl)
    (whole_tail _ Hrs) Hw) as (h' & E & Hfi & Hcl).
  eexists _, h'. split; [by rewrite (bind_val _ _ _ _ _ E)|]. split; [|exact Hcl].
  rewrite Hfi. unfold rest_of. host_simpl. rewrite Hin.
  pose proof (first_cut_range (rcuts (sock h))). by rewrite (request_rest "put ") by (done || lia).
Qed.

(** A first piece of one or two bytes, on the first connection: no command is
    recognised, nothing is stored and the socket stays open. *)
Lemma server_turn_short h content : incoming (sock h) = request "put " name ++ content ->
  (first_cut (rcuts (sock h)) < 3)%nat -> whole (rcuts (sock h)) ->
  exists commd, FtpServer.turn denied behind convert entries (zeros 256) h = (Val commd, rest_of h).
Proof using Hbehind.
  clear Hlen. intros Hin Hk Hrs. pose proof (first_cut_range (rcuts (sock h))) as Hk2. unfold FtpServer.turn.
  erewrite bind_val by (unfold read_sock, FtpServer.N; rewrite read_first by done; reflexivity).
  cbn beta iota. rewrite not_negative. fold (rest_of h).
  match goal with |- context [FtpServer.string_of behind ?b] =>
    destruct (string_of_val behind Hbehind b (rest_of h)) as [txt Es] end.
  rewrite (bind_val _ _ _ _ _ Es), Hin.
  destruct (first_cut (rcuts (sock h))) as [|[|[|k]]]; [lia|by eexists|by eexists|lia].
Qed.

(** ** From one client to the other *)

(** A new connection with the given incoming bytes and pieces. *)
Definition connection (bytes : list Z) (cuts : list (option nat)) : stream := mk_stream bytes cuts [] [] false.

(** A machine whose disk does not fail. *)
Definition sound_disk (h : host) : Prop := whole (rcuts (disk h)) /\ wcuts (disk h) = [].


End Transfer.

(** ** Other cases *)

Section Others.
Context (denied : list Z -> bool) (behind : list Z) (convert : list Z -> option (list Z)).
Context (entries : gmap (list Z) (list Z) -> option (list (list Z))).

(** A file that is not there: the server answers N and keeps the socket open. *)
Lemma server_get_missing h filename name : cstr (filename ++ behind) = Some name -> files h !! name = None ->
  wcuts (sock h) = [] ->
  FtpServer.commd_get denied behind filename h = (Val tt, sent_on h (78 :: replicate 255 0)).
Proof.
  intros Hc Hf Hw. unfold FtpServer.commd_get.
  rewrite (bind_val _ _ _ name h) by (unfold FtpServer.string_of, mem; by rewrite Hc).
  rewrite (bind_val _ _ _ (-1) h) by (unfold open_read; by rewrite Hf). cbn [Z.ltb Z.compare].
  erewrite bind_val by (by apply write_sock_whole). by rewrite not_negative.
Qed.

(** An upload that cannot be stored: nothing is read and the socket stays open. *)
Lemma server_put_denied h filename name : cstr (filename ++ behind) = Some name -> denied name = true ->
  FtpServer.commd_put denied behind filename h = (Val tt, h).
Proof.
  intros Hc Hd. unfold FtpServer.commd_put.
  rewrite (bind_val _ _ _ name h) by (unfold FtpServer.string_of, mem; by rewrite Hc).
  by rewrite (bind_val _ _ _ (-1) h) by (unfold open_write; by rewrite Hd).
Qed.

(** The names of a directory, one in a block of 256 bytes, with the remains of
    longer names behind them. *)
Fixpoint blocks (names : list (list Z)) (commd : list Z) : list (list Z) :=
  match names with
  | [] => []
  | name :: names => let commd := fill commd (name ++ [0]) in commd :: blocks names commd
  end.

Definition plain (name : list Z) : Prop := nonzero name /\ (37 ∉ name) /\ (length name < 256)%nat.

Lemma blocks_spec names : forall commd, Forall plain names -> length commd = 256%nat ->
  Forall2 (fun name b => length b = 256%nat /\ forall r, cstr (b ++ r) = Some name) names (blocks names commd).
Proof.
  induction names as [|name names IH]; intros commd Hall Hl; cbn [blocks]; constructor.
  - apply Forall_cons in Hall as [(Hn & _ & Hlen) _]. unfold fill. split.
    + rewrite length_app, length_drop, length_app. cbn. lia.
    + intros r. rewrite <- !app_assoc. by apply cstr_text.
  - apply Forall_cons in Hall as [(Hn & _ & Hlen) Hall]. apply IH; [done|].
    unfold fill. rewrite length_app, length_drop, length_app. cbn. lia.
Qed.

Lemma server_ls_loop names : forall commd h, Forall plain names -> wcuts (sock h) = [] -> exists h',
  FtpServer.ls_loop convert names commd h = (Val tt, h') /\ files h' = files h /\
  outgoing (sock h') = outgoing (sock h) ++ concat (blocks names commd).
Proof.
  induction names as [|name names IH]; intros commd h Hall Hw; cbn [FtpServer.ls_loop blocks concat].
  - exists h. by rewrite app_nil_r.
  - apply Forall_cons in Hall as [(_ & Hp & Hlen) Hall].
    rewrite (bind_val _ _ _ (fill commd (name ++ [0])) h).
    2: { unfold mem, FtpServer.sprintf. rewrite decide_False by done. cbn [mbind option_bind].
         unfold FtpServer.N. by rewrite (proj2 (Nat.ltb_lt _ _)) by done. }
    rewrite (bind_val _ _ _ _ _ (write_sock_whole _ h Hw)), not_negative.
    edestruct (IH (fill commd (name ++ [0]))) as (h' & E & Hf & Hout); [done| |exists h'; split; [exact E|]]; [done|].
    split; [done|]. rewrite Hout. host_simpl. by rewrite app_assoc.
Qed.

(** The client prints the name of every block it gets in one piece. *)
Lemma client_ls_loop names bs : Forall2 (fun name b => length b = 256%nat /\ forall r, cstr (b ++ r) = Some name) names bs ->
  forall fuel commd h, incoming (sock h) = concat bs -> rcuts (sock h) = [] -> (length bs < fuel)%nat -> length commd = 256%nat ->
  exists c h', FtpClient.ls_loop behind fuel commd h = (Val c, h') /\ screen h' = screen h ++ names.
Proof.
  induction 1 as [|name b names bs [Hb Hc] _ IH]; intros fuel commd h Hin Hr Hf Hl; (destruct fuel as [|fuel]; [lia|]);
    cbn [FtpClient.ls_loop concat] in *.
  - erewrite bind_val by (unfold read_sock, read; rewrite Hr, Hin; reflexivity). rewrite take_nil. cbn [length Z.of_nat Z.ltb Z.compare].
    eexists _, _. split; [done|]. cbn. by rewrite app_nil_r.
  - erewrite bind_val by (unfold read_sock, read; rewrite Hr, Hin; reflexivity).
    rewrite take_app_length', drop_app_length' by done. rewrite (proj2 (Z.ltb_lt 0 _)) by (rewrite Hb; lia).
    assert (fill commd b = b) as -> by (unfold fill; by rewrite drop_ge, app_nil_r by lia).
    unfold FtpClient.show. erewrite bind_val by (unfold mbind, M_bind, mem; rewrite Hc; reflexivity).
    edestruct (IH fuel b) as (c & h' & E & Hs); [| | | |exists c, h'; split; [exact E|]]; [done|done|cbn in Hf; lia|done|].
    rewrite Hs. cbn. by rewrite <- app_assoc.
Qed.

(** A listing: every name arrives, in the order of the directory. *)
Lemma ftp_listing names hs hc commd : Forall plain names -> entries (files hs) = Some names ->
  length commd = 256%nat -> exists hs' c hc',
  FtpServer.commd_ls convert entries (set_sock hs (connection [] [])) = (Val tt, hs') /\ closed (sock hs') = true /\
  FtpClient.commd_ls behind commd (set_sock hc (connection (outgoing (sock hs')) [])) = (Val c, hc') /\
  screen hc' = screen hc ++ names /\ closed (sock hc') = true.
Proof.
  intros Hall He Hl. unfold FtpServer.commd_ls, FtpClient.commd_ls.
  rewrite (bind_val _ _ _ (Some names) (set_sock hs (connection [] []))) by (cbn; by rewrite He).
  destruct (server_ls_loop names (zeros 256) (set_sock hs (connection [] [])) Hall eq_refl) as (h1 & E1 & _ & Hout).
  rewrite (bind_val _ _ _ _ _ E1).
  pose proof (blocks_spec names (zeros 256) Hall eq_refl) as Hb.
  eexists. erewrite bind_val by (by apply write_sock_whole). rewrite not_negative.
  erewrite bind_val by reflexivity.
  edestruct (client_ls_loop names _ Hb) as (c & h2 & E2 & Hs); [| | | |
    eexists c, _; split; [reflexivity|]; split; [reflexivity|]; split;
      [rewrite (bind_val _ _ _ _ _ E2); reflexivity|split; [exact Hs|done]]];
    cbn [sent_on set_sock sock connection incoming rcuts close_sock close snd outgoing] in *; [exact Hout|done| |done].
  unfold sock_fuel. cbn. rewrite Hout. cbn [app]. revert Hb. generalize (blocks names (zeros 256)). clear.
  induction 1 as [|name b names bs [Hb _] _ IH]; cbn [concat length]; [lia|]. rewrite length_app, Hb. lia.
Qed.

End Others.

(** ** The client ends with its input *)

Lemma prompt_shorter input commd rest : FtpClient.prompt input = Some (commd, rest) -> (length rest < length input)%nat.
Proof.
  unfold FtpClient.prompt, fgets. destruct input as [|c input]; [done|].
  destruct (take_line_length (FtpClient.N - 1) (c :: input)) as (_ & Hl & _).
  destruct (take_line _ _) as [l r]. intros [= _ <-]. apply Hl; [unfold FtpClient.N; lia|done].
Qed.

(** More turns than characters make no difference: [main] does not run out of them. *)
Lemma client_main_fuel denied stack behind fuel : forall input conns h, (length input < fuel)%nat ->
  FtpClient.main_loop denied stack behind fuel input conns h = FtpClient.main denied stack behind input conns h.
Proof.
  unfold FtpClient.main.
  enough (forall n m input conns h, (length input < n)%nat -> (length input < m)%nat ->
    FtpClient.main_loop denied stack behind n input conns h = FtpClient.main_loop denied stack behind m input conns h)
    as Hall by (intros; apply Hall; lia).
  clear fuel. induction n as [|n IH]; intros [|m] input conns h Hn Hm; [lia..|]. cbn [FtpClient.main_loop].
  destruct (FtpClient.prompt input) as [[[commd|] rest]|] eqn:E; [|done..].
  apply prompt_shorter in E.
  assert (forall conns h, FtpClient.main_loop denied stack behind n rest conns h =
    FtpClient.main_loop denied stack behind m rest conns h) as Hrest by (intros; apply IH; lia).
  destruct (FtpClient.command commd); try apply Hrest; try done;
    (destruct conns as [|[c|] conns]; [done| |done]);
    match goal with |- context [match ?x with (_, _) => _ end] => destruct x as [[] ?] end; try done; apply Hrest.
Qed.

(** ** A transfer: 600 bytes, the first piece of the upload 20 bytes long *)

Definition machine (fs : gmap (list Z) (list Z)) : host :=
  mk_host fs (connection [] []) (mk_stream [] [Some 200%nat] [] [] false) [].

