(* ===== verification/FtpUpload.v ===== *)
(** * Upload to an FTP server (src/others/ftp/ftp_client/ftp.c, sock.c, main.c)

    The program logs in, asks for a passive data connection, appends its data to
    a file and quits.  The state is that of the two global sockets, the reply
    buffer and the data port; the answers of the system are a record; an access
    outside an array is the result [None].  The replies are only printed: no
    reply is ever examined but the one that names the data port. *)

From stdpp Require Import gmap.
From S2P Require Import Prelude CStr Ftp.

Definition BUF_SIZE : nat := 1024.

(** What the system answers: descriptors, options, bindings, connections, closing. *)
Record answers := mk_answers {
  cmd_fd : Z; data_fd : Z;
  opt_cmd : bool; opt_data : bool; bind_data : bool; bind_cmd : bool;
  connect_cmd : bool; connect_data : Z -> bool;
  close_cmd : bool; close_data : bool }.

Record state := mk_state {
  SocketCmd : stream; SocketData : stream;
  BufferReply : list Z;
  SERVER_DATA_PORT : Z }.

Definition U (A : Type) : Type := state -> option (A * state).
#[export] Instance U_ret : MRet U := fun A a s => Some (a, s).
#[export] Instance U_bind : MBind U := fun A B f m s => '(a, s) ← m s; f a s.

Section Upload.
Context (e : answers).

Definition set_cmd (s : state) (x : stream) : state := mk_state x (SocketData s) (BufferReply s) (SERVER_DATA_PORT s).
Definition set_data (s : state) (x : stream) : state := mk_state (SocketCmd s) x (BufferReply s) (SERVER_DATA_PORT s).
Definition set_reply (s : state) (b : list Z) : state := mk_state (SocketCmd s) (SocketData s) b (SERVER_DATA_PORT s).
Definition set_port (s : state) (p : Z) : state := mk_state (SocketCmd s) (SocketData s) (BufferReply s) p.

(** ** sock.c *)

(** [socket] has failed when it returns 0, says the code. *)
Definition ClientInit : U Z := fun s =>
  let out := if cmd_fd e =? 0 then -1
    else if data_fd e =? 0 then -1
    else if negb (opt_cmd e) then -1
    else if negb (opt_data e) then -1
    else if negb (bind_data e) then -1
    else if negb (bind_cmd e) then -1
    else 0 in Some (out, s).

Definition ReceiveReply (len : nat) : U Z := fun s =>
  let '(got, d, c) := read len (SocketCmd s) in
  let s := set_reply (set_cmd s c) (fill (BufferReply s) d) in
  if got <? 0 then Some (-1, s)
  else
    _ ← cstr (BufferReply s);
    Some (got, set_reply s (zeros 1024)).

Definition CloseSocket : U Z := fun s =>
  let s := set_cmd s (close (SocketCmd s)) in
  if negb (close_cmd e) then Some (-1, s)
  else
    let s := set_data s (close (SocketData s)) in
    if negb (close_data e) then Some (-1, s) else Some (0, s).

Definition ConnectCmdSocket : U Z :=
  if negb (connect_cmd e) then CloseSocket;; mret (-1)
  else ReceiveReply BUF_SIZE;; mret 0.

(** [write(SocketCmd, cmd, strlen(cmd))] *)
Definition write_cmd (cmd : list Z) : U Z := fun s =>
  let '(ret, c) := write cmd (SocketCmd s) in Some (ret, set_cmd s c).

Definition SendCmmand (cmd : list Z) : U Z :=
  ret ← write_cmd cmd;
  if negb (ret =? Z.of_nat (length cmd)) then mret (-1)
  else ReceiveReply BUF_SIZE;; mret 0.

Definition SendData (buf : list Z) : U Z := fun s =>
  let '(ret, c) := write buf (SocketData s) in
  Some (if ret =? Z.of_nat (length buf) then 0 else -1, set_data s c).

(** ** ftp.c *)

Definition Init_FTP : U Z :=
  ret ← ClientInit;
  if ret <? 0 then mret (-1)
  else
    ret ← ConnectCmdSocket;
    if ret <? 0 then mret (-1) else mret 0.

(** [sprintf(temp, "... %s\r\n", s)] into an array of [size] bytes: the command. *)
Definition format (size : nat) (verb : string) (s : list Z) : option (list Z) :=
  let line := text verb ++ s ++ crlf in if (length line <? size)%nat then Some line else None.

Definition mem {A} (o : option A) : U A := fun s => a ← o; Some (a, s).

Definition LogIn (user password : list Z) : U Z :=
  temp ← mem (format 20 "USER " user);
  ret ← SendCmmand temp;
  if ret <? 0 then mret (-1)
  else
    temp ← mem (format 20 "PASS " password);
    ret ← SendCmmand temp;
    if ret <? 0 then mret (-1) else mret 0.

Definition LogOut : U Z :=
  ret ← SendCmmand (text "QUIT" ++ crlf);
  if ret <? 0 then CloseSocket;; mret (-1) else CloseSocket;; mret 0.

(** What follows the [n]-th comma: the loop does not stop at the end of the
    string, only outside the array. *)
Fixpoint after_commas (n : nat) (p : list Z) : option (list Z) :=
  match n, p with
  | O, _ => Some p
  | S m, c :: p => if c =? comma then after_commas m p else after_commas n p
  | S _, [] => None
  end.

Definition GetPort (str : list Z) : option Z :=
  p ← after_commas 4 str;
  h ← atoi p;
  l ← atoi (drop 2 p);
  Some (h * 256 + l).

(** The reply to PASV, up to 100 bytes of it. *)
Definition read_port : U Z := fun s =>
  let '(len, d, c) := read 100 (SocketCmd s) in
  let s := set_reply (set_cmd s c) (fill (BufferReply s) d) in
  if len <? 0 then Some (-1, s)
  else
    _ ← cstr (BufferReply s);
    port ← GetPort (BufferReply s);
    Some (0, set_reply (set_port s port) (zeros 1024)).

Definition SetDataPort : U Z :=
  let cmd := text "PASV" ++ crlf in
  ret ← write_cmd cmd;
  if negb (ret =? Z.of_nat (length cmd)) then mret (-1) else read_port.

(** [connect] of the data socket; the port goes out as 16 bits. *)
Definition connect_data_socket : U Z := fun s =>
  Some (if connect_data e (u16 (SERVER_DATA_PORT s)) then 0 else -1, s).

Definition PrePareForSendData : U Z :=
  ret ← SendCmmand (text "TYPE I" ++ crlf);
  if ret <? 0 then mret (-1)
  else
    ret ← SetDataPort;
    if ret <? 0 then mret (-1)
    else
      ret ← connect_data_socket;
      if ret <? 0 then mret (-1) else mret 0.

Definition close_data_socket : U Z := fun s =>
  Some (if close_data e then 0 else -1, set_data s (close (SocketData s))).
Definition close_cmd_socket : U unit := fun s => Some (tt, set_cmd s (close (SocketCmd s))).

Definition FinishForSendData : U Z :=
  ret ← close_data_socket;
  if ret <? 0 then close_cmd_socket;; mret (-1)
  else
    ReceiveReply BUF_SIZE;;
    ret ← SendCmmand (text "QUIT" ++ crlf);
    if ret <? 0 then close_cmd_socket;; mret (-1)
    else close_cmd_socket;; mret 0.

Definition SendDataToFTP (name pass FileName buf : list Z) : U Z :=
  ret ← Init_FTP;
  if ret <? 0 then mret (-1)
  else
    ret ← LogIn name pass;
    if ret <? 0 then mret (-1)
    else
      ret ← PrePareForSendData;
      if ret <? 0 then LogOut;; mret (-1)
      else
        temp ← mem (format 128 "APPE " FileName);
        ret ← SendCmmand temp;
        if ret <? 0 then LogOut;; mret (-1)
        else
          ret ← SendData buf;
          if ret <? 0 then LogOut;; mret (-1)
          else FinishForSendData;; mret 0.

(** [main] with the line [gettime] has written: 0, or -1 when the upload failed. *)
Definition main (databuf : list Z) : U Z :=
  ret ← SendDataToFTP (text "jincai") (text "314159") (text "test.txt") databuf;
  if ret <? 0 then mret (-1) else mret 0.

End Upload.

(** ** The data port *)

Lemma after_commas_skip n tok r : comma ∉ tok -> after_commas (S n) (tok ++ comma :: r) = after_commas n r.
Proof.
  induction tok as [|c tok IH]; intros Hc; [done|]. apply not_elem_of_cons in Hc as [Hc Ht].
  change (after_commas (S n) ((c :: tok) ++ comma :: r)) with
    (if c =? comma then after_commas n (tok ++ comma :: r) else after_commas (S n) (tok ++ comma :: r)).
  rewrite (proj2 (Z.eqb_neq c comma)) by congruence. by apply IH.
Qed.

Lemma after_commas_0 p : after_commas 0 p = Some p.
Proof. by destruct p. Qed.

Lemma decimal_no_comma n : 0 <= n -> comma ∉ decimal n.
Proof.
  intros Hn. destruct (decimal_spec n Hn) as (_ & Hd & _). intros Hc.
  pose proof (proj1 (Forall_forall _ _) Hd comma Hc) as Hr. cbn in Hr. unfold comma in Hr. lia.
Qed.

Lemma decimal_byte n : is_byte n -> decimal n =
  if n <? 10 then [48 + n] else if n <? 100 then [48 + n / 10; 48 + n mod 10]
  else [48 + n / 100; 48 + n / 10 mod 10; 48 + n mod 10].
Proof.
  intros Hn. eapply (forall_byte (fun n => bool_decide (decimal n = if n <? 10 then [48 + n]
    else if n <? 100 then [48 + n / 10; 48 + n mod 10] else [48 + n / 100; 48 + n / 10 mod 10; 48 + n mod 10]))) in Hn.
  - by apply bool_decide_eq_true in Hn.
  - eval_true.
Qed.

(** The reply to PASV that names address and port. *)
Definition passive (pre : list Z) (a b c d h l : Z) (rest : list Z) : list Z :=
  pre ++ decimal a ++ comma :: decimal b ++ comma :: decimal c ++ comma :: decimal d ++ comma ::
  decimal h ++ comma :: decimal l ++ rest.

(** The port that [GetPort] takes from it. *)
Definition port_taken (h l : Z) : Z :=
  h * 256 + (if h <? 10 then l else if h <? 100 then 0 else h mod 10).

(** [GetPort] is right while the high byte of the port has one digit: it looks
    for the low byte two characters behind the high one. *)
Lemma get_port_passive pre a b c d h l x rest : comma ∉ pre ->
  0 <= a -> 0 <= b -> 0 <= c -> 0 <= d -> is_byte h -> is_byte l -> is_digit x = false ->
  GetPort (passive pre a b c d h l (x :: rest)) = Some (port_taken h l).
Proof.
  intros Hpre Ha Hb Hc Hd Hh Hl Hx. unfold GetPort, passive. rewrite app_assoc.
  rewrite after_commas_skip by (apply not_elem_of_app; split; [done|by apply decimal_no_comma]).
  rewrite !after_commas_skip by (by apply decimal_no_comma). rewrite after_commas_0. cbn [mbind option_bind].
  destruct (decimal_spec h) as (Hne & Hdig & Hval & _); [by apply is_u_nonneg in Hh|].
  assert (is_int h /\ is_int l) as [Hih Hil] by (split; apply is_int_small; unfold is_u in *; lia).
  rewrite (atoi_field _ comma) by (done || by rewrite Hval). rewrite Hval. unfold port_taken. cbn [mbind option_bind].
  rewrite (decimal_byte h Hh). destruct (Z.ltb_spec h 10); [|destruct (Z.ltb_spec h 100)]; cbn [app drop].
  - destruct (decimal_spec l) as (Hne' & Hdig' & Hval' & _); [by apply is_u_nonneg in Hl|].
    rewrite drop_0, (atoi_field _ x) by (done || by rewrite Hval'). by rewrite Hval'.
  - reflexivity.
  - change (48 + h mod 10 :: comma :: decimal l ++ x :: rest) with ([48 + h mod 10] ++ comma :: decimal l ++ x :: rest).
    assert (digits [48 + h mod 10] 0 = h mod 10) as E.
    { cbn [digits]. rewrite is_digit_true by zdm. lia. }
    rewrite atoi_field; rewrite ?E; [done|constructor; [zdm|constructor]|done|done|apply is_int_small; zdm].
Qed.

(** The port taken is the port meant when the high byte is below 10, and for a few others. *)
Lemma port_taken_right h l : is_byte h -> is_byte l ->
  port_taken h l = h * 256 + l <-> (h < 10 \/ (10 <= h < 100 /\ l = 0) \/ (100 <= h /\ l = h mod 10)).
Proof. unfold port_taken, is_u. intros ? ?. destruct (Z.ltb_spec h 10), (Z.ltb_spec h 100); lia. Qed.

(** ** The session *)

(** A reply that one [read] takes. *)
Definition good_reply (n : nat) (r : list Z) : Prop := nonzero r /\ (0 < length r <= n)%nat.

(** The state when the replies [rs] are to come and [out] was sent. *)
Definition talking (rs : list (list Z)) (out : list Z) (data : stream) (port : Z) : state :=
  mk_state (mk_stream (concat rs) (map (fun r => Some (length r)) rs) out [] false) data (zeros 1024) port.

Lemma read_reply n r rs out : good_reply n r ->
  read n (mk_stream (concat (r :: rs)) (map (fun r => Some (length r)) (r :: rs)) out [] false) =
  (Z.of_nat (length r), r, mk_stream (concat rs) (map (fun r => Some (length r)) rs) out [] false).
Proof.
  intros [_ Hl]. unfold read. cbn [rcuts map incoming concat outgoing wcuts closed].
  replace (Nat.min n (Nat.max 1 (length r))) with (length r) by lia.
  by rewrite take_app_length, drop_app_length.
Qed.

Lemma cstr_reply n r : good_reply n r -> (n < 1024)%nat ->
  cstr (fill (zeros 1024) r) = Some r.
Proof.
  intros [Hn Hl] H. unfold fill, zeros. rewrite drop_replicate.
  replace (Z.to_nat 1024 - length r)%nat with (S (1023 - length r)) by lia. by apply cstr_text.
Qed.

Lemma receive_reply r rs out data port : good_reply 1023 r ->
  ReceiveReply BUF_SIZE (talking (r :: rs) out data port) =
  Some (Z.of_nat (length r), talking rs out data port).
Proof.
  intros Hr. unfold ReceiveReply, talking, BUF_SIZE. cbn [SocketCmd].
  rewrite read_reply by (destruct Hr; split; [done|lia]). rewrite (proj2 (Z.ltb_ge _ 0)) by lia.
  cbn [set_reply set_cmd BufferReply SocketCmd SocketData SERVER_DATA_PORT].
  rewrite (cstr_reply 1023) by (done || lia). done.
Qed.

Lemma bind_run {A B} (m : U A) (f : A -> U B) s a s' : m s = Some (a, s') -> (m ≫= f) s = f a s'.
Proof. intros E. unfold mbind, U_bind. by rewrite E. Qed.

Lemma write_cmd_whole c rs out data port :
  write_cmd c (talking rs out data port) = Some (Z.of_nat (length c), talking rs (out ++ c) data port).
Proof. unfold write_cmd, write, talking. cbn [SocketCmd wcuts]. by rewrite take_ge. Qed.

Lemma send_command c r rs out data port : good_reply 1023 r ->
  SendCmmand c (talking (r :: rs) out data port) = Some (0, talking rs (out ++ c) data port).
Proof.
  intros Hr. unfold SendCmmand. rewrite (bind_run _ _ _ _ _ (write_cmd_whole c _ _ _ _)), Z.eqb_refl.
  cbn [negb]. by rewrite (bind_run _ _ _ _ _ (receive_reply r rs _ _ _ Hr)).
Qed.

(** Everything but the data connection works. *)
Definition works (e : answers) : Prop :=
  cmd_fd e <> 0 /\ data_fd e <> 0 /\ opt_cmd e = true /\ opt_data e = true /\ bind_data e = true /\
  bind_cmd e = true /\ connect_cmd e = true /\ close_cmd e = true /\ close_data e = true.

Definition line (s : string) : list Z := text s ++ crlf.
Definition login_lines : list Z := line "USER jincai" ++ line "PASS 314159" ++ line "TYPE I" ++ line "PASV".

Definition fresh (out : list Z) (shut : bool) : stream := mk_stream [] [] out [] shut.

Lemma init_ok e r rs data port : works e -> good_reply 1023 r ->
  Init_FTP e (talking (r :: rs) [] data port) = Some (0, talking rs [] data port).
Proof.
  intros (H1 & H2 & H3 & H4 & H5 & H6 & H7 & _) Hr. unfold Init_FTP.
  rewrite (bind_run _ _ _ 0 (talking (r :: rs) [] data port)).
  - cbn [Z.ltb Z.compare]. unfold ConnectCmdSocket. rewrite H7. cbn [negb].
    rewrite (bind_run _ _ _ 0 (talking rs [] data port)); [done|].
    by rewrite (bind_run _ _ _ _ _ (receive_reply r rs _ _ _ Hr)).
  - unfold ClientInit. by rewrite (proj2 (Z.eqb_neq _ 0) H1), (proj2 (Z.eqb_neq _ 0) H2), H3, H4, H5, H6.
Qed.

Lemma login_ok r1 r2 rs data port : good_reply 1023 r1 -> good_reply 1023 r2 ->
  LogIn (text "jincai") (text "314159") (talking (r1 :: r2 :: rs) [] data port) =
  Some (0, talking rs (line "USER jincai" ++ line "PASS 314159") data port).
Proof.
  intros Hr1 Hr2. unfold LogIn.
  rewrite (bind_run _ _ _ (line "USER jincai") (talking (r1 :: r2 :: rs) [] data port)) by done.
  rewrite (bind_run _ _ _ _ _ (send_command _ r1 _ _ _ _ Hr1)). cbn [Z.ltb Z.compare].
  erewrite (bind_run (mem (format 20 "PASS " (text "314159"))) _ _ (line "PASS 314159")) by done.
  by rewrite (bind_run _ _ _ _ _ (send_command _ r2 _ _ _ _ Hr2)).
Qed.

Section Session.
Context (e : answers) (He : works e).
Context (pre : list Z) (a b c d h l x : Z) (rest : list Z).
Context (Hpre : comma ∉ pre) (Ha : 0 <= a) (Hb : 0 <= b) (Hc : 0 <= c) (Hd : 0 <= d).
Context (Hh : is_byte h) (Hl : is_byte l) (Hx : is_digit x = false).

Abbreviation pasv := (passive pre a b c d h l (x :: rest)).

Lemma port_taken_small : u16 (port_taken h l) = port_taken h l.
Proof using Hh Hl.
  clear - Hh Hl. apply uwrap_small. unfold port_taken, is_u in *.
  destruct (Z.ltb_spec h 10), (Z.ltb_spec h 100); zdm.
Qed.

Lemma read_port_ok rs out data port : good_reply 100 pasv ->
  read_port (talking (pasv :: rs) out data port) = Some (0, talking rs out data (port_taken h l)).
Proof using Hpre Ha Hb Hc Hd Hh Hl Hx.
  intros Hr. unfold read_port, talking. cbn [SocketCmd]. rewrite read_reply by done.
  rewrite (proj2 (Z.ltb_ge _ 0)) by lia. cbn [set_reply set_cmd BufferReply SocketCmd SocketData SERVER_DATA_PORT].
  rewrite (cstr_reply 100) by (done || lia). cbn [mbind option_bind].
  assert (fill (zeros 1024) pasv = passive pre a b c d h l (x :: rest ++ drop (length pasv) (zeros 1024))) as ->.
  { unfold fill, passive. repeat (rewrite <- ?app_assoc; cbn [app]). done. }
  by rewrite get_port_passive by done.
Qed.

Lemma prepare_ok r rs out data port : good_reply 1023 r -> good_reply 100 pasv ->
  PrePareForSendData e (talking (r :: pasv :: rs) out data port) =
  Some (if connect_data e (port_taken h l) then 0 else -1,
        talking rs (out ++ line "TYPE I" ++ line "PASV") data (port_taken h l)).
Proof using Hpre Ha Hb Hc Hd Hh Hl Hx.
  intros Hr Hp. unfold PrePareForSendData.
  rewrite (bind_run _ _ _ _ _ (send_command _ r _ _ _ _ Hr)). cbn [Z.ltb Z.compare]. unfold SetDataPort.
  rewrite (bind_run _ _ _ 0 (talking rs (out ++ line "TYPE I" ++ line "PASV") data (port_taken h l))).
  - cbn [Z.ltb Z.compare]. unfold connect_data_socket, mbind, U_bind. cbn [mbind option_bind talking SERVER_DATA_PORT].
    rewrite port_taken_small. by destruct (connect_data e (port_taken h l)).
  - rewrite (bind_run _ _ _ _ _ (write_cmd_whole _ _ _ _ _)), Z.eqb_refl. cbn [negb].
    rewrite read_port_ok by done. unfold line. by rewrite <- !app_assoc.
Qed.

(** The end of a session. *)
Definition finished (rs : list (list Z)) (out sent : list Z) (port : Z) : state :=
  mk_state (mk_stream (concat rs) (map (fun r => Some (length r)) rs) out [] true) (fresh sent true) (zeros 1024) port.

Lemma finish_ok r1 r2 rs out sent port : good_reply 1023 r1 -> good_reply 1023 r2 ->
  FinishForSendData e (talking (r1 :: r2 :: rs) out (fresh sent false) port) =
  Some (0, finished rs (out ++ line "QUIT") sent port).
Proof using He.
  intros Hr1 Hr2. destruct He as (_ & _ & _ & _ & _ & _ & _ & _ & Hcl). unfold FinishForSendData.
  rewrite (bind_run _ _ _ 0 (talking (r1 :: r2 :: rs) out (fresh sent true) port))
    by (unfold close_data_socket; by rewrite Hcl).
  cbn [Z.ltb Z.compare]. rewrite (bind_run _ _ _ _ _ (receive_reply r1 _ _ _ _ Hr1)).
  by rewrite (bind_run _ _ _ _ _ (send_command _ r2 _ _ _ _ Hr2)).
Qed.

Lemma logout_ok r rs out sent port : good_reply 1023 r ->
  LogOut e (talking (r :: rs) out (fresh sent false) port) = Some (0, finished rs (out ++ line "QUIT") sent port).
Proof using He.
  intros Hr. destruct He as (_ & _ & _ & _ & _ & _ & _ & Hc1 & Hc2). unfold LogOut.
  rewrite (bind_run _ _ _ _ _ (send_command _ r _ _ _ _ Hr)). cbn [Z.ltb Z.compare].
  erewrite bind_run by (unfold CloseSocket; rewrite Hc1, Hc2; reflexivity). done.
Qed.

(** C15: The upload against a server that answers every command, whatever its
    answers say: the program names itself, asks for a binary transfer and a
    passive port, takes the port [port_taken] from the answer - the one meant
    only while its high byte is below 10 - and connects to it.  If that succeeds
    it sends the name of the file, the data, complete, on the data connection,
    and QUIT, and returns 0; if not it sends QUIT alone and returns -1.  Both
    sockets are closed in either case. *)
Theorem ftp_upload_session (databuf r0 r1 r2 r3 r5 r6 r7 : list Z) :
  Forall (good_reply 1023) [r0; r1; r2; r3; r5; r6; r7] -> good_reply 100 pasv ->
  main e databuf (talking [r0; r1; r2; r3; pasv; r5; r6; r7] [] (fresh [] false) 0) =
  if connect_data e (port_taken h l)
  then Some (0, finished [] (login_lines ++ line "APPE test.txt" ++ line "QUIT") databuf (port_taken h l))
  else Some (-1, finished [r6; r7] (login_lines ++ line "QUIT") [] (port_taken h l)).
Proof using He Hpre Ha Hb Hc Hd Hh Hl Hx.
  rewrite !Forall_cons. intros (H0 & H1 & H2 & H3 & H5 & H6 & H7 & _) Hp. unfold main, SendDataToFTP.
  destruct (connect_data e (port_taken h l)) eqn:Econ.
  - rewrite (bind_run _ _ _ 0 (finished [] (login_lines ++ line "APPE test.txt" ++ line "QUIT") databuf (port_taken h l)));
      [done|].
    rewrite (bind_run _ _ _ _ _ (init_ok e r0 _ _ _ He H0)). cbn [Z.ltb Z.compare].
    rewrite (bind_run _ _ _ _ _ (login_ok r1 r2 _ _ _ H1 H2)). cbn [Z.ltb Z.compare].
    rewrite (bind_run _ _ _ _ _ (prepare_ok r3 _ _ _ _ H3 Hp)), Econ. cbn [Z.ltb Z.compare].
    erewrite (bind_run (mem (format 128 "APPE " (text "test.txt"))) _ _ (line "APPE test.txt")) by done.
    rewrite (bind_run _ _ _ _ _ (send_command _ r5 _ _ _ _ H5)). cbn [Z.ltb Z.compare].
    erewrite bind_run by (unfold SendData, write, talking; cbn [SocketData fresh wcuts];
      rewrite take_ge, Z.eqb_refl by lia; reflexivity).
    cbn [Z.ltb Z.compare].
    erewrite (bind_run (FinishForSendData e)) by (apply (finish_ok r6 r7 [] _ databuf (port_taken h l) H6 H7)).
    unfold login_lines. rewrite <- !app_assoc. done.
  - rewrite (bind_run _ _ _ (-1) (finished [r6; r7] (login_lines ++ line "QUIT") [] (port_taken h l))); [done|].
    rewrite (bind_run _ _ _ _ _ (init_ok e r0 _ _ _ He H0)). cbn [Z.ltb Z.compare].
    rewrite (bind_run _ _ _ _ _ (login_ok r1 r2 _ _ _ H1 H2)). cbn [Z.ltb Z.compare].
    rewrite (bind_run _ _ _ _ _ (prepare_ok r3 _ _ _ _ H3 Hp)), Econ. cbn [Z.ltb Z.compare].
    rewrite (bind_run _ _ _ _ _ (logout_ok r5 _ _ _ _ H5)). unfold login_lines. rewrite <- !app_assoc. done.
Qed.
End Session.

(** A user name of more than 12 characters does not fit its command line. *)
Lemma login_overflow user password s : (12 < length user)%nat -> LogIn user password s = None.
Proof.
  intros Hu. unfold LogIn, mbind, U_bind, mem, format.
  cbv zeta. rewrite (proj2 (Nat.ltb_ge (length (text "USER " ++ user ++ crlf)) 20)); [done|].
  rewrite !length_app. cbn. lia.
Qed.

(** ** Two sessions: the server listens on port 1234, then on port 50069 *)

Definition open_on (port : Z) : answers :=
  mk_answers 3 4 true true true true true (fun p => p =? port) true true.

Definition pasv_reply (h l : Z) : list Z :=
  passive (text "227 Entering Passive Mode (") 127 0 0 1 h l (41 :: [46]).

Lemma ftp_upload_session_witness :
  let ok := text "200 ok" in
  main (open_on 1234) (text "data") (talking [ok; ok; ok; ok; pasv_reply 4 210; ok; ok; ok] [] (fresh [] false) 0) =
    Some (0, finished [] (login_lines ++ line "APPE test.txt" ++ line "QUIT") (text "data") (port_taken 4 210)) /\
  main (open_on 50069) (text "data") (talking [ok; ok; ok; ok; pasv_reply 195 149; ok; ok; ok] [] (fresh [] false) 0) =
    Some (-1, finished [ok; ok] (login_lines ++ line "QUIT") [] (port_taken 195 149)) /\
  port_taken 4 210 = 1234 /\ port_taken 195 149 = 49925.
Proof.
  intros ok.
  assert (comma ∉ text "227 Entering Passive Mode (") as Hpre
    by (apply (bool_decide_eq_true_1 _); vm_compute; reflexivity).
  assert (Forall (good_reply 1023) [ok; ok; ok; ok; ok; ok; ok]) as Hok.
  { repeat (constructor; [split; [repeat constructor; discriminate|vm_compute; lia]|]). constructor. }
  assert (forall p, works (open_on p)) as Hworks by (intros p; repeat split; discriminate).
  assert (good_reply 100 (pasv_reply 4 210) /\ good_reply 100 (pasv_reply 195 149)) as [Hp1 Hp2].
  { split; (split; [unfold nonzero; apply (bool_decide_eq_true_1 _); vm_compute; reflexivity|vm_compute; lia]). }
  split; [|split; [|split; reflexivity]].
  - exact (ftp_upload_session (open_on 1234) (Hworks 1234) _ 127 0 0 1 4 210 41 [46] Hpre
      ltac:(lia) ltac:(lia) ltac:(lia) ltac:(lia) ltac:(unfold is_u; lia) ltac:(unfold is_u; lia) eq_refl
      (text "data") ok ok ok ok ok ok ok Hok Hp1).
  - exact (ftp_upload_session (open_on 50069) (Hworks 50069) _ 127 0 0 1 195 149 41 [46] Hpre
      ltac:(lia) ltac:(lia) ltac:(lia) ltac:(lia) ltac:(unfold is_u; lia) ltac:(unfold is_u; lia) eq_refl
      (text "data") ok ok ok ok ok ok ok Hok Hp2).
Defined.
