(* ===== verification/Memleak.v ===== *)
(** * The memory debugger (src/others/memleak/memleak.c, memleak.h)

    [malloc], [calloc], [realloc] and [free] of a program go through functions
    that keep a header for every block, in a doubly linked list on the heap, and
    the headers of the last freed blocks in a circular array.  Here the headers
    are a finite map from pointers; the results of the system's [malloc] and
    [realloc] are arguments, NULL being [None]; [owned] are the blocks the
    program has from the system.  A wild or double [free], a dereference of
    something that is not a header, the use of the wrong member of the union and
    the overflow of a counter are the result [None].

    The macros of memleak.h note the place of a call before it: [here]. *)

From stdpp Require Import gmap.
From S2P Require Import Prelude CStr.

(** ** Data *)

Record site := mk_site { s_file : list Z; s_line : Z }.

(** The union [in]. *)
Inductive inside :=
  | InList (prev next : option Z)
  | InFree (freed : site).

Record head := mk_head { addr : Z; size : Z; at_site : site; h_in : inside }.

Definition CHK_FREED : Z := 1.
Definition CHK_ALLOC : Z := 2.
Definition CHK_ALL : Z := CHK_FREED .| CHK_ALLOC.

Record state := mk_state {
  here : site;                              (* dbg_file_name, dbg_line_number *)
  memory_cnt : Z; malloc_cnt : Z; calloc_cnt : Z; realloc_cnt : Z; free_cnt : Z;
  heads : gmap Z head;
  first : option Z; last : option Z;
  hist : list head; histp : nat;            (* hist_base, history_length, histp *)
  owned : gset Z }.

Section Memleak.
Context `{Arch}.

(** Conversion to [long]. *)
Definition to_long (x : Z) : Z :=
  let y := ul x in if y <? 2 ^ (long_bits - 1) then y else y - 2 ^ long_bits.

(** [cnt++] on an [int] *)
Definition incr (c : Z) : option Z := if c =? int_max then None else Some (c + 1).

Definition set_memory (st : state) (m : Z) : state :=
  mk_state (here st) m (malloc_cnt st) (calloc_cnt st) (realloc_cnt st) (free_cnt st) (heads st) (first st) (last st)
    (hist st) (histp st) (owned st).
Definition set_counts (st : state) (m c r f : Z) : state :=
  mk_state (here st) (memory_cnt st) m c r f (heads st) (first st) (last st) (hist st) (histp st) (owned st).
Definition set_heads (st : state) (h : gmap Z head) : state :=
  mk_state (here st) (memory_cnt st) (malloc_cnt st) (calloc_cnt st) (realloc_cnt st) (free_cnt st) h (first st)
    (last st) (hist st) (histp st) (owned st).
Definition set_ends (st : state) (f l : option Z) : state :=
  mk_state (here st) (memory_cnt st) (malloc_cnt st) (calloc_cnt st) (realloc_cnt st) (free_cnt st) (heads st) f l
    (hist st) (histp st) (owned st).
Definition set_hist (st : state) (h : list head) (p : nat) : state :=
  mk_state (here st) (memory_cnt st) (malloc_cnt st) (calloc_cnt st) (realloc_cnt st) (free_cnt st) (heads st)
    (first st) (last st) h p (owned st).
Definition set_owned (st : state) (o : gset Z) : state :=
  mk_state (here st) (memory_cnt st) (malloc_cnt st) (calloc_cnt st) (realloc_cnt st) (free_cnt st) (heads st)
    (first st) (last st) (hist st) (histp st) o.
Definition FILE_LINE (s : site) (st : state) : state :=
  mk_state s (memory_cnt st) (malloc_cnt st) (calloc_cnt st) (realloc_cnt st) (free_cnt st) (heads st) (first st)
    (last st) (hist st) (histp st) (owned st).

(** [free] of the system on a block. *)
Definition sys_free (a : Z) (st : state) : option state :=
  if decide (a ∈ owned st) then Some (set_owned st (owned st ∖ {[a]})) else None.

(** ** The list of headers *)

(** [p->in.list.next = q] and [p->in.list.prev = q] *)
Definition put_next (h : gmap Z head) (p : Z) (q : option Z) : option (gmap Z head) :=
  x ← h !! p;
  match h_in x with
  | InList prev _ => Some (<[p := mk_head (addr x) (size x) (at_site x) (InList prev q)]> h)
  | InFree _ => None
  end.
Definition put_prev (h : gmap Z head) (p : Z) (q : option Z) : option (gmap Z head) :=
  x ← h !! p;
  match h_in x with
  | InList _ next => Some (<[p := mk_head (addr x) (size x) (at_site x) (InList q next)]> h)
  | InFree _ => None
  end.

(** [add], with what [malloc(HLEN)] returns. *)
Definition add (p : option Z) (buf s : Z) (st : state) : option (option Z * state) :=
  match p with
  | None => Some (None, st)
  | Some q =>
      let h := <[q := mk_head buf s (here st) (InList (last st) None)]> (heads st) in
      '(h, f) ← match last st with
        | Some l => h ← put_next h l p; Some (h, first st)
        | None => Some (h, p)
        end;
      let st := set_ends (set_heads st h) f p in
      Some (p, set_memory st (to_long (memory_cnt st + s)))
  end.

(** [ADVANCE] *)
Definition ADVANCE (st : state) (p : nat) : nat := if (length (hist st) <=? S p)%nat then 0%nat else S p.

(** The first half of [del]: the header and the list without it. *)
Definition unlink (p : Z) (st : state) : option (head * state) :=
  x ← heads st !! p;
  match h_in x with
  | InFree _ => None
  | InList prev next =>
      '(h, f) ← match prev with
        | Some q => h ← put_next (heads st) q next; Some (h, first st)
        | None => Some (heads st, next)
        end;
      '(h, l) ← match next with
        | Some q => h ← put_prev h q prev; Some (h, last st)
        | None => Some (h, prev)
        end;
      Some (x, set_ends (set_heads st h) f l)
  end.

(** The second half: the header goes to the history, as freed here. *)
Definition remember (x : head) (st : state) : option state :=
  if bool_decide (hist st = []) then Some st
  else if (histp st <? length (hist st))%nat then
    let e := mk_head (addr x) (size x) (at_site x) (InFree (here st)) in
    Some (set_hist st (<[histp st := e]> (hist st)) (ADVANCE st (histp st)))
  else None.

Definition del (p : Z) (st : state) : option state :=
  '(x, st) ← unlink p st;
  let st := set_memory st (to_long (memory_cnt st - size x)) in
  st ← remember x st;
  Some (set_heads st (delete p (heads st))).

Definition replace (p : Z) (buf s : Z) (st : state) : option state :=
  x ← heads st !! p;
  let m := to_long (memory_cnt st - size x) in
  let st := set_heads st (<[p := mk_head buf s (here st) (h_in x)]> (heads st)) in
  Some (set_memory st (to_long (m + s))).

(** The walk from [last] along [prev]; at most one step for a header. *)
Fixpoint find_back (fuel : nat) (h : gmap Z head) (p : option Z) (a : Z) : option (option Z) :=
  match fuel, p with
  | _, None => Some None
  | S fuel, Some q =>
      x ← h !! q;
      if addr x =? a then Some p
      else match h_in x with InList prev _ => find_back fuel h prev a | InFree _ => None end
  | O, Some _ => None
  end.
Definition find_in_heap (a : Z) (st : state) : option (option Z) :=
  find_back (base.size (heads st)) (heads st) (last st) a.

(** The walk over the history, [cnt] entries from [p]. *)
Fixpoint find_hist_loop (cnt : nat) (p : nat) (a : Z) (st : state) : option (option head) :=
  match cnt with
  | O => Some None
  | S cnt =>
      x ← hist st !! p;
      if addr x =? a then Some (Some x) else find_hist_loop cnt (ADVANCE st p) a st
  end.

(** Where the history begins and how many entries it has. *)
Definition hist_range (st : state) : option (nat * nat) :=
  x ← hist st !! histp st;
  Some (if addr x =? 0 then (histp st, 0%nat) else (length (hist st), histp st)).

Definition find_in_hist (a : Z) (st : state) : option (option head) :=
  if bool_decide (hist st = []) then Some None
  else '(cnt, p) ← hist_range st; find_hist_loop cnt p a st.

(** ** The functions of the interface *)

(** The code, and the header the message shows. *)
Definition dbg_check_addr (a opt : Z) (st : state) : option (Z * option head) :=
  p ← (if opt .& CHK_ALLOC =? 0 then Some None else find_in_heap a st);
  match p with
  | Some q => x ← heads st !! q; Some (CHK_ALLOC, Some x)
  | None =>
      e ← (if opt .& CHK_FREED =? 0 then Some None else find_in_hist a st);
      match e with
      | Some x => Some (CHK_FREED, Some x)
      | None => Some (0, None)
      end
  end.

(** [buf] and [hd] are what the two calls of [malloc] return. *)
Definition allocate (buf hd : option Z) (s : Z) (st : state) : option (option Z * state) :=
  match buf with
  | None => Some (None, st)
  | Some b =>
      let st := set_owned st (owned st ∪ {[b]}) in
      '(p, st) ← add hd b s st;
      match p with
      | Some _ => Some (buf, st)
      | None => st ← sys_free b st; Some (None, st)
      end
  end.

Definition dbg_malloc (buf hd : option Z) (s : Z) (st : state) : option (option Z * state) :=
  m ← incr (malloc_cnt st);
  allocate buf hd s (set_counts st m (calloc_cnt st) (realloc_cnt st) (free_cnt st)).

(** [s *= n] in [size_t]. *)
Definition dbg_calloc (buf hd : option Z) (n s : Z) (st : state) : option (option Z * state) :=
  let s := ul (s * n) in
  c ← incr (calloc_cnt st);
  allocate buf hd s (set_counts st (malloc_cnt st) c (realloc_cnt st) (free_cnt st)).

(** Under WITH_DBG_STRDUP: the block and what is copied to it. *)
Definition dbg_strndup (buf hd : option Z) (str : list Z) (n : Z) (st : state) : option (option Z * list Z * state) :=
  let len := if n <? Z.of_nat (length str) then n else Z.of_nat (length str) in
  '(p, st) ← dbg_malloc buf hd (ul (len + 1)) st;
  Some (p, match p with Some _ => take (Z.to_nat len) str ++ [0] | None => [] end, st).
Definition dbg_strdup (buf hd : option Z) (str : list Z) (st : state) : option (option Z * list Z * state) :=
  dbg_strndup buf hd str (2 ^ long_bits - 1) st.

(** NULL is 0 here. *)
Definition dbg_free (buf : Z) (st : state) : option state :=
  f ← incr (free_cnt st);
  let st := set_counts st (malloc_cnt st) (calloc_cnt st) (realloc_cnt st) f in
  if buf =? 0 then Some st
  else
    p ← find_in_heap buf st;
    match p with
    | Some q => st ← del q st; sys_free buf st
    | None => _ ← dbg_check_addr buf CHK_FREED st; Some st
    end.

(** [re] is what [realloc] returns, [new] and [hd] are for the call of [dbg_malloc]. *)
Definition dbg_realloc (re new hd : option Z) (buf s : Z) (st : state) : option (option Z * state) :=
  r ← incr (realloc_cnt st);
  let st := set_counts st (malloc_cnt st) (calloc_cnt st) r (free_cnt st) in
  if buf =? 0 then dbg_malloc new hd s st
  else if s =? 0 then st ← dbg_free buf st; Some (None, st)
  else
    p ← find_in_heap buf st;
    match p with
    | Some q =>
        match re with
        | None => Some (None, st)
        | Some b =>
            st ← sys_free buf st;
            st ← replace q b s (set_owned st (owned st ∪ {[b]}));
            Some (re, st)
        end
    | None => _ ← dbg_check_addr buf CHK_FREED st; Some (None, st)
    end.

(** ** Dumps: the lines that contain the key *)

Fixpoint starts (k l : list Z) : bool :=
  match k, l with
  | [], _ => true
  | a :: k, b :: l => (a =? b) && starts k l
  | _ :: _, [] => false
  end.
Fixpoint strstr (l key : list Z) : bool :=
  starts key l || match l with [] => false | _ :: l => strstr l key end.

Definition place (s : site) : list Z := s_file s ++ text ":" ++ decimal (s_line s).
Definition alloc_line (x : head) : list Z :=
  text "(alloc: " ++ place (at_site x) ++ text " size: " ++ decimal (size x) ++ text ")" ++ [LF].
Definition free_line (x : head) (f : site) : list Z :=
  text "(alloc: " ++ place (at_site x) ++ text " size: " ++ decimal (size x) ++ text " free: " ++ place f ++ text ")" ++ [LF].

(** The lines that contain [key].  Each line is printed into a buffer whose [malloc]
    the code does not test; here it succeeds. *)
Fixpoint dump_loop (fuel : nat) (h : gmap Z head) (p : option Z) (key : list Z) : option (list (list Z)) :=
  match fuel, p with
  | _, None => Some []
  | S fuel, Some q =>
      x ← h !! q;
      match h_in x with
      | InList _ next =>
          rest ← dump_loop fuel h next key;
          Some (if strstr (alloc_line x) key then alloc_line x :: rest else rest)
      | InFree _ => None
      end
  | O, Some _ => None
  end.
Definition dbg_heap_dump (key : list Z) (st : state) : option (list (list Z)) :=
  dump_loop (base.size (heads st)) (heads st) (first st) key.

Fixpoint hist_dump_loop (cnt p : nat) (key : list Z) (st : state) : option (list (list Z)) :=
  match cnt with
  | O => Some []
  | S cnt =>
      x ← hist st !! p;
      match h_in x with
      | InFree f =>
          rest ← hist_dump_loop cnt (ADVANCE st p) key st;
          Some (if strstr (free_line x f) key then free_line x f :: rest else rest)
      | InList _ _ => None
      end
  end.
Definition dbg_history_dump (key : list Z) (st : state) : option (list (list Z)) :=
  if bool_decide (hist st = []) then Some []
  else '(cnt, p) ← hist_range st; hist_dump_loop cnt p key st.

Definition dbg_zero_stat (st : state) : state := set_counts (set_memory st 0) 0 0 0 0.

(** The numbers of the status line; what is printed before the program is
    aborted: they and both dumps. *)
Definition dbg_mem_stat (st : state) : list Z := [malloc_cnt st; calloc_cnt st; realloc_cnt st; free_cnt st; memory_cnt st].
Definition dbg_abort (st : state) : option (list Z * list (list Z) * list (list Z)) :=
  h ← dbg_heap_dump [] st;
  f ← (if bool_decide (hist st = []) then Some [] else dbg_history_dump [] st);
  Some (dbg_mem_stat st, h, f).

(** [calloc] of the history gives zeros, or the program is aborted. *)
Definition zero_head : head := mk_head 0 0 (mk_site [] 0) (InList None None).
Definition dbg_init (hist_len : nat) (given : bool) (st : state) : option state :=
  if (hist_len =? 0)%nat then Some (set_hist st [] (histp st))
  else if given then Some (set_hist st (replicate hist_len zero_head) 0)
  else None.

(** The state when the program starts. *)
Definition at_start : state := mk_state (mk_site [] 0) 0 0 0 0 0 ∅ None None [] 0 ∅.

End Memleak.
