(* ===== verification/MemleakProofs.v ===== *)
(** * What the memory debugger promises

    The ledger: the live blocks in the order of their allocation, the last
    freed ones, the counters.  The theorem: every run of the functions of
    [Memleak] on blocks that are new when the system hands them out ends without
    a wild access or a double [free], answers as the ledger does, and leaves the
    linked list and the circular array with the contents of the ledger. *)

From stdpp Require Import gmap.
From S2P Require Import Prelude CStr Memleak.

#[local] Set Warnings "-clear-no-such-hyp".

(** ** The ledger *)

Record block := mk_block { b_addr : Z; b_size : Z; b_site : site }.

Record ledger := mk_ledger {
  live : list block;
  freed : list (block * site);          (* the oldest first *)
  depth : nat;
  cm : Z; cc : Z; cr : Z; cf : Z;       (* calls of malloc, calloc, realloc, free *)
  offset : Z }.                         (* bytes in use when the statistics were cleared *)

Definition in_use (l : list block) : Z := foldr (fun b n => b_size b + n) 0 l.

(** The history keeps the last [n]. *)
Definition push {A} (n : nat) (e : A) (l : list A) : list A :=
  let l := l ++ [e] in drop (length l - n) l.

Definition lookup_block (a : Z) (l : list block) : option block := List.find (fun b => b_addr b =? a) l.
Definition without (a : Z) (l : list block) : list block := List.filter (fun b => negb (b_addr b =? a)) l.
Definition exchanged (a : Z) (b : block) (l : list block) : list block :=
  map (fun x => if b_addr x =? a then b else x) l.

(** ** Segments of the doubly linked list

    [dseg h prev l next]: the pointers of [l] are linked in order, the first
    points back to [prev], the last on to [next]. *)

Definition head_of (b : block) (i : inside) : head := mk_head (b_addr b) (b_size b) (b_site b) i.

Abbreviation nodes := (list (Z * block)).

Definition nxt (l : nodes) (next : option Z) : option Z :=
  match l with [] => next | (p, _) :: _ => Some p end.
Fixpoint prv (prev : option Z) (l : nodes) : option Z :=
  match l with [] => prev | (p, _) :: l => prv (Some p) l end.

Fixpoint dseg (h : gmap Z head) (prev : option Z) (l : nodes) (next : option Z) : Prop :=
  match l with
  | [] => True
  | (p, b) :: l => h !! p = Some (head_of b (InList prev (nxt l next))) /\ dseg h (Some p) l next
  end.

Definition ptrs (l : nodes) : list Z := map fst l.

Lemma nxt_app l k next : nxt (l ++ k) next = nxt l (nxt k next).
Proof. by destruct l as [|[p b] l]. Qed.

Lemma prv_app l : forall prev k, prv prev (l ++ k) = prv (prv prev l) k.
Proof. induction l as [|[p b] l IH]; intros prev k; cbn; [done|apply IH]. Qed.

Lemma dseg_app h l : forall prev k next,
  dseg h prev (l ++ k) next <-> dseg h prev l (nxt k next) /\ dseg h (prv prev l) k next.
Proof.
  induction l as [|[p b] l IH]; intros prev k next; cbn [dseg app prv]; [tauto|].
  rewrite IH, nxt_app. tauto.
Qed.

(** A change of the heap outside the segment. *)
Lemma dseg_frame h h' l : forall prev next, (forall p, p ∈ ptrs l -> h' !! p = h !! p) ->
  dseg h prev l next -> dseg h' prev l next.
Proof.
  induction l as [|[p b] l IH]; intros prev next Hh; cbn [dseg]; [done|]. intros [Hp Hl]. split.
  - rewrite Hh; [done|]. by left.
  - apply IH; [|done]. intros q Hq. apply Hh. by right.
Qed.

Lemma dseg_insert h p x l prev next : p ∉ ptrs l -> dseg h prev l next -> dseg (<[p := x]> h) prev l next.
Proof.
  intros Hp. apply dseg_frame. intros q Hq. rewrite lookup_insert_ne; [done|]. by intros ->.
Qed.

Lemma dseg_delete h p l prev next : p ∉ ptrs l -> dseg h prev l next -> dseg (delete p h) prev l next.
Proof.
  intros Hp. apply dseg_frame. intros q Hq. rewrite lookup_delete_ne; [done|]. by intros ->.
Qed.

(** The last node gets a new successor. *)
Lemma dseg_set_next h prev l q b next new : q ∉ ptrs l -> dseg h prev (l ++ [(q, b)]) next ->
  exists x, put_next h q new = Some (<[q := x]> h) /\ dseg (<[q := x]> h) prev (l ++ [(q, b)]) new.
Proof.
  intros Hq. rewrite dseg_app. cbn [dseg nxt]. intros (Hl & Hb & _).
  exists (head_of b (InList (prv prev l) new)). split.
  - unfold put_next. rewrite Hb. done.
  - apply dseg_app. cbn [dseg nxt]. rewrite lookup_insert_eq. split; [by apply dseg_insert|done].
Qed.

(** The first node gets a new predecessor. *)
Lemma dseg_set_prev h prev q b l next new : q ∉ ptrs l -> dseg h prev ((q, b) :: l) next ->
  exists x, put_prev h q new = Some (<[q := x]> h) /\ dseg (<[q := x]> h) new ((q, b) :: l) next.
Proof.
  intros Hq. cbn [dseg]. intros (Hb & Hl). exists (head_of b (InList new (nxt l next))). split.
  - unfold put_prev. rewrite Hb. done.
  - rewrite lookup_insert_eq. split; [done|by apply dseg_insert].
Qed.

Lemma prv_snoc prev l q b : prv prev (l ++ [(q, b)]) = Some q.
Proof. by rewrite prv_app. Qed.

Lemma ptrs_app l k : ptrs (l ++ k) = ptrs l ++ ptrs k.
Proof. apply map_app. Qed.

(** ** The walk from the end *)

Lemma find_back_spec h a l : forall next fuel, dseg h None l next -> (length l <= fuel)%nat ->
  find_back fuel h (prv None l) a =
  Some (fst <$> List.find (fun n => b_addr n.2 =? a) (rev l)).
Proof.
  induction l as [|[q b] l IH] using rev_ind; intros next fuel Hd Hf; [by destruct fuel|].
  rewrite prv_snoc, rev_app_distr. apply dseg_app in Hd as [Hl [Hb _]].
  destruct fuel as [|fuel]; [rewrite length_app in Hf; cbn in Hf; lia|].
  cbn [find_back rev app List.find]. rewrite Hb. cbn [mbind option_bind head_of addr h_in snd].
  destruct (b_addr b =? a); [done|]. apply (IH _ fuel Hl). rewrite length_app in Hf. cbn in Hf. lia.
Qed.

Lemma dump_spec h key l : forall prev fuel, dseg h prev l None -> (length l <= fuel)%nat ->
  dump_loop fuel h (nxt l None) key =
  Some (List.filter (fun s => strstr s key) (map (fun n => alloc_line (head_of n.2 (InList None None))) l)).
Proof.
  induction l as [|[q b] l IH]; intros prev fuel Hd Hf; [by destruct fuel|].
  destruct fuel as [|fuel]; [cbn in Hf; lia|]. destruct Hd as [Hb Hl].
  cbn [dump_loop nxt map List.filter snd]. rewrite Hb. cbn [mbind option_bind head_of h_in].
  rewrite (IH _ fuel Hl) by (cbn in Hf; lia). done.
Qed.

(** ** The circular history *)

Definition entry (e : block * site) : head := head_of e.1 (InFree e.2).

(** The array read from position [p] on. *)
Definition rot (p : nat) (h : list head) : list head := drop p h ++ take p h.

(** Either there is no history, or it is not yet full and the rest is zero, or it
    is full and begins at [p]. *)
Definition hist_ok (h : list head) (p : nat) (fr : list (block * site)) : Prop :=
  (h = [] /\ fr = []) \/
  ((length fr < length h)%nat /\ p = length fr /\
   h = map entry fr ++ replicate (length h - length fr) zero_head) \/
  (length fr = length h /\ (p < length h)%nat /\ rot p h = map entry fr).

Definition advance (n p : nat) : nat := if (n <=? S p)%nat then 0%nat else S p.

Lemma advance_lt n p : (p < n)%nat -> (advance n p < n)%nat.
Proof. unfold advance. destruct (Nat.leb_spec n (S p)); lia. Qed.

Lemma rot_cons p h x : h !! p = Some x -> exists t, rot p h = x :: t /\ rot (advance (length h) p) h = t ++ [x] /\
  length t = (length h - 1)%nat.
Proof.
  intros Hx. pose proof (lookup_lt_Some _ _ _ Hx) as Hp. unfold rot. rewrite (drop_S _ _ _ Hx).
  exists (drop (S p) h ++ take p h). split; [done|]. split.
  - unfold advance. destruct (Nat.leb_spec (length h) (S p)).
    + rewrite (drop_ge h (S p)) by lia. cbn [drop take]. rewrite drop_0, take_0, app_nil_r. cbn [app].
      rewrite <- (take_S_r _ _ _ Hx), take_ge by lia. done.
    + by rewrite (take_S_r _ _ _ Hx), app_assoc.
  - rewrite length_app, length_drop, length_take. lia.
Qed.

Lemma hist_push h p fr e : hist_ok h p fr -> h <> [] ->
  (p < length h)%nat /\ hist_ok (<[p := entry e]> h) (advance (length h) p) (push (length h) e fr).
Proof.
  intros [[-> _]|[(Hlt & -> & Hh)|(Hfull & Hp & Hrot)]] Hne; [done|..].
  - split; [done|]. right. unfold push, hist_ok, advance. rewrite length_insert, length_app. cbn [length].
    replace (length fr + 1 - length h)%nat with 0%nat by lia. rewrite drop_0.
    assert (<[length fr := entry e]> h = map entry (fr ++ [e]) ++ replicate (length h - S (length fr)) zero_head) as Hn.
    { rewrite Hh at 1. rewrite insert_app_r_alt by (rewrite length_map; lia). rewrite length_map, Nat.sub_diag.
      replace (length h - length fr)%nat with (S (length h - S (length fr))) by lia.
      cbn [replicate]. rewrite map_app, <- app_assoc. done. }
    destruct (Nat.leb_spec (length h) (S (length fr))) as [Hge|Hlt'].
    + right. rewrite length_app. cbn [length]. split; [lia|]. split; [lia|]. unfold rot. rewrite drop_0, take_0, app_nil_r, Hn.
      replace (length h - S (length fr))%nat with 0%nat by lia. apply app_nil_r.
    + left. rewrite length_app. cbn [length]. split; [lia|]. split; [lia|]. rewrite Hn at 1. do 2 f_equal. lia.
  - split; [done|]. right. right. rewrite length_insert.
    assert (length (push (length h) e fr) = length h) as Hl.
    { unfold push. rewrite length_drop, !length_app. cbn. lia. }
    split; [done|]. split; [by apply advance_lt|].
    destruct (rot_cons p (<[p := entry e]> h) (entry e)) as (t & Ht1 & Ht2 & Hlen).
    { by apply list_lookup_insert_eq. }
    rewrite length_insert in Ht2. rewrite Ht2. unfold push. rewrite length_app. cbn [length].
    replace (length fr + 1 - length h)%nat with 1%nat by lia.
    destruct fr as [|f0 fr]; [cbn in Hfull; lia|]. cbn [app drop]. rewrite drop_0, map_app. f_equal.
    destruct (lookup_lt_is_Some_2 h p Hp) as [x Hx].
    destruct (rot_cons p h x Hx) as (t0 & Ht3 & _ & _). rewrite Ht3 in Hrot. cbn [map] in Hrot. injection Hrot as _ <-.
    unfold rot in Ht1, Ht3. rewrite (drop_S _ _ _ Hx) in Ht3. rewrite (drop_S _ (entry e) _) in Ht1 by (by apply list_lookup_insert_eq).
    injection Ht1 as <-. injection Ht3 as <-. by rewrite take_insert_ge, drop_insert_lt by lia.
Qed.

(** The entries visited are the history, the oldest first. *)
Lemma hist_range_spec (st : state) fr : hist_ok (hist st) (histp st) fr -> hist st <> [] ->
  Forall (fun e => b_addr e.1 <> 0) fr -> exists p, hist_range st = Some (length fr, p) /\
  (p < length (hist st))%nat /\ (length fr <= length (hist st))%nat /\
  take (length fr) (rot p (hist st)) = map entry fr.
Proof.
  intros [[-> _]|[(Hlt & Hp & Hh)|(Hfull & Hp & Hrot)]] Hne Hnz; [done|..]; unfold hist_range.
  - exists 0%nat. assert (hist st !! histp st = Some zero_head) as ->.
    { rewrite Hh, Hp, lookup_app_r, length_map, Nat.sub_diag by (rewrite length_map; lia).
      rewrite lookup_replicate. split; [done|lia]. }
    cbn. rewrite Hp. split_and!; [done|lia|lia|]. unfold rot. rewrite drop_0, take_0, app_nil_r, Hh.
    apply take_app_length'. by rewrite length_map.
  - exists (histp st). destruct (lookup_lt_is_Some_2 (hist st) (histp st) Hp) as [x Hx]. rewrite Hx. cbn [mbind option_bind].
    assert (addr x <> 0) as Hxa.
    { destruct (rot_cons _ _ _ Hx) as (t & Ht & _ & _). rewrite Ht in Hrot. destruct fr as [|e fr]; [done|].
      cbn [map] in Hrot. injection Hrot as -> _. by apply Forall_cons in Hnz as [? _]. }
    rewrite (proj2 (Z.eqb_neq _ _) Hxa), <- Hfull. split_and!; [done|lia|lia|]. rewrite Hrot. apply take_ge. rewrite length_map. lia.
Qed.

Lemma find_hist_loop_spec (st : state) a cnt : forall p, (p < length (hist st))%nat -> (cnt <= length (hist st))%nat ->
  find_hist_loop cnt p a st = Some (List.find (fun x => addr x =? a) (take cnt (rot p (hist st)))).
Proof.
  induction cnt as [|cnt IH]; intros p Hp Hc; [done|]. cbn [find_hist_loop].
  destruct (lookup_lt_is_Some_2 (hist st) p Hp) as [x Hx]. rewrite Hx. cbn [mbind option_bind].
  destruct (rot_cons _ _ _ Hx) as (t & -> & Ht & Hl). cbn [take List.find]. destruct (addr x =? a); [done|].
  change (ADVANCE st p) with (advance (length (hist st)) p).
  rewrite IH by (by apply advance_lt || lia). by rewrite Ht, take_app_le by lia.
Qed.

Lemma hist_dump_loop_spec (st : state) key cnt : forall p es, (p < length (hist st))%nat ->
  (cnt <= length (hist st))%nat -> take cnt (rot p (hist st)) = map entry es ->
  hist_dump_loop cnt p key st =
  Some (List.filter (fun s => strstr s key) (map (fun e => free_line (entry e) e.2) es)).
Proof.
  induction cnt as [|cnt IH]; intros p es Hp Hc He; [by destruct es|]. cbn [hist_dump_loop].
  destruct (lookup_lt_is_Some_2 (hist st) p Hp) as [x Hx]. rewrite Hx. cbn [mbind option_bind].
  destruct (rot_cons _ _ _ Hx) as (t & Ht0 & Ht & Hl). rewrite Ht0 in He.
  destruct es as [|e es]; [done|]. cbn [take map] in He. injection He as -> He.
  cbn [entry head_of h_in map List.filter]. change (ADVANCE st p) with (advance (length (hist st)) p).
  rewrite (IH _ es); [done|by apply advance_lt|lia|]. by rewrite Ht, take_app_le by lia.
Qed.

(** ** The linked list as a whole *)

Record linked (h : gmap Z head) (f la : option Z) (l : nodes) : Prop := {
  l_nodup : NoDup (ptrs l);
  l_seg : dseg h None l None;
  l_first : f = nxt l None;
  l_last : la = prv None l;
  l_dom : dom h = list_to_set (ptrs l) }.

Lemma linked_size h f la l : linked h f la l -> base.size h = length l.
Proof.
  intros [Hn _ _ _ Hd]. rewrite <- size_dom, Hd, size_list_to_set by done. apply length_map.
Qed.

(** Splitting a list without duplicates. *)
Lemma ptrs_split l1 p b l2 : NoDup (ptrs (l1 ++ (p, b) :: l2)) ->
  (p ∉ ptrs l1) /\ (p ∉ ptrs l2) /\ NoDup (ptrs (l1 ++ l2)) /\ (forall q, q ∈ ptrs l1 -> q ∉ ptrs l2).
Proof.
  rewrite !ptrs_app. cbn [ptrs map fst]. fold (ptrs l2). rewrite !NoDup_app, NoDup_cons.
  intros (H1 & H2 & H3 & H4).
  assert (forall q, q ∈ ptrs l1 -> q <> p /\ (q ∉ ptrs l2)) as Hq.
  { intros q Hq. specialize (H2 q Hq). split; [intros ->; apply H2; by left|intros Hq2; apply H2; by right]. }
  split; [intros Hp; by apply Hq in Hp as []|]. split; [done|]. split; [split; [done|]; split; [|done]|];
    intros q Hp; by apply Hq.
Qed.

Lemma snoc_ptr l q b : NoDup (ptrs (l ++ [(q, b)])) -> q ∉ ptrs l.
Proof.
  rewrite ptrs_app. intros (_ & H2 & _)%NoDup_app Hq. apply (H2 q Hq). by left.
Qed.

(** Unlinking: the predecessor, or [first], takes over the successor ... *)
Lemma unlink_prev (h : gmap Z head) (f : option Z) l1 p next : NoDup (ptrs l1) -> dseg h None l1 (Some p) ->
  (forall q, q ∈ ptrs l1 -> q ∈ dom h) ->
  exists h' f', (match prv None l1 with
      | Some q => h' ← put_next h q next; Some (h', f)
      | None => Some (h, next) end) = Some (h', f') /\
    dseg h' None l1 next /\ f' = (if l1 is [] then next else f) /\ dom h' = dom h /\
    forall q, (q ∉ ptrs l1) -> h' !! q = h !! q.
Proof.
  intros Hn Hs Hdom. destruct l1 as [|[q b] l1 _] using rev_ind.
  - by exists h, next.
  - rewrite prv_snoc. destruct (dseg_set_next _ _ _ _ _ _ next (snoc_ptr _ _ _ Hn) Hs) as (x & -> & Hs').
    exists (<[q := x]> h), f. assert (q ∈ ptrs (l1 ++ [(q, b)])) as Hq by (rewrite ptrs_app; set_solver).
    split; [done|]. split; [done|]. split; [by destruct l1|]. split.
    + rewrite dom_insert_L. apply subseteq_union_1_L, singleton_subseteq_l. by apply Hdom.
    + intros r Hr. rewrite lookup_insert_ne; [done|]. by intros ->.
Qed.

(** ... and the successor, or [last], the predecessor. *)
Lemma unlink_next (h : gmap Z head) (la : option Z) l2 p prev : NoDup (ptrs l2) -> dseg h (Some p) l2 None ->
  (forall q, q ∈ ptrs l2 -> q ∈ dom h) ->
  exists h' la', (match nxt l2 None with
      | Some q => h' ← put_prev h q prev; Some (h', la)
      | None => Some (h, prev) end) = Some (h', la') /\
    dseg h' prev l2 None /\ la' = (if l2 is [] then prev else la) /\ dom h' = dom h /\
    forall q, (q ∉ ptrs l2) -> h' !! q = h !! q.
Proof.
  intros Hn Hs Hdom. destruct l2 as [|[q b] l2].
  - by exists h, prev.
  - cbn [ptrs map fst] in *. apply NoDup_cons in Hn as [Hq _].
    destruct (dseg_set_prev _ _ _ _ _ _ prev Hq Hs) as (x & E & Hs'). cbn [nxt]. rewrite E.
    exists (<[q := x]> h), la. split; [done|]. split; [done|]. split; [done|]. split.
    + rewrite dom_insert_L. apply subseteq_union_1_L, singleton_subseteq_l. apply Hdom. by left.
    + intros r Hr. rewrite lookup_insert_ne; [done|]. intros ->. apply Hr. by left.
Qed.

Lemma unlink_spec (st : state) l1 p b l2 : linked (heads st) (first st) (last st) (l1 ++ (p, b) :: l2) ->
  exists i h f la, unlink p st = Some (head_of b i, set_ends (set_heads st h) f la) /\
    linked (delete p h) f la (l1 ++ l2).
Proof.
  intros [Hn Hs Hf Hla Hd]. destruct (ptrs_split _ _ _ _ Hn) as (Hp1 & Hp2 & Hn12 & Hdis).
  apply dseg_app in Hs as [Hs1 [Hb Hs2]]. cbn [nxt] in Hs1.
  pose proof Hn12 as Hn12'. rewrite ptrs_app in Hn12'. apply NoDup_app in Hn12' as (Hn1 & _ & Hn2).
  destruct (unlink_prev (heads st) (first st) l1 p (nxt l2 None) Hn1 Hs1) as (h1 & f1 & E1 & Hs1' & Hf1 & Hd1 & Hsame1).
  { intros q Hq. rewrite Hd, ptrs_app. set_solver. }
  destruct (unlink_next h1 (last st) l2 p (prv None l1) Hn2) as (h2 & la2 & E2 & Hs2' & Hla2 & Hd2 & Hsame2).
  { eapply dseg_frame; [|exact Hs2]. intros q Hq. apply Hsame1. intros Hq1. by apply (Hdis q). }
  { intros q Hq. rewrite Hd1, Hd, ptrs_app. set_solver. }
  exists (InList (prv None l1) (nxt l2 None)), h2, f1, la2. split.
  - unfold unlink. rewrite Hb. cbn [mbind option_bind head_of h_in]. rewrite E1. cbn [mbind option_bind].
    by rewrite E2.
  - split; [done| | | |].
    + apply dseg_delete; [rewrite ptrs_app; set_solver|]. apply dseg_app. split; [|done].
      eapply dseg_frame; [|exact Hs1']. intros q Hq. apply Hsame2. by apply Hdis.
    + rewrite Hf1, nxt_app, Hf. by destruct l1 as [|[? ?] ?].
    + rewrite Hla2, prv_app, Hla, prv_app. by destruct l2 as [|[? ?] ?].
    + rewrite dom_delete_L, Hd2, Hd1, Hd, !ptrs_app. cbn [ptrs map fst]. fold (ptrs l2). set_solver.
Qed.

(** A header put at the end of the list. *)
Lemma add_spec `{Arch} (st : state) p buf s l : linked (heads st) (first st) (last st) l -> p ∉ dom (heads st) ->
  exists h f, add (Some p) buf s st =
    Some (Some p, set_memory (set_ends (set_heads st h) f (Some p)) (to_long (memory_cnt st + s))) /\
    linked h f (Some p) (l ++ [(p, mk_block buf s (here st))]).
Proof.
  intros [Hn Hs Hf Hla Hd] Hp. unfold add. set (x := mk_head buf s (here st) (InList (last st) None)).
  assert (p ∉ ptrs l) as Hpl by (rewrite Hd in Hp; set_solver).
  assert (NoDup (ptrs (l ++ [(p, mk_block buf s (here st))]))) as Hn'.
  { rewrite ptrs_app. apply NoDup_app. split; [done|]. split; [|apply NoDup_singleton]. set_solver. }
  destruct l as [|[q b] l _] using rev_ind.
  - cbn [prv] in Hla. rewrite Hla. eexists _, _. split; [reflexivity|]. split; [done| |done|done|].
    + cbn. rewrite lookup_insert_eq. unfold x. by rewrite Hla.
    + rewrite dom_insert_L, Hd. set_solver.
  - rewrite prv_snoc in Hla. rewrite Hla.
    destruct (dseg_set_next (<[p := x]> (heads st)) None l q b None (Some p)) as (y & -> & Hs').
    { by eapply snoc_ptr. }
    { by apply dseg_insert. }
    cbn [mbind option_bind]. eexists _, _. split; [reflexivity|].
    assert (q <> p) as Hqp by (rewrite ptrs_app in Hpl; set_solver).
    split; [done| | | |].
    + apply dseg_app. split; [done|]. rewrite prv_snoc. cbn [dseg nxt]. split; [|done].
      rewrite lookup_insert_ne, lookup_insert_eq by done. unfold x. by rewrite Hla.
    + rewrite Hf, !nxt_app. by destruct l as [|[? ?] ?].
    + by rewrite prv_app.
    + rewrite !dom_insert_L, Hd, !ptrs_app. set_solver.
Qed.

(** The contents of a header exchanged. *)
Lemma replace_spec `{Arch} (st : state) l1 p b l2 buf s : linked (heads st) (first st) (last st) (l1 ++ (p, b) :: l2) ->
  exists h, replace p buf s st =
    Some (set_memory (set_heads st h) (to_long (to_long (memory_cnt st - b_size b) + s))) /\
    linked h (first st) (last st) (l1 ++ (p, mk_block buf s (here st)) :: l2).
Proof.
  intros [Hn Hs Hf Hla Hd]. destruct (ptrs_split _ _ _ _ Hn) as (Hp1 & Hp2 & _ & _).
  apply dseg_app in Hs as [Hs1 [Hb Hs2]]. unfold replace. rewrite Hb. eexists. split; [reflexivity|].
  assert (ptrs (l1 ++ (p, mk_block buf s (here st)) :: l2) = ptrs (l1 ++ (p, b) :: l2)) as Hptrs by (by rewrite !ptrs_app).
  split; [by rewrite Hptrs| | | |].
  - apply dseg_app. cbn [dseg nxt]. rewrite lookup_insert_eq. split_and!; [by apply dseg_insert|done|by apply dseg_insert].
  - by rewrite Hf, !nxt_app.
  - by rewrite Hla, !prv_app.
  - rewrite dom_insert_L, Hptrs, Hd. apply subseteq_union_1_L, singleton_subseteq_l. rewrite ptrs_app. set_solver.
Qed.

(** ** Looking up blocks *)

Lemma find_app {A} (f : A -> bool) l k :
  List.find f (l ++ k) = match List.find f l with Some x => Some x | None => List.find f k end.
Proof. induction l as [|x l IH]; [done|]. cbn [app List.find]. by destruct (f x). Qed.

Lemma lookup_block_split a (l : nodes) : NoDup (map b_addr (map snd l)) ->
  match lookup_block a (map snd l) with
  | Some b => b_addr b = a /\ exists l1 p l2, l = l1 ++ (p, b) :: l2 /\
      List.find (fun n => b_addr n.2 =? a) (rev l) = Some (p, b) /\
      without a (map snd l) = map snd (l1 ++ l2) /\
      forall b', exchanged a b' (map snd l) = map snd (l1 ++ (p, b') :: l2)
  | None => List.find (fun n => b_addr n.2 =? a) (rev l) = None /\ (a ∉ map b_addr (map snd l))
  end.
Proof.
  unfold lookup_block, without, exchanged. induction l as [|[p b] l IH]; cbn [map snd List.find List.filter]; [set_solver|].
  intros [Hb Hn]%NoDup_cons. specialize (IH Hn). cbn [rev]. rewrite find_app.
  destruct (Z.eqb_spec (b_addr b) a) as [Ha|Ha]; cbn [negb].
  - split; [done|]. exists [], p, l. split; [done|]. subst a.
    assert (forall x, x ∈ map snd l -> (b_addr x =? b_addr b) = false) as Hx.
    { intros x Hx. apply Z.eqb_neq. intros E. apply Hb. rewrite <- E. by apply list_elem_of_fmap_2. }
    assert (List.find (fun n : Z * block => b_addr n.2 =? b_addr b) (rev l) = None) as ->.
    { destruct (List.find _ (rev l)) as [[q c]|] eqn:E; [|done]. apply find_some in E as [E1 E2].
      apply in_rev, list_elem_of_In in E1. rewrite Hx in E2; [done|]. by apply (list_elem_of_fmap_2 snd _ (q, c)). }
    cbn [List.find snd]. rewrite Z.eqb_refl. split; [done|]. split.
    + clear -Hx. induction l as [|[q c] l IH]; [done|]. cbn [map snd List.filter app] in *. rewrite Hx by (apply elem_of_cons; by left).
      cbn [negb]. f_equal. apply IH. intros x Hin. apply Hx, elem_of_cons. by right.
    + intros b'. cbn [app map snd]. f_equal. clear -Hx. induction l as [|[q c] l IH]; [done|]. cbn [map snd] in *.
      rewrite Hx by (apply elem_of_cons; by left). f_equal. apply IH. intros x Hin. apply Hx, elem_of_cons. by right.
  - destruct (List.find (fun b0 : block => b_addr b0 =? a) (map snd l)) as [c|].
    + destruct IH as (Hc & l1 & q & l2 & -> & Hf & Hw & He). split; [done|]. exists ((p, b) :: l1), q, l2.
      split; [done|]. rewrite Hf. split; [done|]. cbn [app map snd]. split; [by rewrite <- Hw|]. intros b'. by rewrite <- (He b').
    + destruct IH as [-> Ha']. cbn [List.find snd]. rewrite (proj2 (Z.eqb_neq _ _) Ha). split; [done|]. set_solver.
Qed.

Section Refinement.
Context `{Arch}.

(** ** Conversions to [long] *)

Lemma to_long_eq x y : x mod 2 ^ long_bits = y mod 2 ^ long_bits -> to_long x = to_long y.
Proof. intros E. unfold to_long, ul, uwrap. by rewrite E. Qed.

Lemma to_long_mod x : to_long x mod 2 ^ long_bits = x mod 2 ^ long_bits.
Proof.
  unfold to_long, ul, uwrap. destruct (_ <? _).
  - by rewrite Z.mod_mod by (destruct long_bits_cases as [-> | ->]; lia).
  - rewrite <- (Z.mod_add _ 1) by (destruct long_bits_cases as [-> | ->]; lia).
    rewrite Z.mul_1_l, Z.sub_add, Z.mod_mod; [done|destruct long_bits_cases as [-> | ->]; lia].
Qed.

Lemma to_long_add x y : to_long (to_long x + y) = to_long (x + y).
Proof.
  apply to_long_eq. rewrite Z.add_mod, to_long_mod, <- Z.add_mod; [done|..]; destruct long_bits_cases as [-> | ->]; lia.
Qed.

Lemma to_long_small x : 0 <= x < 2 ^ (long_bits - 1) -> to_long x = x.
Proof.
  intros Hx. unfold to_long, ul, uwrap.
  assert (2 ^ (long_bits - 1) < 2 ^ long_bits) by (destruct long_bits_cases as [-> | ->]; lia).
  rewrite Z.mod_small by lia. by rewrite (proj2 (Z.ltb_lt _ _)) by lia.
Qed.

(** ** The debugger and the ledger *)

Record repr (st : state) (L : ledger) (l : nodes) : Prop := {
  r_live : map snd l = live L;
  r_linked : linked (heads st) (first st) (last st) l;
  r_owned : owned st = list_to_set (map b_addr (live L));
  r_addrs : NoDup (map b_addr (live L));
  r_nonzero : Forall (fun b => b_addr b <> 0) (live L);
  r_mem : memory_cnt st = to_long (in_use (live L) - offset L);
  r_hist : hist_ok (hist st) (histp st) (freed L);
  r_hist_nonzero : Forall (fun e => b_addr e.1 <> 0) (freed L);
  r_depth : length (hist st) = depth L;
  r_counts : malloc_cnt st = cm L /\ calloc_cnt st = cc L /\ realloc_cnt st = cr L /\ free_cnt st = cf L }.

Definition refines (st : state) (L : ledger) : Prop := exists l, repr st L l.

Lemma find_in_heap_spec st L l a : repr st L l ->
  find_in_heap a st = Some (fst <$> List.find (fun n => b_addr n.2 =? a) (rev l)).
Proof.
  intros R. unfold find_in_heap. destruct (r_linked _ _ _ R) as [Hn Hs Hf Hla Hd] eqn:E.
  rewrite (linked_size _ _ _ _ (r_linked _ _ _ R)), Hla. by eapply find_back_spec.
Qed.

Lemma find_in_hist_spec st L l a : repr st L l ->
  find_in_hist a st = Some (List.find (fun x => addr x =? a) (map entry (freed L))).
Proof.
  intros R. unfold find_in_hist. destruct (r_hist _ _ _ R) as [[Hh ->]|Hh].
  { by rewrite bool_decide_eq_true_2. }
  assert (hist st <> []) as Hne by (intros E; rewrite E in Hh; cbn in Hh; destruct Hh as [[? _]|[? [? _]]]; lia).
  rewrite bool_decide_eq_false_2 by done.
  destruct (hist_range_spec st (freed L)) as (p & -> & Hp & Hc & Ht); [by apply (r_hist _ _ _ R)|done|apply (r_hist_nonzero _ _ _ R)|].
  cbn [mbind option_bind]. by rewrite find_hist_loop_spec, Ht.
Qed.

(** ** Allocation *)

(** A block, a header that the system hands out. *)
Definition new_block (buf : option Z) (o : gset Z) : bool :=
  match buf with Some b => negb (b =? 0) && bool_decide (b ∉ o) | None => true end.
Definition new_head (hd : option Z) (st : state) : bool :=
  match hd with Some p => bool_decide (p ∉ dom (heads st)) | None => true end.

Lemma new_block_some b o : new_block (Some b) o = true -> b <> 0 /\ (b ∉ o).
Proof. cbn. intros [Hb Ho]%andb_prop. apply bool_decide_eq_true in Ho. split; [|done]. intros ->. done. Qed.

Definition set_live (L : ledger) (l : list block) : ledger :=
  mk_ledger l (freed L) (depth L) (cm L) (cc L) (cr L) (cf L) (offset L).
Definition set_calls (L : ledger) (m c r f : Z) : ledger :=
  mk_ledger (live L) (freed L) (depth L) m c r f (offset L).

Definition l_allocate (buf hd : option Z) (s : Z) (w : site) (L : ledger) : option Z * ledger :=
  match buf, hd with
  | Some b, Some _ => (buf, set_live L (live L ++ [mk_block b s w]))
  | _, _ => (None, L)
  end.

Lemma in_use_app l k : in_use (l ++ k) = in_use l + in_use k.
Proof. induction l as [|b l IH]; [done|]. cbn [app in_use foldr] in *. unfold in_use in *. cbn. lia. Qed.

Lemma allocate_refines st L buf hd s : refines st L -> new_block buf (owned st) = true -> new_head hd st = true ->
  exists st', allocate buf hd s st = Some ((l_allocate buf hd s (here st) L).1, st') /\
    refines st' (l_allocate buf hd s (here st) L).2.
Proof.
  intros [l R] Hb Hh. unfold allocate. destruct buf as [b|]; [|exists st; split; [done|by exists l]].
  destruct (new_block_some _ _ Hb) as [Hb0 Hbo]. destruct hd as [p|]; cbn [l_allocate fst snd].
  - destruct (add_spec (set_owned st (owned st ∪ {[b]})) p b s l (r_linked _ _ _ R) (proj1 (bool_decide_eq_true _) Hh)) as (h & f & -> & Hl).
    cbn [mbind option_bind]. eexists. split; [done|]. eexists. destruct R as [R1 R2 R3 R4 R5 R6 R7 R8 R9 R10].
    split; cbn -[to_long]; try done; try exact Hl.
    + by rewrite map_app, R1.
    + rewrite R3, map_app, list_to_set_app_L. cbn. by rewrite union_empty_r_L.
    + rewrite map_app. apply NoDup_app. split; [done|]. split; [|apply NoDup_singleton].
      intros a Ha Hab. apply list_elem_of_singleton in Hab as ->. apply Hbo. rewrite R3. by apply elem_of_list_to_set.
    + apply Forall_app. split; [done|]. by constructor.
    + rewrite R6, to_long_add, in_use_app. f_equal. cbn. lia.
  - cbn [add mbind option_bind]. unfold sys_free. cbn [owned set_owned].
    rewrite decide_True by set_solver. eexists. split; [done|]. exists l. destruct R. split; try done.
    cbn. rewrite <- r_owned0. set_solver.
Qed.

(** ** Freeing *)

Definition l_forget (w : site) (b : block) (L : ledger) : ledger :=
  mk_ledger (without (b_addr b) (live L)) (push (depth L) (b, w) (freed L)) (depth L) (cm L) (cc L) (cr L) (cf L) (offset L).

Lemma in_use_split l1 p b (l2 : nodes) : in_use (map snd (l1 ++ (p, b) :: l2)) = in_use (map snd (l1 ++ l2)) + b_size b.
Proof. rewrite !map_app, !in_use_app. cbn. unfold in_use. lia. Qed.

Lemma without_addrs a l : map b_addr (without a l) = List.filter (fun x => negb (x =? a)) (map b_addr l).
Proof. unfold without. induction l as [|b l IH]; [done|]. cbn. destruct (b_addr b =? a); cbn; by rewrite ?IH. Qed.

Lemma free_refines st L b l l1 p l2 : repr st L l -> l = l1 ++ (p, b) :: l2 ->
  without (b_addr b) (live L) = map snd (l1 ++ l2) ->
  exists st', (st' ← del p st; sys_free (b_addr b) st') = Some st' /\ refines st' (l_forget (here st) b L).
Proof.
  intros R -> Hw.
  destruct (unlink_spec st _ _ _ _ (r_linked _ _ _ R)) as (i & h & f & la & E & Hl). unfold del. rewrite E.
  cbn [mbind option_bind]. set (st1 := set_memory _ _).
  assert (exists h' p', remember (head_of b i) st1 = Some (set_hist st1 h' p') /\
    hist_ok h' p' (push (depth L) (b, here st) (freed L)) /\ length h' = depth L) as (h' & p' & -> & Hh & Hd).
  { unfold remember. change (hist st1) with (hist st). change (histp st1) with (histp st). pose proof (r_depth _ _ _ R) as Hd.
    destruct (decide (hist st = [])) as [He|He].
    - rewrite bool_decide_eq_true_2 by done. exists (hist st), (histp st). split; [done|]. split; [|done].
      destruct (r_hist _ _ _ R) as [[_ Hfr]|[(Hx & _)|(_ & Hx & _)]]; [|rewrite He in Hx; cbn in Hx; lia..].
      left. split; [done|]. unfold push. rewrite <- Hd, He, Hfr. done.
    - rewrite bool_decide_eq_false_2 by done.
      destruct (hist_push _ _ _ (b, here st) (r_hist _ _ _ R) He) as [Hlt Hok]. rewrite (proj2 (Nat.ltb_lt _ _) Hlt).
      eexists _, _. split; [done|]. rewrite <- Hd. split; [exact Hok|]. apply length_insert. }
  pose proof R as [R1 R2 R3 R4 R5 R6 R7 R8 R9 R10].
  assert (b ∈ live L) as Hin by (rewrite <- R1, map_app; set_solver).
  cbn [mbind option_bind]. unfold sys_free. cbn [owned set_heads set_hist set_memory set_ends st1].
  rewrite decide_True by (rewrite R3; apply elem_of_list_to_set; by apply list_elem_of_fmap_2).
  eexists. split; [done|]. exists (l1 ++ l2).
  split; cbn -[to_long] in *; try done.
  - rewrite R3, without_addrs. generalize (map b_addr (live L)).
    intros xs. induction xs as [|x xs IH]; [cbn; set_solver|]. cbn. destruct (Z.eqb_spec x (b_addr b)); cbn; set_solver.
  - rewrite without_addrs. apply NoDup_ListNoDup, List.NoDup_filter. by apply NoDup_ListNoDup.
  - apply Forall_forall. intros x Hx. unfold without in Hx. apply list_elem_of_In, filter_In in Hx as [Hx _].
    apply (proj1 (Forall_forall _ _) R5). by apply list_elem_of_In.
  - rewrite R6, Hw, <- R1, in_use_split. rewrite <- Z.add_opp_r, to_long_add. f_equal. unfold in_use. lia.
  - unfold push. apply Forall_drop, Forall_app. split; [done|]. constructor; [|done]. cbn.
    by apply (proj1 (Forall_forall _ _) R5).
Qed.

(** ** A run of the program *)

(** A call, with its place and what the system's functions return in it. *)
Inductive op :=
  | Malloc (w : site) (buf hd : option Z) (s : Z)
  | Calloc (w : site) (buf hd : option Z) (n s : Z)
  | Realloc (w : site) (re new hd : option Z) (buf s : Z)
  | Strdup (w : site) (buf hd : option Z) (str : list Z)
  | Free (w : site) (buf : Z)
  | CheckAddr (w : site) (a opt : Z)
  | HeapDump (w : site) (key : list Z)
  | HistoryDump (w : site) (key : list Z)
  | MemStat (w : site)
  | ZeroStat (w : site).

(** A block a message names, and where it was freed. *)
Definition shown (x : head) : block * option site :=
  (mk_block (addr x) (size x) (at_site x), match h_in x with InFree f => Some f | InList _ _ => None end).

Inductive answer :=
  | Ptr (p : option Z)
  | Copy (p : option Z) (text : list Z)
  | Found (code : Z) (which : option (block * option site))
  | Lines (l : list (list Z))
  | Stat (l : list Z)
  | Nothing.

Definition step (o : op) (st : state) : option (answer * state) :=
  match o with
  | Malloc w buf hd s => '(p, st) ← dbg_malloc buf hd s (FILE_LINE w st); Some (Ptr p, st)
  | Calloc w buf hd n s => '(p, st) ← dbg_calloc buf hd n s (FILE_LINE w st); Some (Ptr p, st)
  | Realloc w re new hd buf s => '(p, st) ← dbg_realloc re new hd buf s (FILE_LINE w st); Some (Ptr p, st)
  | Strdup w buf hd str => '(p, c, st) ← dbg_strdup buf hd str (FILE_LINE w st); Some (Copy p c, st)
  | Free w buf => st ← dbg_free buf (FILE_LINE w st); Some (Nothing, st)
  | CheckAddr w a opt =>
      let st := FILE_LINE w st in
      '(c, x) ← dbg_check_addr a opt st; Some (Found c (shown <$> x), st)
  | HeapDump w key => let st := FILE_LINE w st in l ← dbg_heap_dump key st; Some (Lines l, st)
  | HistoryDump w key => let st := FILE_LINE w st in l ← dbg_history_dump key st; Some (Lines l, st)
  | MemStat w => let st := FILE_LINE w st in Some (Stat (dbg_mem_stat st), st)
  | ZeroStat w => Some (Nothing, dbg_zero_stat (FILE_LINE w st))
  end.

Fixpoint run (ops : list op) (st : state) : option (list answer * state) :=
  match ops with
  | [] => Some ([], st)
  | o :: ops => '(a, st) ← step o st; '(rest, st) ← run ops st; Some (a :: rest, st)
  end.

(** *** The same on the ledger *)

Definition l_free (w : site) (a : Z) (L : ledger) : ledger :=
  let L := set_calls L (cm L) (cc L) (cr L) (cf L + 1) in
  match lookup_block a (live L) with
  | Some b => if a =? 0 then L else l_forget w b L
  | None => L
  end.

Definition l_malloc (buf hd : option Z) (s : Z) (w : site) (L : ledger) : option Z * ledger :=
  l_allocate buf hd s w (set_calls L (cm L + 1) (cc L) (cr L) (cf L)).

Definition l_realloc (re new hd : option Z) (buf s : Z) (w : site) (L : ledger) : option Z * ledger :=
  let L := set_calls L (cm L) (cc L) (cr L + 1) (cf L) in
  if buf =? 0 then l_malloc new hd s w L
  else if s =? 0 then (None, l_free w buf L)
  else match lookup_block buf (live L), re with
    | Some _, Some b => (re, set_live L (exchanged buf (mk_block b s w) (live L)))
    | _, _ => (None, L)
    end.

Definition l_check (a opt : Z) (L : ledger) : answer :=
  match (if opt .& CHK_ALLOC =? 0 then None else lookup_block a (live L)) with
  | Some b => Found CHK_ALLOC (Some (b, None))
  | None =>
      match (if opt .& CHK_FREED =? 0 then None else List.find (fun e => b_addr e.1 =? a) (freed L)) with
      | Some (b, f) => Found CHK_FREED (Some (b, Some f))
      | None => Found 0 None
      end
  end.

Definition matching (key : list Z) (l : list (list Z)) : answer := Lines (List.filter (fun s => strstr s key) l).

Definition l_step (o : op) (L : ledger) : answer * ledger :=
  match o with
  | Malloc w buf hd s => let '(p, L) := l_malloc buf hd s w L in (Ptr p, L)
  | Calloc w buf hd n s =>
      let '(p, L) := l_allocate buf hd (ul (s * n)) w (set_calls L (cm L) (cc L + 1) (cr L) (cf L)) in (Ptr p, L)
  | Realloc w re new hd buf s => let '(p, L) := l_realloc re new hd buf s w L in (Ptr p, L)
  | Strdup w buf hd str =>
      let '(p, L) := l_malloc buf hd (ul (Z.of_nat (length str) + 1)) w L in
      (Copy p match p with Some _ => str ++ [0] | None => [] end, L)
  | Free w buf => (Nothing, l_free w buf L)
  | CheckAddr w a opt => (l_check a opt L, L)
  | HeapDump w key => (matching key (map (fun b => alloc_line (head_of b (InList None None))) (live L)), L)
  | HistoryDump w key => (matching key (map (fun e => free_line (entry e) e.2) (freed L)), L)
  | MemStat w => (Stat [cm L; cc L; cr L; cf L; to_long (in_use (live L) - offset L)], L)
  | ZeroStat w => (Nothing, mk_ledger (live L) (freed L) (depth L) 0 0 0 0 (in_use (live L)))
  end.

Fixpoint l_run (ops : list op) (L : ledger) : list answer * ledger :=
  match ops with
  | [] => ([], L)
  | o :: ops => let '(a, L) := l_step o L in let '(rest, L) := l_run ops L in (a :: rest, L)
  end.

(** The system hands out what is not in use; [realloc] may keep the place; a string
    has a length that is a [size_t]. *)
Definition fresh (o : op) (st : state) : bool :=
  match o with
  | Malloc _ buf hd _ | Calloc _ buf hd _ _ => new_block buf (owned st) && new_head hd st
  | Strdup _ buf hd str => new_block buf (owned st) && new_head hd st && (Z.of_nat (length str) <? 2 ^ long_bits)
  | Realloc _ re new hd buf _ =>
      if buf =? 0 then new_block new (owned st) && new_head hd st else new_block re (owned st ∖ {[buf]})
  | _ => true
  end.

Fixpoint all_fresh (ops : list op) (st : state) : bool :=
  match ops with
  | [] => true
  | o :: ops => fresh o st && match step o st with Some (_, st) => all_fresh ops st | None => true end
  end.

(** *** Simulation *)

Lemma refines_counts st L m c r f : refines st L -> refines (set_counts st m c r f) (set_calls L m c r f).
Proof. intros [l []]. exists l. by split. Qed.

Lemma refines_here st L w : refines st L -> refines (FILE_LINE w st) L.
Proof. intros [l []]. exists l. by split. Qed.

Lemma refines_calls st L : refines st L ->
  malloc_cnt st = cm L /\ calloc_cnt st = cc L /\ realloc_cnt st = cr L /\ free_cnt st = cf L.
Proof. intros [l R]. apply (r_counts _ _ _ R). Qed.

Lemma incr_lt c : c < int_max -> incr c = Some (c + 1).
Proof. intros Hc. unfold incr. by rewrite (proj2 (Z.eqb_neq _ _)) by lia. Qed.

Lemma dbg_malloc_refines st L buf hd s : refines st L -> cm L < int_max ->
  new_block buf (owned st) = true -> new_head hd st = true ->
  exists st', dbg_malloc buf hd s st = Some ((l_malloc buf hd s (here st) L).1, st') /\
    refines st' (l_malloc buf hd s (here st) L).2.
Proof.
  intros R Hc Hb Hh. destruct (refines_calls _ _ R) as (E1 & E2 & E3 & E4). unfold dbg_malloc.
  rewrite E1, E2, E3, E4, (incr_lt _ Hc). cbn [mbind option_bind].
  exact (allocate_refines _ _ buf hd _ (refines_counts _ _ _ _ _ _ R) Hb Hh).
Qed.

Lemma dbg_calloc_refines st L buf hd n s : refines st L -> cc L < int_max ->
  new_block buf (owned st) = true -> new_head hd st = true ->
  let r := l_allocate buf hd (ul (s * n)) (here st) (set_calls L (cm L) (cc L + 1) (cr L) (cf L)) in
  exists st', dbg_calloc buf hd n s st = Some (r.1, st') /\ refines st' r.2.
Proof.
  intros R Hc Hb Hh. destruct (refines_calls _ _ R) as (E1 & E2 & E3 & E4). unfold dbg_calloc.
  rewrite E1, E2, E3, E4, (incr_lt _ Hc). cbn [mbind option_bind].
  exact (allocate_refines _ _ buf hd _ (refines_counts _ _ _ _ _ _ R) Hb Hh).
Qed.

Lemma find_found st L l a : repr st L l -> match lookup_block a (live L) with
  | Some b => b_addr b = a /\ exists l1 p l2, l = l1 ++ (p, b) :: l2 /\ find_in_heap a st = Some (Some p) /\
      without a (live L) = map snd (l1 ++ l2) /\ forall b', exchanged a b' (live L) = map snd (l1 ++ (p, b') :: l2)
  | None => find_in_heap a st = Some None /\ (a ∉ map b_addr (live L))
  end.
Proof.
  intros R. rewrite (find_in_heap_spec _ _ _ _ R). pose proof (r_addrs _ _ _ R) as Hn. rewrite <- (r_live _ _ _ R) in *.
  pose proof (lookup_block_split a l Hn) as Hs. destruct (lookup_block a (map snd l)) as [b|].
  - destruct Hs as (Hb & l1 & p & l2 & El & -> & Hw & He). split; [done|]. by exists l1, p, l2.
  - destruct Hs as [-> Ha]. done.
Qed.

Lemma find_entry a l : List.find (fun x => addr x =? a) (map entry l) = entry <$> List.find (fun e => b_addr e.1 =? a) l.
Proof. induction l as [|e l IH]; [done|]. cbn. by destruct (b_addr e.1 =? a). Qed.

Lemma dbg_check_addr_refines st L a opt : refines st L ->
  exists c x, dbg_check_addr a opt st = Some (c, x) /\ Found c (shown <$> x) = l_check a opt L.
Proof.
  intros [l R]. unfold dbg_check_addr, l_check. pose proof (find_found _ _ _ a R) as Hf.
  rewrite (find_in_hist_spec _ _ _ _ R), find_entry.
  destruct (opt .& CHK_ALLOC =? 0); [|destruct (lookup_block a (live L)) as [b|]].
  2: { destruct Hf as (Hb & l1 & p & l2 & -> & -> & _). cbn [mbind option_bind].
       pose proof (l_seg _ _ _ _ (r_linked _ _ _ R)) as [_ [Hp _]]%dseg_app. rewrite Hp. eexists _, _. split; [done|]. by destruct b. }
  2: destruct Hf as [-> _].
  all: cbn [mbind option_bind]; destruct (opt .& CHK_FREED =? 0); [by eexists _, _|].
  all: destruct (List.find _ (freed L)) as [[b f]|]; cbn; eexists _, _; (split; [done|]); first [done|by destruct b].
Qed.

Lemma dbg_free_refines st L a : refines st L -> cf L < int_max ->
  exists st', dbg_free a st = Some st' /\ refines st' (l_free (here st) a L).
Proof.
  intros R Hc. destruct (refines_calls _ _ R) as (E1 & E2 & E3 & E4). unfold dbg_free, l_free.
  rewrite E1, E2, E3, E4, (incr_lt _ Hc). cbn [mbind option_bind].
  apply (refines_counts _ _ (cm L) (cc L) (cr L) (cf L + 1)) in R.
  set (st1 := set_counts st _ _ _ _) in *. set (L1 := set_calls L _ _ _ _) in *. change (here st) with (here st1).
  pose proof R as [l Rl]. pose proof (find_found _ _ _ a Rl) as Hf.
  destruct (a =? 0); [destruct (lookup_block a _); by eexists|].
  destruct (lookup_block a (live L1)) as [b|].
  - destruct Hf as (<- & l1 & p & l2 & El & -> & Hw & _). cbn [mbind option_bind]. by eapply free_refines.
  - destruct Hf as [-> _]. cbn [mbind option_bind]. destruct (dbg_check_addr_refines _ _ a CHK_FREED R) as (c & x & -> & _).
    by eexists.
Qed.

(** The block gives way to the one [realloc] returns, in its place of the list. *)
Lemma replace_refines st L l l1 p b l2 c s : repr st L l -> l = l1 ++ (p, b) :: l2 ->
  (forall b', exchanged (b_addr b) b' (live L) = map snd (l1 ++ (p, b') :: l2)) ->
  new_block (Some c) (owned st ∖ {[b_addr b]}) = true ->
  exists st', (st' ← sys_free (b_addr b) st; replace p c s (set_owned st' (owned st' ∪ {[c]}))) = Some st' /\
    refines st' (set_live L (exchanged (b_addr b) (mk_block c s (here st)) (live L))).
Proof.
  intros [R1 R2 R3 R4 R5 R6 R7 R8 R9 R10] -> He [Hc0 Hco]%new_block_some.
  assert (owned st = list_to_set (map b_addr (map snd (l1 ++ (p, b) :: l2)))) as Ho by (by rewrite R1).
  rewrite <- R1 in R4, R5. rewrite !map_app in *. cbn [map snd] in *. rewrite list_to_set_app_L in Ho. cbn in Ho.
  unfold sys_free. rewrite decide_True by set_solver. cbn [mbind option_bind].
  destruct (replace_spec (set_owned (set_owned st (owned st ∖ {[b_addr b]})) (owned st ∖ {[b_addr b]} ∪ {[c]}))
    l1 p b l2 c s R2) as (h & E & Hl). change (owned (set_owned _ ?o)) with o. rewrite E.
  eexists. split; [done|]. exists (l1 ++ (p, mk_block c s (here st)) :: l2).
  apply NoDup_app in R4 as (Hn1 & Hn2 & [Hn3 Hn4]%NoDup_cons).
  apply Forall_app in R5 as [Hz1 [_ Hz2]%Forall_cons].
  rewrite He. split; cbn -[to_long]; try done.
  - rewrite !map_app. cbn. rewrite list_to_set_app_L. cbn. set_solver.
  - rewrite !map_app. cbn. apply NoDup_app. split; [done|]. rewrite NoDup_cons. set_solver.
  - rewrite map_app. cbn. apply Forall_app. split; [done|]. by constructor.
  - rewrite to_long_add, R6, <- R1, <- Z.add_sub_swap, <- Z.add_sub_assoc, to_long_add.
    rewrite !map_app, !in_use_app. cbn. f_equal. lia.
Qed.

Lemma dbg_realloc_refines st L re new hd buf s : refines st L -> cm L < int_max -> cr L < int_max -> cf L < int_max ->
  (if buf =? 0 then new_block new (owned st) && new_head hd st else new_block re (owned st ∖ {[buf]})) = true ->
  exists st', dbg_realloc re new hd buf s st = Some ((l_realloc re new hd buf s (here st) L).1, st') /\
    refines st' (l_realloc re new hd buf s (here st) L).2.
Proof.
  intros R Hm Hr Hf Hnew. destruct (refines_calls _ _ R) as (E1 & E2 & E3 & E4). unfold dbg_realloc, l_realloc.
  rewrite E1, E2, E3, E4, (incr_lt _ Hr). cbn [mbind option_bind].
  apply (refines_counts _ _ (cm L) (cc L) (cr L + 1) (cf L)) in R.
  change (owned st) with (owned (set_counts st (cm L) (cc L) (cr L + 1) (cf L))) in Hnew.
  change (new_head hd st) with (new_head hd (set_counts st (cm L) (cc L) (cr L + 1) (cf L))) in Hnew.
  change (cm L) with (cm (set_calls L (cm L) (cc L) (cr L + 1) (cf L))) in Hm.
  change (cf L) with (cf (set_calls L (cm L) (cc L) (cr L + 1) (cf L))) in Hf.
  change (here st) with (here (set_counts st (cm L) (cc L) (cr L + 1) (cf L))).
  set (st1 := set_counts st _ _ _ _) in *. set (L1 := set_calls L _ _ _ _) in *.
  destruct (buf =? 0); [apply andb_prop in Hnew as [Hb Hh]; by apply dbg_malloc_refines|].
  destruct (s =? 0).
  { destruct (dbg_free_refines _ _ buf R Hf) as (st' & -> & R'). by exists st'. }
  pose proof R as [l Rl]. pose proof (find_found _ _ _ buf Rl) as Hfound.
  destruct (lookup_block buf (live L1)) as [b|].
  - destruct Hfound as (<- & l1 & p & l2 & El & -> & _ & He). cbn [mbind option_bind].
    destruct re as [c|]; [|by exists st1].
    destruct (replace_refines _ _ _ _ _ _ _ c s Rl El He Hnew) as (st' & E & R').
    destruct (sys_free (b_addr b) st1) as [st2|]; [|done]. cbn [mbind option_bind] in E |- *. rewrite E. by exists st'.
  - destruct Hfound as [-> _]. cbn [mbind option_bind].
    destruct (dbg_check_addr_refines _ _ buf CHK_FREED R) as (c & x & -> & _). by exists st1.
Qed.

Lemma dbg_heap_dump_refines st L key : refines st L ->
  (l ← dbg_heap_dump key st; Some (Lines l)) =
  Some (matching key (map (fun b => alloc_line (head_of b (InList None None))) (live L))).
Proof.
  intros [l [R1 R2 _ _ _ _ _ _ _ _]]. unfold dbg_heap_dump. rewrite (linked_size _ _ _ _ R2).
  destruct R2 as [_ Hs -> _ _]. rewrite (dump_spec _ _ _ _ _ Hs) by done. rewrite <- R1. unfold matching. by rewrite List.map_map.
Qed.

Lemma dbg_history_dump_refines st L key : refines st L ->
  (l ← dbg_history_dump key st; Some (Lines l)) =
  Some (matching key (map (fun e => free_line (entry e) e.2) (freed L))).
Proof.
  intros [l R]. unfold dbg_history_dump. destruct (r_hist _ _ _ R) as [[Hh ->]|Hh].
  { by rewrite bool_decide_eq_true_2. }
  assert (hist st <> []) as Hne by (intros E; rewrite E in Hh; cbn in Hh; destruct Hh as [[? _]|[? [? _]]]; lia).
  rewrite bool_decide_eq_false_2 by done.
  destruct (hist_range_spec st (freed L)) as (p & -> & Hp & Hc & Ht); [by apply (r_hist _ _ _ R)|done|apply (r_hist_nonzero _ _ _ R)|].
  cbn [mbind option_bind]. by rewrite (hist_dump_loop_spec _ _ _ _ (freed L)).
Qed.

(** The counters stay below the number of calls. *)
Definition below (k : Z) (L : ledger) : Prop := cm L <= k /\ cc L <= k /\ cr L <= k /\ cf L <= k.

Lemma l_allocate_calls buf hd s w L : let L' := (l_allocate buf hd s w L).2 in
  cm L' = cm L /\ cc L' = cc L /\ cr L' = cr L /\ cf L' = cf L.
Proof. by destruct buf, hd. Qed.

Lemma l_free_calls w a L : let L' := l_free w a L in
  cm L' = cm L /\ cc L' = cc L /\ cr L' = cr L /\ cf L' = cf L + 1.
Proof. unfold l_free. cbn zeta. destruct (lookup_block _ _); [destruct (a =? 0)|]; done. Qed.

Lemma l_step_below k o L : 0 <= k -> below k L -> below (k + 1) (l_step o L).2.
Proof.
  unfold below. intros Hk HL.
  pose proof (fun a b c d => l_allocate_calls a b c d (set_calls L (cm L + 1) (cc L) (cr L) (cf L))) as Ha.
  pose proof (fun a b c d => l_allocate_calls a b c d (set_calls L (cm L) (cc L + 1) (cr L) (cf L))) as Hb.
  pose proof (fun a b c d => l_allocate_calls a b c d (set_calls L (cm L + 1) (cc L) (cr L + 1) (cf L))) as Hc.
  pose proof (fun w a => l_free_calls w a (set_calls L (cm L) (cc L) (cr L + 1) (cf L))) as Hf.
  pose proof (fun w a => l_free_calls w a L) as Hg.
  destruct o; cbn [l_step snd]; unfold l_malloc; try (cbn; lia).
  - specialize (Ha buf hd s w). destruct (l_allocate _ _ _ _ _). cbn in *. lia.
  - specialize (Hb buf hd (ul (s * n)) w). destruct (l_allocate _ _ _ _ _). cbn in *. lia.
  - unfold l_realloc. cbn zeta. destruct (buf =? 0).
    + specialize (Hc new hd s w). unfold l_malloc. cbn [cm cc cr cf set_calls] in *. destruct (l_allocate _ _ _ _ _). cbn in *. lia.
    + destruct (s =? 0); [specialize (Hf w buf); cbn in *; lia|]. destruct (lookup_block _ _); [destruct re|]; cbn; lia.
  - specialize (Ha buf hd (ul (Z.of_nat (length str) + 1)) w). destruct (l_allocate _ _ _ _ _). cbn in *. lia.
  - specialize (Hg w buf). cbn in *. lia.
Qed.

Lemma step_refines st L o : refines st L -> below (int_max - 1) L -> fresh o st = true ->
  exists st', step o st = Some ((l_step o L).1, st') /\ refines st' (l_step o L).2.
Proof.
  intros R (Hm & Hc & Hr & Hf) Hnew. destruct o as [w buf hd s|w buf hd n s|w re new hd buf s|w buf hd str|w buf|w a opt|w key|w key|w|w];
    cbn [step l_step fresh] in *; apply (refines_here _ _ w) in R.
  - apply andb_prop in Hnew as [Hb Hh].
    destruct (dbg_malloc_refines _ _ _ _ s R ltac:(lia) Hb Hh) as (st' & -> & R'). exists st'. by destruct (l_malloc _ _ _ _ _).
  - apply andb_prop in Hnew as [Hb Hh].
    destruct (dbg_calloc_refines _ _ _ _ n s R ltac:(lia) Hb Hh) as (st' & -> & R'). exists st'. by destruct (l_allocate _ _ _ _ _).
  - destruct (dbg_realloc_refines _ _ _ _ _ _ s R ltac:(lia) ltac:(lia) ltac:(lia) Hnew) as (st' & -> & R').
    exists st'. by destruct (l_realloc _ _ _ _ _ _ _).
  - apply andb_prop in Hnew as [[Hb Hh]%andb_prop Hs%Z.ltb_lt]. unfold dbg_strdup, dbg_strndup.
    rewrite (proj2 (Z.ltb_ge _ _)) by lia.
    destruct (dbg_malloc_refines _ _ _ _ (ul (Z.of_nat (length str) + 1)) R ltac:(lia) Hb Hh) as (st' & -> & R').
    rewrite Nat2Z.id, firstn_all. exists st'. by destruct (l_malloc _ _ _ _ _).
  - destruct (dbg_free_refines _ _ buf R ltac:(lia)) as (st' & -> & R'). by exists st'.
  - destruct (dbg_check_addr_refines _ _ a opt R) as (c & x & -> & E). eexists. split; [cbn; by rewrite E|done].
  - pose proof (dbg_heap_dump_refines _ _ key R) as E. destruct (dbg_heap_dump _ _); [|done]. injection E as E.
    eexists. split; [cbn; by rewrite E|done].
  - pose proof (dbg_history_dump_refines _ _ key R) as E. destruct (dbg_history_dump _ _); [|done]. injection E as E.
    eexists. split; [cbn; by rewrite E|done].
  - eexists. split; [|exact R]. destruct R as [l R]. destruct (r_counts _ _ _ R) as (E1 & E2 & E3 & E4).
    unfold dbg_mem_stat. rewrite E1, E2, E3, E4, (r_mem _ _ _ R). done.
  - eexists. split; [done|]. destruct R as [l []]. exists l. split; cbn -[to_long]; try done.
    rewrite Z.sub_diag. by rewrite to_long_small by (destruct long_bits_cases as [-> | ->]; lia).
Qed.

Lemma run_refines ops : forall st L k, 0 <= k -> k + Z.of_nat (length ops) <= int_max -> refines st L -> below k L ->
  all_fresh ops st = true ->
  exists st', run ops st = Some ((l_run ops L).1, st') /\ refines st' (l_run ops L).2.
Proof.
  induction ops as [|o ops IH]; intros st L k Hk Hlen R Hb Hnew; [by exists st|].
  cbn [length all_fresh] in *. apply andb_prop in Hnew as [Ho Hops].
  destruct (step_refines st L o R) as (st1 & E & R1); [unfold below in *; lia|done|].
  rewrite E in Hops. cbn [run l_run]. rewrite E. cbn [mbind option_bind].
  pose proof (l_step_below k o L Hk Hb) as Hb1. destruct (l_step o L) as [a L1].
  destruct (IH st1 L1 (k + 1)) as (st2 & -> & R2); [lia|lia|done|done|done|].
  exists st2. by destruct (l_run ops L1).
Qed.

Definition l_init (n : nat) : ledger := mk_ledger [] [] n 0 0 0 0 0.

Lemma dbg_init_refines n st : dbg_init n true at_start = Some st -> refines st (l_init n).
Proof.
  assert (to_long (0 - 0) = 0) as E0 by (apply to_long_small; destruct long_bits_cases as [-> | ->]; lia).
  intros E. exists []. unfold dbg_init in E. destruct (Nat.eqb_spec n 0) as [->|Hn]; injection E as <-;
    (split; cbn -[to_long]; [done|split; try done; constructor|done|constructor|done|by rewrite E0| |done| |done]).
  - by left.
  - done.
  - right. left. rewrite length_replicate. cbn. split_and!; [lia|done|]. by rewrite Nat.sub_0_r.
  - apply length_replicate.
Qed.

(** C16: The memory debugger refines its ledger.  Take any history length, any
    sequence of [malloc], [calloc], [realloc], [strdup], [free], address checks, dumps and
    statistics, in which the system hands out blocks and headers that are not in
    use ([realloc] may keep the place), fails whenever it likes, and the program
    frees and reallocates what it likes, wild pointers and freed ones included.
    Then no call touches memory that is not a header or frees a block twice, all
    answers are those of the ledger (the blocks alive in the order of their
    allocation, the last freed ones the oldest first, the byte count modulo the
    width of a [long]), and at the end the linked list, the circular array and
    the counters hold the contents of the ledger. *)
Theorem memleak_refines n st ops : dbg_init n true at_start = Some st -> all_fresh ops st = true ->
  Z.of_nat (length ops) <= int_max ->
  exists st', run ops st = Some ((l_run ops (l_init n)).1, st') /\ refines st' (l_run ops (l_init n)).2.
Proof.
  intros Hi Hf Hl. apply (run_refines _ _ _ 0); [done|done|by apply dbg_init_refines|done|done].
Qed.

End Refinement.

(** *** A program that leaks *)

Definition main_c (n : Z) : site := mk_site (text "main.c") n.
Definition a_run : list op :=
  [Malloc (main_c 1) (Some 1000) (Some 5000) 10; Calloc (main_c 2) (Some 2000) (Some 6000) 3 4;
   Realloc (main_c 3) (Some 3000) None None 1000 20; Free (main_c 4) 2000; Free (main_c 5) 2000; Free (main_c 6) 77;
   Malloc (main_c 7) (Some 2000) None 8; Realloc (main_c 8) None (Some 1000) (Some 6000) 0 5; Free (main_c 9) 1000;
   CheckAddr (main_c 10) 1000 CHK_ALL; CheckAddr (main_c 11) 3000 CHK_ALL; HeapDump (main_c 12) []; HistoryDump (main_c 13) (text "8");
   MemStat (main_c 14); ZeroStat (main_c 15); Strdup (main_c 15) (Some 4000) (Some 7000) (text "ab"); MemStat (main_c 16)].

Definition a_start : state :=
  mk_state (mk_site [] 0) 0 0 0 0 0 ∅ None None (replicate 2 zero_head) 0 ∅.

Lemma memleak_refines_witness :
  (exists st', run (H := lp64) a_run a_start = Some ((l_run (H := lp64) a_run (l_init 2)).1, st') /\
     refines (H := lp64) st' (l_run (H := lp64) a_run (l_init 2)).2) /\
  map (fun b => (b_addr b, b_size b)) (live (l_run (H := lp64) a_run (l_init 2)).2) = [(3000, 20); (4000, 3)] /\
  List.nth 13 (l_run (H := lp64) a_run (l_init 2)).1 Nothing = Stat [3; 1; 2; 4; 20] /\
  List.nth 11 (l_run (H := lp64) a_run (l_init 2)).1 Nothing = Lines [text "(alloc: main.c:3 size: 20)" ++ [LF]].
Proof.
  split; [|vm_compute; repeat split; reflexivity].
  apply (memleak_refines (H := lp64) 2); [reflexivity|vm_compute; reflexivity|vm_compute; discriminate].
Defined.

(** [s *= n] wraps: a program that asks for 2^64 bytes gets a block of none. *)
Lemma calloc_wraps : exists st, dbg_calloc (H := lp64) (Some 1000) (Some 5000) (2 ^ 33) (2 ^ 31) a_start = Some (Some 1000, st) /\
  (size <$> heads st !! 5000) = Some 0.
Proof. eexists. split; vm_compute; reflexivity. Qed.

(** Of an address freed twice, the first [free] is the one reported. *)
Lemma oldest_free_reported : exists st,
  run (H := lp64) [Malloc (main_c 1) (Some 1000) (Some 5000) 8; Free (main_c 2) 1000; Malloc (main_c 3) (Some 1000) (Some 5000) 8;
    Free (main_c 4) 1000; CheckAddr (main_c 5) 1000 CHK_FREED] a_start =
  Some ([Ptr (Some 1000); Nothing; Ptr (Some 1000); Nothing;
    Found CHK_FREED (Some (mk_block 1000 8 (main_c 1), Some (main_c 2)))], st).
Proof. eexists. vm_compute. reflexivity. Qed.
