(* ===== verification/Talk.v ===== *)
(** * The talk server and its client (src/others/network/udp/homework)

    tcptalk.c: the main thread accepts connections and appends them to an
    array, a second thread polls the array and sends what one client says to
    all.  A mutex guards the array.  Each thread is cut into the steps between
    its lock operations; a schedule is any list of steps of the two, with what
    the system calls return in them.  A write outside an array is a fault.

    The theorem: whatever the schedule, the array is the list of those who
    joined and did not leave, and every client is sent exactly what was said
    while it was there, in order.

    client.c follows at the end. *)

From stdpp Require Import gmap.
From S2P Require Import Prelude CStr.

#[local] Set Warnings "-clear-no-such-hyp".

(** ** The array *)

Definition MSG_SIZE : nat := 1024.

(** What [realloc] does is an argument: it may fail. *)
Definition tail_append (ok : bool) (h : list Z) (fd : Z) : Z * list Z :=
  if ok then (0, h ++ [fd]) else (-1, h).

(** [memmove], then the array shrinks; when it does not, its last entry stays. *)
Definition del_array (ok : bool) (h : list Z) (index : nat) : list Z :=
  let moved := take index h ++ drop (S index) h in
  if negb ok && (1 <? length h)%nat then moved ++ drop (length h - 1) h else moved.

Section Server.
Context (inet_ntoa : Z -> list Z).   (* the address of the peer of a socket, as text *)

(** ** What is said and what is heard *)

Definition snprintf (size : nat) (s : list Z) : list Z := take (size - 1) s ++ [0].
Definition red : list Z := [27] ++ text "[31m".
Definition plain : list Z := [27] ++ text "[0m".

(** The message that is sent for what the client at [fd] said. *)
Definition message (fd : Z) (bytes : list Z) : option (list Z) :=
  s ← cstr (bytes ++ [0]);
  cstr (snprintf MSG_SIZE (red ++ inet_ntoa fd ++ plain ++ [LF] ++ text "  " ++ s)).

(** What [recv] returns. *)
Inductive answer := Data (bytes : list Z) | Failed.

(** What happens in the room. *)
Inductive room := Join (fd : Z) | Leave (fd : Z) | Say (fd : Z) (bytes : list Z).

(** The loop of [do_work] from index [i]; [evs] has an answer for every entry
    that [poll] marked. *)
Fixpoint do_loop (evs : list (option answer)) (shrink : bool) (i : nat) (h : list Z) (out : list (Z * list Z))
    : option (list Z * list (Z * list Z) * list room) :=
  match evs with
  | [] => Some (h, out, [])
  | e :: evs =>
      match h !! i with
      | None => Some (h, out, [])
      | Some fd =>
          match e with
          | None => do_loop evs shrink (S i) h out
          | Some Failed => None                                   (* buf[-1] = 0 *)
          | Some (Data []) => Some (del_array shrink h i, out, [Leave fd])
          | Some (Data bytes) =>
              if (MSG_SIZE <=? length bytes)%nat then None        (* buf[1024] = 0 *)
              else
                msg ← message fd bytes;
                '(h, out, tr) ← do_loop evs shrink (S i) h (out ++ map (fun g => (g, msg)) h);
                Some (h, out, Say fd bytes :: tr)
          end
      end
  end.

(** ** The threads *)

Inductive thread := Main | Work.
Inductive main_pc := MAccept | MLock (fd : Z) | MAppend (fd : Z) | MUnlock.
Inductive work_pc := WLock | WPoll | WUnlock.

Record state := mk_state {
  fds : list Z;                       (* h->ptr, h->n *)
  mutex : option thread;
  at_main : main_pc; at_work : work_pc;
  opened : gset Z;
  sent : list (Z * list Z) }.

(** [init_socket]: the result, and the sockets that stay open. *)
Definition init_socket (sfd : Z) (bound listening : bool) : Z * gset Z :=
  if sfd =? -1 then (-1, ∅)
  else if negb bound then (-2, {[sfd]})
  else if negb listening then (-3, {[sfd]})
  else (sfd, {[sfd]}).

(** [main] up to its loop: the result of a failed start, or the first state. *)
Definition start (sfd : Z) (bound listening created : bool) : Z + state :=
  let '(r, o) := init_socket sfd bound listening in
  if r <? 0 then inl 1
  else if negb created then inl 2
  else inr (mk_state [] None MAccept WLock o []).

Inductive label :=
  | Accept (got : option Z) | LockMain | Append (grow : bool) | UnlockMain
  | LockWork | Poll (evs : list (option answer)) (shrink : bool) | UnlockWork.

Inductive outcome := Next (s : state) (tr : list room) | Blocked | Fault.

(** A turn of the loop of [main]. *)
Definition main_step (l : label) (s : state) : outcome :=
  let go f m pc o tr := Next (mk_state f m pc (at_work s) o (sent s)) tr in
  match l, at_main s with
  | Accept None, MAccept => Next s []
  | Accept (Some fd), MAccept => go (fds s) (mutex s) (MLock fd) (opened s ∪ {[fd]}) []
  | LockMain, MLock fd =>
      match mutex s with
      | None => go (fds s) (Some Main) (MAppend fd) (opened s) []
      | Some _ => Blocked
      end
  | Append grow, MAppend fd =>
      let '(ret, h) := tail_append grow (fds s) fd in
      if negb (ret =? 0) then go h (mutex s) MUnlock (opened s ∖ {[fd]}) []
      else go h (mutex s) MUnlock (opened s) [Join fd]
  | UnlockMain, MUnlock => go (fds s) None MAccept (opened s) []
  | _, _ => Blocked
  end.

(** A turn of the loop of [do_work]. *)
Definition do_work (l : label) (s : state) : outcome :=
  let go f m pc out tr := Next (mk_state f m (at_main s) pc (opened s) out) tr in
  match l, at_work s with
  | LockWork, WLock =>
      match mutex s with
      | None => go (fds s) (Some Work) WPoll (sent s) []
      | Some _ => Blocked
      end
  | Poll evs shrink, WPoll =>
      match do_loop evs shrink 0 (fds s) (sent s) with
      | Some (h, out, tr) => go h (mutex s) WUnlock out tr
      | None => Fault
      end
  | UnlockWork, WUnlock => go (fds s) None WLock (sent s) []
  | _, _ => Blocked
  end.

Definition step (l : label) (s : state) : outcome :=
  match l with
  | LockWork | Poll _ _ | UnlockWork => do_work l s
  | _ => main_step l s
  end.

(** A step that cannot be taken is left out. *)
Fixpoint run (ls : list label) (s : state) : option (state * list room) :=
  match ls with
  | [] => Some (s, [])
  | l :: ls =>
      match step l s with
      | Next s tr => '(s, rest) ← run ls s; Some (s, tr ++ rest)
      | Blocked => run ls s
      | Fault => None
      end
  end.

(** ** The room *)

Definition apply_room (h : list Z) (e : room) : list Z :=
  match e with
  | Join fd => h ++ [fd]
  | Leave fd => List.filter (fun g => negb (g =? fd)) h
  | Say _ _ => h
  end.
Definition members (h : list Z) (tr : list room) : list Z := foldl apply_room h tr.

(** The messages for [fd], which is in the room at the beginning or not. *)
Fixpoint heard (fd : Z) (inside : bool) (tr : list room) : list (list Z) :=
  match tr with
  | [] => []
  | Join g :: tr => heard fd (inside || (g =? fd)) tr
  | Leave g :: tr => heard fd (inside && negb (g =? fd)) tr
  | Say g bytes :: tr => (if inside then default [] (message g bytes) :: heard fd inside tr else heard fd inside tr)
  end.

Definition sent_to (fd : Z) (out : list (Z * list Z)) : list (list Z) := map snd (List.filter (fun m => m.1 =? fd) out).

(** What the system does: a new connection has a number that is not in use, a
    piece is shorter than the buffer, the array can shrink. *)
Definition short (e : option answer) : bool :=
  match e with None => true | Some (Data bytes) => (length bytes <? MSG_SIZE)%nat | Some Failed => false end.
Definition good (l : label) (s : state) : bool :=
  match l with
  | Accept (Some fd) => bool_decide (fd ∉ opened s)
  | Poll evs shrink => forallb short evs && shrink
  | _ => true
  end.
Fixpoint all_good (ls : list label) (s : state) : bool :=
  match ls with
  | [] => true
  | l :: ls => good l s && match step l s with Next s _ => all_good ls s | Blocked => all_good ls s | Fault => true end
  end.

(** *** Lemmas *)

Lemma members_app h a b : members h (a ++ b) = members (members h a) b.
Proof. apply foldl_app. Qed.

Lemma sent_to_app fd a b : sent_to fd (a ++ b) = sent_to fd a ++ sent_to fd b.
Proof. unfold sent_to. by rewrite List.filter_app, map_app. Qed.

Lemma sent_to_all fd msg h : NoDup h ->
  sent_to fd (map (fun g => (g, msg)) h) = if bool_decide (fd ∈ h) then [msg] else [].
Proof.
  unfold sent_to. induction h as [|g h IH]; [done|]. intros [Hg Hn]%NoDup_cons. cbn [map List.filter fst].
  specialize (IH Hn). destruct (Z.eqb_spec g fd) as [->|Hne].
  - rewrite (bool_decide_eq_true_2 (fd ∈ fd :: h)) by (by left). cbn [map snd]. rewrite IH.
    by rewrite bool_decide_eq_false_2.
  - rewrite IH, (bool_decide_ext (fd ∈ g :: h) (fd ∈ h)); [done|].
    split; [by intros [->|?]%elem_of_cons|by right].
Qed.

Lemma message_total fd bytes : exists msg, message fd bytes = Some msg.
Proof.
  unfold message. destruct (cstr_total (bytes ++ [0])) as [s ->]; [set_solver|]. cbn [mbind option_bind].
  apply cstr_total. unfold snprintf. set_solver.
Qed.

(** Who is in the room afterwards. *)
Lemma inside_members fd h e : bool_decide (fd ∈ apply_room h e) = match e with
  | Join g => bool_decide (fd ∈ h) || (g =? fd)
  | Leave g => bool_decide (fd ∈ h) && negb (g =? fd)
  | Say _ _ => bool_decide (fd ∈ h)
  end.
Proof.
  clear inet_ntoa. destruct e as [g|g|g bytes]; cbn [apply_room]; [| |done]; apply eq_bool_prop_intro;
    rewrite bool_decide_spec, ?orb_True, ?andb_True, ?negb_True, bool_decide_spec, Is_true_true, Z.eqb_eq.
  - set_solver.
  - rewrite list_elem_of_In, filter_In, <- list_elem_of_In, negb_true_iff, Z.eqb_neq. naive_solver.
Qed.

Lemma heard_app fd a : forall h b,
  heard fd (bool_decide (fd ∈ h)) (a ++ b) =
  heard fd (bool_decide (fd ∈ h)) a ++ heard fd (bool_decide (fd ∈ members h a)) b.
Proof.
  induction a as [|e a IH]; intros h b; [done|]. cbn [app members foldl]. fold (members (apply_room h e) a).
  pose proof (inside_members fd h e) as Hi.
  destruct e as [g|g|g bytes]; cbn [heard]; rewrite <- Hi; try apply IH.
  specialize (IH h b). cbn [apply_room] in *. destruct (bool_decide (fd ∈ h)); [|done]. by rewrite IH.
Qed.

Lemma heard_on fd tr e :
  heard fd false (tr ++ e) = heard fd false tr ++ heard fd (bool_decide (fd ∈ members [] tr)) e.
Proof.
  pose proof (heard_app fd tr [] e) as E. rewrite (bool_decide_eq_false_2 (fd ∈ [])) in E; [done|].
  apply not_elem_of_nil.
Qed.

(** Removing the entry at an index. *)
Lemma del_array_leave h i fd : NoDup h -> h !! i = Some fd -> del_array true h i = apply_room h (Leave fd).
Proof.
  intros Hn Hi. unfold del_array. cbn [negb andb apply_room].
  rewrite <- (take_drop_middle h i fd Hi) at 3. rewrite <- (take_drop_middle h i fd Hi) in Hn.
  apply NoDup_app in Hn as (_ & H1 & [H2 _]%NoDup_cons).
  rewrite List.filter_app. cbn [List.filter]. rewrite Z.eqb_refl. cbn [negb].
  rewrite !forallb_filter_id; [done|..]; apply forallb_forall; intros x Hx%list_elem_of_In; apply negb_true_iff, Z.eqb_neq; intros ->.
  - done.
  - apply (H1 fd Hx). by left.
Qed.

Lemma leave_nodup h fd : NoDup h -> NoDup (apply_room h (Leave fd)).
Proof. cbn [apply_room]. rewrite !NoDup_ListNoDup. apply List.NoDup_filter. Qed.

(** A pass over the array does to the room what its trace says. *)
Lemma do_loop_spec evs : forall i h out, NoDup h -> forallb short evs = true ->
  exists h' out' tr, do_loop evs true i h out = Some (h', out', tr) /\ h' = members h tr /\ NoDup h' /\ (h' ⊆ h) /\
    forall fd, sent_to fd out' = sent_to fd out ++ heard fd (bool_decide (fd ∈ h)) tr.
Proof.
  induction evs as [|e evs IH]; intros i h out Hn Hs; cbn [do_loop].
  { exists h, out, []. split_and!; try done. intros fd. by rewrite app_nil_r. }
  cbn [forallb] in Hs. apply andb_prop in Hs as [He Hs]. destruct (h !! i) as [fd|] eqn:Hi.
  2: { exists h, out, []. split_and!; try done. intros fd. by rewrite app_nil_r. }
  destruct e as [[[|c bytes]|]|]; [| |done|by apply IH].
  - exists (del_array true h i), out, [Leave fd]. rewrite (del_array_leave _ _ _ Hn Hi). split_and!; [done|done|by apply leave_nodup| |].
    + intros x Hx. cbn in Hx. apply list_elem_of_In, filter_In in Hx as [Hx _]. by apply list_elem_of_In.
    + intros g. by rewrite app_nil_r.
  - cbn [short] in He. rewrite (proj2 (Nat.leb_gt _ _)) by (by apply Nat.ltb_lt).
    destruct (message_total fd (c :: bytes)) as [msg Hm]. rewrite Hm. cbn [mbind option_bind].
    destruct (IH (S i) h (out ++ map (fun g => (g, msg)) h) Hn Hs) as (h' & out' & tr & -> & Hh & Hn' & Hsub & Hout).
    exists h', out', (Say fd (c :: bytes) :: tr). split_and!; [done|done|done|done|]. intros g.
    rewrite Hout, sent_to_app, (sent_to_all _ _ _ Hn), <- app_assoc. f_equal. cbn [heard]. rewrite Hm.
    by destruct (bool_decide (g ∈ h)).
Qed.

(** ** The invariant *)

Definition waiting (s : state) : option Z :=
  match at_main s with MLock fd | MAppend fd => Some fd | MAccept | MUnlock => None end.

(** The mutex is held by the thread whose steps are between lock and unlock, so
    there is at most one. *)
Definition exclusive (s : state) : Prop :=
  (mutex s = Some Main <-> match at_main s with MAppend _ | MUnlock => True | MAccept | MLock _ => False end) /\
  (mutex s = Some Work <-> at_work s <> WLock).

Record inv (s : state) (tr : list room) : Prop := {
  i_members : fds s = members [] tr;
  i_nodup : NoDup (fds s);
  i_opened : forall fd, fd ∈ fds s -> fd ∈ opened s;
  i_waiting : forall fd, waiting s = Some fd -> fd ∈ opened s /\ (fd ∉ fds s);
  i_sent : forall fd, sent_to fd (sent s) = heard fd false tr;
  i_mutex : exclusive s }.

Lemma inv_quiet s tr fs m pm pw o : inv s tr -> fs = fds s ->
  (forall fd, fd ∈ fds s -> fd ∈ o) ->
  (forall fd, waiting (mk_state fs m pm pw o (sent s)) = Some fd -> fd ∈ o /\ (fd ∉ fds s)) ->
  exclusive (mk_state fs m pm pw o (sent s)) -> inv (mk_state fs m pm pw o (sent s)) (tr ++ []).
Proof. intros [] -> Ho Hw He. rewrite app_nil_r. by split. Qed.

Lemma main_step_inv l s tr : inv s tr -> good l s = true ->
  match main_step l s with Next s' e => inv s' (tr ++ e) | Blocked => True | Fault => False end.
Proof.
  intros I Hg. pose proof I as [I1 I2 I3 I4 I5 [E1 E2]]. unfold waiting in I4. unfold main_step.
  destruct l as [[fd|]| |grow| | |evs shrink|]; destruct (at_main s) as [|fd'|fd'|] eqn:Em; try done.
  - apply inv_quiet; [done|done|set_solver| |split; cbn; tauto].
    intros g [= <-]. cbn in Hg. apply bool_decide_eq_true in Hg. split; [set_solver|]. intros Hf. by apply Hg, I3.
  - by rewrite app_nil_r.
  - destruct (mutex s) eqn:Emu; [done|]. apply inv_quiet; [done|done|done|done|]. split; cbn; [tauto|].
    rewrite <- E2. split; discriminate.
  - destruct (I4 fd' eq_refl) as [Ho Hf]. destruct grow; cbn [tail_append negb Z.eqb].
    + split; cbn.
      * by rewrite members_app, <- I1.
      * apply NoDup_app. split; [done|]. split; [|apply NoDup_singleton]. intros x Hx ->%list_elem_of_singleton. done.
      * intros x [Hx| ->%list_elem_of_singleton]%elem_of_app; [by apply I3|done].
      * done.
      * intros g. rewrite heard_on. cbn [heard]. rewrite app_nil_r. apply I5.
      * split; cbn; [tauto|done].
    + apply inv_quiet; [done|done| |done|split; cbn; [tauto|done]].
      intros x Hx. apply elem_of_difference. split; [by apply I3|]. intros ->%elem_of_singleton. done.
  - apply inv_quiet; [done|done|done|done|]. split; cbn; [split; done|].
    rewrite <- E2. destruct E1 as [_ ->]; [|done]. split; discriminate.
Qed.

Lemma do_work_inv l s tr : inv s tr -> good l s = true ->
  match do_work l s with Next s' e => inv s' (tr ++ e) | Blocked => True | Fault => False end.
Proof.
  intros I Hg. pose proof I as [I1 I2 I3 I4 I5 [E1 E2]]. unfold do_work.
  destruct l as [[fd|]| |grow| | |evs shrink|]; destruct (at_work s) eqn:Ew; try done.
  - destruct (mutex s) eqn:Emu; [done|]. apply inv_quiet; [done|done|done|done|]. split; cbn; [|done].
    rewrite <- E1. split; discriminate.
  - cbn [good] in Hg. apply andb_prop in Hg as [Hs ->].
    destruct (do_loop_spec evs 0 (fds s) (sent s) I2 Hs) as (h' & out' & e & -> & Hh & Hn & Hsub & Hout). split; cbn.
    + by rewrite members_app, <- I1.
    + done.
    + intros x Hx. by apply I3, Hsub.
    + intros x Hx. destruct (I4 x Hx) as [? Hf]. split; [done|]. intros Hx'. by apply Hf, Hsub.
    + intros g. change (sent_to g out' = heard g false (tr ++ e)). by rewrite Hout, I5, heard_on, <- I1.
    + split; cbn; [done|]. by rewrite E2.
  - apply inv_quiet; [done|done|done|done|]. split; cbn; [|done].
    rewrite <- E1. destruct E2 as [_ ->]; [|done]. split; discriminate.
Qed.

Lemma run_inv ls : forall s tr, inv s tr -> all_good ls s = true ->
  exists s' tr', run ls s = Some (s', tr') /\ inv s' (tr ++ tr').
Proof.
  induction ls as [|l ls IH]; intros s tr I Hg; cbn [all_good run] in *; [exists s, []; by rewrite app_nil_r|].
  apply andb_prop in Hg as [Hl Hls].
  assert (match step l s with Next s' e => inv s' (tr ++ e) | Blocked => True | Fault => False end) as Hstep.
  { destruct l; first [by apply main_step_inv|by apply do_work_inv]. }
  destruct (step l s) as [s1 e| |]; [|by apply IH|done].
  destruct (IH s1 (tr ++ e) Hstep Hls) as (s' & tr' & -> & I'). exists s', (e ++ tr'). by rewrite app_assoc.
Qed.

Lemma start_inv sfd s : start sfd true true true = inr s -> inv s [].
Proof.
  unfold start, init_socket. destruct (sfd =? -1); [done|]. cbn [negb]. destruct (sfd <? 0); [done|]. intros [= <-].
  split; cbn; [done|constructor| |done|done|split; cbn; [split; done|split; [done|by intros []]]].
  intros fd []%not_elem_of_nil.
Qed.

(** C17: The talk server: whatever the schedule of its two threads, as long as
    new connections have new numbers, the pieces that arrive are shorter than
    the buffer and the array can shrink (it need not always be able to grow),
    nothing is written outside an array; the array holds, in the order of their
    coming, the clients that joined and did not leave; to every client exactly
    the messages were sent that were said while it was there, in order, each
    once; and the mutex is held by the one thread that works on the array. *)
Theorem talk_delivers sfd ls s : start sfd true true true = inr s -> all_good ls s = true ->
  exists s' tr, run ls s = Some (s', tr) /\ fds s' = members [] tr /\
    (forall fd, sent_to fd (sent s') = heard fd false tr) /\ exclusive s'.
Proof.
  intros Hs Hg. destruct (run_inv ls s [] (start_inv _ _ Hs) Hg) as (s' & tr & E & I).
  exists s', tr. split; [done|]. by destruct I.
Qed.

(** A failed [recv] and a full buffer are written in front of it and behind it. *)
Lemma do_loop_faults fd h out e shrink : e = Failed \/ (exists bytes, e = Data bytes /\ (MSG_SIZE <= length bytes)%nat) ->
  do_loop [Some e] shrink 0 (fd :: h) out = None.
Proof.
  intros [->|(bytes & -> & Hb)]; [done|]. cbn [do_loop lookup list_lookup].
  destruct bytes as [|c bytes]; [cbn in Hb; unfold MSG_SIZE in Hb; lia|]. by rewrite (proj2 (Nat.leb_le _ _) Hb).
Qed.

(** When the array cannot shrink, the last client is in it twice, and hears everything twice. *)
Lemma del_array_twice h fd g : del_array false (fd :: h ++ [g]) 0 = h ++ [g; g].
Proof.
  unfold del_array. cbn [negb andb length take drop]. rewrite length_app. cbn [length].
  rewrite (proj2 (Nat.ltb_lt _ _)) by lia. replace (S (length h + 1) - 1)%nat with (S (length h)) by lia.
  cbn [drop app]. rewrite drop_0, drop_app_length. by rewrite <- app_assoc.
Qed.

(** ** The client *)

(** What a turn of the loop finds: something typed, something from the server
    ([Some None]: the [read] fails). *)
Definition turn : Type := bool * option (option (list Z)).

(** The lines written and the texts printed; [buf] has the size of its
    declaration and [file] is the rest of the input. *)
Fixpoint client_loop (turns : list turn) (buf file : list Z) : option (list (list Z) * list (list Z)) :=
  match turns with
  | [] => Some ([], [])
  | (typed, got) :: turns =>
      let '(buf, file) :=
        if typed then match fgets buf MSG_SIZE file with Some r => r | None => (buf, file) end else (buf, file) in
      said ← (if typed then s ← cstr buf; Some (Some s) else Some None);
      if match said with Some s => bool_decide (take 4 s = text "exit") | None => false end then Some ([], [])
      else
        let w := match said with Some s => [s] | None => [] end in
        match got with
        | None => '(ws, ps) ← client_loop turns buf file; Some (w ++ ws, ps)
        | Some None => None
        | Some (Some []) => Some (w, [])
        | Some (Some bytes) =>
            if (MSG_SIZE <=? length bytes)%nat then None
            else
              p ← cstr (bytes ++ [0]);
              '(ws, ps) ← client_loop turns buf file; Some (w ++ ws, p :: ps)
        end
  end.

(** [connect] is tried four times. *)
Fixpoint connect_loop (tries : list bool) : bool :=
  match tries with [] => false | ok :: tries => ok || connect_loop tries end.

(** [main]: the result, what was written and printed. *)
Definition client_main (argc sfd : Z) (tries : list bool) (turns : list turn) (buf file : list Z)
    : option (Z * list (list Z) * list (list Z)) :=
  if negb (argc =? 3) then Some (1, [], [])
  else if sfd =? -1 then Some (2, [], [])
  else if negb (connect_loop (take 4 tries)) then Some (3, [], [])
  else '(ws, ps) ← client_loop turns buf file; Some (0, ws, ps).

(** What one types all read: a line that is not [exit] is written as it is, and
    the message the server makes of it is printed, by every client, behind the
    address, as far as it fits. *)
Lemma line_is_shown fd l r buf rest : nonzero l -> Forall (fun c => c <> LF) l -> (length l < 1022)%nat -> take 4 (l ++ [LF]) <> text "exit" ->
  nonzero (inet_ntoa fd) ->
  exists msg, client_loop [(true, None)] buf (l ++ LF :: r) = Some ([l ++ [LF]], []) /\
    message fd (l ++ [LF]) = Some msg /\
    msg = take 1023 (red ++ inet_ntoa fd ++ plain ++ [LF] ++ text "  " ++ l ++ [LF]) /\
    client_loop [(false, Some (Some msg))] buf rest = Some ([], [msg]).
Proof.
  intros Hz Hlf Hlen Hex Hip. assert (nonzero (l ++ [LF])) as Hz' by (apply nonzero_app; split; [done|by repeat constructor]).
  set (m := take 1023 (red ++ inet_ntoa fd ++ plain ++ [LF] ++ text "  " ++ l ++ [LF])).
  assert (nonzero m) as Hm.
  { unfold m, nonzero. apply Forall_take. rewrite !Forall_app. split_and!; try done; by repeat constructor. }
  assert (exists c t, m = c :: t) as (c & t & Em) by (by eexists _, _).
  assert (length m < MSG_SIZE)%nat as Hl by (unfold m; rewrite length_take; unfold MSG_SIZE; lia).
  exists m. split_and!; [| |done|].
  - cbn [client_loop]. unfold fgets. destruct (l ++ LF :: r) eqn:E; [by destruct l|]. rewrite <- E.
    rewrite take_line_line by (done || (unfold MSG_SIZE; lia)).
    unfold fill. rewrite <- (app_assoc (l ++ [LF])). cbn [app]. rewrite (cstr_text _ _ Hz'). cbn [mbind option_bind].
    by rewrite bool_decide_eq_false_2.
  - unfold message. rewrite (cstr_text _ _ Hz'). cbn [mbind option_bind]. unfold snprintf.
    change (MSG_SIZE - 1)%nat with 1023%nat. by apply cstr_text.
  - cbn [client_loop]. rewrite Em in *. rewrite (proj2 (Nat.leb_gt _ _) Hl), (cstr_text _ [] Hm). done.
Qed.

End Server.

(** *** A conversation *)

Definition an_ip (fd : Z) : list Z := text "10.0.0." ++ decimal fd.
Definition a_talk : list label :=
  [Accept (Some 4); LockMain; LockWork; Append true; UnlockMain; Accept (Some 5); LockWork; LockMain;
   Poll [Some (Data (text "hi"))] true; UnlockWork; LockMain; Append true; UnlockMain; Accept (Some 6); LockMain; Append false;
   UnlockMain; LockWork; Poll [Some (Data (text "a")); Some (Data (text "b"))] true; UnlockWork; LockWork;
   Poll [Some (Data []); Some (Data (text "c"))] true; UnlockWork].
Definition a_room : list room :=
  [Join 4; Say 4 (text "hi"); Join 5; Say 4 (text "a"); Say 5 (text "b"); Leave 4].
Definition first_state : state := mk_state [] None MAccept WLock {[3]} [].

Lemma talk_delivers_witness :
  (exists s' tr, run an_ip a_talk first_state = Some (s', tr) /\ fds s' = members [] tr /\
     (forall fd, sent_to fd (sent s') = heard an_ip fd false tr) /\ exclusive s') /\
  (snd <$> run an_ip a_talk first_state) = Some a_room /\ length (heard an_ip 5 false a_room) = 2%nat.
Proof.
  split; [|split; vm_compute; reflexivity].
  apply (talk_delivers an_ip 3 a_talk first_state); [reflexivity|vm_compute; reflexivity].
Defined.

(** The socket of a client that left stays open, and the piece of the client
    behind it waits for the next pass. *)
Lemma left_stays_open :
  ((fun r => bool_decide (4 ∈ opened r.1) && bool_decide (fds r.1 = [5])) <$> run an_ip a_talk first_state) = Some true.
Proof. vm_compute. reflexivity. Qed.

(** At the end of its input the client sends its last line again and again. *)
Lemma client_repeats : client_loop [(true, None); (true, None); (true, None)] (zeros 1024) (text "hello" ++ [LF]) =
  Some ([text "hello" ++ [LF]; text "hello" ++ [LF]; text "hello" ++ [LF]], []).
Proof. vm_compute. reflexivity. Qed.
